(* ===== verification/_CoqProject ===== *)
-Q . S2P
Prelude.v
Tap.v
Net.v
Bpf.v
Trace.v
Common.v
Settings.v
Process.v
Buffers.v
Protocol.v
Socket.v
SocketProbes.v
NodeTls.v
OpenSsl.v
GoTls.v
JavaSsl.v
SockPidFd.v
Redirector.v
SocketInv.v
SocketSpec.v
SocketTotals.v
SocketDetect.v
System.v
Ledger.v
SocketCalls.v
RedirectorSpec.v
SockPidFdSpec.v
TlsSpec.v
RuntimeTlsSpec.v
LibQtap.v
JavaSpec.v
Certs.v
Redis.v
RedisSpec.v
AgentEvents.v
Queue.v
QueueSpec.v
Reader.v
Wire.v
TlsHello.v
TlsHelloSpec.v
Connection.v
Agent.v
AgentConfig.v
L7Detect.v
Engine.v
EngineWire.v
EngineSpec.v
EngineClean.v
EngineFlow.v
ProcFilter.v
ProcFilterSpec.v
ProcManager.v
ProcSpec.v
ProcInv.v
ProcStep.v
ProcSystem.v
ProcExec.v
