(* ===== verification/Prelude.v ===== *)
(** * qtap: from the kernel's sockets to the agent's plugins

    qtap observes the network traffic of the processes of a Linux host from BPF
    programs.  The programs under [bpf/tap] watch the socket system calls, keep one
    record per connection, detect its protocol, and send events (open, protocol,
    data, TLS hello, close) to a user-space agent through a ring buffer; other
    programs learn which kernel socket is behind a descriptor, report process
    starts and exits, and redirect outgoing connects to a transparent proxy.  For
    encrypted connections, probes on OpenSSL, on Go's and node's TLS objects and on a
    native library loaded into the JVM hand the plaintext to connection tracking, and
    certificate probes swap the path of a certificate file.  The agent decodes the
    events, keeps a connection with a queue and a goroutine for each cookie, and hands
    its data to a processor for its protocol; it also writes the settings of the probes,
    keeps a registry of processes whose filters and strategies the probes look up, and
    joins the plaintext of Java's [SSLEngine] with connections.  This library models
    those programs, the native library, that path through the agent up to the Redis
    processor, the correlator, the settings and the registry of processes, and proves
    what they promise to each other, to the proxy and to the plugins.

    ** Shape of the model

    A C integer is a [Z], wrapped at its width where the source assigns to an
    object of that width; a byte buffer is a list of bytes.  The maps and ring
    buffers of the loaded object are one record, [world] (Bpf.v).  A program is a
    function [world -> result * world] in a small state monad (this file); it keeps
    the name of the C function, and each early return is a branch that ends it.  An
    update through a pointer into a map value is a store at the end of the
    function, which is what the function's own code observes.

    What a program observes outside the object, the BPF helpers, is the class
    [Env] (Bpf.v): the current process, the clock, user and kernel memory, the
    fields of kernel sockets, whether the ring buffer has room, which entries an
    LRU map evicts.  Every program takes it as a parameter and no theorem assumes
    more of it than its statement says; [flat_env] is a concrete instance on which
    the witnesses evaluate.  Contents of freshly reserved ring-buffer records are
    arbitrary.

    ** Files

    - Prelude: integers at their width, bytes, record update, the state monad
      with its proof rules ([runs], [respects] and the tactic of that name), hash
      and LRU maps.
    - Tap: the data types of [tap.bpf.h], [socket.bpf.h], [net.bpf.h],
      [process.bpf.h], [redirector.bpf.c].
    - Net: [net.bpf.h], [sock_utils.bpf.h]: local, private and proxy addresses.
    - Bpf: the state, the environment, maps and helpers.
    - Trace: [trace.bpf.h].  Common: [common.bpf.h].  Settings: [settings.bpf.c].
      Process: [process.bpf.c].  Buffers: [buffers.bpf.h].  Protocol:
      [protocol.bpf.c].
    - Socket: the routines of [socket.bpf.c] up to [process_data]; SocketProbes:
      its tracepoint programs; SockPidFd: [sock_pid_fd.bpf.c]; Redirector:
      [redirector.bpf.c].
    - OpenSsl: [openssl.bpf.c]; NodeTls: [nodetls.bpf.c]; GoTls: [gotls.bpf.c];
      JavaSsl: [javassl.bpf.c]; LibQtap: [jvm/c/libqtap.c], whose functions are the
      lists of JNI and bridge calls they make; Certs: [bpf/tap/certs.bpf.c] and
      [bpf/certs/certs.bpf.c], two objects of their own, with their own state and
      environment ([CertEnv]) and their theorem.
    - Redis: [pkg/stream/protocols/redis] of the agent: the RESP parser, the command
      queue and the stream, whose state is a record and whose calls on plugin
      connections are a list; Go's errors and panics are values of [outcome].  Its
      theorems are in RedisSpec.
    - Queue: [pkg/synq/queue.go], the nodes in a heap; QueueSpec: the abstract queue it
      implements and the waiting of its users.  AgentEvents: the events of
      [pkg/connection].  Reader: [pkg/ebpf/socket/reader.go]; Wire: the bytes of the
      kernel's structures and the round trip.  TlsHello: [pkg/tlsutils], the parsers of the
      two hellos, as the instance of the interface [TlsUtils] that the reader and its
      clients are written against; TlsHelloSpec: their wire format and theorems.  Connection: the manager and the
      connections of [pkg/connection], against the interface [StreamProcessor].  Agent:
      all of these composed, with the Redis stream as an instance of the interface.
    - AgentConfig: [pkg/config/tap.go] and [pkg/ebpf/socket/settings.go].  L7Detect:
      [pkg/l7detect].  Engine: [pkg/ebpf/tls/javassl/engine.go], [reader.go] and
      [event.go]: the state of [SslEngineManager] is a record of its maps, the events it
      writes are a list, a panic is [None].  EngineWire: the bytes of its ring buffer.
      EngineSpec: the machine of one session and one descriptor that it implements.
      EngineClean: the end of a process.  EngineFlow: the probes of JavaSsl and the
      correlator composed.
    - ProcFilter: [pkg/config/filters.go], [pkg/process/filter.go], [filter_groups.go] and
      [qpoint.go]; ProcFilterSpec: what they mean.  ProcManager: [pkg/process/manager.go],
      [process.go], [reader.go] and [ebpf.go]: objects of processes are shared, so they
      live in a heap, the registry and the cache hold their indices, and the kernel's maps
      are a part of the state.  ProcSpec: discovery as a function of one object; ProcInv:
      the invariant of the registry; ProcStep: the manager as a transition system, and the
      bytes of the process events; ProcSystem, ProcExec: the theorems.
    - SocketInv, SocketSpec, SocketTotals, SocketDetect, SocketCalls,
      RedirectorSpec, SockPidFdSpec, TlsSpec, RuntimeTlsSpec, JavaSpec: theorems
      about those.
    - System: the object as a transition system whose steps are the programs, TLS
      probes included, in any order and interleaving, together with what user space
      writes to the configuration maps.  Ledger: the abstract machine it refines.

    ** What the theorems show

    Life of a connection (SocketInv, System).  In every reachable state the events
    of a connection follow an automaton: protocol events, one open event, then data
    and protocol events with its cookie, one close event, nothing more.  Every
    record in the table is consistent with the log.  The proof is an invariant that
    every program keeps; it assumes that the clock is strictly increasing and below
    2^64 over the calls made so far ([clock_ok], satisfied by [Z.of_nat]).  Ledger
    states the same promise apart from the probes, as a machine with live and ended
    connections whose moves are the events, and shows that the object refines it;
    also that every event any program adds is well formed.

    What is reported (SocketSpec, SocketTotals, SocketDetect, SocketCalls). The open
    event is emitted exactly when the settings and filters allow it, and never for a DNS
    client; the bytes of a call arrive unmodified, in at most four chunks of 30720
    bytes; close events carry the byte counts of all calls; silenced connections, and
    those not open yet, produce nothing; entry and exit programs pair up; TLS upgrades
    are announced, while a protocol detected before the open event is not.

    Parsing (Protocol, Buffers, Net).  The detectors agree with declarative descriptions
    of the documented wire formats, up to the two lengths at the bounds of a Kafka
    request; hello capture and vectored reads are exact up to the defects the theorems
    spell out; the address tests are the documented ranges.  Hellos (TlsHelloSpec): no
    bytes make the agent's parsers panic or loop; the parameters a server chose reach
    the agent unless the buffer was too short for the capture or the record lost its end
    in it; what a client offers is read from its extensions.

    Plaintext (TlsSpec, RuntimeTlsSpec, JavaSpec, LibQtap).  What a process reads or
    writes through OpenSSL, crypto/tls or a Java [SSLSocket] is streamed under the
    connection that carried the ciphertext; the descriptor of a handle is the first
    of node's, the system call's and the cached one.  The two halves of the
    [SSLEngine] correlation report the ciphertext under the session and under the
    socket.  The native library gives back what it takes from the JVM.
    Certificates (Certs): opening a watched file for reading opens its replacement.

    Redirection (RedirectorSpec) and sockets (SockPidFdSpec).  The proxy recovers
    the destination, cookie and TLS decision of its client; its own address is
    never redirected; descriptors and source addresses are linked and unlinked.
    Processes (Process): exec and exit reports.

    The registry of processes (ProcSystem, ProcExec, ProcFilterSpec).  Whatever happens
    to processes and filters, the probes find for each process the agent saw start what
    the agent knows of it, and nothing for one that is over; an exec is registered with
    its arguments, executable, flags and the strategy its environment asks
    for.  Processes that were there before the agent are told to the probes once and for
    all, a filter that is taken away stays on the processes it matched, and a decision
    on a process that is over takes the data of the next one with its pid.  The first
    filter of a configuration that matches a process decides, and the groups where none
    does; the variable [QPOINT_STRATEGY] is read as it is written.

    Redis (RedisSpec).  The parser inverts the RESP grammar, except that entries of a map
    whose keys have the same text are merged, and asks for more data on every proper
    prefix; commands and responses are paired in order however the bytes
    are cut; processing ends; a malformed value silences its side for good.

    The agent (QueueSpec, Wire, Agent).  The queue is a stable priority queue and wakes
    its consumer, while draining can miss its wake-up; records decode to the events the
    kernel meant; the manager and its connections stay consistent, also while one
    waits in [Close]; the data events of a
    Redis connection reach its stream unchanged and in order, however the goroutines
    are scheduled.  The configuration is what the probes read, and what they stream but
    for the data of DNS clients (AgentConfig).

    Java's engines (EngineWire, EngineSpec, EngineFlow, EngineClean).  The correlator
    treats each pair of a session and a descriptor as if it were alone, as long as
    nothing else shows the same ciphertext or looks like its identifiers, the shared
    maps have room and its process goes on; under these conditions, and when its events
    are read within ten seconds, the first plaintext of a session reaches the right
    connection with its protocol when it is wrapped and then written, and without a
    protocol when it is read and then unwrapped; a process that stops is forgotten, and
    nothing of the others is.

    ** Bounds

    Loops are bounded in the source and have the same bounds here: four chunks per
    buffer ([CHUNK_LIMIT]), 64 iovec entries ([LOOP_LIMIT]), four when reading a header
    or sending an engine's bytes ([BUF_CHUNK_LIMIT]), twenty exec arguments
    ([MAX_ARGV_COUNT]).  All programs are total functions without fuel.  The RESP parser
    recurses on nested values with fuel the length of its buffer, and the loops over a
    buffer have one round more than it has bytes; each value takes a byte, so neither
    runs out ([process_ends]).  The walk along the event queue has as much fuel as there
    are nodes, and a list without repetition is no longer ([spells_length]).  The loops
    over TLS extensions and protocol names have one round more than there are bytes, and
    each takes at least one ([hello_parsers_total]).  The cache of running execs keeps
    at least the 1024 it was made for ([LruLaws]), and [process_meta_map] has 5000
    entries.

    ** Not modelled

    A program runs atomically; interleaving is between programs, except where a theorem
    splits one ([process_syscall_addr]).  Per-CPU scratch buffers are one buffer
    each.  A map value that was deleted is still read through an earlier pointer in the
    source; the model reads the value it had.  The general purpose registers at a Go
    call are given in the order of Go's calling convention ([go_regs]); which machine
    registers these are is architecture-specific.  The bytecode instrumentation of the
    Java agent and the rest of the Go agent are not modelled: what they write to maps
    are steps of System, what they know of processes, domains and configuration is a
    parameter of Connection and Agent, and the other protocols' processors are any
    [StreamProcessor].  A handler of an event and an operation under a lock run
    atomically, and so do a record and a round of the ticker in the correlator; closing
    a connection takes two steps around the wait for its queue.  Floating-point numbers
    of RESP (the class [Float64]), the library that takes apart the record of a client
    hello ([Gopacket]), the hash of the correlator ([Xxhash]) and the preface of HTTP/2
    ([Http2]) are parameters.  So are, for the registry of processes, lower case,
    user-written expressions and the agent's pid ([Host]), the cache ([Lru], with the
    documented laws [LruLaws]) and what [/proc] answers ([procfs]); users, containers,
    pods, tags and metrics of a process are left out, and calls of its observers and
    sends to waiters are recorded when they are dispatched.  In a run of the registry,
    TLS decisions are made on registered processes ([stale_decision_forgets] is about
    the others), and once the executable of a process could be read, its other files in
    [/proc] can be too ([steady]).  The methods that render TLS versions and cipher
    suites for logs and rules are not modelled. *)

From stdpp Require Import base numbers list gmap strings.
From Stdlib Require Import ZArith Lia.
From Stdlib Require Export ZifyBool.

#[global] Open Scope Z_scope.

(** ** Fixed-width C integers

    Every C integer is a [Z]; a conversion to a width is written where the
    source assigns to an object of that width. *)

Definition u8 (x : Z) : Z := x `mod` 2 ^ 8.
Definition u16 (x : Z) : Z := x `mod` 2 ^ 16.
Definition u32 (x : Z) : Z := x `mod` 2 ^ 32.
Definition u64 (x : Z) : Z := x `mod` 2 ^ 64.
Definition s32 (x : Z) : Z := (x + 2 ^ 31) `mod` 2 ^ 32 - 2 ^ 31.
Definition s64 (x : Z) : Z := (x + 2 ^ 63) `mod` 2 ^ 64 - 2 ^ 63.

Lemma u32_small x : 0 <= x < 2 ^ 32 -> u32 x = x.
Proof. intros. by apply Z.mod_small. Qed.

Lemma u64_small x : 0 <= x < 2 ^ 64 -> u64 x = x.
Proof. intros. by apply Z.mod_small. Qed.

Lemma s32_small x : - 2 ^ 31 <= x < 2 ^ 31 -> s32 x = x.
Proof. intros. unfold s32. rewrite Z.mod_small; lia. Qed.

Lemma s64_small x : - 2 ^ 63 <= x < 2 ^ 63 -> s64 x = x.
Proof. intros. unfold s64. rewrite Z.mod_small; lia. Qed.

Lemma s64_range x : - 2 ^ 63 <= s64 x < 2 ^ 63.
Proof. unfold s64. pose proof (Z.mod_pos_bound (x + 2 ^ 63) (2 ^ 64)). lia. Qed.

(** Byte swaps, [__builtin_bswap16] and [__builtin_bswap32]; the objects are
    built for bpfel, so [bpf_htons], [bpf_ntohs] and [bpf_htonl] are these. *)
Definition bswap16 (x : Z) : Z :=
  Z.lor (Z.land (Z.shiftr x 8) 255) (Z.shiftl (Z.land x 255) 8).

Definition bswap32 (x : Z) : Z :=
  Z.lor (Z.lor (Z.land (Z.shiftr x 24) 255) (Z.shiftl (Z.land (Z.shiftr x 16) 255) 8))
        (Z.lor (Z.shiftl (Z.land (Z.shiftr x 8) 255) 16) (Z.shiftl (Z.land x 255) 24)).

(** ** Bytes and byte strings *)

Definition is_byte (b : Z) : Prop := 0 <= b < 256.

(** An object stored little-endian in memory, read back as an integer. *)
Fixpoint le_load (bs : list Z) : Z :=
  match bs with
  | [] => 0
  | b :: t => b + 256 * le_load t
  end.

(** The [n] bytes of an integer, little-endian. *)
Fixpoint le_store (n : nat) (x : Z) : list Z :=
  match n with
  | O => []
  | S m => x `mod` 256 :: le_store m (x / 256)
  end.

(** Byte [i] of an object; the source never reads past one. *)
Definition byte_at (bs : list Z) (i : nat) : Z := nth i bs 0.

(** What a fixed-size buffer holds after its first bytes are overwritten. *)
Definition write_prefix (bs dst : list Z) : list Z := bs ++ drop (length bs) dst.

Lemma le_load_bound bs :
  Forall is_byte bs -> 0 <= le_load bs < 256 ^ Z.of_nat (length bs).
Proof.
  induction 1 as [|b t Hb _ IH]; [simpl; lia|].
  cbn [le_load length]. rewrite Nat2Z.inj_succ, Z.pow_succ_r by lia.
  unfold is_byte in Hb. lia.
Qed.

Lemma le_load_store n x : le_load (le_store n x) = x `mod` 256 ^ Z.of_nat n.
Proof.
  revert x; induction n as [|n IH]; intros x; [by rewrite Z.mod_1_r|].
  cbn [le_store le_load]. rewrite IH, Nat2Z.inj_succ, Z.pow_succ_r by lia.
  rewrite Z.rem_mul_r by lia. lia.
Qed.

Lemma le_store_load bs : Forall is_byte bs -> le_store (length bs) (le_load bs) = bs.
Proof.
  induction 1 as [|b t Hb _ IH]; [done|]. unfold is_byte in Hb.
  cbn [length le_store le_load].
  rewrite (Z.mul_comm 256), Z.mod_add, Z.mod_small, Z.div_add, Z.div_small by lia.
  by rewrite Z.add_0_l, IH.
Qed.

Lemma le_load_inj bs1 bs2 :
  Forall is_byte bs1 -> Forall is_byte bs2 -> length bs1 = length bs2 ->
  le_load bs1 = le_load bs2 -> bs1 = bs2.
Proof.
  intros H1 H2 Hl He. rewrite <- (le_store_load bs1), <- (le_store_load bs2) by done.
  by rewrite Hl, He.
Qed.

Lemma length_le_store n x : length (le_store n x) = n.
Proof. revert x; induction n; intros; simpl; congruence. Qed.

Lemma le_store_bytes n x : Forall is_byte (le_store n x).
Proof.
  revert x; induction n as [|n IH]; intros x; simpl; constructor; [|apply IH].
  apply Z.mod_pos_bound; lia.
Qed.

Lemma lor_shiftl_add a b k : 0 <= k -> 0 <= a < 2 ^ k -> Z.lor a (Z.shiftl b k) = a + b * 2 ^ k.
Proof.
  intros Hk Ha. rewrite <- Z.shiftl_mul_pow2 by done. symmetry.
  enough (Z.land a (Z.shiftl b k) = 0) as H by (by rewrite <- Z.lxor_lor, Z.add_nocarry_lxor).
  apply Z.bits_inj'. intros n Hn. rewrite Z.land_spec, Z.bits_0.
  destruct (Z.lt_ge_cases n k); [by rewrite Z.shiftl_spec_low, andb_false_r by lia|].
  replace (Z.testbit a n) with false; [done|]. symmetry.
  rewrite <- (Z.mod_small a (2 ^ k)) by done. by apply Z.mod_pow2_bits_high.
Qed.

Lemma bswap16_spec x : 0 <= x < 2 ^ 16 -> bswap16 x = x / 256 + 256 * (x `mod` 256).
Proof.
  intros R. unfold bswap16. change 255 with (Z.ones 8). rewrite !Z.land_ones by lia.
  rewrite lor_shiftl_add, Z.shiftr_div_pow2 by (try apply Z.mod_pos_bound; lia).
  rewrite (Z.mod_small (x / 2 ^ 8)) by (change (2 ^ 8) with 256; split; [apply Z.div_pos|apply Z.div_lt_upper_bound]; lia).
  change (2 ^ 8) with 256. lia.
Qed.

Lemma land_bound a b : 0 <= b -> 0 <= Z.land a b <= b.
Proof.
  intros Hb. assert (Hl : 0 <= Z.land a b) by (apply Z.land_nonneg; auto). split; [done|].
  assert (Z.ldiff (Z.land a b) b = 0) as Hd%Z.sub_nocarry_ldiff.
  { apply Z.bits_inj'. intros n _. rewrite Z.ldiff_spec, Z.land_spec, Z.bits_0. by destruct (Z.testbit a n), (Z.testbit b n). }
  assert (0 <= Z.ldiff b (Z.land a b)) by (apply Z.ldiff_nonneg; auto). lia.
Qed.

Lemma length_write_prefix bs dst :
  (length bs <= length dst)%nat -> length (write_prefix bs dst) = length dst.
Proof. intros. unfold write_prefix. rewrite length_app, length_drop. lia. Qed.

Lemma take_write_prefix bs dst : take (length bs) (write_prefix bs dst) = bs.
Proof. unfold write_prefix. by rewrite take_app_length. Qed.

Lemma byte_bits_high p i : is_byte p -> 8 <= i -> Z.testbit p i = false.
Proof.
  unfold is_byte; intros Hp Hi. destruct (Z.eq_dec p 0) as [->|]; [apply Z.bits_0|].
  apply Z.bits_above_log2; [lia|]. apply Z.lt_le_trans with 8; [|done].
  apply Z.log2_lt_pow2; simpl; lia.
Qed.

Lemma byte_cons_bits p q i :
  is_byte p -> 0 <= i ->
  Z.testbit (p + 256 * q) i = if Z.ltb i 8 then Z.testbit p i else Z.testbit q (i - 8).
Proof.
  intros Hp Hi. rewrite (Z.mul_comm 256). change 256 with (2 ^ 8).
  destruct (Z.ltb_spec i 8).
  - rewrite <- (Z.mod_pow2_bits_low _ 8) by lia.
    rewrite Z.mod_add, Z.mod_pow2_bits_low; lia || done.
  - replace i with (i - 8 + 8) at 1 by lia. rewrite <- Z.div_pow2_bits by lia.
    unfold is_byte in Hp. rewrite Z.div_add, Z.div_small; [done|simpl; lia|done].
Qed.

Lemma land_byte a m : is_byte a -> is_byte (Z.land a m).
Proof.
  intros Ha. replace (Z.land a m) with (Z.land a m `mod` 2 ^ 8).
  - apply Z.mod_pos_bound. done.
  - apply Z.bits_inj'; intros i Hi. destruct (Z.lt_ge_cases i 8).
    + by rewrite Z.mod_pow2_bits_low by lia.
    + rewrite Z.mod_pow2_bits_high by lia. by rewrite Z.land_spec, byte_bits_high.
Qed.

(** Masks act bytewise: the lemma behind every address-range test. *)
Lemma land_byte_split a x m y :
  is_byte a -> is_byte m ->
  Z.land (a + 256 * x) (m + 256 * y) = Z.land a m + 256 * Z.land x y.
Proof.
  intros Ha Hm. apply Z.bits_inj'; intros i Hi.
  rewrite Z.land_spec, !byte_cons_bits by auto using land_byte.
  destruct (Z.ltb i 8); by rewrite Z.land_spec.
Qed.

(** A decidable fact about one byte holds when its 256 instances evaluate. *)
Lemma byte_table (P : Z -> bool) :
  forallb P (seqZ 0 256) = true -> forall b, is_byte b -> P b = true.
Proof.
  intros H b Hb. rewrite forallb_forall in H. apply H.
  apply list_elem_of_In, elem_of_seqZ. unfold is_byte in Hb. lia.
Qed.

(** ** Record update

    [r <| f := v |>] is [r] with field [f] replaced.  A record type declares
    its eta expansion once ([Settable]); the setter of a field is found from it. *)

Class Settable (R : Type) := rebuild : R -> R.

Class Setter {R T : Type} (proj : R -> T) := over : (T -> T) -> R -> R.

Ltac find_setter :=
  match goal with
  | |- @Setter ?R ?T ?proj =>
      let eta := eval hnf in (@rebuild R _) in
      match eval pattern proj in eta with
      | ?k _ => exact (fun f : T -> T => k (fun r : R => f (proj r)))
      end
  end.

#[export] Hint Extern 1 (Setter _) => find_setter : typeclass_instances.

Declare Scope bpf_scope.
Delimit Scope bpf_scope with bpf.
#[global] Open Scope bpf_scope.

Notation "r <| f := v |>" := (over (proj := f) (fun _ => v) r)
  (at level 1, left associativity, f constr at level 0, v at level 200,
   format "r  <| f  :=  v |>") : bpf_scope.
Notation "r <| f ::= g |>" := (over (proj := f) g r)
  (at level 1, left associativity, f constr at level 0, g at level 200,
   format "r  <| f  ::=  g |>") : bpf_scope.

(** ** Programs as state transformers

    A BPF program is a function on the state of the loaded object.  An early
    [return] is an [if] whose branch ends the program. *)

Definition M (S A : Type) : Type := S -> A * S.

Definition ret {S A} (a : A) : M S A := fun s => (a, s).
Definition bind {S A B} (m : M S A) (k : A -> M S B) : M S B := fun s => k (m s).1 (m s).2.

Notation "'let*' x := m 'in' k" := (bind m (fun x => k))
  (at level 10, x name, m at level 100, k at level 200,
   format "'[v' 'let*'  x  :=  m  'in' '/' k ']'") : bpf_scope.
Notation "m ;; k" := (bind m (fun _ => k))
  (at level 100, k at level 200, right associativity, format "'[v' m  ;; '/' k ']'") : bpf_scope.

Definition gets {S A} (f : S -> A) : M S A := fun s => (f s, s).
Definition modify {S} (f : S -> S) : M S unit := fun s => (tt, f s).

(** [runs m s Q]: started in [s], program [m] ends with a result and a state
    related by [Q].  Every program of the model is total, so this is total
    correctness. *)
Definition runs {S A} (m : M S A) (s : S) (Q : A -> S -> Prop) : Prop := Q (m s).1 (m s).2.

Section runs.
Context {S : Type}.

Lemma runs_ret {A} (a : A) (s : S) (Q : A -> S -> Prop) : Q a s -> runs (ret a) s Q.
Proof. done. Qed.

Lemma runs_bind {A B} (m : M S A) (k : A -> M S B) s (Q : B -> S -> Prop) :
  runs m s (fun a s' => runs (k a) s' Q) -> runs (bind m k) s Q.
Proof. done. Qed.

Lemma runs_mono {A} (m : M S A) s (P Q : A -> S -> Prop) :
  runs m s P -> (forall a s', P a s' -> Q a s') -> runs m s Q.
Proof. unfold runs. auto. Qed.

Lemma runs_gets {A} (f : S -> A) s (Q : A -> S -> Prop) : Q (f s) s -> runs (gets f) s Q.
Proof. done. Qed.

Lemma runs_modify (f : S -> S) s (Q : unit -> S -> Prop) : Q tt (f s) -> runs (modify f) s Q.
Proof. done. Qed.

Lemma runs_conj {A} (m : M S A) s (P Q : A -> S -> Prop) :
  runs m s P -> runs m s Q -> runs m s (fun a s' => P a s' /\ Q a s').
Proof. done. Qed.

(** A relation between the state before and after, closed under sequencing. *)
Definition respects {A} (R : S -> S -> Prop) (m : M S A) : Prop := forall s, R s (m s).2.

Context (R : S -> S -> Prop) `{!PreOrder R}.

Lemma respects_ret {A} (a : A) : respects R (ret a).
Proof. intros s. simpl. reflexivity. Qed.

Lemma respects_bind {A B} (m : M S A) (k : A -> M S B) :
  respects R m -> (forall a, respects R (k a)) -> respects R (bind m k).
Proof.
  intros Hm Hk s. unfold bind. etrans; [apply Hm|apply Hk].
Qed.

Lemma respects_gets {A} (f : S -> A) : respects R (gets f).
Proof. intros s. simpl. reflexivity. Qed.

Lemma respects_modify (f : S -> S) : (forall s, R s (f s)) -> respects R (modify f).
Proof. done. Qed.

End runs.

Create HintDb respects.

(** Decompose a program along its binds, conditionals and matches. *)
Ltac respects_step :=
  match goal with
  | |- respects _ (ret _) => apply respects_ret; apply _
  | |- respects _ (gets _) => apply respects_gets; apply _
  | |- respects _ (bind _ _) => apply respects_bind; [apply _| |intros ?]
  | |- respects _ (modify _) => apply respects_modify
  | |- respects _ (if ?b then _ else _) => destruct b
  | |- respects _ (match ?x with _ => _ end) => destruct x
  | |- respects _ (let _ := _ in _) => cbv zeta
  | |- respects _ _ => solve [eauto with respects]
  end.
Ltac respects := repeat respects_step.

(** ** BPF maps

    [BPF_MAP_TYPE_HASH]: an update of an absent key fails with -E2BIG once
    [max_entries] keys are present.  [BPF_MAP_TYPE_LRU_HASH]: an update always
    succeeds; when the map is full the kernel drops entries, and [keep] says
    which ones survive. *)

Section maps.
Context {K V : Type} `{Countable K}.

Definition hash_update (max : Z) (k : K) (v : V) (m : gmap K V) : Z * gmap K V :=
  match m !! k with
  | Some _ => (0, <[k:=v]> m)
  | None => if Z.of_nat (size m) <? max then (0, <[k:=v]> m) else (-7, m)
  end.

Definition lru_update (keep : K -> bool) (max : Z) (k : K) (v : V) (m : gmap K V) : gmap K V :=
  if bool_decide (is_Some (m !! k)) || (Z.of_nat (size m) <? max) then <[k:=v]> m
  else <[k:=v]> (filter (fun kv => keep kv.1 = true) m).

(** There is room for key [k]. *)
Definition has_room (max : Z) (k : K) (m : gmap K V) : Prop :=
  is_Some (m !! k) \/ Z.of_nat (size m) < max.

Lemma hash_update_room max k v m :
  has_room max k m -> hash_update max k v m = (0, <[k:=v]> m).
Proof.
  unfold hash_update. intros [[x ->]|Hlt]; [done|].
  destruct (m !! k); [done|]. by rewrite (proj2 (Z.ltb_lt _ _) Hlt).
Qed.

Lemma hash_update_full max k v m :
  ~ has_room max k m -> hash_update max k v m = (-7, m).
Proof.
  unfold hash_update, has_room. intros Hn. destruct (m !! k) eqn:E; [naive_solver|].
  destruct (Z.ltb_spec (Z.of_nat (size m)) max); [naive_solver|done].
Qed.

(** Either way, every binding after an update is the new one or an old one. *)
Lemma hash_update_lookup max k v m j x :
  (hash_update max k v m).2 !! j = Some x -> (j = k /\ x = v) \/ m !! j = Some x.
Proof.
  unfold hash_update. intros Hj. destruct (m !! k); [|destruct (_ <? _)];
    simpl in Hj; try apply lookup_insert_Some in Hj; naive_solver.
Qed.

Lemma lru_update_lookup keep max k v m : lru_update keep max k v m !! k = Some v.
Proof. unfold lru_update. destruct (_ || _); apply lookup_insert_eq. Qed.

End maps.
