(* ===== verification/Tap.v ===== *)
(** * Data shared between the BPF programs and user space

    The structures, enumerations and limits of [bpf/tap/tap.bpf.h],
    [bpf/tap/net.bpf.h], [bpf/tap/socket.bpf.h], [bpf/tap/process.bpf.h],
    [bpf/tap/sock_utils.bpf.h], [bpf/tap/socket.bpf.c] and
    [bpf/tap/redirector.bpf.c].  A C struct is a record with the same fields;
    an enumeration whose values only the BPF side produces is an inductive
    type; one whose values come from user space as an integer is a set of [Z]
    constants. *)

From stdpp Require Import base numbers list gmap strings countable.
From S2P Require Import Prelude.

(** ** Limits and constants *)

Definition MAX_MSG_SIZE : Z := 30720.
Definition AF_INET : Z := 2.
Definition AF_INET6 : Z := 10.
Definition IPPROTO_TCP : Z := 6.
Definition IPPROTO_UDP : Z := 17.
Definition IPPROTO_RAW : Z := 255.
Definition IPPROTO_ICMP : Z := 1.
Definition SOCK_STREAM : Z := 1.
Definition SOCK_DGRAM : Z := 2.

(** ** Enumerations *)

(** [enum SOCKET_EVENT] *)
Definition S_OPEN : Z := 1.
Definition S_CLOSE : Z := 2.
Definition S_DATA : Z := 3.
Definition S_PROTO : Z := 4.
Definition S_HOSTNAME : Z := 5.
Definition S_TLS_CLIENT_HELLO : Z := 6.
Definition S_TLS_SERVER_HELLO : Z := 7.

(** [enum DIRECTION]; the capture direction is an integer set by user space. *)
Definition D_INGRESS : Z := 0.
Definition D_EGRESS : Z := 1.
Definition D_EGRESS_INTERNAL : Z := 2.
Definition D_EGRESS_EXTERNAL : Z := 3.
Definition D_ALL : Z := 4.

(** [enum QPOINT_STRATEGY]; stored as an integer by user space. *)
Definition QP_OBSERVE : Z := 0.
Definition QP_IGNORE : Z := 1.
Definition QP_AUDIT : Z := 2.
Definition QP_FORWARD : Z := 3.
Definition QP_PROXY : Z := 4.

Inductive CONNECTION_TYPE := C_CLIENT | C_SERVER.
Inductive SOCKET_TYPE := S_UNKNOWN | S_TCP | S_UDP | S_RAW | S_ICMP.
Inductive PROTOCOL :=
  P_UNKNOWN | P_HTTP1 | P_HTTP2 | P_DNS | P_MONGODB | P_REDIS | P_MYSQL | P_KAFKA.
Inductive SYSCALL_OP :=
  SYS_ACCEPT | SYS_ACCEPT4 | SYS_CONNECT | SYS_CLOSE | SYS_READ | SYS_READV
| SYS_RECVFROM | SYS_WRITE | SYS_WRITEV | SYS_SENDTO | SYS_SENDMSG | SYS_RECVMSG.
Inductive QTAP_COMPONENT :=
  QTAP_CA | QTAP_DEBUG | QTAP_GOTLS | QTAP_JAVASSL | QTAP_NODETLS | QTAP_OPENSSL
| QTAP_PROCESS | QTAP_PROTOCOL | QTAP_REDIRECTOR | QTAP_SOCKET.

#[export] Instance CONNECTION_TYPE_eq_dec : EqDecision CONNECTION_TYPE.
Proof. solve_decision. Defined.
#[export] Instance SOCKET_TYPE_eq_dec : EqDecision SOCKET_TYPE.
Proof. solve_decision. Defined.
#[export] Instance PROTOCOL_eq_dec : EqDecision PROTOCOL.
Proof. solve_decision. Defined.
#[export] Instance SYSCALL_OP_eq_dec : EqDecision SYSCALL_OP.
Proof. solve_decision. Defined.

(** The value of an enumerator, where it is used as a number. *)
Definition syscall_op_num (op : SYSCALL_OP) : nat :=
  match op with
  | SYS_ACCEPT => 0 | SYS_ACCEPT4 => 1 | SYS_CONNECT => 2 | SYS_CLOSE => 3
  | SYS_READ => 4 | SYS_READV => 5 | SYS_RECVFROM => 6 | SYS_WRITE => 7
  | SYS_WRITEV => 8 | SYS_SENDTO => 9 | SYS_SENDMSG => 10 | SYS_RECVMSG => 11
  end.

Definition syscall_op_of_num (n : nat) : option SYSCALL_OP :=
  [SYS_ACCEPT; SYS_ACCEPT4; SYS_CONNECT; SYS_CLOSE; SYS_READ; SYS_READV; SYS_RECVFROM;
   SYS_WRITE; SYS_WRITEV; SYS_SENDTO; SYS_SENDMSG; SYS_RECVMSG] !! n.

#[export] Instance SYSCALL_OP_countable : Countable SYSCALL_OP.
Proof. apply (inj_countable syscall_op_num syscall_op_of_num). by intros []. Defined.

Definition protocol_num (p : PROTOCOL) : Z :=
  match p with
  | P_UNKNOWN => 0 | P_HTTP1 => 1 | P_HTTP2 => 2 | P_DNS => 3 | P_MONGODB => 4 | P_REDIS => 5
  | P_MYSQL => 6 | P_KAFKA => 7
  end.

Definition component_num (c : QTAP_COMPONENT) : Z :=
  match c with
  | QTAP_CA => 0 | QTAP_DEBUG => 1 | QTAP_GOTLS => 2 | QTAP_JAVASSL => 3 | QTAP_NODETLS => 4
  | QTAP_OPENSSL => 5 | QTAP_PROCESS => 6 | QTAP_PROTOCOL => 7 | QTAP_REDIRECTOR => 8
  | QTAP_SOCKET => 9
  end.

(** ** Addresses *)

(** [struct net_addr], in network byte order *)
Record net_addr := NetAddr { sa_family : Z; na_addr : list Z; na_port : Z }.
#[export] Instance net_addr_settable : Settable net_addr :=
  fun r => NetAddr (sa_family r) (na_addr r) (na_port r).

Definition zeros (n : nat) : list Z := replicate n 0.

Lemma nth_zeros i n : nth i (zeros n) 0 = 0.
Proof. revert i. induction n as [|n IH]; intros [|i]; cbn; [done..|apply IH]. Qed.

(** [struct net_addr a = {};] *)
Definition net_addr_zero : net_addr := NetAddr 0 (zeros 16) 0.

(** [struct addr_port_key]: four 32-bit words and a port *)
Record addr_port_key := AddrPortKey { ap_addr : list Z; ap_port : Z }.
#[export] Instance addr_port_key_settable : Settable addr_port_key :=
  fun r => AddrPortKey (ap_addr r) (ap_port r).
#[export] Instance addr_port_key_eq_dec : EqDecision addr_port_key.
Proof. solve_decision. Defined.
#[export] Instance addr_port_key_countable : Countable addr_port_key.
Proof.
  by apply (inj_countable' (fun k => (ap_addr k, ap_port k)) (fun p => AddrPortKey p.1 p.2)); intros [].
Defined.

(** [struct mgmt_addrs] *)
Record mgmt_addrs := MgmtAddrs { ma_ipv4 : Z; ma_ipv6 : list Z; ma_port : Z }.

(** ** Keys *)

(** [struct pid_fd_key] *)
Record pid_fd_key := PidFd { k_pid : Z; k_fd : Z }.
#[export] Instance pid_fd_key_settable : Settable pid_fd_key := fun r => PidFd (k_pid r) (k_fd r).
#[export] Instance pid_fd_key_eq_dec : EqDecision pid_fd_key.
Proof. solve_decision. Defined.
#[export] Instance pid_fd_key_countable : Countable pid_fd_key.
Proof.
  by apply (inj_countable' (fun k => (k_pid k, k_fd k)) (fun p => PidFd p.1 p.2)); intros [].
Defined.

(** [struct socket_op_key] *)
Record socket_op_key := OpKey { op_pid_tgid : Z; op_func : SYSCALL_OP }.
#[export] Instance socket_op_key_eq_dec : EqDecision socket_op_key.
Proof. solve_decision. Defined.
#[export] Instance socket_op_key_countable : Countable socket_op_key.
Proof.
  by apply (inj_countable' (fun k => (op_pid_tgid k, op_func k)) (fun p => OpKey p.1 p.2)); intros [].
Defined.

(** ** Connections *)

(** [struct conn_pid_id] *)
Record conn_pid_id := ConnPidId {
  cp_pid : Z; cp_tgid : Z; cp_fd : Z; cp_function : CONNECTION_TYPE; cp_tsid : Z }.

(** [struct conn_info] *)
Record conn_info := ConnInfo {
  ci_conn_pid_id : conn_pid_id;
  ci_cookie : Z;
  ci_addr : net_addr;
  ci_wr_bytes : Z;
  ci_rd_bytes : Z;
  ci_is_open : bool;
  ci_is_ssl : bool;
  ci_protocol : PROTOCOL;
  ci_ignore : bool;
  ci_tls_upgrade_pending : bool }.
#[export] Instance conn_info_settable : Settable conn_info :=
  fun r => ConnInfo (ci_conn_pid_id r) (ci_cookie r) (ci_addr r) (ci_wr_bytes r) (ci_rd_bytes r)
    (ci_is_open r) (ci_is_ssl r) (ci_protocol r) (ci_ignore r) (ci_tls_upgrade_pending r).

(** [struct socket_ctx] *)
Record socket_ctx := SocketCtx {
  sc_id : pid_fd_key; sc_pid_tgid : Z; sc_trace_id : string; sc_trace_mod : QTAP_COMPONENT }.

(** [struct fd_request], [struct data_args]; [struct addr_args] and
    [struct close_args] have one field and are that field. *)
Record fd_request := FdRequest { fr_fd : Z; fr_is_ssl : bool }.
#[export] Instance fd_request_settable : Settable fd_request :=
  fun r => FdRequest (fr_fd r) (fr_is_ssl r).

Record data_args := DataArgs {
  da_fd : Z; da_buf : Z; da_iovcnt : Z; da_ssl : Z; da_ex_bytes : Z }.
#[export] Instance data_args_settable : Settable data_args :=
  fun r => DataArgs (da_fd r) (da_buf r) (da_iovcnt r) (da_ssl r) (da_ex_bytes r).

(** [struct data_args args = {};] *)
Definition data_args_zero : data_args := DataArgs 0 0 0 0 0.

(** [struct process_meta] (the container id and padding are user-space only) *)
Record process_meta := ProcessMeta {
  pm_root_id : Z; pm_qpoint_strategy : Z; pm_filter : Z; pm_tls_ok : bool }.

(** [struct rdr_socket] *)
Record rdr_socket := RdrSocket {
  rs_src_addr : list Z; rs_src_port : Z; rs_dst_addr : list Z; rs_dst_port : Z }.

(** ** TLS probes *)

(** [struct node_tls_symaddr]: offsets into node's objects *)
Record node_tls_symaddr := NodeSymaddr {
  tls_wrap_stream_listener_offset : Z;
  stream_listener_stream_offset : Z;
  stream_base_stream_resource_offset : Z;
  libuv_stream_wrap_stream_base_offset : Z;
  libuv_stream_wrap_stream_offset : Z;
  uv_stream_s_io_watcher_offset : Z;
  uv_io_s_fd_offset : Z }.

(** [struct go_tls_symaddr]: interface types and offsets of a Go binary *)
Record go_tls_symaddr := GoSymaddr {
  internal_syscall_conn : Z;
  tls_conn : Z;
  net_tcp_conn : Z;
  fd_sysfd_offset : Z;
  tls_conn_offset : Z;
  syscall_conn_offset : Z;
  goid_offset : Z }.

(** [struct tgid_goid_t], [struct go_tls_conn_args] *)
Record tgid_goid_t := TgidGoid { tg_tgid : Z; tg_goid : Z }.
#[export] Instance tgid_goid_eq_dec : EqDecision tgid_goid_t.
Proof. solve_decision. Defined.
#[export] Instance tgid_goid_countable : Countable tgid_goid_t.
Proof.
  by apply (inj_countable' (fun k => (tg_tgid k, tg_goid k)) (fun p => TgidGoid p.1 p.2)); intros [].
Defined.

Record go_tls_conn_args := GoConnArgs { ga_conn_ptr : Z; ga_plaintext_ptr : Z }.

(** [struct java_ssl_args] *)
Record java_ssl_args := JavaArgs { ja_fd : Z; ja_buf : Z; ja_len : Z }.
#[export] Instance java_ssl_args_settable : Settable java_ssl_args :=
  fun r => JavaArgs (ja_fd r) (ja_buf r) (ja_len r).

(** [enum JAVA_SSL_ENGINE_EVENT], [enum JAVA_SSL_ENGINE_DATA_TYPE] *)
Definition J_DATA : Z := 1.
Definition J_CORRELATE : Z := 2.
Definition J_SOCKET_CLOSED : Z := 3.
Definition J_PLAINTEXT : Z := 1.
Definition J_ENCRYPTED : Z := 2.

(** The three events on [java_ssl_engine_events]; [msg] is what is sent of it. *)
Record java_ssl_engine_data_event := JavaDataEvent {
  je_type : Z; je_timestamp_ns : Z; je_pid : Z; je_session_id : Z; je_direction : Z;
  je_data_type : Z; je_msg_size : Z; je_msg : list Z }.
Record java_ssl_engine_correlate_event := JavaCorrelateEvent {
  jc_type : Z; jc_timestamp_ns : Z; jc_pid : Z; jc_fd : Z; jc_cookie : Z; jc_direction : Z;
  jc_msg_size : Z; jc_msg : list Z }.
Record java_ssl_engine_socket_closed_event := JavaClosedEvent { jk_type : Z; jk_pid : Z; jk_fd : Z }.

Inductive java_event :=
| Je_data (e : java_ssl_engine_data_event)
| Je_correlate (e : java_ssl_engine_correlate_event)
| Je_closed (e : java_ssl_engine_socket_closed_event).

(** [union java_ssl_engine_event] by offset: the two members share the type, the time,
    the pid and the direction; offset 24 holds the session or the cookie, offset 36 the
    data type or the message size.  Offset 20 is padding in a data event.  The size of a
    data event and the message bytes, which overlap, are written just before each output. *)
Record java_ssl_engine_event := JavaHeap {
  ju_type : Z; ju_timestamp_ns : Z; ju_pid : Z; ju_off20 : Z; ju_off24 : Z; ju_direction : Z; ju_off36 : Z }.
#[export] Instance java_ssl_engine_event_settable : Settable java_ssl_engine_event :=
  fun r => JavaHeap (ju_type r) (ju_timestamp_ns r) (ju_pid r) (ju_off20 r) (ju_off24 r) (ju_direction r) (ju_off36 r).

(** ** Events on the [socket_events] ring buffer *)

Record socket_open_event := OpenEvent {
  oe_type : Z; oe_timestamp_ns : Z; oe_conn_pid_id : conn_pid_id; oe_cookie : Z;
  oe_local : net_addr; oe_remote : net_addr; oe_pid : Z; oe_tgid : Z;
  oe_socket_type : SOCKET_TYPE; oe_is_redirected : bool }.
#[export] Instance socket_open_event_settable : Settable socket_open_event :=
  fun r => OpenEvent (oe_type r) (oe_timestamp_ns r) (oe_conn_pid_id r) (oe_cookie r)
    (oe_local r) (oe_remote r) (oe_pid r) (oe_tgid r) (oe_socket_type r) (oe_is_redirected r).

Record socket_close_event := CloseEvent {
  ce_type : Z; ce_timestamp_ns : Z; ce_conn_pid_id : conn_pid_id; ce_cookie : Z;
  ce_wr_bytes : Z; ce_rd_bytes : Z; ce_pid : Z; ce_tgid : Z }.

Record socket_data_event := DataEvent {
  de_type : Z; de_timestamp_ns : Z; de_conn_pid_id : conn_pid_id; de_cookie : Z;
  de_direction : Z; de_msg_size : Z; de_pos : Z; de_pid : Z; de_tgid : Z; de_msg : list Z }.
#[export] Instance socket_data_event_settable : Settable socket_data_event :=
  fun r => DataEvent (de_type r) (de_timestamp_ns r) (de_conn_pid_id r) (de_cookie r)
    (de_direction r) (de_msg_size r) (de_pos r) (de_pid r) (de_tgid r) (de_msg r).

Record socket_proto_event := ProtoEvent {
  pe_type : Z; pe_timestamp_ns : Z; pe_conn_pid_id : conn_pid_id; pe_cookie : Z;
  pe_protocol : PROTOCOL; pe_is_ssl : bool }.

(** [struct socket_tls_client_hello_event] and
    [struct socket_tls_server_hello_event] have the same fields. *)
Record socket_tls_hello_event := HelloEvent {
  he_type : Z; he_cookie : Z; he_size : Z; he_data : list Z }.
#[export] Instance socket_tls_hello_event_settable : Settable socket_tls_hello_event :=
  fun r => HelloEvent (he_type r) (he_cookie r) (he_size r) (he_data r).

Inductive socket_event :=
| Ev_open (e : socket_open_event)
| Ev_close (e : socket_close_event)
| Ev_data (e : socket_data_event)
| Ev_proto (e : socket_proto_event)
| Ev_tls_hello (e : socket_tls_hello_event).
