(* ===== verification/Net.v ===== *)
(** * Address classification

    [bpf/tap/net.bpf.h] ([is_local_ip], [is_private_ip]) and
    [bpf/tap/sock_utils.bpf.h] ([is_management_address]).  The code tests a
    little-endian load of the address bytes against byte-swapped masks; the
    theorems restate each test in octets. *)

From stdpp Require Import base numbers list gmap.
From S2P Require Import Prelude Tap.

(** [__be32 ip = *(__be32 * )addr->addr;] *)
Definition load_be32 (bs : list Z) : Z := le_load (take 4 bs).

(** The conditions the source writes as [addr->addr[0] == 0 && ... ]. *)
Definition bytes_zero (n : nat) (a : list Z) : bool :=
  forallb (fun i => byte_at a i =? 0) (seq 0 n).

Definition is_local_ip (addr : net_addr) : bool :=
  let a := na_addr addr in
  if sa_family addr =? AF_INET then
    let ip := load_be32 a in
    (Z.land ip (bswap32 0xFF000000) =? bswap32 0x7F000000)
    || (Z.land ip (bswap32 0xFFFF0000) =? bswap32 0xA9FE0000)
    || (ip =? 0)
  else if sa_family addr =? AF_INET6 then
    (bytes_zero 15 a && (byte_at a 15 =? 1))
    || bytes_zero 16 a
    || (bytes_zero 10 a && (byte_at a 10 =? 0xff) && (byte_at a 11 =? 0xff) && (byte_at a 12 =? 0x7f))
  else false.

(** The three RFC 1918 tests, which the source writes out twice. *)
Definition private_v4 (ip : Z) : bool :=
  (Z.land ip (bswap32 0xFF000000) =? bswap32 0x0A000000)
  || (Z.land ip (bswap32 0xFFF00000) =? bswap32 0xAC100000)
  || (Z.land ip (bswap32 0xFFFF0000) =? bswap32 0xC0A80000).

Definition is_private_ip (addr : net_addr) : bool :=
  let a := na_addr addr in
  if sa_family addr =? AF_INET then private_v4 (load_be32 a)
  else if sa_family addr =? AF_INET6 then
    (Z.land (byte_at a 0) 0xFE =? 0xFC)
    || ((byte_at a 0 =? 0xFE) && (Z.land (byte_at a 1) 0xC0 =? 0x80))
    || (bytes_zero 10 a && (byte_at a 10 =? 0xFF) && (byte_at a 11 =? 0xFF)
        && private_v4 (load_be32 (drop 12 a)))
  else false.

(** The four [__u32] words of an address, as [__builtin_memcpy] leaves them. *)
Definition addr_words (a : list Z) : list Z :=
  [le_load (take 4 a); le_load (take 4 (drop 4 a));
   le_load (take 4 (drop 8 a)); le_load (take 4 (drop 12 a))].

Definition words_v4_mapped (w : list Z) : bool :=
  (nth 0 w 0 =? 0) && (nth 1 w 0 =? 0) && (nth 2 w 0 =? 0xffff0000).

(** [is_management_address]; [addrs] is the content of the [mgmt_addrs] map. *)
Definition is_management_address (addrs : gmap Z mgmt_addrs) (addr : net_addr) : bool :=
  match addrs !! 0 with
  | None => false
  | Some m =>
      if negb (na_port addr =? ma_port m) then false
      else if sa_family addr =? AF_INET then le_load (take 4 (na_addr addr)) =? ma_ipv4 m
      else if sa_family addr =? AF_INET6 then
        let w := addr_words (na_addr addr) in
        if words_v4_mapped w then nth 3 w 0 =? ma_ipv4 m
        else forallb (fun i => nth i w 0 =? nth i (ma_ipv6 m) 0) (seq 0 4)
      else false
  end.

(** ** Properties *)

(** A [struct net_addr] holds sixteen bytes. *)
Definition net_addr_wf (addr : net_addr) : Prop :=
  length (na_addr addr) = 16%nat /\ Forall is_byte (na_addr addr).

(** [::ffff:a.b.c.d] with the same port. *)
Definition v4_mapped (addr : net_addr) : net_addr :=
  NetAddr AF_INET6 (zeros 10 ++ [255; 255] ++ take 4 (na_addr addr)) (na_port addr).

Definition octet (addr : net_addr) (i : nat) : Z := byte_at (na_addr addr) i.

(** Take a well-formed address apart into its sixteen bytes. *)
Ltac addr_bytes H :=
  let l := fresh "l" in let p := fresh "p" in let f := fresh "f" in
  destruct H as [?Hlen ?Hbytes];
  match goal with
  | Hl : length (na_addr ?a) = 16%nat |- _ => destruct a as [f l p]; cbn [na_addr sa_family na_port] in *
  end;
  do 16 (destruct l as [|? l]; [discriminate|]); destruct l; [|discriminate];
  rewrite !Forall_cons in *; destruct_and?.

Lemma land_ff b : is_byte b -> Z.land b 255 = b.
Proof. intros. change 255 with (Z.ones 8). rewrite Z.land_ones by lia. by apply Z.mod_small. Qed.

(** The masks of the source applied to a loaded address, in octets. *)
Lemma mask_8 a b c d : is_byte a -> Z.land (le_load [a; b; c; d]) (bswap32 0xFF000000) = a.
Proof.
  intros. change (bswap32 0xFF000000) with (255 + 256 * 0). cbn [le_load].
  rewrite land_byte_split, Z.land_0_r, land_ff; done || lia.
Qed.

Lemma mask_16 a b c d :
  is_byte a -> is_byte b ->
  Z.land (le_load [a; b; c; d]) (bswap32 0xFFFF0000) = a + 256 * b.
Proof.
  intros. change (bswap32 0xFFFF0000) with (255 + 256 * (255 + 256 * 0)). cbn [le_load].
  rewrite !land_byte_split, Z.land_0_r, !land_ff; done || lia.
Qed.

Lemma mask_12 a b c d :
  is_byte a -> is_byte b ->
  Z.land (le_load [a; b; c; d]) (bswap32 0xFFF00000) = a + 256 * Z.land b 0xF0.
Proof.
  intros. change (bswap32 0xFFF00000) with (255 + 256 * (0xF0 + 256 * 0)). cbn [le_load].
  rewrite !land_byte_split, Z.land_0_r, land_ff; done || lia.
Qed.

Lemma land_f0_10 b : is_byte b -> (Z.land b 0xF0 = 16 <-> 16 <= b <= 31).
Proof.
  intros Hb.
  assert (H : Bool.eqb (Z.land b 0xF0 =? 16) ((16 <=? b) && (b <=? 31)) = true).
  { revert b Hb. apply byte_table. by vm_compute. }
  apply Bool.eqb_prop in H. lia.
Qed.

Lemma private_v4_octets a b c d :
  is_byte a -> is_byte b -> is_byte c -> is_byte d ->
  private_v4 (le_load [a; b; c; d]) = true <->
  a = 10 \/ (a = 172 /\ 16 <= b <= 31) \/ (a = 192 /\ b = 168).
Proof.
  intros Ha Hb Hc Hd. unfold private_v4. rewrite mask_8, mask_12, mask_16 by done.
  change (bswap32 0x0A000000) with 10. change (bswap32 0xAC100000) with (172 + 256 * 16).
  change (bswap32 0xC0A80000) with (192 + 256 * 168).
  rewrite !orb_true_iff, !Z.eqb_eq. rewrite <- (land_f0_10 b) by done.
  pose proof (land_byte b 0xF0 Hb). unfold is_byte in *. lia.
Qed.

Lemma zero4 a b c d :
  is_byte a -> is_byte b -> is_byte c -> is_byte d ->
  le_load [a; b; c; d] = 0 <-> a = 0 /\ b = 0 /\ c = 0 /\ d = 0.
Proof. unfold is_byte. cbn [le_load]. lia. Qed.

Lemma is_local_ip_v4 addr :
  net_addr_wf addr -> sa_family addr = AF_INET ->
  is_local_ip addr = true <->
  octet addr 0 = 127 \/ (octet addr 0 = 169 /\ octet addr 1 = 254)
  \/ (octet addr 0 = 0 /\ octet addr 1 = 0 /\ octet addr 2 = 0 /\ octet addr 3 = 0).
Proof.
  intros Hwf Hf. unfold is_local_ip. rewrite Hf. cbn [Z.eqb AF_INET Pos.eqb].
  addr_bytes Hwf. unfold load_be32, octet, byte_at. cbn [take nth na_addr].
  rewrite mask_8, mask_16, !orb_true_iff, !Z.eqb_eq, zero4 by done.
  change (bswap32 0x7F000000) with 127. change (bswap32 0xA9FE0000) with (169 + 256 * 254).
  unfold is_byte in *. lia.
Qed.

Lemma is_private_ip_v4 addr :
  net_addr_wf addr -> sa_family addr = AF_INET ->
  is_private_ip addr = true <->
  octet addr 0 = 10 \/ (octet addr 0 = 172 /\ 16 <= octet addr 1 <= 31)
  \/ (octet addr 0 = 192 /\ octet addr 1 = 168).
Proof.
  intros Hwf Hf. unfold is_private_ip. rewrite Hf. cbn [Z.eqb AF_INET Pos.eqb].
  addr_bytes Hwf. unfold load_be32, octet, byte_at. cbn [take nth na_addr].
  by apply private_v4_octets.
Qed.

Lemma bytes_zero_spec n a :
  bytes_zero n a = true <-> forall i, (i < n)%nat -> byte_at a i = 0.
Proof.
  unfold bytes_zero. rewrite forallb_forall. setoid_rewrite in_seq. setoid_rewrite Z.eqb_eq.
  split; intros H i Hi; apply H; lia.
Qed.

Lemma octet_byte addr i : net_addr_wf addr -> (i < 16)%nat -> is_byte (octet addr i).
Proof.
  intros [Hl Hb] Hi. unfold octet, byte_at. rewrite Forall_forall in Hb.
  apply Hb, list_elem_of_In, nth_In. lia.
Qed.

(** The mapped-prefix test of the source recognises [::ffff:0:0/96]. *)
Lemma mapped_prefix a :
  length a = 16%nat ->
  (bytes_zero 10 a && (byte_at a 10 =? 0xFF) && (byte_at a 11 =? 0xFF)) = true <->
  a = zeros 10 ++ [255; 255] ++ drop 12 a.
Proof.
  intros Ha. rewrite !andb_true_iff, !Z.eqb_eq, bytes_zero_spec. split.
  - intros [[Hz H10] H11]. assert (Hz' : Forall (fun i => byte_at a i = 0) (seq 0 10)).
    { apply Forall_forall. intros i Hi. apply Hz. apply elem_of_seq in Hi. lia. }
    do 16 (destruct a as [|? a]; [discriminate|]). destruct a; [|discriminate].
    cbn in *. rewrite !Forall_cons in Hz'. cbn in Hz'. destruct_and!. by subst.
  - intros ->. split; [split|]; try done. intros i Hi.
    do 10 (destruct i as [|i]; [done|]). lia.
Qed.

Lemma ula_mask b : is_byte b -> (Z.land b 0xFE = 0xFC <-> 252 <= b <= 253).
Proof.
  intros Hb. enough (H : Bool.eqb (Z.land b 0xFE =? 0xFC) ((252 <=? b) && (b <=? 253)) = true)
    by (apply Bool.eqb_prop in H; lia).
  revert b Hb. apply byte_table. by vm_compute.
Qed.

Lemma link_local_mask b : is_byte b -> (Z.land b 0xC0 = 0x80 <-> 128 <= b <= 191).
Proof.
  intros Hb. enough (H : Bool.eqb (Z.land b 0xC0 =? 0x80) ((128 <=? b) && (b <=? 191)) = true)
    by (apply Bool.eqb_prop in H; lia).
  revert b Hb. apply byte_table. by vm_compute.
Qed.

Lemma private_v4_mapped addr :
  length (na_addr addr) = 16%nat ->
  (bytes_zero 10 (na_addr addr) && (byte_at (na_addr addr) 10 =? 0xFF)
     && (byte_at (na_addr addr) 11 =? 0xFF)
     && private_v4 (load_be32 (drop 12 (na_addr addr)))) = true
  <-> exists v4, sa_family v4 = AF_INET /\ na_addr addr = na_addr (v4_mapped v4)
        /\ is_private_ip v4 = true.
Proof.
  intros Hl. rewrite andb_true_iff, mapped_prefix by done. split.
  - intros [Ha Hp]. exists (NetAddr AF_INET (drop 12 (na_addr addr)) 0).
    split_and!; [done| |done]. rewrite Ha at 1. unfold v4_mapped. cbn [na_addr].
    rewrite (take_ge (drop 12 _)); [done|]. rewrite length_drop, Hl. lia.
  - intros (v4 & Hv & Ha & Hp). rewrite Ha. split; [done|].
    unfold is_private_ip in Hp. rewrite Hv in Hp. cbn in Hp |- *.
    unfold load_be32 in *. by rewrite drop_0, take_take.
Qed.

Lemma is_private_ip_v6 addr :
  net_addr_wf addr -> sa_family addr = AF_INET6 ->
  is_private_ip addr = true <->
  252 <= octet addr 0 <= 253
  \/ (octet addr 0 = 254 /\ 128 <= octet addr 1 <= 191)
  \/ exists v4, sa_family v4 = AF_INET /\ na_addr addr = na_addr (v4_mapped v4)
       /\ is_private_ip v4 = true.
Proof.
  intros Hwf Hf. unfold is_private_ip at 1. rewrite Hf. cbn [Z.eqb AF_INET AF_INET6 Pos.eqb].
  pose proof (octet_byte addr 0 Hwf ltac:(lia)) as H0.
  pose proof (octet_byte addr 1 Hwf ltac:(lia)) as H1. unfold octet in *.
  rewrite <- private_v4_mapped by apply Hwf.
  rewrite !orb_true_iff, (andb_true_iff (_ =? 0xFE)), !Z.eqb_eq, ula_mask, link_local_mask by done.
  tauto.
Qed.

Lemma mapped_127 a :
  length a = 16%nat ->
  (bytes_zero 10 a && (byte_at a 10 =? 0xff) && (byte_at a 11 =? 0xff) && (byte_at a 12 =? 0x7f)) = true
  <-> exists b c d, a = zeros 10 ++ [255; 255; 127; b; c; d].
Proof.
  intros Hl. rewrite andb_true_iff, mapped_prefix, Z.eqb_eq by done. split.
  - intros [Ha H12]. do 16 (destruct a as [|? a]; [discriminate|]). destruct a; [|discriminate].
    cbn in Ha, H12. simplify_eq. by repeat eexists.
  - intros (b & c & d & ->). done.
Qed.

Lemma bytes_zero_all a : length a = 16%nat -> bytes_zero 16 a = true <-> a = zeros 16.
Proof.
  intros Hl. rewrite bytes_zero_spec. split; [|intros ->; intros i Hi; by do 16 (destruct i as [|i]; [done|]); lia].
  intros H. apply (nth_ext _ _ 0 0); [by rewrite Hl|]. intros i Hi. rewrite Hl in Hi.
  unfold byte_at in H. rewrite (H i Hi). by rewrite nth_zeros.
Qed.

Lemma bytes_zero_one a :
  length a = 16%nat -> bytes_zero 15 a && (byte_at a 15 =? 1) = true <-> a = zeros 15 ++ [1].
Proof.
  intros Hl. rewrite andb_true_iff, bytes_zero_spec, Z.eqb_eq. split.
  - intros [H H15]. apply (nth_ext _ _ 0 0); [by rewrite Hl|]. intros i Hi. rewrite Hl in Hi.
    destruct (Nat.eq_dec i 15%nat) as [->|]; [done|]. unfold byte_at in H. rewrite H by lia.
    rewrite app_nth1 by (unfold zeros; rewrite length_replicate; lia). by rewrite nth_zeros.
  - intros ->. split; [|done]. intros i Hi. by do 15 (destruct i as [|i]; [done|]); lia.
Qed.

(** [is_local_ip] holds exactly for 127.0.0.0/8, 169.254.0.0/16 and 0.0.0.0
    among IPv4 addresses (whatever the twelve unused bytes hold), for ::1, :: and
    ::ffff:127.0.0.0/104 among IPv6 addresses, and for no address of another family. *)
Theorem is_local_ip_spec addr :
  net_addr_wf addr ->
  is_local_ip addr = true <->
  (sa_family addr = AF_INET
   /\ (octet addr 0 = 127 \/ (octet addr 0 = 169 /\ octet addr 1 = 254)
       \/ (octet addr 0 = 0 /\ octet addr 1 = 0 /\ octet addr 2 = 0 /\ octet addr 3 = 0)))
  \/ (sa_family addr = AF_INET6
      /\ (na_addr addr = zeros 15 ++ [1] \/ na_addr addr = zeros 16
          \/ exists b c d, na_addr addr = zeros 10 ++ [255; 255; 127; b; c; d])).
Proof.
  intros Hwf. destruct (Z.eq_dec (sa_family addr) AF_INET) as [Hf|Hf4].
  { rewrite is_local_ip_v4 by done. rewrite Hf. unfold AF_INET, AF_INET6. intuition lia. }
  unfold is_local_ip. apply Z.eqb_neq in Hf4 as E4. rewrite E4.
  destruct (Z.eqb_spec (sa_family addr) AF_INET6) as [Hf|Hf6]; [|intuition congruence].
  rewrite !orb_true_iff, bytes_zero_one, bytes_zero_all, mapped_127 by apply Hwf.
  intuition congruence.
Qed.

Lemma is_local_ip_spec_witness :
  is_local_ip (NetAddr AF_INET [169; 254; 7; 9; 1; 1; 1; 1; 1; 1; 1; 1; 1; 1; 1; 1] 80) = true.
Proof.
  apply (is_local_ip_spec (NetAddr AF_INET [169; 254; 7; 9; 1; 1; 1; 1; 1; 1; 1; 1; 1; 1; 1; 1] 80)).
  - split; [reflexivity|]. repeat constructor; lia.
  - left. split; [reflexivity|]. right. left. split; reflexivity.
Defined.

(** [is_private_ip] holds exactly for 10.0.0.0/8, 172.16.0.0/12 and
    192.168.0.0/16 among IPv4 addresses, for fc00::/7, fe80::/10 and the IPv4-mapped
    private addresses among IPv6 addresses, and for no address of another family. *)
Theorem is_private_ip_spec addr :
  net_addr_wf addr ->
  is_private_ip addr = true <->
  (sa_family addr = AF_INET
   /\ (octet addr 0 = 10 \/ (octet addr 0 = 172 /\ 16 <= octet addr 1 <= 31)
       \/ (octet addr 0 = 192 /\ octet addr 1 = 168)))
  \/ (sa_family addr = AF_INET6
      /\ (252 <= octet addr 0 <= 253 \/ (octet addr 0 = 254 /\ 128 <= octet addr 1 <= 191)
          \/ exists v4, sa_family v4 = AF_INET /\ na_addr addr = na_addr (v4_mapped v4)
               /\ is_private_ip v4 = true)).
Proof.
  intros Hwf. destruct (Z.eq_dec (sa_family addr) AF_INET) as [Hf|Hf4].
  { rewrite is_private_ip_v4 by done. rewrite Hf. unfold AF_INET, AF_INET6. intuition lia. }
  destruct (Z.eq_dec (sa_family addr) AF_INET6) as [Hf|Hf6].
  { rewrite is_private_ip_v6 by done. rewrite Hf. intuition congruence. }
  unfold is_private_ip at 1. pose proof (proj2 (Z.eqb_neq _ _) Hf4) as ->.
  pose proof (proj2 (Z.eqb_neq _ _) Hf6) as ->. intuition congruence.
Qed.

Lemma is_private_ip_spec_witness :
  is_private_ip (NetAddr AF_INET [172; 31; 0; 1; 0; 0; 0; 0; 0; 0; 0; 0; 0; 0; 0; 0] 443) = true.
Proof.
  apply (is_private_ip_spec (NetAddr AF_INET [172; 31; 0; 1; 0; 0; 0; 0; 0; 0; 0; 0; 0; 0; 0; 0] 443)).
  - split; [reflexivity|]. repeat constructor; lia.
  - left. split; [reflexivity|]. right. left. split; [reflexivity|]. cbn. lia.
Defined.

(** Mapping an address keeps it well formed. *)
Lemma v4_mapped_wf addr : net_addr_wf addr -> net_addr_wf (v4_mapped addr).
Proof.
  intros [Hl Hb]. split; cbn.
  - rewrite length_take, Hl. done.
  - repeat (constructor; [unfold is_byte; lia|]). by apply Forall_take.
Qed.

(** An IPv4-mapped IPv6 address is classified as local only when the IPv4
    address it carries is in 127.0.0.0/8: the mapped forms of the link-local range and
    of 0.0.0.0 are not local although the IPv4 addresses are.  Privateness, in
    contrast, is the same for both forms. *)
Theorem v4_mapped_classification addr :
  net_addr_wf addr -> sa_family addr = AF_INET ->
  (is_local_ip (v4_mapped addr) = true <-> octet addr 0 = 127)
  /\ is_private_ip (v4_mapped addr) = is_private_ip addr.
Proof.
  intros Hwf Hf. split.
  - unfold is_local_ip. cbn [sa_family v4_mapped AF_INET AF_INET6 Z.eqb Pos.eqb].
    rewrite !orb_true_iff, bytes_zero_one, bytes_zero_all, mapped_127 by by apply v4_mapped_wf.
    addr_bytes Hwf. unfold octet. cbn. split.
    + intros [[|]|(b & c & d & Heq)]; by simplify_eq.
    + intros ->. right. by repeat eexists.
  - unfold is_private_ip. rewrite Hf. cbn [Z.eqb AF_INET Pos.eqb]. by addr_bytes Hwf.
Qed.

Lemma v4_mapped_classification_witness :
  is_local_ip (NetAddr AF_INET [169; 254; 1; 1; 0; 0; 0; 0; 0; 0; 0; 0; 0; 0; 0; 0] 80) = true
  /\ is_local_ip (v4_mapped (NetAddr AF_INET [169; 254; 1; 1; 0; 0; 0; 0; 0; 0; 0; 0; 0; 0; 0; 0] 80)) = false.
Proof.
  split; [reflexivity|]. apply not_true_iff_false. intros H.
  apply (v4_mapped_classification (NetAddr AF_INET [169; 254; 1; 1; 0; 0; 0; 0; 0; 0; 0; 0; 0; 0; 0; 0] 80)) in H.
  - discriminate H.
  - split; [reflexivity|]. repeat constructor; lia.
  - reflexivity.
Defined.

(** [is_management_address] answers alike for an IPv4 address and for its
    IPv4-mapped form, and on IPv4 it is equality with the configured address and port. *)
Theorem is_management_address_v4 addrs addr m :
  net_addr_wf addr -> sa_family addr = AF_INET -> addrs !! 0 = Some m ->
  is_management_address addrs (v4_mapped addr) = is_management_address addrs addr
  /\ (is_management_address addrs addr = true <->
      na_port addr = ma_port m /\ le_store 4 (ma_ipv4 m) = take 4 (na_addr addr)
      /\ 0 <= ma_ipv4 m < 2 ^ 32).
Proof.
  intros Hwf Hf Hm. unfold is_management_address. rewrite Hm, Hf.
  assert (Hb : Forall is_byte (take 4 (na_addr addr))) by apply Forall_take, Hwf.
  assert (Hl : length (take 4 (na_addr addr)) = 4%nat) by (rewrite length_take, (proj1 Hwf); done).
  split.
  - destruct (negb _) eqn:E; rewrite ?E; [done|]. cbn [sa_family v4_mapped AF_INET AF_INET6 Z.eqb Pos.eqb].
    clear Hb Hl. by addr_bytes Hwf.
  - cbn [AF_INET Z.eqb Pos.eqb]. pose proof (le_load_bound _ Hb) as Hbd. rewrite Hl in Hbd.
    change (256 ^ Z.of_nat 4) with (2 ^ 32) in Hbd.
    destruct (Z.eqb_spec (na_port addr) (ma_port m)) as [->|]; [|naive_solver].
    cbn [negb]. rewrite Z.eqb_eq. split.
    + intros <-. split_and!; [done| |lia..].
      pose proof (le_store_load _ Hb) as Hs. by rewrite Hl in Hs.
    + intros (_ & <- & Hr). rewrite le_load_store. by apply Z.mod_small.
Qed.

Lemma is_management_address_v4_witness :
  is_management_address {[0 := MgmtAddrs 0x0100007F [0; 0; 0; 0] 4640]}
    (NetAddr AF_INET6 (zeros 10 ++ [255; 255; 127; 0; 0; 1]) 4640) = true.
Proof.
  pose (a := NetAddr AF_INET ([127; 0; 0; 1] ++ zeros 12) 4640).
  change (NetAddr AF_INET6 (zeros 10 ++ [255; 255; 127; 0; 0; 1]) 4640) with (v4_mapped a).
  destruct (is_management_address_v4 {[0 := MgmtAddrs 0x0100007F [0; 0; 0; 0] 4640]} a
    (MgmtAddrs 0x0100007F [0; 0; 0; 0] 4640)) as [-> Hiff].
  - split; [reflexivity|]. repeat constructor; lia.
  - reflexivity.
  - reflexivity.
  - apply Hiff. split; [reflexivity|]. split; [reflexivity|]. cbn. lia.
Defined.
