(* ===== verification/Bpf.v ===== *)
(** * The loaded object and its environment

    [world] is the persistent state of the BPF object: every map and ring
    buffer the modelled programs declare.  [Env] is what one program
    invocation observes of the kernel and of the traced process through BPF
    helpers; it is a parameter of every program.  A handler is a function
    [Env -> world -> result * world], and the operations below carry the names
    of the helpers the source calls. *)

From stdpp Require Import base numbers list gmap strings.
From S2P Require Import Prelude Tap.

(** ** Trace messages ([bpf/tap/trace.bpf.h]) *)

(** [enum TRACE_ATTR_TYPE] with the union member it selects *)
Inductive trace_value :=
| TV_string (size : Z) (v : string)
| TV_int (v : Z)
| TV_uint (v : Z)
| TV_pointer (v : Z)
| TV_bool (v : bool)
| TV_ip4 (v : list Z)
| TV_ip6 (v : list Z).

Inductive trace_event :=
| TRACE_MSG (tsid : Z) (msg_size : Z) (msg : string)
| TRACE_ATTR (tsid : Z) (title_size : Z) (title : string) (value : trace_value)
| TRACE_END (tsid : Z).

(** ** Process events ([bpf/tap/process.bpf.c]) *)

Record exec_start_event := ExecStart { xs_pid : Z; xs_exe_size : Z; xs_exe : list Z }.
#[export] Instance exec_start_event_settable : Settable exec_start_event :=
  fun r => ExecStart (xs_pid r) (xs_exe_size r) (xs_exe r).

Inductive proc_event :=
| PROC_EXEC_START (e : exec_start_event)
| PROC_EXEC_ARGV (pid argv_size : Z) (argv : list Z)
| PROC_EXEC_END (pid : Z)
| PROC_EXIT (pid exit_code : Z).

(** ** State *)

Record trace_state := TraceState {
  f_trace_toggle : gmap Z bool;
  trace_events : list trace_event }.
#[export] Instance trace_state_settable : Settable trace_state :=
  fun r => TraceState (f_trace_toggle r) (trace_events r).

Record proc_state := ProcState {
  f_process_meta : gmap Z process_meta;
  f_exit_code : gmap Z Z;
  proc_events : list proc_event }.
#[export] Instance proc_state_settable : Settable proc_state :=
  fun r => ProcState (f_process_meta r) (f_exit_code r) (proc_events r).

Record sock_state := SockState {
  f_active_socket_args : gmap Z SOCKET_TYPE;
  f_active_socket_types : gmap pid_fd_key SOCKET_TYPE;
  f_active_fd_args : gmap socket_op_key Z;
  f_active_addr_args : gmap pid_fd_key Z;
  f_active_write_args : gmap pid_fd_key data_args;
  f_active_read_args : gmap pid_fd_key data_args;
  f_active_close_args : gmap pid_fd_key Z;
  f_uprobe_fd_requests : gmap Z fd_request;
  f_conn_info : gmap pid_fd_key conn_info;
  f_data_heap : socket_data_event;
  f_client_hello_heap : socket_tls_hello_event;
  f_server_hello_heap : socket_tls_hello_event;
  socket_events : list socket_event }.
#[export] Instance sock_state_settable : Settable sock_state :=
  fun r => SockState (f_active_socket_args r) (f_active_socket_types r) (f_active_fd_args r)
    (f_active_addr_args r) (f_active_write_args r) (f_active_read_args r)
    (f_active_close_args r) (f_uprobe_fd_requests r) (f_conn_info r) (f_data_heap r)
    (f_client_hello_heap r) (f_server_hello_heap r) (socket_events r).

Record spf_state := SpfState {
  f_sock_alloc_file_args : gmap Z Z;
  f_file_to_sock : gmap Z Z;
  f_file_to_pid_fd : gmap Z pid_fd_key;
  f_tcp_source_addr : gmap Z addr_port_key;
  f_pid_fd_to_sock : gmap pid_fd_key Z;
  f_addr_port_to_pid : gmap addr_port_key Z }.
#[export] Instance spf_state_settable : Settable spf_state :=
  fun r => SpfState (f_sock_alloc_file_args r) (f_file_to_sock r) (f_file_to_pid_fd r)
    (f_tcp_source_addr r) (f_pid_fd_to_sock r) (f_addr_port_to_pid r).

Record rdr_state := RdrState {
  f_map_ports : gmap addr_port_key Z;
  f_map_socks : gmap Z rdr_socket }.
#[export] Instance rdr_state_settable : Settable rdr_state :=
  fun r => RdrState (f_map_ports r) (f_map_socks r).

Record java_state := JavaState {
  f_java_read_args : gmap Z java_ssl_args;
  f_java_write_args : gmap Z java_ssl_args;
  f_java_syscall_args : gmap Z data_args;
  f_java_pids : gmap Z bool;
  f_java_session_ignore : gmap Z bool;
  f_java_uprobe_correlated : gmap Z bool;
  f_java_syscall_correlated : gmap pid_fd_key bool;
  f_java_heap : java_ssl_engine_event;
  java_events : list java_event }.
#[export] Instance java_state_settable : Settable java_state :=
  fun r => JavaState (f_java_read_args r) (f_java_write_args r) (f_java_syscall_args r) (f_java_pids r)
    (f_java_session_ignore r) (f_java_uprobe_correlated r) (f_java_syscall_correlated r) (f_java_heap r)
    (java_events r).

Record tls_state := TlsState {
  f_ssl_read_args : gmap Z data_args;
  f_ssl_write_args : gmap Z data_args;
  f_ssl_to_fd : gmap Z Z;
  f_node_symaddrs : gmap Z node_tls_symaddr;
  f_node_ssl_to_tlswrap : gmap Z Z;
  f_node_tlswrap_to_ssl : gmap Z Z;
  f_node_tlswrap_exists : gmap Z bool;
  f_go_symaddrs : gmap Z go_tls_symaddr;
  f_go_conn_op : gmap tgid_goid_t go_tls_conn_args;
  f_java : java_state }.
#[export] Instance tls_state_settable : Settable tls_state :=
  fun r => TlsState (f_ssl_read_args r) (f_ssl_write_args r) (f_ssl_to_fd r) (f_node_symaddrs r)
    (f_node_ssl_to_tlswrap r) (f_node_tlswrap_to_ssl r) (f_node_tlswrap_exists r) (f_go_symaddrs r)
    (f_go_conn_op r) (f_java r).

(** [calls] counts the helper calls whose outcome the kernel decides afresh
    each time (the clock and the ring buffers). *)
Record world := World {
  calls : nat;
  w_trace : trace_state;
  f_socket_settings : gmap Z Z;
  f_mgmt_addrs : gmap Z mgmt_addrs;
  w_proc : proc_state;
  w_sock : sock_state;
  w_spf : spf_state;
  w_rdr : rdr_state;
  w_tls : tls_state }.
#[export] Instance world_settable : Settable world :=
  fun r => World (calls r) (w_trace r) (f_socket_settings r) (f_mgmt_addrs r) (w_proc r)
    (w_sock r) (w_spf r) (w_rdr r) (w_tls r).

(** ** Environment *)

(** Probe reads return the helper's return value and the bytes it leaves in the
    destination; a struct field read with [bpf_probe_read] from a kernel pointer is a
    function of the pointer.  [ktime_ns] and [ringbuf_room] are indexed by [calls].
    [ringbuf_open], [ringbuf_exec], [ringbuf_argv] are the contents of freshly reserved ring-buffer
    records, which the kernel does not clear. *)
Class Env := {
  bpf_get_current_pid_tgid : Z;
  qpid : Z;
  ktime_ns : nat -> Z;
  ringbuf_room : nat -> bool;
  ringbuf_open : nat -> socket_open_event;
  ringbuf_exec : nat -> exec_start_event;
  ringbuf_argv : nat -> list Z;
  bpf_probe_read_user : Z -> Z -> Z * list Z;
  bpf_probe_read : Z -> Z -> Z * list Z;
  bpf_probe_read_str : Z -> Z -> Z * list Z;
  read_str_len : string -> Z -> Z;
  sock_sk : Z -> Z;
  skc_cookie : Z -> Z;
  skc_num : Z -> Z;
  skc_dport : Z -> Z;
  skc_family : Z -> Z;
  skc_rcv_saddr : Z -> list Z;
  skc_daddr : Z -> list Z;
  skc_v6_rcv_saddr : Z -> list Z;
  skc_v6_daddr : Z -> list Z;
  sk_type : Z -> Z;
  sk_protocol : Z -> Z;
  sk_gso_max_segs : Z -> Z;
  bpf_get_socket_cookie : Z -> Z;
  signal_live : Z;
  lru_keep : Z -> bool;
  lru_keep_port : addr_port_key -> bool }.
#[export] Instance env_settable : Settable Env :=
  fun r => Build_Env (@bpf_get_current_pid_tgid r) (@qpid r) (@ktime_ns r) (@ringbuf_room r) 
    (@ringbuf_open r) (@ringbuf_exec r) (@ringbuf_argv r) (@bpf_probe_read_user r) 
    (@bpf_probe_read r) (@bpf_probe_read_str r) (@read_str_len r) (@sock_sk r) (@skc_cookie r) 
    (@skc_num r) (@skc_dport r) (@skc_family r) (@skc_rcv_saddr r) (@skc_daddr r) 
    (@skc_v6_rcv_saddr r) (@skc_v6_daddr r) (@sk_type r) (@sk_protocol r) (@sk_gso_max_segs r) 
    (@bpf_get_socket_cookie r) (@signal_live r) (@lru_keep r) (@lru_keep_port r).

(** What the kernel guarantees about the helpers: a probe read fills the whole
    destination with bytes, and a non-zero return is negative. *)
Class EnvOk (E : Env) := {
  read_user_length a n : 0 <= n -> length (bpf_probe_read_user a n).2 = Z.to_nat n;
  read_user_bytes a n : Forall is_byte (bpf_probe_read_user a n).2;
  pid_tgid_range : 0 <= bpf_get_current_pid_tgid < 2 ^ 64 }.

(** The user memory at [a] holds [bs]: every read inside it succeeds and returns it. *)
Definition user_holds {E : Env} (a : Z) (bs : list Z) : Prop :=
  forall off n : nat, (off + n <= length bs)%nat ->
  bpf_probe_read_user (a + Z.of_nat off) (Z.of_nat n) = (0, take n (drop off bs)).

(** ** Maps and helpers *)

(** A declared map: where it lives in the state, its [max_entries], and for an
    LRU map which entries the kernel keeps when it makes room. *)
Record bpf_map (K V : Type) `{Countable K} := BpfMap {
  bm_get : world -> gmap K V;
  bm_set : gmap K V -> world -> world;
  bm_max : Z;
  bm_lru : option (K -> bool) }.
Arguments BpfMap {K V _ _} _ _ _ _.
Arguments bm_get {K V _ _} _ _.
Arguments bm_set {K V _ _} _ _ _.
Arguments bm_max {K V _ _} _.
Arguments bm_lru {K V _ _} _.

Section helpers.
Context {K V : Type} `{Countable K}.

Definition bpf_map_lookup_elem (m : bpf_map K V) (k : K) : M world (option V) :=
  gets (fun w => bm_get m w !! k).

Definition bpf_map_update_elem (m : bpf_map K V) (k : K) (v : V) : M world Z :=
  fun w =>
    match bm_lru m with
    | None => let r := hash_update (bm_max m) k v (bm_get m w) in (r.1, bm_set m r.2 w)
    | Some keep => (0, bm_set m (lru_update keep (bm_max m) k v (bm_get m w)) w)
    end.

Definition bpf_map_delete_elem (m : bpf_map K V) (k : K) : M world Z :=
  fun w => (if bool_decide (is_Some (bm_get m w !! k)) then 0 else -2,
            bm_set m (delete k (bm_get m w)) w).

(** A store through a pointer into the map, obtained from a lookup. *)
Definition store_elem (m : bpf_map K V) (k : K) (v : V) : M world unit :=
  modify (fun w => bm_set m (<[k:=v]> (bm_get m w)) w).

Lemma update_elem_room (m : bpf_map K V) k v w :
  bm_lru m = None -> has_room (bm_max m) k (bm_get m w) ->
  bpf_map_update_elem m k v w = (0, bm_set m (<[k:=v]> (bm_get m w)) w).
Proof. intros Hl Hr. unfold bpf_map_update_elem. by rewrite Hl, hash_update_room. Qed.

End helpers.

Section env_helpers.
Context {E : Env}.

Definition tick : M world nat := fun w => (calls w, w <| calls ::= S |>).

Definition bpf_ktime_get_ns : M world Z := let* n := tick in ret (u64 (ktime_ns n)).

(** Whether the reservation succeeded, and its index. *)
Definition bpf_ringbuf_reserve : M world (option nat) :=
  let* n := tick in ret (if ringbuf_room n then Some n else None).

End env_helpers.

Definition submit_socket_event (ev : socket_event) : M world unit :=
  modify (fun w => w <| w_sock ::= fun s => s <| socket_events ::= fun l => l ++ [ev] |> |>).

Definition submit_trace_event (ev : trace_event) : M world unit :=
  modify (fun w => w <| w_trace ::= fun s => s <| trace_events ::= fun l => l ++ [ev] |> |>).

Definition submit_proc_event (ev : proc_event) : M world unit :=
  modify (fun w => w <| w_proc ::= fun s => s <| proc_events ::= fun l => l ++ [ev] |> |>).

Definition submit_java_event (ev : java_event) : M world unit :=
  modify (fun w => w <| w_tls ::= fun s => s <| f_java ::= fun j => j <| java_events ::= fun l => l ++ [ev] |> |> |>).

(** [bpf_ringbuf_output(&java_ssl_engine_events, ...)] *)
Definition java_events_output {E : Env} (ev : java_event) : M world unit :=
  let* r := bpf_ringbuf_reserve in
  match r with Some _ => submit_java_event ev | None => ret tt end.

(** [bpf_ringbuf_output(&socket_events, ...)] *)
Definition socket_events_output {E : Env} (ev : socket_event) : M world unit :=
  let* r := bpf_ringbuf_reserve in
  match r with Some _ => submit_socket_event ev | None => ret tt end.

(** ** A flat environment

    A concrete environment for evaluating programs: one readable region of
    memory at [base], a ring buffer that never fills, a clock that counts calls
    and a socket with all fields zero.  Other fields are set by record update. *)

Definition mem_read (base : Z) (mem : list Z) (a n : Z) : Z * list Z :=
  if (base <=? a) && (a + n <=? base + Z.of_nat (length mem)) && (0 <=? n)
  then (0, take (Z.to_nat n) (drop (Z.to_nat (a - base)) mem))
  else (-14, zeros (Z.to_nat n)).

(** The bytes up to and including the first zero. *)
Fixpoint c_string (bs : list Z) : list Z :=
  match bs with [] => [] | b :: t => b :: if b =? 0 then [] else c_string t end.

Definition mem_read_str (base : Z) (mem : list Z) (a n : Z) : Z * list Z :=
  if (base <=? a) && (a <? base + Z.of_nat (length mem))
  then let s := take (Z.to_nat n) (c_string (drop (Z.to_nat (a - base)) mem)) in
       (Z.of_nat (length s), s)
  else (-14, []).

Definition conn_pid_id_zero : conn_pid_id := ConnPidId 0 0 0 C_CLIENT 0.

Definition flat_env (pid_tgid base : Z) (mem : list Z) : Env := {|
  bpf_get_current_pid_tgid := pid_tgid;
  qpid := 0;
  ktime_ns := Z.of_nat;
  ringbuf_room := fun _ => true;
  ringbuf_open := fun _ =>
    OpenEvent 0 0 conn_pid_id_zero 0 net_addr_zero net_addr_zero 0 0 S_UNKNOWN false;
  ringbuf_exec := fun _ => ExecStart 0 0 (zeros 1024);
  ringbuf_argv := fun _ => zeros 1024;
  bpf_probe_read_user := mem_read base mem;
  bpf_probe_read := mem_read base mem;
  bpf_probe_read_str := mem_read_str base mem;
  read_str_len := fun s _ => Z.of_nat (String.length s) + 1;
  sock_sk := id;
  skc_cookie := fun _ => 0;
  skc_num := fun _ => 0;
  skc_dport := fun _ => 0;
  skc_family := fun _ => 0;
  skc_rcv_saddr := fun _ => zeros 4;
  skc_daddr := fun _ => zeros 4;
  skc_v6_rcv_saddr := fun _ => zeros 16;
  skc_v6_daddr := fun _ => zeros 16;
  sk_type := fun _ => 0;
  sk_protocol := fun _ => 0;
  sk_gso_max_segs := fun _ => 0;
  bpf_get_socket_cookie := fun _ => 0;
  signal_live := 0;
  lru_keep := fun _ => true;
  lru_keep_port := fun _ => true |}.

Lemma flat_env_ok pid_tgid base mem :
  Forall is_byte mem -> 0 <= pid_tgid < 2 ^ 64 -> EnvOk (flat_env pid_tgid base mem).
Proof.
  intros Hmem Hpid. split; [intros a n Hn|intros a n|done];
    cbn -[Z.of_nat]; unfold mem_read; destruct (_ && _) eqn:Hb; cbn [snd].
  - rewrite length_take, length_drop. rewrite !andb_true_iff, !Z.leb_le in Hb. lia.
  - apply length_replicate.
  - by apply Forall_take, Forall_drop.
  - by apply Forall_replicate.
Qed.

Lemma flat_env_user_holds pid_tgid base mem : @user_holds (flat_env pid_tgid base mem) base mem.
Proof.
  intros off n Hle. cbn -[Z.of_nat]. unfold mem_read.
  rewrite (proj2 (Z.leb_le _ _)), (proj2 (Z.leb_le _ _)), (proj2 (Z.leb_le _ _)) by lia.
  cbn [andb]. by rewrite Z.add_simpl_l, !Nat2Z.id.
Qed.

Lemma flat_env_holds_at pid_tgid base mem a bs :
  base <= a -> a - base + Z.of_nat (length bs) <= Z.of_nat (length mem) ->
  take (length bs) (drop (Z.to_nat (a - base)) mem) = bs ->
  @user_holds (flat_env pid_tgid base mem) a bs.
Proof.
  intros Ha Hlen Hbs off n Hle.
  replace (a + Z.of_nat off) with (base + Z.of_nat (Z.to_nat (a - base) + off)) by lia.
  rewrite flat_env_user_holds by lia. f_equal.
  rewrite <- Hbs, <- drop_drop, skipn_firstn_comm, take_take. f_equal. lia.
Qed.

(** The object just after loading, its per-CPU buffers cleared. *)
Definition world_init : world :=
  World 0 (TraceState ∅ []) ∅ ∅ (ProcState ∅ ∅ [])
    (SockState ∅ ∅ ∅ ∅ ∅ ∅ ∅ ∅ ∅
       (DataEvent 0 0 conn_pid_id_zero 0 0 0 0 0 0 (zeros (Z.to_nat MAX_MSG_SIZE)))
       (HelloEvent 0 0 0 (zeros (Z.to_nat MAX_MSG_SIZE)))
       (HelloEvent 0 0 0 (zeros (Z.to_nat MAX_MSG_SIZE))) [])
    (SpfState ∅ ∅ ∅ ∅ ∅ ∅) (RdrState ∅ ∅) (TlsState ∅ ∅ ∅ ∅ ∅ ∅ ∅ ∅ ∅
       (JavaState ∅ ∅ ∅ ∅ ∅ ∅ ∅ (JavaHeap 0 0 0 0 0 0 0) [])).
