(* ===== verification/Trace.v ===== *)
(** * Trace messages

    [bpf/tap/trace.bpf.h]: the [trace_toggle_map] test and the message,
    attribute and end records of one trace.  Components and process ids share
    one toggle map, which is why ids below 100 are never traced. *)

From stdpp Require Import base numbers list gmap strings.
From S2P Require Import Prelude Tap Bpf.

Definition MAX_TRACE_MSG_SIZE : nat := 256.

Definition trace_toggle_map : bpf_map Z bool :=
  BpfMap (fun w => f_trace_toggle (w_trace w))
    (fun m w => w <| w_trace ::= fun s => s <| f_trace_toggle := m |> |>) 128 None.

Definition trace_enabled (component : Z) : M world bool :=
  let* enabled := bpf_map_lookup_elem trace_toggle_map component in
  match enabled with None => ret false | Some b => ret b end.

Definition trace_enabled_for_pid (component pid : Z) : M world bool :=
  if pid <? 100 then ret false
  else
    let* component_enabled := trace_enabled component in
    if negb component_enabled then ret false
    else
      let* enabled := bpf_map_lookup_elem trace_toggle_map pid in
      match enabled with None => ret false | Some b => ret b end.

(** The copy of a C string into a [MAX_TRACE_MSG_SIZE] buffer: at most 255
    characters and the terminating zero, which the size counts. *)
Definition clip (s : string) : Z * string :=
  let msg_len := if Nat.leb MAX_TRACE_MSG_SIZE (String.length s)
                 then (MAX_TRACE_MSG_SIZE - 1)%nat else String.length s in
  (Z.of_nat msg_len + 1, String.substring 0 msg_len s).

(** The attribute macros [TRACE_STRING], [TRACE_INT], ... *)
Inductive trace_arg :=
| TRACE_STRING (title value : string)
| TRACE_INT (title : string) (value : Z)
| TRACE_UINT (title : string) (value : Z)
| TRACE_BOOL (title : string) (value : bool)
| TRACE_POINTER (title : string) (value : Z)
| TRACE_IP4 (title : string) (addr : list Z)
| TRACE_IP6 (title : string) (addr : list Z)
| TRACE_PORT (title : string) (port : Z).

Section trace.
Context {E : Env}.

Definition trace_msg (tsid : Z) (msg : string) : M world unit :=
  let* r := bpf_ringbuf_reserve in
  match r with
  | None => ret tt
  | Some _ => submit_trace_event (TRACE_MSG tsid (clip msg).1 (clip msg).2)
  end.

Definition trace_end (tsid : Z) : M world unit :=
  let* r := bpf_ringbuf_reserve in
  match r with None => ret tt | Some _ => submit_trace_event (TRACE_END tsid) end.

(** [trace_attr_int], [trace_attr_uint], [trace_attr_pointer],
    [trace_attr_bool], [trace_attr_ip4] and [trace_attr_ip6] differ in the union
    member only. *)
Definition trace_attr (tsid : Z) (title : string) (value : trace_value) : M world unit :=
  let* r := bpf_ringbuf_reserve in
  match r with
  | None => ret tt
  | Some _ => submit_trace_event (TRACE_ATTR tsid (clip title).1 (clip title).2 value)
  end.

(** [trace_attr_string] discards the record when the string cannot be read. *)
Definition trace_attr_string (tsid : Z) (title value : string) : M world unit :=
  let* r := bpf_ringbuf_reserve in
  match r with
  | None => ret tt
  | Some _ =>
      let value_read_result := read_str_len value (Z.of_nat MAX_TRACE_MSG_SIZE) in
      if value_read_result <=? 0 then ret tt
      else submit_trace_event
             (TRACE_ATTR tsid (clip title).1 (clip title).2 (TV_string value_read_result value))
  end.

(** [trace_port] reverses the port and reports it unsigned. *)
Definition trace_one (tsid : Z) (a : trace_arg) : M world unit :=
  match a with
  | TRACE_STRING t v => trace_attr_string tsid t v
  | TRACE_INT t v => trace_attr tsid t (TV_int (s64 v))
  | TRACE_UINT t v => trace_attr tsid t (TV_uint (u64 v))
  | TRACE_BOOL t v => trace_attr tsid t (TV_bool v)
  | TRACE_POINTER t v => trace_attr tsid t (TV_pointer v)
  | TRACE_IP4 t v => trace_attr tsid t (TV_ip4 (take 4 v))
  | TRACE_IP6 t v => trace_attr tsid t (TV_ip6 (take 16 v))
  | TRACE_PORT t v => trace_attr tsid t (TV_uint (bswap16 v))
  end.

Fixpoint TRACE_HELPER (tsid : Z) (args : list trace_arg) : M world unit :=
  match args with
  | [] => trace_end tsid
  | a :: rest => trace_one tsid a ;; TRACE_HELPER tsid rest
  end.

Definition TRACE (msg : string) (args : list trace_arg) : M world unit :=
  let* tsid := bpf_ktime_get_ns in
  trace_msg tsid msg ;;
  TRACE_HELPER tsid args.

Definition TRACE_IF_ENABLED (component : QTAP_COMPONENT) (pid : Z) (msg : string)
    (args : list trace_arg) : M world unit :=
  let* on := trace_enabled_for_pid (component_num component) pid in
  if on then TRACE msg args else ret tt.

Definition TRACE_GOTLS := TRACE_IF_ENABLED QTAP_GOTLS.
Definition TRACE_NODETLS := TRACE_IF_ENABLED QTAP_NODETLS.
Definition TRACE_JAVASSL := TRACE_IF_ENABLED QTAP_JAVASSL.
Definition TRACE_OPENSSL := TRACE_IF_ENABLED QTAP_OPENSSL.
Definition TRACE_SOCKET := TRACE_IF_ENABLED QTAP_SOCKET.
Definition TRACE_REDIRECTOR := TRACE_IF_ENABLED QTAP_REDIRECTOR.

End trace.

(** ** Tracing is invisible to everything but the trace buffer *)

(** Two states that agree on all but the trace buffer and the call counter. *)
Definition same_but_trace (w w' : world) : Prop :=
  (calls w <= calls w')%nat
  /\ f_socket_settings w' = f_socket_settings w /\ f_mgmt_addrs w' = f_mgmt_addrs w
  /\ w_proc w' = w_proc w /\ w_sock w' = w_sock w /\ w_spf w' = w_spf w /\ w_rdr w' = w_rdr w
  /\ f_trace_toggle (w_trace w') = f_trace_toggle (w_trace w)
  /\ trace_events (w_trace w) `prefix_of` trace_events (w_trace w')
  /\ w_tls w' = w_tls w.

#[export] Instance same_but_trace_preorder : PreOrder same_but_trace.
Proof.
  split; [by intros w; split_and!|].
  intros u v w (?&?&?&?&?&?&?&?&?&?) (?&?&?&?&?&?&?&?&?&?). split_and!; try congruence; [lia|by etrans].
Qed.

Section trace_facts.
Context {E : Env}.

Lemma tick_same : respects same_but_trace tick.
Proof. intros w. repeat split; try done. cbn. lia. Qed.

Lemma submit_trace_event_same ev : respects same_but_trace (submit_trace_event ev).
Proof. intros w. split_and!; try done. cbn. by apply prefix_app_r. Qed.

#[local] Hint Resolve tick_same submit_trace_event_same : respects.

Lemma reserve_same : respects same_but_trace bpf_ringbuf_reserve.
Proof. unfold bpf_ringbuf_reserve. respects. Qed.

Lemma ktime_same : respects same_but_trace bpf_ktime_get_ns.
Proof. unfold bpf_ktime_get_ns. respects. Qed.

#[local] Hint Resolve reserve_same ktime_same : respects.

Lemma trace_one_same tsid a : respects same_but_trace (trace_one tsid a).
Proof. destruct a; unfold trace_one, trace_attr, trace_attr_string; respects. Qed.

#[local] Hint Resolve trace_one_same : respects.

Lemma trace_helper_same tsid args : respects same_but_trace (TRACE_HELPER tsid args).
Proof. induction args; cbn [TRACE_HELPER]; unfold trace_end; respects. Qed.

#[local] Hint Resolve trace_helper_same : respects.

Lemma trace_if_enabled_same component pid msg args :
  respects same_but_trace (TRACE_IF_ENABLED component pid msg args).
Proof.
  unfold TRACE_IF_ENABLED, trace_enabled_for_pid, trace_enabled, bpf_map_lookup_elem, TRACE, trace_msg.
  respects.
Qed.

End trace_facts.
#[export] Hint Resolve tick_same reserve_same ktime_same trace_if_enabled_same : respects.
