(* ===== verification/Common.v ===== *)
(** * Common helpers

    [bpf/tap/common.bpf.h]: the string routines and the split of
    [bpf_get_current_pid_tgid].  A C string is the list of its bytes from the
    pointer on; the bytes after the object are not read by the routines. *)

From stdpp Require Import base numbers list gmap strings.
From Stdlib Require Import Ascii.
From S2P Require Import Prelude Tap Bpf.

Definition LOOP_LIMIT : nat := 64.
Definition INVALID_FD : Z := -1.

(** The bytes of a C string literal, without the terminating zero. *)
Fixpoint bytes_of_string (s : string) : list Z :=
  match s with
  | EmptyString => []
  | String c rest => Z.of_nat (nat_of_ascii c) :: bytes_of_string rest
  end.

(** A byte read through [char *], which is signed on the BPF target. *)
Definition schar (b : Z) : Z := if b <? 128 then b else b - 256.

Fixpoint _strncmp (s1 s2 : list Z) (n : nat) : Z :=
  match n with
  | O => 0
  | S n' =>
      let a := hd 0 s1 in
      let b := hd 0 s2 in
      if negb (a =? b) || (a =? 0) then schar a - schar b
      else _strncmp (tl s1) (tl s2) n'
  end.

(** The inner loop of [_strstr]: [while ( *h && *n && *h == *n) ++h, ++n], and
    whether it stopped at the end of the needle. *)
Fixpoint strstr_match (h n : list Z) {struct n} : bool :=
  match n with
  | [] => true
  | c :: n' =>
      if c =? 0 then true
      else match h with
           | [] => false
           | d :: h' => if (d =? 0) || negb (d =? c) then false else strstr_match h' n'
           end
  end.

(** [_strstr], as the offset of the returned pointer. *)
Fixpoint strstr_from (i : nat) (haystack needle : list Z) : option nat :=
  match haystack with
  | [] => None
  | c :: rest =>
      if c =? 0 then None
      else if (c =? hd 0 needle) && strstr_match haystack needle then Some i
      else strstr_from (S i) rest needle
  end.

Definition _strstr (haystack needle : list Z) : option nat :=
  if hd 0 needle =? 0 then Some 0%nat else strstr_from 0 haystack needle.

Fixpoint _strlen (s : list Z) (max : nat) : nat :=
  match max, s with
  | S m, c :: rest => if c =? 0 then O else S (_strlen rest m)
  | _, _ => O
  end.

Section pid.
Context {E : Env}.

Definition bpf_get_current_kernel_pid : Z := u32 bpf_get_current_pid_tgid.
Definition bpf_get_current_kernel_tgid : Z := u32 (Z.shiftr bpf_get_current_pid_tgid 32).
Definition bpf_get_current_userspace_pid : Z := bpf_get_current_kernel_tgid.
Definition bpf_get_current_userspace_tgid : Z := bpf_get_current_kernel_pid.

End pid.

(** [uint32_t pid = pid_tgid >> 32;] and [(uint32_t)(pid_tgid & 0xFFFFFFFF)] *)
Definition pid_of (pid_tgid : Z) : Z := u32 (Z.shiftr pid_tgid 32).
Definition tid_of (pid_tgid : Z) : Z := u32 (Z.land pid_tgid 0xFFFFFFFF).

(** ** Properties *)

Lemma schar_inj a b : is_byte a -> is_byte b -> schar a - schar b = 0 <-> a = b.
Proof. unfold is_byte, schar. do 2 case_match; lia. Qed.

(** [_strncmp] against a literal of length [n] is the prefix test. *)
Lemma strncmp_prefix s lit :
  Forall is_byte s -> Forall (fun b => 0 < b < 256) lit ->
  _strncmp s lit (length lit) = 0 <-> lit `prefix_of` s.
Proof.
  intros Hs Hl. revert s Hs. induction Hl as [|c lit Hc _ IH]; intros s Hs.
  { split; [intros _; apply prefix_nil|done]. }
  cbn [length _strncmp hd tl].
  destruct s as [|d s]; cbn [hd tl].
  { destruct (Z.eqb_spec 0 c); [lia|]. cbn [negb orb].
    rewrite schar_inj by (unfold is_byte; lia).
    split; [lia|]. by intros ?%prefix_nil_not. }
  apply Forall_cons in Hs as [Hd Hs].
  destruct (Z.eqb_spec d c) as [->|Hne]; cbn [negb orb].
  - destruct (Z.eqb_spec c 0); [lia|]. rewrite IH by done. split.
    + intros. by apply prefix_cons.
    + by intros ?%prefix_cons_inv_2.
  - rewrite schar_inj by (unfold is_byte in *; lia). split; [lia|].
    by intros ?%prefix_cons_inv_1.
Qed.

Lemma strstr_match_prefix h n :
  Forall (fun b => b <> 0) h -> Forall (fun b => b <> 0) n ->
  strstr_match h n = true <-> n `prefix_of` h.
Proof.
  intros Hh Hn. revert h Hh. induction Hn as [|c n Hc _ IH]; intros h Hh.
  { split; [intros _; apply prefix_nil|done]. }
  cbn [strstr_match]. rewrite (proj2 (Z.eqb_neq c 0) Hc). destruct h as [|d h].
  { split; [done|]. by intros ?%prefix_nil_not. }
  apply Forall_cons in Hh as [Hd Hh]. rewrite (proj2 (Z.eqb_neq d 0) Hd). cbn [orb].
  destruct (Z.eqb_spec d c) as [->|]; cbn [negb].
  - rewrite IH by done. split; [by apply prefix_cons|]. by intros ?%prefix_cons_inv_2.
  - split; [done|]. by intros ?%prefix_cons_inv_1.
Qed.

Lemma strstr_from_spec i h n :
  Forall (fun b => b <> 0) h -> Forall (fun b => b <> 0) n -> n <> [] ->
  match strstr_from i h n with
  | Some k => (i <= k)%nat /\ n `prefix_of` drop (k - i) h
      /\ forall j, (j < k - i)%nat -> ~ n `prefix_of` drop j h
  | None => forall j, ~ n `prefix_of` drop j h
  end.
Proof.
  intros Hh Hn Hne. revert i. induction Hh as [|c h Hc Hh IH]; intros i.
  { intros j. rewrite drop_nil. intros ->%prefix_nil_inv. done. }
  cbn [strstr_from]. pose proof (proj2 (Z.eqb_neq _ _) Hc) as ->.
  assert (Hm : (c =? hd 0 n) && strstr_match (c :: h) n = true <-> n `prefix_of` c :: h).
  { rewrite andb_true_iff, Z.eqb_eq, strstr_match_prefix by (done || by constructor).
    split; [naive_solver|]. intros Hp. split; [|done]. destruct n as [|d n]; [done|].
    by apply prefix_cons_inv_1 in Hp. }
  destruct (_ && _) eqn:Em.
  { rewrite Nat.sub_diag. split; [lia|]. split; [by apply Hm|lia]. }
  specialize (IH (S i)). destruct (strstr_from (S i) h n) as [k|].
  - destruct IH as (Hk & Hp & Hmin). split; [lia|].
    replace (k - i)%nat with (S (k - S i)) by lia. split; [done|].
    intros [|j] Hj; [|apply Hmin; lia]. rewrite drop_0, <- Hm. done.
  - intros [|j]; [|apply IH]. rewrite drop_0, <- Hm. done.
Qed.

(** On zero-free strings [_strstr] returns the offset of the first occurrence of
    the needle, and null exactly when the needle does not occur. *)
Lemma strstr_first h n :
  Forall (fun b => b <> 0) h -> Forall (fun b => b <> 0) n ->
  match _strstr h n with
  | Some k => n `prefix_of` drop k h /\ forall j, (j < k)%nat -> ~ n `prefix_of` drop j h
  | None => forall j, ~ n `prefix_of` drop j h
  end.
Proof.
  intros Hh Hn. unfold _strstr. destruct n as [|c n].
  { cbn. split; [apply prefix_nil|lia]. }
  cbn [hd]. rewrite (proj2 (Z.eqb_neq c 0)) by by inversion Hn.
  pose proof (strstr_from_spec 0 h (c :: n) Hh Hn ltac:(done)) as H.
  destruct (strstr_from 0 h (c :: n)) as [k|]; [|done]. rewrite Nat.sub_0_r in H. tauto.
Qed.

Lemma strlen_spec s max :
  (_strlen s max <= max)%nat /\ Forall (fun b => b <> 0) (take (_strlen s max) s)
  /\ ((_strlen s max < max)%nat -> nth (_strlen s max) s 0 = 0).
Proof.
  revert s; induction max as [|m IH]; intros s; [by destruct s; repeat constructor; lia|].
  destruct s as [|c s]; [cbn; repeat constructor; lia|]. cbn [_strlen].
  destruct (Z.eqb_spec c 0) as [->|]; [cbn; repeat constructor; lia|].
  destruct (IH s) as (? & ? & Hz). cbn [take nth]. split_and!; [lia|by constructor|]. intros. apply Hz. lia.
Qed.
