(* ===== verification/Settings.v ===== *)
(** * Settings pushed by the loader

    [bpf/tap/settings.bpf.h] and [bpf/tap/settings.bpf.c]. *)

From stdpp Require Import base numbers list gmap.
From S2P Require Import Prelude Tap Bpf.

(** [enum SOCKET_SETTINGS] and the stream flags *)
Definition SOCK_SETTING_IGNORE_LOOPBACK : Z := 0.
Definition SOCK_SETTING_DIRECTION : Z := 1.
Definition SOCK_SETTING_STREAM_PROTOCOLS : Z := 2.

Definition STREAM_HTTP_FLAG : Z := 1.
Definition STREAM_REDIS_FLAG : Z := 2.
Definition STREAM_MYSQL_FLAG : Z := 4.
Definition STREAM_KAFKA_FLAG : Z := 8.

(** The value of a setting, read as [__u32]. *)
Definition socket_settings_map : bpf_map Z Z :=
  BpfMap f_socket_settings (fun m w => w <| f_socket_settings := m |>) 12 None.

Definition get_ignore_loopback_setting : M world bool :=
  let* setting_value := bpf_map_lookup_elem socket_settings_map SOCK_SETTING_IGNORE_LOOPBACK in
  match setting_value with None => ret false | Some v => ret (negb (v =? 0)) end.

Definition get_direction_setting : M world Z :=
  let* setting_value := bpf_map_lookup_elem socket_settings_map SOCK_SETTING_DIRECTION in
  match setting_value with None => ret D_ALL | Some v => ret v end.

Definition get_stream_protocols_setting : M world Z :=
  let* stream_protocols := bpf_map_lookup_elem socket_settings_map SOCK_SETTING_STREAM_PROTOCOLS in
  match stream_protocols with None => ret 0 | Some v => ret v end.

Definition should_stream (protocol : PROTOCOL) : M world bool :=
  let* stream_protocols := get_stream_protocols_setting in
  let has flag := negb (Z.land stream_protocols flag =? 0) in
  ret (match protocol with
       | P_HTTP1 | P_HTTP2 => has STREAM_HTTP_FLAG
       | P_REDIS => has STREAM_REDIS_FLAG
       | P_MYSQL => has STREAM_MYSQL_FLAG
       | P_KAFKA => has STREAM_KAFKA_FLAG
       | _ => false
       end).

(** ** Properties *)

(** The bit of the setting that enables a protocol. *)
Definition stream_bit (protocol : PROTOCOL) : option Z :=
  match protocol with
  | P_HTTP1 | P_HTTP2 => Some 0
  | P_REDIS => Some 1
  | P_MYSQL => Some 2
  | P_KAFKA => Some 3
  | _ => None
  end.

(** What the settings say, as functions of the state. *)
Definition direction_of (w : world) : Z := default D_ALL (f_socket_settings w !! SOCK_SETTING_DIRECTION).
Definition ignore_loopback_of (w : world) : bool :=
  match f_socket_settings w !! SOCK_SETTING_IGNORE_LOOPBACK with Some v => negb (v =? 0) | None => false end.
Definition streams (w : world) (protocol : PROTOCOL) : bool :=
  match stream_bit protocol, f_socket_settings w !! SOCK_SETTING_STREAM_PROTOCOLS with
  | Some i, Some v => Z.testbit v i
  | _, _ => false
  end.

Lemma get_direction_setting_run w : get_direction_setting w = (direction_of w, w).
Proof.
  unfold get_direction_setting, direction_of, bpf_map_lookup_elem, bind, gets. cbn.
  by destruct (f_socket_settings w !! _).
Qed.

Lemma get_ignore_loopback_setting_run w :
  get_ignore_loopback_setting w = (ignore_loopback_of w, w).
Proof.
  unfold get_ignore_loopback_setting, ignore_loopback_of, bpf_map_lookup_elem, bind, gets. cbn.
  by destruct (f_socket_settings w !! _).
Qed.

Lemma land_pow2_testbit v i : 0 <= i -> negb (Z.land v (2 ^ i) =? 0) = Z.testbit v i.
Proof.
  intros Hi. replace (Z.land v (2 ^ i)) with (if Z.testbit v i then 2 ^ i else 0).
  - destruct (Z.testbit v i); [|done]. pose proof (Z.pow_pos_nonneg 2 i).
    rewrite (proj2 (Z.eqb_neq _ _)); [done|lia].
  - apply Z.bits_inj'. intros j Hj. rewrite Z.land_spec, Z.pow2_bits_eqb by done.
    destruct (Z.eqb_spec i j) as [->|]; rewrite ?andb_true_r, ?andb_false_r.
    + destruct (Z.testbit v j); [by rewrite Z.pow2_bits_true|by rewrite Z.bits_0].
    + destruct (Z.testbit v i); [by rewrite Z.pow2_bits_false|by rewrite Z.bits_0].
Qed.

Lemma should_stream_run protocol w : should_stream protocol w = (streams w protocol, w).
Proof.
  unfold should_stream, streams, get_stream_protocols_setting, bpf_map_lookup_elem, bind, gets, ret.
  cbn [fst snd]. change (bm_get socket_settings_map w) with (f_socket_settings w).
  destruct (f_socket_settings w !! _) as [v|]; cbn [fst snd].
  - pose proof (land_pow2_testbit v 0); pose proof (land_pow2_testbit v 1).
    pose proof (land_pow2_testbit v 2); pose proof (land_pow2_testbit v 3).
    destruct protocol; cbn [stream_bit]; try done; f_equal; naive_solver lia.
  - by destruct protocol.
Qed.
