(* ===== verification/Process.v ===== *)
(** * Processes

    [bpf/tap/process.bpf.h] and [bpf/tap/process.bpf.c]: the metadata user
    space pushes down, the filter flags, and the exec and exit events. *)

From stdpp Require Import base numbers list gmap.
From S2P Require Import Prelude Tap Bpf Common.

Definition SKIP_DATA_FLAG : Z := 1.
Definition SKIP_DNS_FLAG : Z := 2.
Definition SKIP_TLS_FLAG : Z := 4.
Definition SKIP_HTTP_FLAG : Z := 8.
Definition SKIP_ALL_FLAGS : Z :=
  Z.lor (Z.lor (Z.lor SKIP_DATA_FLAG SKIP_DNS_FLAG) SKIP_TLS_FLAG) SKIP_HTTP_FLAG.

Definition MAX_EXEC_PATH_SIZE : Z := 1024.
Definition MAX_ARGV_COUNT : nat := 20.
Definition MAX_ARGV_SIZE : Z := 1024.

Definition process_meta_map : bpf_map Z process_meta :=
  BpfMap (fun w => f_process_meta (w_proc w))
    (fun m w => w <| w_proc ::= fun s => s <| f_process_meta := m |> |>) 5000 None.

Definition get_process_meta (pid : Z) : M world (option process_meta) :=
  bpf_map_lookup_elem process_meta_map pid.

(** [meta && (meta->filter & flag)] *)
Definition meta_flag (meta : option process_meta) (flag : Z) : bool :=
  match meta with Some m => negb (Z.land (pm_filter m) flag =? 0) | None => false end.

Section process.
Context {E : Env}.

Definition exit_code_map : bpf_map Z Z :=
  BpfMap (fun w => f_exit_code (w_proc w))
    (fun m w => w <| w_proc ::= fun s => s <| f_exit_code := m |> |>) 4096 (Some lru_keep).

Definition SKIP_DATA (pid : Z) : M world bool :=
  let* meta := get_process_meta pid in ret ((pid =? qpid) || meta_flag meta SKIP_DATA_FLAG).

Definition SKIP_DNS (pid : Z) : M world bool :=
  let* meta := get_process_meta pid in ret (meta_flag meta SKIP_DNS_FLAG).

Definition SKIP_TLS (pid : Z) : M world bool :=
  let* meta := get_process_meta pid in ret (meta_flag meta SKIP_TLS_FLAG).

Definition SKIP_HTTP (pid : Z) : M world bool :=
  let* meta := get_process_meta pid in ret (meta_flag meta SKIP_HTTP_FLAG).

Definition SKIP_ALL (pid : Z) : M world bool :=
  let* meta := get_process_meta pid in
  match meta with
  | None => ret false
  | Some m =>
      let flags := Z.land SKIP_ALL_FLAGS (Z.lnot SKIP_DATA_FLAG) in
      if Z.land (pm_filter m) flags =? flags then SKIP_DATA pid else ret false
  end.

Definition process_exec_ret : M world Z :=
  let* info_event := bpf_ringbuf_reserve in
  match info_event with
  | None => ret 0
  | Some _ =>
      submit_proc_event (PROC_EXEC_END (s32 (Z.shiftr bpf_get_current_pid_tgid 32))) ;;
      ret 0
  end.

(** The argument loop from index [i], with [n] iterations left. *)
Fixpoint exec_argv_loop (pid argv : Z) (i n : nat) : M world Z :=
  match n with
  | O => ret 0
  | S n' =>
      let rd := bpf_probe_read (argv + 8 * Z.of_nat i) 8 in
      let arg := le_load rd.2 in
      if negb (rd.1 =? 0) || (arg =? 0) then ret 0
      else
        let* argv_event := bpf_ringbuf_reserve in
        match argv_event with
        | None => ret 0
        | Some k =>
            let rs := bpf_probe_read_str arg MAX_ARGV_SIZE in
            let read_result := s32 rs.1 in
            (if read_result >? 0
             then submit_proc_event
                    (PROC_EXEC_ARGV pid (u32 read_result) (write_prefix rs.2 (ringbuf_argv k)))
             else ret tt) ;;
            exec_argv_loop pid argv (S i) n'
        end
  end.

Definition process_exec_entry (args0 args1 : Z) : M world Z :=
  let pid := s32 (Z.shiftr bpf_get_current_pid_tgid 32) in
  let* start_event := bpf_ringbuf_reserve in
  match start_event with
  | None => ret 0
  | Some k =>
      let rs := bpf_probe_read_str args0 MAX_EXEC_PATH_SIZE in
      let read_result := s32 rs.1 in
      let e := (ringbuf_exec k) <| xs_pid := pid |> in
      let e := e <| xs_exe ::= write_prefix rs.2 |> in
      let e := if read_result >? 0 then e <| xs_exe_size := u32 read_result |> else e in
      submit_proc_event (PROC_EXEC_START e) ;;
      exec_argv_loop pid args1 1 (MAX_ARGV_COUNT - 1)
  end.

Definition syscall__probe_entry_execve (args0 args1 : Z) : M world Z := process_exec_entry args0 args1.
Definition syscall__probe_entry_execveat (args0 args1 : Z) : M world Z := process_exec_entry args0 args1.
Definition syscall__probe_ret_execve : M world Z := process_exec_ret.
Definition syscall__probe_ret_execveat : M world Z := process_exec_ret.

Definition syscall__probe_entry_exit_group (args0 : Z) : M world Z :=
  let pid := s32 bpf_get_current_userspace_pid in
  let exit_code := s32 args0 in
  let* _ := bpf_map_update_elem exit_code_map pid exit_code in
  ret 0.

Definition tracepoint__sched__process_exit : M world Z :=
  if negb (signal_live =? 0) then ret 0
  else
    let* exit_event := bpf_ringbuf_reserve in
    match exit_event with
    | None => ret 0
    | Some _ =>
        let pid := s32 bpf_get_current_userspace_pid in
        let* exit_code_ptr := bpf_map_lookup_elem exit_code_map pid in
        let* exit_code :=
          match exit_code_ptr with
          | Some c => let* _ := bpf_map_delete_elem exit_code_map pid in ret c
          | None => ret 0
          end in
        submit_proc_event (PROC_EXIT pid exit_code) ;;
        ret 0
    end.

End process.

(** ** Properties *)

(** What a consumer reads of an event: the payload up to its declared size. *)
Definition reported (ev : proc_event) : proc_event :=
  match ev with
  | PROC_EXEC_START e => PROC_EXEC_START (e <| xs_exe ::= take (Z.to_nat (xs_exe_size e)) |>)
  | PROC_EXEC_ARGV pid size argv => PROC_EXEC_ARGV pid size (take (Z.to_nat size) argv)
  | ev => ev
  end.

Section exec.
Context {E : Env}.

(** The C string at [a] is [s], terminator included, and fits the destination. *)
Definition str_at (a : Z) (s : list Z) : Prop :=
  (0 < length s)%nat /\ Z.of_nat (length s) <= 1024
  /\ bpf_probe_read_str a 1024 = (Z.of_nat (length s), s).

(** From index [i] on, the array at [argv] holds [args], each a pointer and the
    string it points to, and then a null pointer. *)
Definition argv_holds (argv : Z) (i : nat) (args : list (Z * list Z)) : Prop :=
  (forall j p s, args !! j = Some (p, s) ->
     bpf_probe_read (argv + 8 * Z.of_nat (i + j)) 8 = (0, le_store 8 p)
     /\ 0 < p < 2 ^ 64 /\ str_at p s)
  /\ bpf_probe_read (argv + 8 * Z.of_nat (i + length args)) 8 = (0, le_store 8 0).

Lemma argv_holds_cons argv i p s args :
  argv_holds argv i ((p, s) :: args) ->
  bpf_probe_read (argv + 8 * Z.of_nat i) 8 = (0, le_store 8 p)
  /\ 0 < p < 2 ^ 64 /\ str_at p s /\ argv_holds argv (S i) args.
Proof.
  intros [H Hend]. pose proof (H 0%nat p s eq_refl) as H0. rewrite Nat.add_0_r in H0.
  split_and!; try apply H0. split.
  - intros j q t Hj. pose proof (H (S j) q t Hj) as HS. by rewrite <- Nat.add_succ_comm in HS.
  - cbn [length] in Hend. by rewrite <- Nat.add_succ_comm in Hend.
Qed.

Lemma u32_s32_length (s : list Z) :
  (0 < length s)%nat -> Z.of_nat (length s) <= 1024 ->
  s32 (Z.of_nat (length s)) = Z.of_nat (length s)
  /\ u32 (Z.of_nat (length s)) = Z.of_nat (length s) /\ (Z.of_nat (length s) >? 0) = true.
Proof.
  intros. rewrite s32_small, u32_small by lia. split_and!; [done..|]. apply Z.gtb_lt. lia.
Qed.

Lemma exec_argv_loop_spec pid argv n : forall i args w,
  (forall k, ringbuf_room k = true) -> argv_holds argv i args ->
  exists evs, proc_events (w_proc (exec_argv_loop pid argv i n w).2) = proc_events (w_proc w) ++ evs
  /\ map reported evs
     = map (fun a => PROC_EXEC_ARGV pid (Z.of_nat (length a.2)) a.2) (take n args).
Proof.
  induction n as [|n IH]; intros i args w Hroom Hargs; [exists []; by rewrite app_nil_r|].
  destruct args as [|[p s] args].
  { exists []. split; [|done]. destruct Hargs as [_ Hend]. rewrite Nat.add_0_r in Hend.
    cbn [exec_argv_loop]. rewrite Hend. by rewrite app_nil_r. }
  apply argv_holds_cons in Hargs as (Hrd & Hp & (Hs0 & Hs1 & Hs) & Hargs).
  cbn [exec_argv_loop]. rewrite Hrd. cbn [fst snd].
  rewrite le_load_store. change (256 ^ Z.of_nat 8) with (2 ^ 64). rewrite Z.mod_small by lia.
  rewrite (proj2 (Z.eqb_neq p 0)) by lia. cbn [negb orb Z.eqb].
  unfold bind at 1, bpf_ringbuf_reserve, tick, bind at 1. cbn [fst snd ret]. rewrite Hroom.
  unfold MAX_ARGV_SIZE. rewrite Hs. cbn [fst snd].
  destruct (u32_s32_length s Hs0 Hs1) as (-> & -> & ->).
  unfold bind. edestruct (IH (S i) args) as (evs & He & Hm); [done..|].
  eexists (_ :: evs). split; [etrans; [exact He|cbn; by rewrite <- app_assoc]|].
  cbn. by rewrite Nat2Z.id, take_write_prefix, Hm.
Qed.

End exec.

(** A successful [execve] entry reports one start event with the
    executable path, then one argument event for each of the first nineteen
    arguments after [argv[0]], in order and with the exact bytes of each string. *)
Theorem exec_entry_reports (E : Env) (args0 args1 : Z) (path : list Z) (args : list (Z * list Z)) w :
  (forall k, ringbuf_room k = true) -> str_at args0 path -> argv_holds args1 1 args ->
  let pid := s32 (Z.shiftr bpf_get_current_pid_tgid 32) in
  exists evs,
    proc_events (w_proc (syscall__probe_entry_execve args0 args1 w).2) = proc_events (w_proc w) ++ evs
    /\ map reported evs
       = PROC_EXEC_START (ExecStart pid (Z.of_nat (length path)) path)
         :: map (fun a => PROC_EXEC_ARGV pid (Z.of_nat (length a.2)) a.2) (take 19 args).
Proof.
  intros Hroom (Hp0 & Hp1 & Hp) Hargs pid.
  unfold syscall__probe_entry_execve, process_exec_entry, bpf_ringbuf_reserve, tick.
  fold pid. unfold bind at 1 2. cbn [fst snd ret]. rewrite Hroom.
  unfold MAX_EXEC_PATH_SIZE. rewrite Hp. cbn [fst snd].
  destruct (u32_s32_length path Hp0 Hp1) as (-> & -> & ->).
  unfold bind. edestruct (exec_argv_loop_spec pid args1 (MAX_ARGV_COUNT - 1)) as (evs & He & Hm);
    [done..|].
  eexists (_ :: evs). split; [etrans; [exact He|cbn; by rewrite <- app_assoc]|].
  cbn [map]. rewrite Hm. unfold reported, over. cbn. by rewrite Nat2Z.id, take_write_prefix.
Qed.

(** Path ["/a"] at 4096, argument vector at 4104, argument ["x"] at 4128. *)
Definition exec_demo : Env :=
  flat_env (7 * 2 ^ 32 + 7) 4096
    ([47; 97; 0; 0; 0; 0; 0; 0] ++ le_store 8 4096 ++ le_store 8 4128 ++ le_store 8 0 ++ [120; 0]).

Lemma exec_entry_reports_witness :
  exists evs,
    proc_events (w_proc (@syscall__probe_entry_execve exec_demo 4096 4104 world_init).2) = evs
    /\ map reported evs
       = [PROC_EXEC_START (ExecStart 7 3 [47; 97; 0]); PROC_EXEC_ARGV 7 2 [120; 0]].
Proof.
  apply (exec_entry_reports exec_demo 4096 4104 [47; 97; 0] [(4128, [120; 0])] world_init).
  - done.
  - by split_and!; [simpl; lia| |].
  - split; [|done]. intros [|[|j]] p s [= <- <-]. by split_and!; [| | |split_and!; [simpl; lia| |]].
Defined.

(** One [exit_group] call of some process: its environment and its argument. *)
Definition exit_group_all (calls : list (Env * Z)) (w : world) : world :=
  fold_left (fun w c => (@syscall__probe_entry_exit_group c.1 c.2 w).2) calls w.

Lemma exit_group_other (E : Env) args0 w pid code :
  s32 (@bpf_get_current_userspace_pid E) <> pid -> lru_keep pid = true ->
  f_exit_code (w_proc w) !! pid = Some code ->
  f_exit_code (w_proc (syscall__probe_entry_exit_group args0 w).2) !! pid = Some code.
Proof.
  intros Hne Hkeep Hw. cbn. unfold lru_update.
  destruct (_ || _); rewrite lookup_insert_ne by done; [done|].
  by apply map_lookup_filter_Some.
Qed.

Lemma exit_group_all_other calls pid code : forall w,
  Forall (fun c => s32 (@bpf_get_current_userspace_pid c.1) <> pid /\ @lru_keep c.1 pid = true) calls ->
  f_exit_code (w_proc w) !! pid = Some code ->
  f_exit_code (w_proc (exit_group_all calls w)) !! pid = Some code.
Proof.
  induction calls as [|c cs IH]; intros w Hall Hw; [done|].
  inversion_clear Hall as [|? ? [Hne Hk] Hcs]. apply IH; [done|]. by apply exit_group_other.
Qed.

(** The exit status a process passes to [exit_group] is the one its
    [PROC_EXIT] event carries, whatever other processes exit in between, as long
    as the kernel does not evict the entry; the entry is then removed.  A thread
    exit that leaves the process alive reports nothing. *)
Theorem exit_code_roundtrip (E E' : Env) args0 others w :
  let pid := s32 (@bpf_get_current_userspace_pid E) in
  s32 (@bpf_get_current_userspace_pid E') = pid ->
  (forall k, @ringbuf_room E' k = true) ->
  Forall (fun c => s32 (@bpf_get_current_userspace_pid c.1) <> pid /\ @lru_keep c.1 pid = true) others ->
  let w1 := exit_group_all others (@syscall__probe_entry_exit_group E args0 w).2 in
  let w2 := (@tracepoint__sched__process_exit E' w1).2 in
  if @signal_live E' =? 0
  then proc_events (w_proc w2) = proc_events (w_proc w1) ++ [PROC_EXIT pid (s32 args0)]
       /\ f_exit_code (w_proc w2) !! pid = None
  else w2 = w1.
Proof.
  intros pid Hpid Hroom Hothers w1 w2. unfold w2, tracepoint__sched__process_exit.
  destruct (@signal_live E' =? 0); [|done]. cbn [negb].
  assert (f_exit_code (w_proc w1) !! pid = Some (s32 args0)) as Hw1.
  { apply exit_group_all_other; [done|]. cbn. apply lru_update_lookup. }
  unfold bpf_ringbuf_reserve, tick, bind. cbn [fst snd ret]. rewrite Hroom, Hpid.
  unfold bpf_map_lookup_elem, gets. cbn [fst snd].
  change (bm_get _ _) with (f_exit_code (w_proc w1)). rewrite Hw1.
  split; [done|]. cbn. apply lookup_delete_eq.
Qed.

Lemma exit_code_roundtrip_witness :
  let E := flat_env (7 * 2 ^ 32 + 7) 0 [] in
  let E' := flat_env (8 * 2 ^ 32 + 8) 0 [] in
  let w1 := exit_group_all [(E', 0)] (@syscall__probe_entry_exit_group E 3 world_init).2 in
  let w2 := (@tracepoint__sched__process_exit E w1).2 in
  proc_events (w_proc w2) = proc_events (w_proc w1) ++ [PROC_EXIT 7 3]
  /\ f_exit_code (w_proc w2) !! 7 = None.
Proof.
  intros E E'. apply (exit_code_roundtrip E E 3 [(E', 0)] world_init); [done..|].
  by repeat constructor.
Defined.
