(* ===== verification/Buffers.v ===== *)
(** * Reading user buffers

    [bpf/tap/buffers.bpf.h]: a read of [size] bytes at an offset of a plain
    buffer or of a vector of buffers.  A read returns the number of bytes the
    source returns, and the bytes it wrote from the start of the destination
    on (a failed probe read clears its destination). *)

From stdpp Require Import base numbers list.
From S2P Require Import Prelude Tap Bpf.

Definition BUF_CHUNK_LIMIT : nat := 4.
Definition SIZEOF_IOVEC : Z := 16.

Record buf_info := BufInfo { bi_buf : Z; bi_iovcnt : Z }.

(** [struct iovec], as read from user memory *)
Definition iov_base (iov : list Z) : Z := le_load (take 8 iov).
Definition iov_len (iov : list Z) : Z := le_load (take 8 (drop 8 iov)).

Section buffers.
Context {E : Env}.

Definition buf_read_simple (size buf offset : Z) : Z * list Z :=
  let r := bpf_probe_read_user (buf + offset) size in
  (if r.1 =? 0 then size else 0, r.2).

(** The loop of [buf_read_iovec] from iovec [i], with [n] iterations left;
    [dst] is what has been written so far. *)
Fixpoint buf_read_iovec_loop (n i : nat) (size : Z) (b : buf_info) (offset : Z)
    (bytes_read bytes_skipped : Z) (dst : list Z) : Z * list Z :=
  match n with
  | O => (bytes_read, dst)
  | S n' =>
      if negb ((Z.of_nat i <? bi_iovcnt b) && (bytes_read <? size)) then (bytes_read, dst)
      else
        let iov := bpf_probe_read_user (bi_buf b + SIZEOF_IOVEC * Z.of_nat i) SIZEOF_IOVEC in
        if negb (iov.1 =? 0) then (bytes_read, dst)
        else
          let skipping := (bytes_read =? 0) && (bytes_skipped <? offset) in
          let bytes_to_skip := if skipping then offset - bytes_skipped else 0 in
          if skipping && (iov_len iov.2 <=? bytes_to_skip)
          then buf_read_iovec_loop n' (S i) size b offset bytes_read
                 (u64 (bytes_skipped + iov_len iov.2)) dst
          else if size - bytes_read >? 0 then
            let r := bpf_probe_read_user (iov_base iov.2 + bytes_to_skip) (size - bytes_read) in
            let dst' := take (Z.to_nat bytes_read) dst ++ r.2 in
            if negb (r.1 =? 0) then (bytes_read, dst')
            else buf_read_iovec_loop n' (S i) size b offset (bytes_read + (size - bytes_read))
                   bytes_skipped dst'
          else buf_read_iovec_loop n' (S i) size b offset bytes_read bytes_skipped dst
  end.

Definition buf_read_iovec (size : Z) (b : buf_info) (offset : Z) : Z * list Z :=
  buf_read_iovec_loop BUF_CHUNK_LIMIT 0 size b offset 0 0 [].

Definition buf_read (size : Z) (b : buf_info) (offset : Z) : Z * list Z :=
  if size =? 0 then (0, [])
  else if negb (bi_iovcnt b >? 0) then buf_read_simple size (bi_buf b) offset
  else buf_read_iovec size b offset.

End buffers.

(** ** Properties *)

(** The iovec array at [a] describes the buffers [iovs], each a base address and
    the contents of the memory there. *)
Definition iov_array {E : Env} (a : Z) (iovs : list (Z * list Z)) : Prop :=
  forall i base bs, iovs !! i = Some (base, bs) ->
  bpf_probe_read_user (a + SIZEOF_IOVEC * Z.of_nat i) SIZEOF_IOVEC
    = (0, le_store 8 base ++ le_store 8 (Z.of_nat (length bs)))
  /\ 0 <= base < 2 ^ 64 /\ Z.of_nat (length bs) < 2 ^ 63 /\ user_holds base bs.

Lemma iov_fields base len :
  0 <= base < 2 ^ 64 -> 0 <= len < 2 ^ 64 ->
  iov_base (le_store 8 base ++ le_store 8 len) = base
  /\ iov_len (le_store 8 base ++ le_store 8 len) = len.
Proof.
  intros Hb Hl. unfold iov_base, iov_len.
  rewrite take_app_length', drop_app_length' by (by rewrite length_le_store).
  rewrite take_ge by (by rewrite length_le_store).
  rewrite !le_load_store. change (256 ^ Z.of_nat 8) with (2 ^ 64).
  by rewrite !Z.mod_small.
Qed.

Section buffer_facts.
Context {E : Env}.

Lemma buf_read_simple_spec size b offset bs :
  user_holds (bi_buf b) bs -> bi_iovcnt b = 0 -> 0 < size -> 0 <= offset ->
  offset + size <= Z.of_nat (length bs) ->
  buf_read size b offset = (size, take (Z.to_nat size) (drop (Z.to_nat offset) bs)).
Proof.
  intros Hbs Hi Hs Ho Hle. unfold buf_read, buf_read_simple.
  rewrite (proj2 (Z.eqb_neq size 0)) by lia. rewrite Hi. cbn [Z.gtb Z.compare negb].
  pose proof (Hbs (Z.to_nat offset) (Z.to_nat size)) as H. rewrite !Z2Nat.id in H by lia.
  rewrite H by lia. done.
Qed.

Lemma buf_read_iovec_stop n i size b offset sk dst :
  buf_read_iovec_loop n i size b offset size sk dst = (size, dst).
Proof. destruct n; [done|]. cbn [buf_read_iovec_loop]. by rewrite Z.ltb_irrefl, andb_false_r. Qed.

Lemma buf_read_iovec_bound `{!EnvOk E} size b offset n : forall i sk dst,
  0 < size ->
  let r := buf_read_iovec_loop n i size b offset 0 sk dst in
  r.1 = 0 \/ r.1 = size /\ length r.2 = Z.to_nat size.
Proof.
  induction n as [|n IH]; intros i sk dst Hs; [by left|]. cbn [buf_read_iovec_loop].
  destruct (negb _); [by left|]. destruct (negb _); [by left|].
  destruct (_ && (iov_len _ <=? _)); [by apply IH|].
  rewrite Z.sub_0_r, Z.add_0_l. destruct (size >? 0); [|by apply IH]. destruct (negb _); [by left|].
  right. rewrite buf_read_iovec_stop. split; [done|]. apply read_user_length. lia.
Qed.

(** A read reports nothing or all that was asked for, and then it wrote it. *)
Lemma buf_read_bound `{!EnvOk E} size b offset :
  0 <= size -> (buf_read size b offset).1 = 0
  \/ (buf_read size b offset).1 = size /\ length (buf_read size b offset).2 = Z.to_nat size.
Proof.
  intros Hs. unfold buf_read. destruct (Z.eqb_spec size 0); [by left|].
  destruct (negb _); [|apply buf_read_iovec_bound; lia].
  unfold buf_read_simple. destruct (_ =? 0); [right|by left]. split; [done|]. by apply read_user_length.
Qed.

Lemma iov_array_tail a base bs iovs :
  iov_array a ((base, bs) :: iovs) -> iov_array (a + SIZEOF_IOVEC) iovs.
Proof.
  intros H i base' bs' Hi. destruct (H (S i) base' bs' Hi) as [<- Hrest].
  split; [f_equal; lia|done].
Qed.

(** The search for the iovec that holds [offset]: [pre] is skipped whole. *)
Lemma buf_read_iovec_search size b offset base bs post k pre : forall n i sk dst,
  0 < size -> 0 <= sk -> 0 <= k -> k + size <= Z.of_nat (length bs) ->
  Forall (fun p => p.2 <> []) pre ->
  offset = sk + Z.of_nat (length (concat (map snd pre))) + k -> offset < 2 ^ 63 ->
  (length pre < n)%nat -> Z.of_nat (i + length pre) < bi_iovcnt b ->
  iov_array (bi_buf b + SIZEOF_IOVEC * Z.of_nat i) (pre ++ (base, bs) :: post) ->
  buf_read_iovec_loop n i size b offset 0 sk dst
  = (size, take (Z.to_nat size) (drop (Z.to_nat k) bs)).
Proof.
  induction pre as [|[pb pbs] pre IH]; intros n i sk dst Hs Hsk Hk Hfit Hne Hoff Hmax Hn Hcnt Harr;
    (destruct n as [|n]; [cbn in Hn; lia|]); cbn [buf_read_iovec_loop].
  all: rewrite (proj2 (Z.ltb_lt (Z.of_nat i) _)) by (cbn in Hcnt; lia).
  all: rewrite (proj2 (Z.ltb_lt 0 size)) by lia; cbn [andb negb].
  - destruct (Harr 0%nat base bs eq_refl) as (Hrd & Hb & Hl & Hmem).
    rewrite Z.mul_0_r, Z.add_0_r in Hrd. rewrite Hrd. cbn [fst snd Z.eqb negb andb].
    destruct (iov_fields base (Z.of_nat (length bs))) as [-> ->]; [lia..|].
    cbn in Hoff. replace (if sk <? offset then offset - sk else 0) with k
      by (destruct (Z.ltb_spec sk offset); lia).
    rewrite (proj2 (Z.leb_gt _ k)), andb_false_r, Z.sub_0_r, (proj2 (Z.gtb_lt size 0)) by lia.
    pose proof (Hmem (Z.to_nat k) (Z.to_nat size)) as H. rewrite !Z2Nat.id in H by lia.
    rewrite H by lia. cbn [fst snd Z.eqb negb]. rewrite Z.add_0_l. apply buf_read_iovec_stop.
  - destruct (Harr 0%nat pb pbs eq_refl) as (Hrd & Hb & Hl & _).
    rewrite Z.mul_0_r, Z.add_0_r in Hrd. rewrite Hrd. cbn [fst snd Z.eqb negb andb].
    destruct (iov_fields pb (Z.of_nat (length pbs))) as [-> ->]; [lia..|].
    cbn [map snd concat] in Hoff. rewrite length_app in Hoff.
    inversion_clear Hne as [|? ? Hpne Hne']. assert (0 < length pbs)%nat by (by destruct pbs; [|simpl; lia]).
    rewrite (proj2 (Z.ltb_lt sk offset)), (proj2 (Z.leb_le _ (offset - sk))) by lia. cbn [andb].
    rewrite u64_small by lia. apply IH; try done; try (cbn in *; lia).
    apply iov_array_tail in Harr. rewrite Nat2Z.inj_succ, Z.mul_succ_r, Z.add_assoc. done.
Qed.

End buffer_facts.

(** C40: a read that does not cross a buffer boundary returns exactly the
    bytes at that offset of the concatenated buffers, for an offset that falls
    in one of the first four buffers when every buffer before it is non-empty.
    (A read that crosses a boundary takes all its bytes from the buffer it starts
    in, beyond its length; so does one at the place of an empty buffer.) *)
Theorem buf_read_gather (E : Env) size b pre base bs post k :
  let iovs := pre ++ (base, bs) :: post in
  let gathered := concat (map snd iovs) in
  let offset := Z.of_nat (length (concat (map snd pre))) + k in
  iov_array (bi_buf b) iovs -> bi_iovcnt b = Z.of_nat (length iovs) ->
  Forall (fun p => p.2 <> []) pre -> (length pre < 4)%nat -> offset < 2 ^ 63 ->
  0 < size -> 0 <= k -> k + size <= Z.of_nat (length bs) ->
  buf_read size b offset
  = (size, take (Z.to_nat size) (drop (Z.to_nat offset) gathered)).
Proof.
  intros iovs gathered offset Harr Hcnt Hne Hpre Hoff Hs Hk Hfit.
  assert (length iovs = length pre + S (length post))%nat as Hlen by (by unfold iovs; rewrite length_app).
  unfold buf_read. rewrite (proj2 (Z.eqb_neq size 0)) by lia.
  rewrite (proj2 (Z.gtb_lt (bi_iovcnt b) 0)) by lia. cbn [negb]. unfold buf_read_iovec.
  rewrite (buf_read_iovec_search size b offset base bs post k pre); try done; try lia.
  - f_equal. unfold gathered, iovs, offset. rewrite map_app, concat_app. cbn [map snd concat].
    rewrite Z2Nat.inj_add, Nat2Z.id, <- drop_drop, drop_app_length by lia.
    rewrite drop_app_le by lia. by rewrite take_app_le by (rewrite length_drop; lia).
  - unfold iovs in Harr. by rewrite Z.mul_0_r, Z.add_0_r.
Qed.

(** Two buffers, ["abc"] at 4128 and ["defg"] at 4131. *)
Definition iov_demo : Env :=
  flat_env 0 4096
    (le_store 8 4128 ++ le_store 8 3 ++ le_store 8 4131 ++ le_store 8 4 ++ [97; 98; 99; 100; 101; 102; 103]).

Lemma buf_read_gather_witness :
  @buf_read iov_demo 2 (BufInfo 4096 2) 4 = (2, [101; 102]).
Proof.
  apply (buf_read_gather iov_demo 2 (BufInfo 4096 2) [(4128, [97; 98; 99])] 4131 [100; 101; 102; 103] [] 1);
    try done; try (simpl; lia); [|by repeat constructor].
  intros [|[|i]] base bs [= <- <-]; (split_and!; [done..|]); by apply flat_env_holds_at.
Defined.
