(* ===== verification/Protocol.v ===== *)
(** * Protocol detection

    [bpf/tap/protocol.bpf.c]: which application protocol the first bytes of a
    connection belong to, and the capture of TLS hello records.  A detector
    returns its verdict and the connection record it may have updated. *)

From stdpp Require Import base numbers list strings.
From S2P Require Import Prelude Tap Bpf Common Buffers.

Definition TLS_RECORD_HEADER_SIZE : Z := 5.
Definition MINIMUM_TLS_HANDSHAKE_SIZE : Z := 52.
Definition HTTP2_PREFACE_LEN : Z := 24.

Definition HTTP2_PREFACE : list Z :=
  bytes_of_string "PRI * HTTP/2.0" ++ [13; 10; 13; 10] ++ bytes_of_string "SM" ++ [13; 10; 13; 10].

(** The multi-byte fields, as the detectors assemble them from bytes. *)
Definition or_le32 (hdr : list Z) (i : nat) : Z :=
  u32 (Z.lor (Z.lor (Z.lor (byte_at hdr i) (Z.shiftl (byte_at hdr (i + 1)) 8))
                    (Z.shiftl (byte_at hdr (i + 2)) 16)) (Z.shiftl (byte_at hdr (i + 3)) 24)).

Definition or_le24 (hdr : list Z) (i : nat) : Z :=
  Z.lor (Z.lor (byte_at hdr i) (Z.shiftl (byte_at hdr (i + 1)) 8))
        (Z.shiftl (byte_at hdr (i + 2)) 16).

Definition or_be32 (hdr : list Z) (i : nat) : Z :=
  u32 (Z.lor (Z.lor (Z.lor (Z.shiftl (byte_at hdr i) 24) (Z.shiftl (byte_at hdr (i + 1)) 16))
                    (Z.shiftl (byte_at hdr (i + 2)) 8)) (byte_at hdr (i + 3))).

Definition or_be16 (hdr : list Z) (i : nat) : Z :=
  u16 (Z.lor (Z.shiftl (byte_at hdr i) 8) (byte_at hdr (i + 1))).

(** A cleared local array of [n] bytes filled from the buffer, and whether the
    read reported any byte. *)
Definition read_header {E : Env} (n : nat) (size : Z) (b : buf_info) : bool * list Z :=
  let r := buf_read size b 0 in
  (negb (r.1 =? 0), write_prefix r.2 (zeros n)).

Section protocol.
Context {E : Env}.

(** The common body of [capture_tls_client_hello] ([hs_type] 1) and
    [capture_tls_server_hello] ([hs_type] 2), which differ in that constant. *)
Definition capture_tls_hello (hs_type : Z) (handshake : socket_tls_hello_event) (b : buf_info)
    (count : Z) : bool * socket_tls_hello_event :=
  if (count <? MINIMUM_TLS_HANDSHAKE_SIZE) || (bi_buf b =? 0) then (false, handshake)
  else
    let r := read_header 6 6 b in
    if negb r.1 then (false, handshake)
    else
      let tls_header := r.2 in
      if (byte_at tls_header 0 =? 22) && (byte_at tls_header 1 =? 3) && (1 <=? byte_at tls_header 2)
      then
        if negb (byte_at tls_header 5 =? hs_type) then (false, handshake)
        else
          let handshake_body_size := or_be16 tls_header 3 in
          let total_size := u32 (TLS_RECORD_HEADER_SIZE + handshake_body_size) in
          if (total_size >? count) || (total_size >? MAX_MSG_SIZE) then (false, handshake)
          else
            let total_size := Z.land total_size (MAX_MSG_SIZE - 1) in
            let d := buf_read total_size b 0 in
            let handshake := handshake <| he_data ::= write_prefix d.2 |> in
            if d.1 =? 0 then (false, handshake)
            else (true, handshake <| he_size := total_size |>)
      else (false, handshake).

Definition capture_tls_client_hello := capture_tls_hello 1.
Definition capture_tls_server_hello := capture_tls_hello 2.

(** [_strncmp(prefix, word, n) == 0] *)
Definition starts (prefix : list Z) (word : string) (n : nat) : bool :=
  _strncmp prefix (bytes_of_string word) n =? 0.

Definition detect_http (ci : conn_info) (b : buf_info) (count : Z) : bool * conn_info :=
  if (count <? 7) || (bi_buf b =? 0) then (false, ci)
  else
    let r := read_header 8 7 b in
    if negb r.1 then (false, ci)
    else
      let http1_method_prefix := r.2 in
      let has word n := starts http1_method_prefix word n in
      if has "GET" 3%nat || has "HTTP" 4%nat || has "POST" 4%nat || has "PUT" 3%nat || has "DELETE" 6%nat
         || has "PATCH" 5%nat || has "CONNECT" 7%nat || has "HEAD" 4%nat || has "OPTIONS" 7%nat
      then (true, ci <| ci_protocol := P_HTTP1 |>)
      else if count <? HTTP2_PREFACE_LEN then (false, ci)
      else if negb (has "PRI" 3%nat) then (false, ci)
      else
        let p := read_header 24 HTTP2_PREFACE_LEN b in
        if negb p.1 then (false, ci)
        else if negb (forallb (fun i => schar (byte_at p.2 i) =? byte_at HTTP2_PREFACE i)
                        (seq 0 (Z.to_nat HTTP2_PREFACE_LEN)))
        then (false, ci)
        else (true, ci <| ci_protocol := P_HTTP2 |>).

Definition is_dns (ci : conn_info) : bool := na_port (ci_addr ci) =? bswap16 53.

Definition detect_dns (ci : conn_info) : bool * conn_info :=
  if is_dns ci then (true, ci <| ci_protocol := P_DNS |>) else (false, ci).

Definition mongodb_opcodes : list Z :=
  [1; 2001; 2002; 2003; 2004; 2005; 2006; 2007; 2010; 2011; 2012; 2013].

Definition detect_mongodb (ci : conn_info) (b : buf_info) (count : Z) : bool * conn_info :=
  if (count <? 16) || (bi_buf b =? 0) then (false, ci)
  else
    let r := read_header 16 16 b in
    if negb r.1 then (false, ci)
    else
      let msg_len := or_le32 r.2 0 in
      let opcode := or_le32 r.2 12 in
      let valid_opcode := existsb (Z.eqb opcode) mongodb_opcodes in
      let valid_length := (16 <=? msg_len) && (msg_len <=? 50331648) in
      if valid_opcode && valid_length then (true, ci <| ci_protocol := P_MONGODB |>)
      else (false, ci).

Definition detect_tls (ci : conn_info) (b : buf_info) (count : Z) : bool * conn_info :=
  if (count <? 5) || (bi_buf b =? 0) then (false, ci)
  else
    let r := read_header 5 5 b in
    if negb r.1 then (false, ci)
    else if (byte_at r.2 0 =? 22) && (byte_at r.2 1 =? 3) && (1 <=? byte_at r.2 2)
    then (true, ci <| ci_is_ssl := true |>)
    else (false, ci).

Definition detect_mysql (ci : conn_info) (b : buf_info) (count : Z) : bool * conn_info :=
  if (count <? 5) || (bi_buf b =? 0) then (false, ci)
  else
    let r := read_header 5 5 b in
    if negb r.1 then (false, ci)
    else if negb (schar (byte_at r.2 3) =? 0) then (false, ci)
    else if negb (schar (byte_at r.2 4) =? 10) then (false, ci)
    else
      let payload_len := or_le24 r.2 0 in
      if (payload_len <? 1) || (payload_len >? 0xFFFFFF) then (false, ci)
      else (true, ci <| ci_protocol := P_MYSQL |> <| ci_tls_upgrade_pending := true |>).

Definition detect_redis (ci : conn_info) (b : buf_info) (count : Z) : bool * conn_info :=
  if (count <? 4) || (bi_buf b =? 0) then (false, ci)
  else
    let r := read_header 4 4 b in
    if negb r.1 then (false, ci)
    else if (schar (byte_at r.2 0) =? 42) && (49 <=? schar (byte_at r.2 1)) && (schar (byte_at r.2 1) <=? 57)
    then (true, ci <| ci_protocol := P_REDIS |>)
    else (false, ci).

Definition detect_kafka (ci : conn_info) (b : buf_info) (count : Z) : bool * conn_info :=
  if (count <? 14) || (bi_buf b =? 0) then (false, ci)
  else
    let r := read_header 14 14 b in
    if negb r.1 then (false, ci)
    else
      let length := or_be32 r.2 0 in
      if (length <? 8) || (length >? 104857600) then (false, ci)
      else
        let api_key := or_be16 r.2 4 in
        if api_key >? 67 then (false, ci)
        else
          let api_version := or_be16 r.2 6 in
          if api_version >? 16 then (false, ci)
          else if (api_key =? 18) || (api_key =? 3) then (true, ci <| ci_protocol := P_KAFKA |>)
          else
            let corr_id := or_be32 r.2 8 in
            if corr_id >? 65535 then (false, ci)
            else if negb (u32 (length + 4) =? u32 count) then (false, ci)
            else (true, ci <| ci_protocol := P_KAFKA |>).

(** [if (conn_info->protocol == P_UNKNOWN) detected = detect(...);] *)
Definition if_unknown (detect : conn_info -> bool * conn_info) (r : bool * conn_info) :
    bool * conn_info :=
  if bool_decide (ci_protocol r.2 = P_UNKNOWN) then detect r.2 else r.

Definition detect_protocol (ci : conn_info) (b : buf_info) (count : Z) : bool * conn_info :=
  let r := (false, ci <| ci_protocol := P_UNKNOWN |>) in
  let r := if_unknown detect_dns r in
  let r := if_unknown (fun ci => detect_mongodb ci b count) r in
  let r := if_unknown (fun ci => detect_kafka ci b count) r in
  let r := if_unknown (fun ci => detect_redis ci b count) r in
  let r := if_unknown (fun ci => detect_mysql ci b count) r in
  if_unknown (fun ci => detect_http ci b count) r.

End protocol.

(** ** Multi-byte fields *)

(** Big-endian value of a byte string. *)
Definition be_load (bs : list Z) : Z := le_load (rev bs).

(** The [n] bytes at offset [i]. *)
Definition field (bs : list Z) (i n : nat) : list Z := take n (drop i bs).

Lemma byte_at_range bs i : Forall is_byte bs -> 0 <= byte_at bs i < 256.
Proof.
  intros Hbs. unfold byte_at. destruct (nth_in_or_default i bs 0) as [H| ->]; [|lia].
  rewrite Forall_forall in Hbs. apply Hbs. by apply list_elem_of_In.
Qed.

Lemma schar_byte_at bs i :
  Forall is_byte bs ->
  0 <= byte_at bs i < 128 /\ schar (byte_at bs i) = byte_at bs i
  \/ 128 <= byte_at bs i < 256 /\ schar (byte_at bs i) = byte_at bs i - 256.
Proof. intros Hb. pose proof (byte_at_range bs i Hb). unfold schar. case_match; lia. Qed.

Lemma field_bytes n i bs :
  (i + n <= length bs)%nat -> field bs i n = map (fun j => byte_at bs (i + j)) (seq 0 n).
Proof.
  intros Hl. unfold field, byte_at. apply list_eq. intros j. destruct (decide (j < n)%nat).
  - rewrite lookup_take_lt, lookup_drop by done. rewrite list_lookup_fmap, lookup_seq_lt by done.
    cbn. rewrite nth_lookup. destruct (lookup_lt_is_Some_2 bs (i + j)) as [x ->]; [lia|done].
  - rewrite !lookup_ge_None_2; rewrite ?length_take, ?length_map, ?length_seq; lia || done.
Qed.

Lemma or_le24_load bs i :
  Forall is_byte bs -> (i + 3 <= length bs)%nat -> or_le24 bs i = le_load (field bs i 3).
Proof.
  intros Hb Hl. rewrite field_bytes by done. unfold or_le24. cbn [seq map le_load]. rewrite Nat.add_0_r.
  pose proof (byte_at_range bs i Hb). pose proof (byte_at_range bs (i + 1) Hb).
  rewrite (lor_shiftl_add (byte_at bs i)), lor_shiftl_add by lia. lia.
Qed.

Lemma or_le32_load bs i :
  Forall is_byte bs -> (i + 4 <= length bs)%nat -> or_le32 bs i = le_load (field bs i 4).
Proof.
  intros Hb Hl. rewrite field_bytes by done. unfold or_le32. cbn [seq map le_load]. rewrite Nat.add_0_r.
  pose proof (byte_at_range bs i Hb). pose proof (byte_at_range bs (i + 1) Hb).
  pose proof (byte_at_range bs (i + 2) Hb). pose proof (byte_at_range bs (i + 3) Hb).
  rewrite (lor_shiftl_add (byte_at bs i)), (lor_shiftl_add (_ + _) _ 16), lor_shiftl_add by lia.
  rewrite u32_small; lia.
Qed.

Lemma or_be16_load bs i :
  Forall is_byte bs -> (i + 2 <= length bs)%nat -> or_be16 bs i = be_load (field bs i 2).
Proof.
  intros Hb Hl. rewrite field_bytes by done. unfold or_be16, be_load. cbn [seq map rev app le_load].
  rewrite Nat.add_0_r. pose proof (byte_at_range bs i Hb). pose proof (byte_at_range bs (i + 1) Hb).
  rewrite Z.lor_comm, lor_shiftl_add by lia. unfold u16. rewrite Z.mod_small; lia.
Qed.

Lemma lor_reverse a b c d : Z.lor (Z.lor (Z.lor a b) c) d = Z.lor (Z.lor (Z.lor d c) b) a.
Proof.
  apply Z.bits_inj'. intros n _. rewrite !Z.lor_spec.
  by destruct (Z.testbit a n), (Z.testbit b n), (Z.testbit c n), (Z.testbit d n).
Qed.

Lemma or_be32_load bs i :
  Forall is_byte bs -> (i + 4 <= length bs)%nat -> or_be32 bs i = be_load (field bs i 4).
Proof.
  intros Hb Hl. rewrite field_bytes by done. unfold or_be32, be_load. cbn [seq map rev app le_load].
  rewrite Nat.add_0_r. pose proof (byte_at_range bs i Hb). pose proof (byte_at_range bs (i + 1) Hb).
  pose proof (byte_at_range bs (i + 2) Hb). pose proof (byte_at_range bs (i + 3) Hb).
  rewrite lor_reverse, (lor_shiftl_add (byte_at bs (i + 3))), (lor_shiftl_add (_ + _) _ 16),
    lor_shiftl_add by lia.
  rewrite u32_small; lia.
Qed.

(** ** What the detectors recognise

    The wire formats, as predicates on the bytes of the message. *)

Definition mongodb_message (bs : list Z) : Prop :=
  16 <= Z.of_nat (length bs)
  /\ le_load (field bs 12 4) ∈ mongodb_opcodes
  /\ 16 <= le_load (field bs 0 4) <= 50331648.

(** A Kafka request as the comments of the source describe it, its length apart. *)
Definition kafka_fields (bs : list Z) : Prop :=
  14 <= Z.of_nat (length bs)
  /\ be_load (field bs 4 2) <= 67
  /\ be_load (field bs 6 2) <= 16
  /\ (be_load (field bs 4 2) = 18 \/ be_load (field bs 4 2) = 3
      \/ be_load (field bs 8 4) <= 65535 /\ be_load (field bs 0 4) + 4 = Z.of_nat (length bs)).

(** The documented length is greater than 8 and less than 100 MB; the code also takes
    the two bounds. *)
Definition kafka_request (bs : list Z) : Prop := 8 < be_load (field bs 0 4) < 104857600 /\ kafka_fields bs.
Definition kafka_bound (bs : list Z) : Prop :=
  (be_load (field bs 0 4) = 8 \/ be_load (field bs 0 4) = 104857600) /\ kafka_fields bs.
Definition kafka_accepted (bs : list Z) : Prop := 8 <= be_load (field bs 0 4) <= 104857600 /\ kafka_fields bs.

Lemma kafka_accepted_iff bs : kafka_accepted bs <-> kafka_request bs \/ kafka_bound bs.
Proof.
  unfold kafka_accepted, kafka_request, kafka_bound. generalize (be_load (field bs 0 4)). intros n.
  assert (8 <= n <= 104857600 <-> 8 < n < 104857600 \/ (n = 8 \/ n = 104857600)) by lia. tauto.
Qed.

Definition redis_command (bs : list Z) : Prop :=
  4 <= Z.of_nat (length bs) /\ byte_at bs 0 = 42 /\ 49 <= byte_at bs 1 <= 57.

Definition mysql_greeting (bs : list Z) : Prop :=
  5 <= Z.of_nat (length bs) /\ byte_at bs 3 = 0 /\ byte_at bs 4 = 10 /\ 1 <= le_load (field bs 0 3).

Definition http1_words : list string :=
  ["GET"; "HTTP"; "POST"; "PUT"; "DELETE"; "PATCH"; "CONNECT"; "HEAD"; "OPTIONS"]%string.

Definition http1_message (bs : list Z) : Prop :=
  7 <= Z.of_nat (length bs) /\ Exists (fun m => bytes_of_string m `prefix_of` bs) http1_words.

Definition http2_preface (bs : list Z) : Prop := HTTP2_PREFACE `prefix_of` bs.

(** The protocol of a connection to [port] (network order) that starts with
    [bs]: the first match in the order of [detect_protocol]. *)
Definition classify_with (kafka : bool) (port : Z) (bs : list Z) : PROTOCOL :=
  if decide (port = bswap16 53) then P_DNS
  else if decide (mongodb_message bs) then P_MONGODB
  else if kafka then P_KAFKA
  else if decide (redis_command bs) then P_REDIS
  else if decide (mysql_greeting bs) then P_MYSQL
  else if decide (http1_message bs) then P_HTTP1
  else if decide (http2_preface bs) then P_HTTP2
  else P_UNKNOWN.

(** As documented, and as it is. *)
Definition documented (port : Z) (bs : list Z) : PROTOCOL := classify_with (bool_decide (kafka_request bs)) port bs.
Definition classify (port : Z) (bs : list Z) : PROTOCOL := classify_with (bool_decide (kafka_accepted bs)) port bs.

(** A message at one of the two bounds, when no earlier detector takes it. *)
Definition kafka_at_bound (port : Z) (bs : list Z) : Prop :=
  port <> bswap16 53 /\ ~ mongodb_message bs /\ kafka_bound bs.

Lemma if_bool_decide {A} (P : Prop) `{Decision P} (a b : A) : (if bool_decide P then a else b) = if decide P then a else b.
Proof. case_bool_decide; [by rewrite decide_True|by rewrite decide_False]. Qed.

Lemma classify_documented port bs :
  classify port bs = if decide (kafka_at_bound port bs) then P_KAFKA else documented port bs.
Proof.
  unfold classify, documented, classify_with, kafka_at_bound. pose proof (kafka_accepted_iff bs) as Hk.
  destruct (decide (port = bswap16 53)); [by rewrite decide_False by tauto|].
  destruct (decide (mongodb_message bs)); [by rewrite decide_False by tauto|].
  destruct (decide (_ /\ _)) as [Hd|Hd]; [by rewrite bool_decide_true by tauto|].
  by rewrite (bool_decide_ext (kafka_accepted bs) (kafka_request bs)) by tauto.
Qed.

(** [b] is a plain buffer that holds exactly [bs]. *)
Definition plain_buffer {E : Env} (b : buf_info) (bs : list Z) : Prop :=
  bi_iovcnt b = 0 /\ bi_buf b <> 0 /\ user_holds (bi_buf b) bs /\ Forall is_byte bs
  /\ Z.of_nat (length bs) < 2 ^ 31.

Lemma field_take n bs i k : (i + k <= n)%nat -> field (take n bs) i k = field bs i k.
Proof. intros. unfold field. rewrite skipn_firstn_comm, take_take. f_equal. lia. Qed.

Lemma byte_at_take n bs i : (i < n)%nat -> byte_at (take n bs) i = byte_at bs i.
Proof. intros. unfold byte_at. rewrite !nth_lookup. by rewrite lookup_take_lt. Qed.

Lemma prefix_take_iff (w l : list Z) : w `prefix_of` l <-> take (length w) l = w.
Proof.
  split; [intros [k ->]; by rewrite take_app_length|].
  intros H. exists (drop (length w) l). rewrite <- H at 1. by rewrite take_drop.
Qed.

Lemma prefix_of_take (w l r : list Z) n :
  (length w <= n <= length l)%nat -> w `prefix_of` take n l ++ r <-> w `prefix_of` l.
Proof.
  intros Hn. rewrite !prefix_take_iff, take_app_le, take_take, Nat.min_l; rewrite ?length_take; lia || done.
Qed.

(** [schar] does not change the comparison with an ASCII string. *)
Lemma forallb_schar (s w : list Z) :
  Forall is_byte s -> Forall (fun c => 0 <= c < 128) w -> length s = length w ->
  forallb (fun i => schar (byte_at s i) =? byte_at w i) (seq 0 (length w)) = true <-> s = w.
Proof.
  intros Hs Hw Hl. rewrite forallb_forall. setoid_rewrite in_seq. setoid_rewrite Z.eqb_eq. split.
  - intros H. apply (nth_ext s w 0 0); [done|]. intros i Hi.
    specialize (H i ltac:(lia)). fold (byte_at s i) (byte_at w i).
    pose proof (schar_byte_at s i Hs).
    assert (0 <= byte_at w i < 128); [|lia].
    unfold byte_at. rewrite Forall_forall in Hw. apply Hw, list_elem_of_In, nth_In. lia.
  - intros -> i Hi. pose proof (schar_byte_at w i Hs).
    assert (0 <= byte_at w i < 128); [|lia].
    unfold byte_at. rewrite Forall_forall in Hw. apply Hw, list_elem_of_In, nth_In. lia.
Qed.

Section detectors.
Context {E : Env} (b : buf_info) (bs : list Z) (Hb : plain_buffer b bs).

Lemma read_header_pad m n :
  (0 < n <= length bs)%nat -> read_header m (Z.of_nat n) b = (true, take n bs ++ zeros (m - n)).
Proof.
  destruct Hb as (Hi & Hn & Hmem & Hby & _). intros Hle. unfold read_header.
  rewrite (buf_read_simple_spec _ _ _ bs) by lia || done. cbn [fst snd].
  rewrite (proj2 (Z.eqb_neq (Z.of_nat n) 0)), Nat2Z.id by lia.
  change (drop (Z.to_nat 0) bs) with bs. f_equal. unfold write_prefix.
  rewrite length_take, Nat.min_l by lia. unfold zeros. by rewrite drop_replicate.
Qed.

Lemma read_header_plain n :
  (0 < n <= length bs)%nat -> read_header n (Z.of_nat n) b = (true, take n bs).
Proof. intros. by rewrite read_header_pad, Nat.sub_diag, app_nil_r. Qed.

(** The guard and the read that open every detector. *)
Lemma guard_read {A} n (no : A) (k : list Z -> A) :
  (0 < n)%nat ->
  (if (Z.of_nat (length bs) <? Z.of_nat n) || (bi_buf b =? 0) then no
   else let r := read_header n (Z.of_nat n) b in if negb r.1 then no else k r.2)
  = if decide (Z.of_nat n <= Z.of_nat (length bs)) then k (take n bs) else no.
Proof.
  intros Hn. pose proof Hb as (_ & Hnz & _). rewrite (proj2 (Z.eqb_neq _ 0) Hnz), orb_false_r.
  destruct (Z.ltb_spec (Z.of_nat (length bs)) (Z.of_nat n)); case_decide; try lia; [done|].
  by rewrite read_header_plain by lia.
Qed.

Lemma take_bytes n : Forall is_byte (take n bs).
Proof. apply Forall_take, Hb. Qed.

Lemma existsb_Zeqb x l : existsb (Z.eqb x) l = bool_decide (x ∈ l).
Proof.
  apply eq_bool_prop_intro. rewrite bool_decide_spec, Is_true_true, existsb_exists.
  setoid_rewrite list_elem_of_In. setoid_rewrite Z.eqb_eq. naive_solver.
Qed.

(** Decide a detector against its predicate: every branch is an arithmetic fact. *)
Ltac branches :=
  repeat match goal with
  | |- context [if decide ?P then _ else _] => destruct (decide P)
  | |- context [if ?c then _ else _] => destruct c eqn:?
  end; try done; exfalso; lia.

Lemma detect_mongodb_plain ci :
  detect_mongodb ci b (Z.of_nat (length bs))
  = if decide (mongodb_message bs) then (true, ci <| ci_protocol := P_MONGODB |>) else (false, ci).
Proof.
  unfold detect_mongodb, mongodb_message.
  rewrite (guard_read 16 (false, ci) (fun hdr =>
    if existsb (Z.eqb (or_le32 hdr 12)) mongodb_opcodes
       && ((16 <=? or_le32 hdr 0) && (or_le32 hdr 0 <=? 50331648))
    then (true, ci <| ci_protocol := P_MONGODB |>) else (false, ci))) by lia.
  case_decide as Hl; [|case_decide; [lia|done]].
  rewrite !or_le32_load, !field_take, existsb_Zeqb
    by (lia || apply take_bytes || (rewrite length_take; lia)).
  case_bool_decide as Ho; cbn [andb]; [|case_decide as Hd; [by destruct Hd as (_ & ? & _)|done]].
  case_decide as Hd; destruct (_ && _) eqn:Hc; try done; exfalso; [lia|].
  apply Hd. split_and!; lia || done.
Qed.

Lemma detect_kafka_plain ci :
  detect_kafka ci b (Z.of_nat (length bs))
  = if decide (kafka_accepted bs) then (true, ci <| ci_protocol := P_KAFKA |>) else (false, ci).
Proof.
  pose proof Hb as (_ & _ & _ & _ & Hlen). unfold detect_kafka, kafka_accepted, kafka_fields.
  rewrite (guard_read 14 (false, ci) (fun hdr =>
    if (or_be32 hdr 0 <? 8) || (or_be32 hdr 0 >? 104857600) then (false, ci)
    else if or_be16 hdr 4 >? 67 then (false, ci)
    else if or_be16 hdr 6 >? 16 then (false, ci)
    else if (or_be16 hdr 4 =? 18) || (or_be16 hdr 4 =? 3) then (true, ci <| ci_protocol := P_KAFKA |>)
    else if or_be32 hdr 8 >? 65535 then (false, ci)
    else if negb (u32 (or_be32 hdr 0 + 4) =? u32 (Z.of_nat (length bs))) then (false, ci)
    else (true, ci <| ci_protocol := P_KAFKA |>))) by lia.
  case_decide as Hl; [|case_decide; [lia|done]].
  rewrite !or_be32_load, !or_be16_load, !field_take
    by (lia || apply take_bytes || (rewrite length_take; lia)).
  rewrite (u32_small (Z.of_nat _)) by lia.
  destruct (decide (8 <= be_load (field bs 0 4) <= 104857600)); [|branches].
  rewrite u32_small by lia. branches.
Qed.

Lemma detect_redis_plain ci :
  detect_redis ci b (Z.of_nat (length bs))
  = if decide (redis_command bs) then (true, ci <| ci_protocol := P_REDIS |>) else (false, ci).
Proof.
  unfold detect_redis, redis_command.
  rewrite (guard_read 4 (false, ci) (fun hdr =>
    if (schar (byte_at hdr 0) =? 42) && (49 <=? schar (byte_at hdr 1)) && (schar (byte_at hdr 1) <=? 57)
    then (true, ci <| ci_protocol := P_REDIS |>) else (false, ci))) by lia.
  case_decide as Hl; [|case_decide; [lia|done]]. rewrite !byte_at_take by lia.
  destruct Hb as (_ & _ & _ & Hby & _).
  pose proof (schar_byte_at bs 0 Hby). pose proof (schar_byte_at bs 1 Hby). branches.
Qed.

Lemma detect_mysql_plain ci :
  detect_mysql ci b (Z.of_nat (length bs))
  = if decide (mysql_greeting bs)
    then (true, ci <| ci_protocol := P_MYSQL |> <| ci_tls_upgrade_pending := true |>) else (false, ci).
Proof.
  unfold detect_mysql, mysql_greeting.
  rewrite (guard_read 5 (false, ci) (fun hdr =>
    if negb (schar (byte_at hdr 3) =? 0) then (false, ci)
    else if negb (schar (byte_at hdr 4) =? 10) then (false, ci)
    else if (or_le24 hdr 0 <? 1) || (or_le24 hdr 0 >? 0xFFFFFF) then (false, ci)
    else (true, ci <| ci_protocol := P_MYSQL |> <| ci_tls_upgrade_pending := true |>))) by lia.
  case_decide as Hl; [|case_decide; [lia|done]].
  rewrite !or_le24_load, !field_take, !byte_at_take
    by (lia || apply take_bytes || (rewrite length_take; lia)).
  destruct Hb as (_ & _ & _ & Hby & _).
  pose proof (schar_byte_at bs 3 Hby). pose proof (schar_byte_at bs 4 Hby).
  assert (le_load (field bs 0 3) < 256 ^ 3).
  { pose proof (le_load_bound (field bs 0 3)) as H1. unfold field in *. rewrite length_take in H1.
    rewrite Nat.min_l in H1 by (rewrite length_drop; lia). apply H1. by apply Forall_take, Forall_drop. }
  branches.
Qed.

Lemma starts_plain m word :
  (7 <= length bs)%nat -> (length (bytes_of_string word) <= 7)%nat ->
  Forall (fun c => 0 < c < 256) (bytes_of_string word) ->
  starts (take 7 bs ++ zeros m) word (length (bytes_of_string word)) = true
  <-> bytes_of_string word `prefix_of` bs.
Proof.
  intros Hl Hw Hc. unfold starts. rewrite Z.eqb_eq, strncmp_prefix, prefix_of_take; [done|lia| |done].
  apply Forall_app. split; [apply take_bytes|]. by apply Forall_replicate.
Qed.

Lemma http1_words_plain :
  (7 <= length bs)%nat ->
  (let has word n := starts (take 7 bs ++ zeros 1) word n in
   has "GET"%string 3%nat || has "HTTP"%string 4%nat || has "POST"%string 4%nat
   || has "PUT"%string 3%nat || has "DELETE"%string 6%nat || has "PATCH"%string 5%nat
   || has "CONNECT"%string 7%nat || has "HEAD"%string 4%nat || has "OPTIONS"%string 7%nat) = true
  <-> Exists (fun m => bytes_of_string m `prefix_of` bs) http1_words.
Proof.
  intros Hl. cbv zeta. unfold http1_words. rewrite !Exists_cons, Exists_nil, !orb_true_iff.
  rewrite <- (starts_plain 1 "GET"), <- (starts_plain 1 "HTTP"), <- (starts_plain 1 "POST"),
    <- (starts_plain 1 "PUT"), <- (starts_plain 1 "DELETE"), <- (starts_plain 1 "PATCH"),
    <- (starts_plain 1 "CONNECT"), <- (starts_plain 1 "HEAD"), <- (starts_plain 1 "OPTIONS")
    by (done || (simpl; lia) || (repeat constructor; lia)).
  cbn [length bytes_of_string]. tauto.
Qed.

Lemma http2_preface_ascii : Forall (fun c => 0 <= c < 128) HTTP2_PREFACE.
Proof. unfold HTTP2_PREFACE. cbn. repeat constructor; lia. Qed.

Lemma preface_pri : http2_preface bs -> bytes_of_string "PRI" `prefix_of` bs.
Proof. intros [k ->]. by eexists. Qed.

Lemma detect_http_plain ci :
  detect_http ci b (Z.of_nat (length bs))
  = if decide (http1_message bs) then (true, ci <| ci_protocol := P_HTTP1 |>)
    else if decide (http2_preface bs) then (true, ci <| ci_protocol := P_HTTP2 |>)
    else (false, ci).
Proof.
  unfold detect_http, http1_message. pose proof Hb as (_ & Hnz & _ & Hby & _).
  rewrite (proj2 (Z.eqb_neq _ 0) Hnz), orb_false_r.
  assert (http2_preface bs -> 24 <= Z.of_nat (length bs)) as H24.
  { intros ?%prefix_length. cbn in *. lia. }
  destruct (Z.ltb_spec (Z.of_nat (length bs)) 7); [by rewrite !decide_False by (intros ?; lia || (apply H24 in H0; lia))|].
  change (read_header 8 7 b) with (read_header 8 (Z.of_nat 7) b). rewrite read_header_pad by lia. cbn [negb fst snd]. pose proof (http1_words_plain ltac:(lia)) as H1.
  change (8 - 7)%nat with 1%nat. cbv beta zeta in H1 |- *. match type of H1 with ?c = true <-> _ => destruct c end.
  { rewrite decide_True; [done|]. split; [lia|]. by apply H1. }
  rewrite decide_False by (intros [_ ?%H1]; done).
  unfold HTTP2_PREFACE_LEN. destruct (Z.ltb_spec (Z.of_nat (length bs)) 24).
  { rewrite decide_False; [done|]. intros ?%H24. lia. }
  pose proof (starts_plain 1 "PRI" ltac:(lia) ltac:(simpl; lia) ltac:(repeat constructor; lia)) as HP.
  change (length (bytes_of_string "PRI")) with 3%nat in HP.
  destruct (starts _ "PRI" 3) eqn:Hpri; cbn [negb].
  2:{ rewrite decide_False; [done|]. intros ?%preface_pri%HP. done. }
  change (read_header 24 24 b) with (read_header 24 (Z.of_nat 24) b). rewrite read_header_plain by lia. cbn [negb fst snd].
  pose proof (forallb_schar (take 24 bs) HTTP2_PREFACE (take_bytes 24) http2_preface_ascii) as HF.
  rewrite length_take, Nat.min_l in HF by lia. specialize (HF eq_refl).
  change (length HTTP2_PREFACE) with (Z.to_nat 24) in HF.
  case_decide as Hd; unfold http2_preface in Hd; rewrite prefix_take_iff in Hd;
    change (length HTTP2_PREFACE) with 24%nat in Hd; rewrite <- HF in Hd.
  - by rewrite Hd.
  - by apply not_true_is_false in Hd as ->.
Qed.

End detectors.

(** ** Properties *)

(** [ci] with protocol [p] detected. *)
Definition with_protocol (p : PROTOCOL) (ci : conn_info) : conn_info :=
  ci <| ci_protocol := p |>
     <| ci_tls_upgrade_pending := ci_tls_upgrade_pending ci || bool_decide (p = P_MYSQL) |>.

(** The outcome of a detection run that settled on [p]. *)
Definition detected (p : PROTOCOL) (ci : conn_info) : bool * conn_info :=
  (bool_decide (p <> P_UNKNOWN), with_protocol p ci).

(** A detector leaves the connection alone or settles on one protocol. *)
Definition settles (f : conn_info -> bool * conn_info) : Prop :=
  forall ci, ci_protocol ci = P_UNKNOWN -> exists p, f ci = detected p ci.

Lemma with_protocol_unknown ci : ci_protocol ci = P_UNKNOWN -> with_protocol P_UNKNOWN ci = ci.
Proof. destruct ci; intros; simplify_eq/=. unfold with_protocol, over. cbn. by rewrite orb_false_r. Qed.

Lemma detected_none ci : ci_protocol ci = P_UNKNOWN -> (false, ci) = detected P_UNKNOWN ci.
Proof. intros. unfold detected. by rewrite with_protocol_unknown. Qed.

Lemma settles_none ci : ci_protocol ci = P_UNKNOWN -> exists p, (false, ci) = detected p ci.
Proof. intros. exists P_UNKNOWN. by apply detected_none. Qed.

Lemma settles_some p ci :
  p <> P_UNKNOWN -> p <> P_MYSQL -> (true, ci <| ci_protocol := p |>) = detected p ci.
Proof.
  intros H1 H2. unfold detected, with_protocol. rewrite bool_decide_true, bool_decide_false by done.
  destruct ci; unfold over; cbn. by rewrite orb_false_r.
Qed.

Lemma detected_if p (P : Prop) `{Decision P} ci :
  p <> P_UNKNOWN -> p <> P_MYSQL -> ci_protocol ci = P_UNKNOWN ->
  (if decide P then (true, ci <| ci_protocol := p |>) else (false, ci))
  = detected (if decide P then p else P_UNKNOWN) ci.
Proof. intros. case_decide; [by apply settles_some|by apply detected_none]. Qed.

Lemma settles_mysql ci :
  (true, ci <| ci_protocol := P_MYSQL |> <| ci_tls_upgrade_pending := true |>) = detected P_MYSQL ci.
Proof. destruct ci; unfold detected, with_protocol, over; cbn. by rewrite orb_true_r. Qed.

#[local] Hint Resolve settles_none : core.
#[local] Hint Extern 2 (exists p, (true, _) = detected p _) =>
  eexists; first [apply settles_mysql | by apply settles_some] : core.

(** The first of two verdicts. *)
Definition or_else (p q : PROTOCOL) : PROTOCOL := if decide (p = P_UNKNOWN) then q else p.

Lemma or_else_if (P : Prop) `{Decision P} a r q :
  a <> P_UNKNOWN -> or_else (if decide P then a else r) q = if decide P then a else or_else r q.
Proof. intros. unfold or_else. by destruct (decide P); repeat case_decide. Qed.

Lemma or_else_unknown q : or_else P_UNKNOWN q = q.
Proof. done. Qed.

(** One step of [detect_protocol]: [f] runs only while nothing is detected. *)
Lemma if_unknown_step (f : conn_info -> bool * conn_info) (q p : PROTOCOL) ci :
  (forall c, ci_protocol c = P_UNKNOWN -> ci_addr c = ci_addr ci -> f c = detected q c) ->
  if_unknown f (detected p ci) = detected (or_else p q) ci.
Proof.
  intros Hf. unfold if_unknown. change (ci_protocol (detected p ci).2) with p.
  unfold or_else. destruct (decide (p = P_UNKNOWN)) as [->|Hp]; [|by rewrite bool_decide_false].
  rewrite bool_decide_true by done. cbn [detected snd]. rewrite Hf by done.
  unfold detected, with_protocol, over. cbn. by rewrite orb_false_r.
Qed.

Lemma detect_protocol_start ci : (false, ci <| ci_protocol := P_UNKNOWN |>) = detected P_UNKNOWN ci.
Proof. unfold detected, with_protocol, over. cbn. by rewrite orb_false_r. Qed.

Section settles.
Context {E : Env} (b : buf_info) (count : Z).

Lemma detect_dns_settles : settles detect_dns.
Proof. intros ci Hci. unfold detect_dns. case_match; auto. Qed.

Lemma detect_mongodb_settles : settles (fun ci => detect_mongodb ci b count).
Proof. intros ci Hci. unfold detect_mongodb. repeat case_match; auto. Qed.

Lemma detect_kafka_settles : settles (fun ci => detect_kafka ci b count).
Proof. intros ci Hci. unfold detect_kafka. repeat case_match; auto. Qed.

Lemma detect_redis_settles : settles (fun ci => detect_redis ci b count).
Proof. intros ci Hci. unfold detect_redis. repeat case_match; auto. Qed.

Lemma detect_mysql_settles : settles (fun ci => detect_mysql ci b count).
Proof. intros ci Hci. unfold detect_mysql. repeat case_match; auto. Qed.

Lemma detect_http_settles : settles (fun ci => detect_http ci b count).
Proof. intros ci Hci. unfold detect_http. repeat case_match; auto. Qed.

Lemma if_unknown_settles f p ci :
  settles f -> exists q, if_unknown f (detected p ci) = detected q ci.
Proof.
  intros Hf. unfold if_unknown. case_bool_decide as Hp; [|by eexists].
  cbn in Hp. subst p. destruct (Hf (with_protocol P_UNKNOWN ci)) as [q Hq]; [done|].
  exists q. cbn [detected snd]. rewrite Hq. unfold detected, with_protocol, over. cbn.
  by rewrite orb_false_r.
Qed.

Lemma detect_protocol_detected ci : exists p, detect_protocol ci b count = detected p ci.
Proof.
  unfold detect_protocol. rewrite detect_protocol_start.
  edestruct if_unknown_settles as [p1 ->]; [apply detect_dns_settles|].
  edestruct if_unknown_settles as [p2 ->]; [apply detect_mongodb_settles|].
  edestruct if_unknown_settles as [p3 ->]; [apply detect_kafka_settles|].
  edestruct if_unknown_settles as [p4 ->]; [apply detect_redis_settles|].
  edestruct if_unknown_settles as [p5 ->]; [apply detect_mysql_settles|].
  edestruct if_unknown_settles as [p6 ->]; [apply detect_http_settles|]. by eexists.
Qed.

End settles.

(** Detection on a plain buffer is [classify]. *)
Lemma detect_protocol_plain {E : Env} b bs ci :
  plain_buffer b bs ->
  detect_protocol ci b (Z.of_nat (length bs)) = detected (classify (na_port (ci_addr ci)) bs) ci.
Proof.
  intros Hb. unfold detect_protocol, classify, classify_with. rewrite if_bool_decide, detect_protocol_start.
  rewrite (if_unknown_step _ (if decide (na_port (ci_addr ci) = bswap16 53) then P_DNS else P_UNKNOWN)).
  2:{ intros c Hc <-. unfold detect_dns, is_dns. rewrite <- detected_if by done.
      destruct (Z.eqb_spec (na_port (ci_addr c)) (bswap16 53)); by case_decide. }
  rewrite (if_unknown_step _ (if decide (mongodb_message bs) then P_MONGODB else P_UNKNOWN)).
  2:{ intros c Hc _. rewrite (detect_mongodb_plain b bs Hb). by apply detected_if. }
  rewrite (if_unknown_step _ (if decide (kafka_accepted bs) then P_KAFKA else P_UNKNOWN)).
  2:{ intros c Hc _. rewrite (detect_kafka_plain b bs Hb). by apply detected_if. }
  rewrite (if_unknown_step _ (if decide (redis_command bs) then P_REDIS else P_UNKNOWN)).
  2:{ intros c Hc _. rewrite (detect_redis_plain b bs Hb). by apply detected_if. }
  rewrite (if_unknown_step _ (if decide (mysql_greeting bs) then P_MYSQL else P_UNKNOWN)).
  2:{ intros c Hc _. rewrite (detect_mysql_plain b bs Hb), settles_mysql.
      case_decide; [done|by apply detected_none]. }
  rewrite (if_unknown_step _ (if decide (http1_message bs) then P_HTTP1
             else if decide (http2_preface bs) then P_HTTP2 else P_UNKNOWN)).
  2:{ intros c Hc _. rewrite (detect_http_plain b bs Hb).
      case_decide; [by apply settles_some|]. by apply detected_if. }
  repeat first [rewrite or_else_if by done | rewrite or_else_unknown]. done.
Qed.

(** The length of a TLS record, header included. *)
Definition tls_record_size (bs : list Z) : Z := 5 + be_load (field bs 3 2).

(** [bs] starts with a complete TLS handshake record whose first message has
    type [hs_type]. *)
Definition tls_hello (hs_type : Z) (bs : list Z) : Prop :=
  52 <= Z.of_nat (length bs)
  /\ byte_at bs 0 = 22 /\ byte_at bs 1 = 3 /\ 1 <= byte_at bs 2 /\ byte_at bs 5 = hs_type
  /\ tls_record_size bs <= Z.of_nat (length bs) /\ tls_record_size bs <= MAX_MSG_SIZE.

(** The mask [MAX_MSG_SIZE - 1] is 0x77FF: it clears bit 11. *)
Lemma msg_mask x :
  0 <= x <= MAX_MSG_SIZE -> Z.land x (MAX_MSG_SIZE - 1) = if Z.testbit x 11 then x - 2048 else x.
Proof.
  intros Hx. unfold MAX_MSG_SIZE in *.
  assert (Hm : forall y, 0 <= y < 32768 -> Z.land y 30719 = Z.ldiff y 2048).
  { intros y Hy. apply Z.bits_inj'. intros i Hi. rewrite Z.land_spec, Z.ldiff_spec.
    destruct (Z.lt_ge_cases i 15) as [Hlt|Hge].
    - assert (Z.testbit 30719 i = negb (Z.testbit 2048 i)) as ->; [|done].
      assert (i = 0 \/ i = 1 \/ i = 2 \/ i = 3 \/ i = 4 \/ i = 5 \/ i = 6 \/ i = 7 \/ i = 8 \/ i = 9
        \/ i = 10 \/ i = 11 \/ i = 12 \/ i = 13 \/ i = 14) as Hc by lia.
      by repeat destruct Hc as [->|Hc]; [..|subst].
    - replace y with (y `mod` 2 ^ 15) by (apply Z.mod_small; lia).
      by rewrite Z.mod_pow2_bits_high by lia. }
  change (30720 - 1) with 30719. rewrite Hm by lia. change 2048 with (2 ^ 11).
  rewrite <- Z.clearbit_spec', Z.clearbit_spec'. destruct (Z.testbit x 11) eqn:Hb.
  - rewrite Z.sub_nocarry_ldiff; [done|]. apply Z.bits_inj'. intros i Hi.
    rewrite Z.ldiff_spec, Z.bits_0, Z.pow2_bits_eqb by lia.
    destruct (Z.eqb_spec 11 i) as [<-|]; [by rewrite Hb|done].
  - apply Z.bits_inj'. intros i Hi. rewrite Z.ldiff_spec, Z.pow2_bits_eqb by lia.
    destruct (Z.eqb_spec 11 i) as [<-|]; [by rewrite Hb|by rewrite andb_true_r].
Qed.

Section tls.
Context {E : Env} (b : buf_info) (bs : list Z) (Hb : plain_buffer b bs).

Lemma capture_tls_hello_plain hs_type hs :
  capture_tls_hello hs_type hs b (Z.of_nat (length bs))
  = if decide (tls_hello hs_type bs) then
      let n := Z.land (tls_record_size bs) (MAX_MSG_SIZE - 1) in
      if n =? 0 then (false, hs)
      else (true, hs <| he_data ::= write_prefix (take (Z.to_nat n) bs) |> <| he_size := n |>)
    else (false, hs).
Proof.
  unfold capture_tls_hello, tls_hello, MINIMUM_TLS_HANDSHAKE_SIZE. pose proof Hb as (Hi & Hnz & Hm & Hby & Hlen).
  rewrite (proj2 (Z.eqb_neq _ 0) Hnz), orb_false_r.
  destruct (Z.ltb_spec (Z.of_nat (length bs)) 52); [case_decide; [lia|done]|].
  change (read_header 6 6 b) with (read_header 6 (Z.of_nat 6) b).
  rewrite (read_header_plain b bs Hb) by lia. cbn [fst snd negb].
  rewrite !byte_at_take, or_be16_load, field_take
    by (lia || apply (take_bytes b bs Hb) || (rewrite length_take; lia)).
  fold (tls_record_size bs). unfold TLS_RECORD_HEADER_SIZE.
  assert (0 <= be_load (field bs 3 2) < 65536) as Hbe.
  { rewrite <- or_be16_load by (lia || done). unfold or_be16, u16. apply Z.mod_pos_bound. lia. }
  rewrite u32_small by lia. fold (tls_record_size bs). assert (0 <= tls_record_size bs) by (unfold tls_record_size; lia).
  case_decide as Hd.
  - destruct Hd as (_ & -> & -> & Hv & -> & Hs1 & Hs2).
    rewrite !Z.eqb_refl, (proj2 (Z.leb_le 1 _) Hv). cbn [andb negb].
    replace ((_ >? _) || (_ >? _)) with false by lia.
    set (n := Z.land _ _). assert (0 <= n <= tls_record_size bs) as Hn.
    { unfold n. rewrite msg_mask by lia. destruct (Z.testbit _ 11) eqn:Hbit; [|lia].
      apply Z.testbit_true in Hbit; [|lia]. change (2 ^ 11) with 2048 in Hbit.
      destruct (Z.lt_ge_cases (tls_record_size bs) 2048); [|lia]. by rewrite Z.div_small in Hbit by lia. }
    destruct (Z.eqb_spec n 0) as [->|Hn0].
    + unfold buf_read. cbn. by destruct hs.
    + rewrite (buf_read_simple_spec n b 0 bs) by lia || done. cbn [fst snd].
      by rewrite (proj2 (Z.eqb_neq n 0) Hn0).
  - destruct ((byte_at bs 0 =? 22) && _ && _) eqn:Hhd; [|done].
    destruct (Z.eqb_spec (byte_at bs 5) hs_type); cbn [negb]; [|done].
    destruct (_ || _) eqn:Hsz; [done|]. exfalso. apply Hd. split_and!; lia.
Qed.

End tls.

(** On a plain buffer, a complete client hello is captured with its
    length and bytes, and anything else is refused.  The captured length is the
    record length with bit 11 cleared, so a record of, say, 2049 to 4095 bytes loses
    its last 2048 bytes, and one of exactly 2048 bytes is dropped. *)
Theorem capture_tls_client_hello_spec (E : Env) b bs hs :
  plain_buffer b bs ->
  let total := tls_record_size bs in
  let n := if Z.testbit total 11 then total - 2048 else total in
  capture_tls_client_hello hs b (Z.of_nat (length bs))
  = if decide (tls_hello 1 bs /\ n <> 0)
    then (true, hs <| he_data ::= write_prefix (take (Z.to_nat n) bs) |> <| he_size := n |>)
    else (false, hs).
Proof.
  intros Hb total n. unfold capture_tls_client_hello. rewrite capture_tls_hello_plain by done.
  destruct (decide (tls_hello 1 bs)) as [Ht|Ht]; [|by rewrite decide_False by tauto].
  assert (0 <= total <= MAX_MSG_SIZE) as Hr.
  { destruct Ht as (? & _ & _ & _ & _ & _ & ?). split; [|done]. unfold total, tls_record_size.
    rewrite <- or_be16_load by (lia || apply Hb). unfold or_be16, u16.
    pose proof (Z.mod_pos_bound (Z.lor (byte_at bs 3 ≪ 8) (byte_at bs (3 + 1))) (2 ^ 16)). lia. }
  cbv zeta. rewrite msg_mask by done. fold total n.
  destruct (Z.eqb_spec n 0); case_decide; naive_solver.
Qed.

Lemma flat_plain_buffer bs :
  Forall is_byte bs -> Z.of_nat (length bs) < 2 ^ 31 ->
  @plain_buffer (flat_env 0 4096 bs) (BufInfo 4096 0) bs.
Proof. intros. split_and!; try done. apply flat_env_user_holds. Qed.

(** A 65-byte client hello record. *)
Definition hello_demo : list Z := [22; 3; 1; 0; 60; 1] ++ zeros 59.

Lemma capture_tls_client_hello_spec_witness :
  @capture_tls_client_hello (flat_env 0 4096 hello_demo) (HelloEvent 6 0 0 (zeros 70)) (BufInfo 4096 0) 65
  = (true, HelloEvent 6 0 65 (hello_demo ++ zeros 5)).
Proof.
  pose proof (capture_tls_client_hello_spec (flat_env 0 4096 hello_demo) (BufInfo 4096 0) hello_demo
    (HelloEvent 6 0 0 (zeros 70))) as H.
  cbv zeta in H. rewrite decide_True in H by (by vm_compute).
  apply H. apply flat_plain_buffer; [|done]. unfold hello_demo. repeat constructor; lia.
Defined.


Definition conn_zero : conn_info :=
  ConnInfo conn_pid_id_zero 0 net_addr_zero 0 0 false false P_UNKNOWN false false.

(** A MySQL server greeting: length 74, sequence 0, protocol version 10. *)
Definition greeting_demo : list Z := [74; 0; 0; 0; 10; 56; 46; 48].


(** Whatever the buffer (plain or vectored, readable or not),
    [detect_protocol] answers true exactly when it leaves a known protocol, and it
    writes no field but the protocol and, for MySQL, the TLS-upgrade watch. *)
Theorem detect_protocol_frame (E : Env) b count ci :
  let r := detect_protocol ci b count in
  r.1 = bool_decide (ci_protocol r.2 <> P_UNKNOWN)
  /\ r.2 = with_protocol (ci_protocol r.2) ci.
Proof.
  intros r. unfold r. destruct (detect_protocol_detected b count ci) as [p ->]. done.
Qed.

(** The start of an HTTP/1 request or response line. *)
Definition http1_start_lines : list string :=
  ["GET "; "HTTP/"; "POST "; "PUT "; "DELETE "; "PATCH "; "CONNECT "; "HEAD "; "OPTIONS "]%string.

Lemma classify_text bs port :
  port <> bswap16 53 -> 42 < byte_at bs 0 -> 10 < byte_at bs 3 -> Forall is_byte bs ->
  (7 <= length bs)%nat ->
  classify port bs = if decide (http1_message bs) then P_HTTP1
                     else if decide (http2_preface bs) then P_HTTP2 else P_UNKNOWN.
Proof.
  intros Hport H0 H3 Hb Hl. unfold classify, classify_with. rewrite if_bool_decide.
  pose proof (byte_at_range bs 0 Hb). pose proof (byte_at_range bs 1 Hb).
  pose proof (byte_at_range bs 2 Hb). pose proof (byte_at_range bs 3 Hb).
  assert (Hf : field bs 0 4 = [byte_at bs 0; byte_at bs 1; byte_at bs 2; byte_at bs 3])
    by (rewrite field_bytes by lia; done).
  rewrite !(decide_False (P := port = _)), (decide_False (P := mongodb_message bs)),
    (decide_False (P := kafka_accepted bs)), (decide_False (P := redis_command bs)),
    (decide_False (P := mysql_greeting bs)); [done|..|done];
    unfold mysql_greeting, redis_command, kafka_accepted, kafka_fields, mongodb_message, be_load; rewrite ?Hf;
    cbn [le_load rev app]; lia.
Qed.

(** A plain buffer that starts with an HTTP/1 request or status line is
    reported as HTTP/1, never as MongoDB, Kafka, Redis or MySQL, although their
    checks run first; only the DNS port takes precedence. *)
Theorem http1_detected (E : Env) b bs ci line :
  plain_buffer b bs -> line ∈ http1_start_lines -> bytes_of_string line `prefix_of` bs ->
  (7 <= length bs)%nat -> na_port (ci_addr ci) <> bswap16 53 ->
  ci_protocol (detect_protocol ci b (Z.of_nat (length bs))).2 = P_HTTP1.
Proof.
  intros Hb Hline Hpre Hl Hport. rewrite (detect_protocol_plain b bs) by done.
  change (classify (na_port (ci_addr ci)) bs = P_HTTP1). pose proof Hb as (_ & _ & _ & Hby & _).
  assert (42 < byte_at bs 0 /\ 10 < byte_at bs 3 /\ Exists (fun m => bytes_of_string m `prefix_of` bs) http1_words)
    as (H0 & H3 & Hm).
  { destruct Hpre as [rest ->]. unfold http1_start_lines, http1_words in *.
    repeat (apply elem_of_cons in Hline as [->|Hline];
      [split_and!; [done..|]; repeat (apply Exists_cons; first [left; by eexists | right])|]).
    by apply not_elem_of_nil in Hline. }
  rewrite classify_text, decide_True; try done. split; [lia|done].
Qed.

Lemma http1_detected_witness :
  ci_protocol (@detect_protocol (flat_env 0 4096 (bytes_of_string "GET / HTTP/1.1")) conn_zero
                 (BufInfo 4096 0) 14).2 = P_HTTP1.
Proof.
  apply (http1_detected (flat_env 0 4096 (bytes_of_string "GET / HTTP/1.1")) (BufInfo 4096 0)
           (bytes_of_string "GET / HTTP/1.1") conn_zero "GET ").
  - apply flat_plain_buffer; [|done]. cbn. repeat constructor; lia.
  - by left.
  - by eexists.
  - simpl; lia.
  - done.
Defined.
