(* ===== verification/Socket.v ===== *)
(** * Connections: open, protocol, data and close events

    The shared routines of [bpf/tap/socket.bpf.c] and the maps of
    [bpf/tap/socket.bpf.h], [bpf/tap/sock_pid_fd.bpf.h].

    A routine that receives a pointer into [conn_info_map] takes the record and
    returns what it leaves there; its caller stores the result under the same
    key ([store_elem]).  Values that the source reads through a pointer after it
    deleted the map entry are read before the deletion. *)

From stdpp Require Import base numbers list gmap strings.
From S2P Require Import Prelude Tap Net Bpf Trace Common Settings Process Buffers Protocol.

Definition CHUNK_LIMIT : nat := 4.

(** ** Maps *)

(** The hash maps of [socket.bpf.c] and [socket.bpf.h] all hold 16384 entries. *)
Definition sock_map {K V} `{Countable K} (get : sock_state -> gmap K V)
    (set : gmap K V -> sock_state -> sock_state) : bpf_map K V :=
  BpfMap (fun w => get (w_sock w)) (fun m w => w <| w_sock ::= set m |>) 16384 None.

Definition active_socket_args_map : bpf_map Z SOCKET_TYPE :=
  sock_map f_active_socket_args (fun m s => s <| f_active_socket_args := m |>).
Definition active_socket_types : bpf_map pid_fd_key SOCKET_TYPE :=
  sock_map f_active_socket_types (fun m s => s <| f_active_socket_types := m |>).
Definition active_fd_args_map : bpf_map socket_op_key Z :=
  sock_map f_active_fd_args (fun m s => s <| f_active_fd_args := m |>).
Definition active_addr_args_map : bpf_map pid_fd_key Z :=
  sock_map f_active_addr_args (fun m s => s <| f_active_addr_args := m |>).
Definition active_write_args_map : bpf_map pid_fd_key data_args :=
  sock_map f_active_write_args (fun m s => s <| f_active_write_args := m |>).
Definition active_read_args_map : bpf_map pid_fd_key data_args :=
  sock_map f_active_read_args (fun m s => s <| f_active_read_args := m |>).
Definition active_close_args_map : bpf_map pid_fd_key Z :=
  sock_map f_active_close_args (fun m s => s <| f_active_close_args := m |>).
Definition conn_info_map : bpf_map pid_fd_key conn_info :=
  sock_map f_conn_info (fun m s => s <| f_conn_info := m |>).
Definition uprobe_fd_requests {E : Env} : bpf_map Z fd_request :=
  BpfMap (fun w => f_uprobe_fd_requests (w_sock w))
    (fun m w => w <| w_sock ::= fun s => s <| f_uprobe_fd_requests := m |> |>) 1024 (Some lru_keep).

Definition pid_fd_to_sock_map : bpf_map pid_fd_key Z :=
  BpfMap (fun w => f_pid_fd_to_sock (w_spf w))
    (fun m w => w <| w_spf ::= fun s => s <| f_pid_fd_to_sock := m |> |>) 16384 None.

(** ** Socket types *)

Definition determine_socket_type (protocol type : Z) : SOCKET_TYPE :=
  let sock_type :=
    if protocol =? IPPROTO_TCP then S_TCP
    else if protocol =? IPPROTO_UDP then S_UDP
    else if protocol =? IPPROTO_RAW then S_RAW
    else if protocol =? IPPROTO_ICMP then S_ICMP
    else S_UNKNOWN in
  let sock_type := if (protocol =? 0) && (type =? SOCK_STREAM) then S_TCP else sock_type in
  if (protocol =? 0) && (type =? SOCK_DGRAM) then S_UDP else sock_type.

(** [meta != NULL && meta->qpoint_strategy == s] *)
Definition has_strategy (meta : option process_meta) (s : Z) : bool :=
  match meta with Some m => pm_qpoint_strategy m =? s | None => false end.

Section socket.
Context {E : Env}.

(** *** Open events *)

(** [local_addr] and [remote_addr], read from the kernel socket *)
Definition sock_local_addr (sk : Z) : net_addr :=
  let family := skc_family sk in
  let a := net_addr_zero <| sa_family := family |> <| na_port := bswap16 (skc_num sk) |> in
  let a := if family =? AF_INET then a <| na_addr ::= write_prefix (skc_rcv_saddr sk) |> else a in
  if family =? AF_INET6 then a <| na_addr ::= write_prefix (skc_v6_rcv_saddr sk) |> else a.

Definition sock_remote_addr (sk : Z) : net_addr :=
  let family := skc_family sk in
  let a := net_addr_zero <| sa_family := family |> <| na_port := skc_dport sk |> in
  let a := if family =? AF_INET then a <| na_addr ::= write_prefix (skc_daddr sk) |> else a in
  if family =? AF_INET6 then a <| na_addr ::= write_prefix (skc_v6_daddr sk) |> else a.

(** The fallback reads an [int] at each of the adjacent 16-bit fields
    [sk_type], [sk_protocol], [sk_gso_max_segs]. *)
Definition sock_type_fallback (sk : Z) : SOCKET_TYPE :=
  let proto := s32 (sk_protocol sk + 65536 * sk_gso_max_segs sk) in
  let sock_type := s32 (sk_type sk + 65536 * sk_protocol sk) in
  determine_socket_type proto sock_type.

(** What [submit_open_event] takes from the socket behind the descriptor. *)
Definition open_from_sock (sock : Z) (type_ptr : option SOCKET_TYPE) (ci : conn_info)
    (e : socket_open_event) : conn_info * socket_open_event :=
  let sk := sock_sk sock in
  let cookie := skc_cookie sk in
  let e := e <| oe_cookie := cookie |> in
  let e := match type_ptr with
           | None => e <| oe_socket_type := sock_type_fallback sk |>
           | Some _ => e
           end in
  (ci <| ci_cookie := cookie |>,
   e <| oe_local := sock_local_addr sk |> <| oe_remote := sock_remote_addr sk |>).

(** The filters of [submit_open_event], in source order. *)
Definition open_filters (capture_direction : Z) (ignore_loopback skip_all : bool)
    (e : socket_open_event) (ci : conn_info) : conn_info :=
  let is_loopback := is_local_ip (oe_remote e) in
  let function := cp_function (ci_conn_pid_id ci) in
  let ignore ci := ci <| ci_ignore := true |> in
  let ci := if is_loopback && ignore_loopback then ignore ci else ci in
  let ci := if bool_decide (function = C_SERVER)
               && negb ((capture_direction =? D_INGRESS) || (capture_direction =? D_ALL))
            then ignore ci else ci in
  let ci :=
    if bool_decide (function = C_CLIENT) then
      let ci := if capture_direction =? D_INGRESS then ignore ci else ci in
      let is_internal_service := is_private_ip (oe_remote e) in
      let ci := if is_internal_service && (capture_direction =? D_EGRESS_EXTERNAL)
                   && negb (oe_is_redirected e) then ignore ci else ci in
      if negb is_internal_service && (capture_direction =? D_EGRESS_INTERNAL) then ignore ci else ci
    else ci in
  let ci := if bool_decide (function = C_CLIENT) && is_dns ci then ignore ci else ci in
  if skip_all then ignore ci else ci.

(** [submit_open_event] once the socket has been read: the remote address
    fallback, the filters, and the submission. *)
Definition finish_open (pid : Z) (ci : conn_info) (e : socket_open_event) : M world conn_info :=
  let e := if sa_family (oe_remote e) =? 0 then e <| oe_remote := ci_addr ci |> else e in
  let* redirected := gets (fun w => is_management_address (f_mgmt_addrs w) (oe_remote e)) in
  let e := e <| oe_is_redirected := redirected |> in
  let* capture_direction := get_direction_setting in
  let* ignore_loopback := get_ignore_loopback_setting in
  let* skip_all := SKIP_ALL pid in
  let ci := open_filters capture_direction ignore_loopback skip_all e ci in
  if ci_ignore ci || (ci_cookie ci =? 0) then ret ci
  else
    submit_socket_event (Ev_open e) ;;
    ret (ci <| ci_is_open := true |>).

Definition submit_open_event (ctx : socket_ctx) (ci : conn_info) : M world conn_info :=
  if ci_is_open ci then ret ci
  else
    let pid := k_pid (sc_id ctx) in
    let* meta := get_process_meta pid in
    if has_strategy meta QP_IGNORE then ret (ci <| ci_ignore := true |>)
    else
      let* open_event := bpf_ringbuf_reserve in
      match open_event with
      | None => ret ci
      | Some k =>
          let e := (ringbuf_open k)
                     <| oe_type := S_OPEN |>
                     <| oe_timestamp_ns := cp_tsid (ci_conn_pid_id ci) |>
                     <| oe_conn_pid_id := ci_conn_pid_id ci |>
                     <| oe_pid := pid |>
                     <| oe_tgid := tid_of (sc_pid_tgid ctx) |>
                     <| oe_socket_type := S_UNKNOWN |> in
          let* type_ptr := bpf_map_lookup_elem active_socket_types (sc_id ctx) in
          let e := match type_ptr with Some t => e <| oe_socket_type := t |> | None => e end in
          let fd_sock_key := PidFd pid (k_fd (sc_id ctx)) in
          let* sock_ptr := bpf_map_lookup_elem pid_fd_to_sock_map fd_sock_key in
          let ce := match sock_ptr with
                    | Some sock => open_from_sock sock type_ptr ci e
                    | None => (ci, e)
                    end in
          finish_open pid ce.1 ce.2
      end.

Definition submit_proto_event (ci : conn_info) : M world unit :=
  if bool_decide (ci_protocol ci = P_UNKNOWN) then ret tt
  else
    let* proto_event := bpf_ringbuf_reserve in
    match proto_event with
    | None => ret tt
    | Some _ =>
        let* timestamp_ns := bpf_ktime_get_ns in
        submit_socket_event (Ev_proto
          (ProtoEvent S_PROTO timestamp_ns (ci_conn_pid_id ci) (ci_cookie ci) (ci_protocol ci) (ci_is_ssl ci)))
    end.

(** *** Connection set-up and tear-down *)

(** The address argument of the system call, kept as a fallback. *)
Definition read_sockaddr (sockaddr : Z) : net_addr :=
  let family := le_load (bpf_probe_read_user sockaddr 2).2 in
  let a := net_addr_zero <| sa_family := family |> in
  let port := le_load (bpf_probe_read_user (sockaddr + 2) 2).2 in
  if family =? AF_INET then
    a <| na_addr ::= write_prefix (bpf_probe_read_user (sockaddr + 4) 4).2 |> <| na_port := port |>
  else if family =? AF_INET6 then
    a <| na_addr ::= write_prefix (bpf_probe_read_user (sockaddr + 8) 16).2 |> <| na_port := port |>
  else a.

(** [process_syscall_addr] up to the early insertion into [conn_info_map]. *)
Definition process_syscall_addr_insert (ctx : socket_ctx) (addr : Z) (function : CONNECTION_TYPE) :
    M world unit :=
  let* tsid := bpf_ktime_get_ns in
  let id := sc_id ctx in
  let ci := ConnInfo (ConnPidId (k_pid id) (tid_of (sc_pid_tgid ctx)) (k_fd id) function tsid)
              0 (read_sockaddr addr) 0 0 false false P_UNKNOWN false false in
  let* _ := bpf_map_update_elem conn_info_map id ci in
  ret tt.

(** The rest of it: the open event, on the map's copy. *)
Definition process_syscall_addr_open (ctx : socket_ctx) : M world unit :=
  let* map_conn_info := bpf_map_lookup_elem conn_info_map (sc_id ctx) in
  match map_conn_info with
  | None => ret tt
  | Some ci =>
      let* ci' := submit_open_event ctx ci in
      store_elem conn_info_map (sc_id ctx) ci'
  end.

Definition process_syscall_addr (ctx : socket_ctx) (addr : Z) (function : CONNECTION_TYPE) :
    M world unit :=
  process_syscall_addr_insert ctx addr function ;;
  process_syscall_addr_open ctx.

Definition process_close (ctx : socket_ctx) : M world unit :=
  let* conn_info := bpf_map_lookup_elem conn_info_map (sc_id ctx) in
  match conn_info with
  | None => ret tt
  | Some ci =>
      (if ci_is_open ci then
         let* close_event := bpf_ringbuf_reserve in
         match close_event with
         | Some _ =>
             let* timestamp_ns := bpf_ktime_get_ns in
             submit_socket_event (Ev_close
               (CloseEvent S_CLOSE timestamp_ns (ci_conn_pid_id ci) (ci_cookie ci) (ci_wr_bytes ci)
                  (ci_rd_bytes ci) (k_pid (sc_id ctx)) (tid_of (sc_pid_tgid ctx))))
         | None => ret tt
         end
       else ret tt) ;;
      let* _ := bpf_map_delete_elem conn_info_map (sc_id ctx) in
      ret tt
  end.

(** *** Data *)

Definition data_heap (f : socket_data_event -> socket_data_event) : M world unit :=
  modify (fun w => w <| w_sock ::= fun s => s <| f_data_heap ::= f |> |>).

Definition submit_buffer_chunk (buf buf_size : Z) : M world unit :=
  let amount_copied := if buf_size <? MAX_MSG_SIZE then buf_size else MAX_MSG_SIZE in
  let r := bpf_probe_read_user buf amount_copied in
  data_heap (fun e => e <| de_msg ::= write_prefix r.2 |>) ;;
  if negb (r.1 =? 0) then ret tt
  else if amount_copied >? 0 then
    data_heap (fun e => e <| de_msg_size := u32 amount_copied |>) ;;
    let* event := gets (fun w => f_data_heap (w_sock w)) in
    socket_events_output (Ev_data (event <| de_msg ::= take (Z.to_nat amount_copied) |>))
  else ret tt.

(** The chunk loop from chunk [i], with [n] iterations left. *)
Fixpoint submit_buffer_loop (n i : nat) (direction buf size : Z) (conn : conn_info)
    (bytes_sent : Z) : M world unit :=
  match n with
  | O => ret tt
  | S n' =>
      let bytes_remaining := s32 (size - bytes_sent) in
      let current_size := u64 (if (bytes_remaining >? MAX_MSG_SIZE) && negb (Nat.eqb i (CHUNK_LIMIT - 1))
                               then MAX_MSG_SIZE else bytes_remaining) in
      (if direction =? D_EGRESS
       then data_heap (fun ev => ev <| de_pos := u64 (ci_wr_bytes conn + bytes_sent) |>)
       else if direction =? D_INGRESS
       then data_heap (fun ev => ev <| de_pos := u64 (ci_rd_bytes conn + bytes_sent) |>)
       else ret tt) ;;
      submit_buffer_chunk (buf + bytes_sent) current_size ;;
      let bytes_sent := s32 (bytes_sent + current_size) in
      if size =? u64 bytes_sent then ret tt
      else submit_buffer_loop n' (S i) direction buf size conn bytes_sent
  end.

Definition submit_buffer (direction buf size : Z) (conn : conn_info) : M world unit :=
  submit_buffer_loop CHUNK_LIMIT 0 direction buf size conn 0.

Definition update_bandwidth_tracking (ci : conn_info) (direction bytes : Z) : conn_info :=
  if direction =? D_EGRESS then ci <| ci_wr_bytes ::= fun n => s64 (n + bytes) |>
  else if direction =? D_INGRESS then ci <| ci_rd_bytes ::= fun n => s64 (n + bytes) |>
  else ci.

(** The attributes shared by the trace messages of the data handlers. *)
Definition data_trace (ctx : socket_ctx) (direction bytes : Z) : list trace_arg :=
  [TRACE_STRING "caller" (sc_trace_id ctx); TRACE_INT "pid" (k_pid (sc_id ctx));
   TRACE_INT "fd" (k_fd (sc_id ctx)); TRACE_INT "direction" direction; TRACE_INT "bytes" bytes].

Definition trace_ctx (ctx : socket_ctx) (msg : string) (args : list trace_arg) : M world unit :=
  TRACE_IF_ENABLED (sc_trace_mod ctx) (k_pid (sc_id ctx)) msg args.

Definition respond_to_fd_request (pid_tgid fd : Z) : M world unit :=
  let* fd_request := bpf_map_lookup_elem uprobe_fd_requests pid_tgid in
  match fd_request with
  | None => ret tt
  | Some r => store_elem uprobe_fd_requests pid_tgid (r <| fr_fd := u32 fd |>)
  end.

(** [struct buf_info buf_info = { .buf = args->buf, .iovcnt = args->iovcnt };] *)
Definition buf_info_of (args : data_args) : buf_info := BufInfo (da_buf args) (u64 (da_iovcnt args)).

(** *** First packets: TLS detection and hello capture *)

Definition client_hello_heap (h : socket_tls_hello_event) : M world unit :=
  modify (fun w => w <| w_sock ::= fun s => s <| f_client_hello_heap := h |> |>).
Definition server_hello_heap (h : socket_tls_hello_event) : M world unit :=
  modify (fun w => w <| w_sock ::= fun s => s <| f_server_hello_heap := h |> |>).

(** The capture of both hello kinds, lines after the strategy test. *)
Definition submit_hellos (ci : conn_info) (b : buf_info) (bytes : Z) : M world unit :=
  let* hello := gets (fun w => f_client_hello_heap (w_sock w)) in
  let r := capture_tls_client_hello hello b bytes in
  client_hello_heap r.2 ;;
  (if r.1 then
     let hello := r.2 <| he_type := S_TLS_CLIENT_HELLO |> <| he_cookie := ci_cookie ci |> in
     client_hello_heap hello ;;
     socket_events_output (Ev_tls_hello hello)
   else ret tt) ;;
  let* server_hello := gets (fun w => f_server_hello_heap (w_sock w)) in
  let r := capture_tls_server_hello server_hello b bytes in
  server_hello_heap r.2 ;;
  (if r.1 then
     let server_hello := r.2 <| he_type := S_TLS_SERVER_HELLO |> <| he_cookie := ci_cookie ci |> in
     server_hello_heap server_hello ;;
     socket_events_output (Ev_tls_hello server_hello)
   else ret tt).

(** A connection without a cookie is opened late, once its socket has one. *)
Definition late_open (ctx : socket_ctx) (ci : conn_info) : M world conn_info :=
  if ci_cookie ci =? 0 then
    let fd_sock_key := PidFd (k_pid (sc_id ctx)) (k_fd (sc_id ctx)) in
    let* sock_ptr := bpf_map_lookup_elem pid_fd_to_sock_map fd_sock_key in
    match sock_ptr with
    | Some sock => if skc_cookie (sock_sk sock) >? 0 then submit_open_event ctx ci else ret ci
    | None => ret ci
    end
  else ret ci.

(** [init_conn] after the lookup of the connection. *)
Definition init_conn_found (ctx : socket_ctx) (direction : Z) (args : data_args) (bytes : Z)
    (ci : conn_info) : M world conn_info :=
  let* meta := get_process_meta (k_pid (sc_id ctx)) in
  if has_strategy meta QP_IGNORE then ret (ci <| ci_ignore := true |>)
  else
    let* ci := late_open ctx ci in
    let is_new_connection := ((direction =? D_INGRESS) && (ci_rd_bytes ci =? 0))
                             || ((direction =? D_EGRESS) && (ci_wr_bytes ci =? 0)) in
    let check_for_tls := is_new_connection || (ci_tls_upgrade_pending ci && negb (ci_is_ssl ci)) in
    if negb check_for_tls then ret ci
    else
      let b := buf_info_of args in
      let ci := (detect_tls ci b bytes).2 in
      let* ci :=
        if ci_is_ssl ci && ci_tls_upgrade_pending ci then
          let ci := ci <| ci_tls_upgrade_pending := false |> in
          (if bool_decide (ci_protocol ci <> P_UNKNOWN) then submit_proto_event ci else ret tt) ;;
          ret ci
        else ret ci in
      if negb (ci_is_ssl ci) then ret ci
      else if has_strategy meta QP_FORWARD || has_strategy meta QP_PROXY then ret ci
      else submit_hellos ci b bytes ;; ret ci.

Definition init_conn (ctx : socket_ctx) (direction : Z) (args : data_args) (bytes : Z) : M world unit :=
  if da_buf args =? 0 then ret tt
  else if bytes <=? 0 then ret tt
  else
    let* conn_info := bpf_map_lookup_elem conn_info_map (sc_id ctx) in
    match conn_info with
    | None => trace_ctx ctx "init_conn (conn_info = NULL)"
                (data_trace ctx direction bytes ++ [TRACE_BOOL "open" false])
    | Some ci =>
        let* ci' := init_conn_found ctx direction args bytes ci in
        store_elem conn_info_map (sc_id ctx) ci'
    end.

(** *** The data handler *)

(** The loop over the iovec array from entry [i], with [n] iterations left. *)
Fixpoint submit_iovecs (n i : nat) (direction : Z) (args : data_args) (bytes : Z) (conn : conn_info)
    (bytes_sent : Z) : M world unit :=
  match n with
  | O => ret tt
  | S n' =>
      if negb ((Z.of_nat i <? da_iovcnt args) && (bytes_sent <? bytes)) then ret tt
      else
        let iov := (bpf_probe_read_user (da_buf args + SIZEOF_IOVEC * Z.of_nat i) SIZEOF_IOVEC).2 in
        let bytes_remaining := u64 (s32 (bytes - bytes_sent)) in
        let iov_size := if iov_len iov <? bytes_remaining then iov_len iov else bytes_remaining in
        submit_buffer direction (iov_base iov) iov_size conn ;;
        data_heap (fun ev => ev <| de_pos ::= fun p => u64 (p + iov_size) |>) ;;
        submit_iovecs n' (S i) direction args bytes conn (u64 (bytes_sent + iov_size))
  end.

(** The data event is initialised on the heap and the buffers are submitted. *)
Definition submit_data (ctx : socket_ctx) (direction : Z) (args : data_args) (bytes : Z)
    (ci : conn_info) : M world unit :=
  let* timestamp_ns := bpf_ktime_get_ns in
  data_heap (fun e => e <| de_type := S_DATA |> <| de_timestamp_ns := timestamp_ns |>
    <| de_direction := direction |> <| de_conn_pid_id := ci_conn_pid_id ci |>
    <| de_cookie := ci_cookie ci |> <| de_pid := k_pid (sc_id ctx) |>
    <| de_tgid := tid_of (sc_pid_tgid ctx) |>) ;;
  if da_iovcnt args >? 0
  then submit_iovecs LOOP_LIMIT 0 direction args bytes ci 0
  else submit_buffer direction (da_buf args) bytes ci.

(** The end of [process_data], from the stream decision on. *)
Definition stream_data (ctx : socket_ctx) (direction : Z) (args : data_args) (bytes : Z) (ssl : bool)
    (ci : conn_info) : M world conn_info :=
  let* by_settings := should_stream (ci_protocol ci) in
  let stream := (bool_decide (cp_function (ci_conn_pid_id ci) = C_CLIENT)
                 && bool_decide (ci_protocol ci = P_DNS)) || by_settings in
  if negb stream then
    trace_ctx ctx "process_data (settings = IGNORE, ignore = true)"
      (data_trace ctx direction bytes ++ [TRACE_BOOL "ssl" ssl]) ;;
    ret (ci <| ci_ignore := true |>)
  else
    submit_data ctx direction args bytes ci ;;
    ret ci.

(** The filter flags tested after detection. *)
Definition skip_flags (ctx : socket_ctx) (ci : conn_info) : M world bool :=
  let pid := k_pid (sc_id ctx) in
  let* skip_data := SKIP_DATA pid in
  let* skip_dns := SKIP_DNS pid in
  let* skip_tls := SKIP_TLS pid in
  let* skip_http := SKIP_HTTP pid in
  ret (skip_data || (bool_decide (ci_protocol ci = P_DNS) && skip_dns)
       || (ci_is_ssl ci && skip_tls) || (negb (ci_is_ssl ci) && skip_http)).

(** [process_data] once the connection is open, not ignored, and the call comes
    from the layer that carries the plaintext. *)
Definition detect_and_stream (ctx : socket_ctx) (direction : Z) (args : data_args) (bytes : Z)
    (ssl tls_just_upgraded : bool) (ci : conn_info) : M world conn_info :=
  let protocol := ci_protocol ci in
  trace_ctx ctx "process_data (pre-protocol)"
    (data_trace ctx direction bytes ++ [TRACE_BOOL "ssl" ssl; TRACE_INT "protocol" (protocol_num protocol)]) ;;
  let ci := if bool_decide (protocol = P_UNKNOWN)
            then (detect_protocol ci (buf_info_of args) bytes).2 else ci in
  let* skip := skip_flags ctx ci in
  if skip then ret (ci <| ci_ignore := true |>)
  else
    (if bool_decide (protocol = P_UNKNOWN) && bool_decide (ci_protocol ci <> P_UNKNOWN)
     then submit_proto_event ci else ret tt) ;;
    (if tls_just_upgraded then submit_proto_event ci else ret tt) ;;
    if bool_decide (ci_protocol ci = P_UNKNOWN) then
      trace_ctx ctx "process_data (protocol = UNKNOWN, ignore = true)"
        (data_trace ctx direction bytes ++ [TRACE_BOOL "ssl" ssl]) ;;
      ret ci
    else stream_data ctx direction args bytes ssl ci.

Definition process_data_open (ctx : socket_ctx) (direction : Z) (args : data_args) (bytes : Z)
    (ssl : bool) (ci : conn_info) : M world conn_info :=
  let ci := if ssl then ci else update_bandwidth_tracking ci direction bytes in
  if ci_ignore ci then
    trace_ctx ctx "process_data (ignore = true)"
      (data_trace ctx direction bytes ++ [TRACE_BOOL "ssl" ssl]) ;;
    ret ci
  else
    let* meta := get_process_meta (k_pid (sc_id ctx)) in
    if has_strategy meta QP_IGNORE then ret (ci <| ci_ignore := true |>)
    else if has_strategy meta QP_FORWARD || has_strategy meta QP_PROXY then ret ci
    else
      let upgrade := ssl && negb (ci_is_ssl ci) in
      let tls_just_upgraded := upgrade && bool_decide (ci_protocol ci <> P_UNKNOWN) in
      let ci := if upgrade then ci <| ci_is_ssl := true |> else ci in
      if negb ssl && ci_is_ssl ci then
        trace_ctx ctx "process_data (not ssl)"
          (data_trace ctx direction bytes ++ [TRACE_BOOL "ssl" ssl]) ;;
        ret ci
      else detect_and_stream ctx direction args bytes ssl tls_just_upgraded ci.

(** [process_data] on a connection whose open event is not out yet. *)
Definition process_data_early (ctx : socket_ctx) (direction : Z) (args : data_args) (bytes : Z)
    (ssl : bool) (ci : conn_info) : M world conn_info :=
  trace_ctx ctx "process_data (conn_info->is_open = false)"
    (data_trace ctx direction bytes ++ [TRACE_BOOL "ssl" ssl; TRACE_BOOL "open" false]) ;;
  if bool_decide (ci_protocol ci = P_UNKNOWN)
  then ret (detect_protocol ci (buf_info_of args) bytes).2
  else ret ci.

Definition process_data (ctx : socket_ctx) (direction : Z) (args : data_args) (bytes : Z) (ssl : bool) :
    M world unit :=
  if da_buf args =? 0 then ret tt
  else if bytes <=? 0 then ret tt
  else
    let* conn_info := bpf_map_lookup_elem conn_info_map (sc_id ctx) in
    match conn_info with
    | None => trace_ctx ctx "process_data (conn_info = NULL)"
                (data_trace ctx direction bytes ++ [TRACE_BOOL "ssl" ssl; TRACE_BOOL "open" false])
    | Some ci =>
        let* ci' := if ci_is_open ci then process_data_open ctx direction args bytes ssl ci
                    else process_data_early ctx direction args bytes ssl ci in
        store_elem conn_info_map (sc_id ctx) ci'
    end.

End socket.
