(* ===== verification/SocketProbes.v ===== *)
(** * System-call tracepoints

    The [sys_enter_*] and [sys_exit_*] programs of [bpf/tap/socket.bpf.c].  The
    entry program saves the arguments under the thread and the descriptor; the
    exit programs pick them up.  A data system call has two exit programs: the
    [_init] one, which the loader attaches first, and the main one. *)

From stdpp Require Import base numbers list gmap strings.
From S2P Require Import Prelude Tap Bpf Trace Common Buffers Socket.

Definition MSG_PEEK : Z := 2.

(** Offsets in [struct user_msghdr] *)
Definition MSG_IOV : Z := 16.
Definition MSG_IOVLEN : Z := 24.

Section probes.
Context {E : Env}.

(** [id.pid = pid_tgid >> 32; id.fd = fd;] *)
Definition current_id (fd : Z) : pid_fd_key := PidFd (pid_of bpf_get_current_pid_tgid) fd.

Definition current_op (op : SYSCALL_OP) : socket_op_key := OpKey bpf_get_current_pid_tgid op.

(** *** socket *)

Definition syscall__probe_entry_socket (arg0 arg1 arg2 : Z) : M world Z :=
  let domain := s32 arg0 in
  let type := Z.land (s32 arg1) 7 in
  let protocol := s32 arg2 in
  if negb ((domain =? AF_INET) || (domain =? AF_INET6)) then ret 0
  else if negb ((type =? SOCK_STREAM) || (type =? SOCK_DGRAM)) then ret 0
  else
    let sock_type := determine_socket_type protocol type in
    let* _ := bpf_map_update_elem active_socket_args_map bpf_get_current_pid_tgid sock_type in
    ret 0.

Definition syscall__probe_ret_socket (ret_ : Z) : M world Z :=
  let fd := s32 ret_ in
  let* type_ptr := bpf_map_lookup_elem active_socket_args_map bpf_get_current_pid_tgid in
  match type_ptr with
  | None => ret 0
  | Some type =>
      let* _ := bpf_map_delete_elem active_socket_args_map bpf_get_current_pid_tgid in
      if fd <=? 0 then ret 0
      else
        let* _ := bpf_map_update_elem active_socket_types (current_id fd) type in
        ret 0
  end.

(** *** accept, accept4, connect *)

(** The body shared by the three entry programs. *)
Definition entry_addr (op : SYSCALL_OP) (arg0 arg1 : Z) : M world Z :=
  let fd := s32 arg0 in
  let* _ := bpf_map_update_elem active_fd_args_map (current_op op) fd in
  bpf_map_update_elem active_addr_args_map (current_id fd) arg1.

Definition syscall__probe_entry_accept := entry_addr SYS_ACCEPT.
Definition syscall__probe_entry_accept4 := entry_addr SYS_ACCEPT4.
Definition syscall__probe_entry_connect := entry_addr SYS_CONNECT.

(** A context with [trace_mod = QTAP_SOCKET]. *)
Definition sock_ctx (id : pid_fd_key) (trace_id : string) : socket_ctx :=
  SocketCtx id bpf_get_current_pid_tgid trace_id QTAP_SOCKET.

Definition trace_accept (name : string) (fd : Z) : M world unit :=
  TRACE_IF_ENABLED QTAP_SOCKET (pid_of bpf_get_current_pid_tgid) name
    [TRACE_STRING "caller" name; TRACE_INT "pid" (pid_of bpf_get_current_pid_tgid); TRACE_INT "fd" fd].

Definition syscall__probe_ret_accept (ret_ : Z) : M world Z :=
  let ret_val := s32 ret_ in
  let* fd := bpf_map_lookup_elem active_fd_args_map (current_op SYS_ACCEPT) in
  match fd with
  | None => ret 0
  | Some fd =>
      let* _ := bpf_map_delete_elem active_fd_args_map (current_op SYS_ACCEPT) in
      if ret_val <=? 0 then ret 0
      else
        let* addr_args := bpf_map_lookup_elem active_addr_args_map (current_id fd) in
        match addr_args with
        | None => ret 0
        | Some addr =>
            let* _ := bpf_map_delete_elem active_addr_args_map (current_id fd) in
            if ret_val <=? 0 then ret 0
            else
              trace_accept "syscall/accept" ret_val ;;
              process_syscall_addr (sock_ctx (current_id ret_val) "syscall/accept") addr C_SERVER ;;
              ret 0
        end
  end.

Definition syscall__probe_ret_accept4 (ret_ : Z) : M world Z :=
  let ret_val := s32 ret_ in
  let* fd := bpf_map_lookup_elem active_fd_args_map (current_op SYS_ACCEPT4) in
  match fd with
  | None => ret 0
  | Some fd =>
      let* _ := bpf_map_delete_elem active_fd_args_map (current_op SYS_ACCEPT4) in
      let* addr_args := bpf_map_lookup_elem active_addr_args_map (current_id fd) in
      match addr_args with
      | None => ret 0
      | Some addr =>
          let* _ := bpf_map_delete_elem active_addr_args_map (current_id fd) in
          if ret_val <=? 0 then ret 0
          else
            trace_accept "syscall/accept4" ret_val ;;
            process_syscall_addr (sock_ctx (current_id ret_val) "syscall/accept4") addr C_SERVER ;;
            ret 0
      end
  end.

Definition syscall__probe_ret_connect (ret_ : Z) : M world Z :=
  let* fd := bpf_map_lookup_elem active_fd_args_map (current_op SYS_CONNECT) in
  match fd with
  | None => ret 0
  | Some fd =>
      let* _ := bpf_map_delete_elem active_fd_args_map (current_op SYS_CONNECT) in
      let* addr_args := bpf_map_lookup_elem active_addr_args_map (current_id fd) in
      match addr_args with
      | None => ret 0
      | Some addr =>
          let* _ := bpf_map_delete_elem active_addr_args_map (current_id fd) in
          process_syscall_addr (sock_ctx (current_id fd) "syscall/connect") addr C_CLIENT ;;
          ret 0
      end
  end.

(** *** Data system calls *)

(** The body of the data entry programs: [args_map] is [active_write_args_map] or
    [active_read_args_map]; [share] says whether the program answers a pending
    descriptor request. *)
Definition entry_data (args_map : bpf_map pid_fd_key data_args) (op : SYSCALL_OP) (share : bool)
    (fd buf iovcnt : Z) : M world Z :=
  let* _ := bpf_map_update_elem active_fd_args_map (current_op op) fd in
  (if share then respond_to_fd_request bpf_get_current_pid_tgid fd else ret tt) ;;
  bpf_map_update_elem args_map (current_id fd) (DataArgs fd buf iovcnt 0 0).

(** [msg->msg_iov] and [(int32_t)msg->msg_iovlen] *)
Definition msg_iov (msg : Z) : Z := le_load (bpf_probe_read_user (msg + MSG_IOV) 8).2.
Definition msg_iovlen (msg : Z) : Z := s32 (le_load (bpf_probe_read_user (msg + MSG_IOVLEN) 8).2).

Definition syscall__probe_entry_sendto (arg0 arg1 : Z) : M world Z :=
  entry_data active_write_args_map SYS_SENDTO true (s32 arg0) arg1 0.
Definition syscall__probe_entry_write (arg0 arg1 : Z) : M world Z :=
  entry_data active_write_args_map SYS_WRITE true (s32 arg0) arg1 0.
Definition syscall__probe_entry_writev (arg0 arg1 arg2 : Z) : M world Z :=
  entry_data active_write_args_map SYS_WRITEV true (s32 arg0) arg1 (s32 arg2).
Definition syscall__probe_entry_sendmsg (arg0 arg1 : Z) : M world Z :=
  entry_data active_write_args_map SYS_SENDMSG true (s32 arg0) (msg_iov arg1) (msg_iovlen arg1).
Definition syscall__probe_entry_recvfrom (arg0 arg1 arg3 : Z) : M world Z :=
  if negb (Z.land (s32 arg3) MSG_PEEK =? 0) then ret 0
  else entry_data active_read_args_map SYS_RECVFROM true (s32 arg0) arg1 0.
Definition syscall__probe_entry_read (arg0 arg1 : Z) : M world Z :=
  entry_data active_read_args_map SYS_READ false (s32 arg0) arg1 0.
Definition syscall__probe_entry_readv (arg0 arg1 arg2 : Z) : M world Z :=
  entry_data active_read_args_map SYS_READV false (s32 arg0) arg1 (s32 arg2).
Definition syscall__probe_entry_recvmsg (arg0 arg1 arg2 : Z) : M world Z :=
  if negb (Z.land (s32 arg2) MSG_PEEK =? 0) then ret 0
  else entry_data active_read_args_map SYS_RECVMSG false (s32 arg0) (msg_iov arg1) (msg_iovlen arg1).

Definition trace_bytes (name : string) (fd bytes_count : Z) : M world unit :=
  TRACE_SOCKET (pid_of bpf_get_current_pid_tgid) name
    [TRACE_INT "pid" (pid_of bpf_get_current_pid_tgid); TRACE_INT "fd" fd; TRACE_INT "bytes" bytes_count].

(** The body of the main data exit programs. *)
Definition ret_data (args_map : bpf_map pid_fd_key data_args) (op : SYSCALL_OP) (name : string)
    (direction : Z) (share : bool) (bytes_count : Z) : M world Z :=
  let* fd := bpf_map_lookup_elem active_fd_args_map (current_op op) in
  match fd with
  | None => ret 0
  | Some fd =>
      let* _ := bpf_map_delete_elem active_fd_args_map (current_op op) in
      let id := current_id fd in
      let* args := bpf_map_lookup_elem args_map id in
      match args with
      | None => ret 0
      | Some args =>
          (if bytes_count >? 0 then
             trace_bytes name (da_fd args) bytes_count ;;
             (if share then respond_to_fd_request bpf_get_current_pid_tgid fd else ret tt) ;;
             process_data (sock_ctx id name) direction args bytes_count false
           else ret tt) ;;
          let* _ := bpf_map_delete_elem args_map id in
          ret 0
      end
  end.

(** The body of the [_init] data exit programs, which leave the saved arguments
    for the main one; [mod_] is the trace component of their context. *)
Definition ret_data_init (args_map : bpf_map pid_fd_key data_args) (op : SYSCALL_OP) (name : string)
    (mod_ : QTAP_COMPONENT) (direction : Z) (share : bool) (bytes_count : Z) : M world Z :=
  let* fd := bpf_map_lookup_elem active_fd_args_map (current_op op) in
  match fd with
  | None => ret 0
  | Some fd =>
      let id := current_id fd in
      let* args := bpf_map_lookup_elem args_map id in
      match args with
      | None => ret 0
      | Some args =>
          (if bytes_count >? 0 then
             trace_bytes (name ++ " (init)") (da_fd args) bytes_count ;;
             (if share then respond_to_fd_request bpf_get_current_pid_tgid fd else ret tt) ;;
             init_conn (SocketCtx id bpf_get_current_pid_tgid name mod_) direction args bytes_count
           else ret tt) ;;
          ret 0
      end
  end.

Definition syscall__probe_ret_sendto :=
  ret_data active_write_args_map SYS_SENDTO "syscall/sendto" D_EGRESS false.
Definition syscall__probe_ret_sendto_init :=
  ret_data_init active_write_args_map SYS_SENDTO "syscall/sendto" QTAP_CA D_EGRESS false.
Definition syscall__probe_ret_write :=
  ret_data active_write_args_map SYS_WRITE "syscall/write" D_EGRESS false.
Definition syscall__probe_ret_write_init :=
  ret_data_init active_write_args_map SYS_WRITE "syscall/write" QTAP_CA D_EGRESS false.
Definition syscall__probe_ret_writev :=
  ret_data active_write_args_map SYS_WRITEV "syscall/writev" D_EGRESS false.
Definition syscall__probe_ret_writev_init :=
  ret_data_init active_write_args_map SYS_WRITEV "syscall/writev" QTAP_SOCKET D_EGRESS false.
Definition syscall__probe_ret_sendmsg :=
  ret_data active_write_args_map SYS_SENDMSG "syscall/sendmsg" D_EGRESS false.
Definition syscall__probe_ret_sendmsg_init :=
  ret_data_init active_write_args_map SYS_SENDMSG "syscall/sendmsg" QTAP_SOCKET D_EGRESS false.
Definition syscall__probe_ret_recvfrom :=
  ret_data active_read_args_map SYS_RECVFROM "syscall/recvfrom" D_INGRESS false.
Definition syscall__probe_ret_recvfrom_init :=
  ret_data_init active_read_args_map SYS_RECVFROM "syscall/recvfrom" QTAP_CA D_INGRESS false.
Definition syscall__probe_ret_read :=
  ret_data active_read_args_map SYS_READ "syscall/read" D_INGRESS true.
Definition syscall__probe_ret_read_init :=
  ret_data_init active_read_args_map SYS_READ "syscall/read" QTAP_SOCKET D_INGRESS true.
Definition syscall__probe_ret_readv :=
  ret_data active_read_args_map SYS_READV "syscall/readv" D_INGRESS true.
Definition syscall__probe_ret_readv_init :=
  ret_data_init active_read_args_map SYS_READV "syscall/readv" QTAP_SOCKET D_INGRESS true.
Definition syscall__probe_ret_recvmsg :=
  ret_data active_read_args_map SYS_RECVMSG "syscall/recvmsg" D_INGRESS true.
Definition syscall__probe_ret_recvmsg_init :=
  ret_data_init active_read_args_map SYS_RECVMSG "syscall/recvmsg" QTAP_SOCKET D_INGRESS true.

(** *** close *)

Definition syscall__probe_entry_close (arg0 : Z) : M world Z :=
  let fd := s32 arg0 in
  let* _ := bpf_map_update_elem active_fd_args_map (current_op SYS_CLOSE) fd in
  let* _ := bpf_map_delete_elem active_socket_types (current_id fd) in
  let* _ := bpf_map_update_elem active_close_args_map (current_id fd) fd in
  ret 0.

Definition syscall__probe_ret_close : M world Z :=
  let* fd := bpf_map_lookup_elem active_fd_args_map (current_op SYS_CLOSE) in
  match fd with
  | None => ret 0
  | Some fd =>
      let* _ := bpf_map_delete_elem active_fd_args_map (current_op SYS_CLOSE) in
      let id := current_id fd in
      let* close_args := bpf_map_lookup_elem active_close_args_map id in
      match close_args with
      | None => ret 0
      | Some _ =>
          let* _ := bpf_map_delete_elem active_close_args_map id in
          process_close (sock_ctx id "syscall/close") ;;
          ret 0
      end
  end.

End probes.
