(* ===== verification/NodeTls.v ===== *)
(** * Node TLS probes

    [bpf/tap/nodetls.bpf.c]: which [SSL] object belongs to which [TLSWrap] object
    of a node process, and the walk from a [TLSWrap] to the descriptor of its
    libuv stream.  The object is built with [ENABLE_NODETLS]. *)

From stdpp Require Import base numbers list gmap strings.
From S2P Require Import Prelude Tap Bpf Trace Common.

(** What a probe reads of [struct pt_regs]: the first argument registers, the
    return-value register, Go's nine argument registers and its [g] pointer.  On
    x86 the first argument and the return value are different registers. *)
Record pt_regs := PtRegs {
  PT_REGS_PARM1 : Z; PT_REGS_PARM2 : Z; PT_REGS_PARM3 : Z; PT_REGS_PARM4 : Z;
  PT_REGS_RC : Z; PT_REGS_SP : Z; go_regs : list Z; g_reg : Z }.

(** A hash map of the TLS probes. *)
Definition tls_map {K V} `{Countable K} (get : tls_state -> gmap K V)
    (set : gmap K V -> tls_state -> tls_state) (max : Z) : bpf_map K V :=
  BpfMap (fun w => get (w_tls w)) (fun m w => w <| w_tls ::= set m |>) max None.

Definition node_ssl_to_tlswrap_map : bpf_map Z Z :=
  tls_map f_node_ssl_to_tlswrap (fun m s => s <| f_node_ssl_to_tlswrap := m |>) 1024.
Definition node_tlswrap_to_ssl_map : bpf_map Z Z :=
  tls_map f_node_tlswrap_to_ssl (fun m s => s <| f_node_tlswrap_to_ssl := m |>) 1024.
Definition node_tlswrap_exists_map : bpf_map Z bool :=
  tls_map f_node_tlswrap_exists (fun m s => s <| f_node_tlswrap_exists := m |>) 2048.

Section nodetls.
Context {E : Env}.

(** Written by user space. *)
Definition node_tls_symaddrs_map : bpf_map Z node_tls_symaddr :=
  BpfMap (fun w => f_node_symaddrs (w_tls w)) (fun m w => w <| w_tls ::= fun s => s <| f_node_symaddrs := m |> |>)
    4096 (Some lru_keep).

Definition get_tlswrap_from_ssl (ssl : Z) : M world Z :=
  let* tlswrap := bpf_map_lookup_elem node_ssl_to_tlswrap_map ssl in
  match tlswrap with None => ret 0 | Some t => ret t end.

Definition update_node_ssl_tls_wrap_map (ssl : Z) : M world Z := ret 0.
Definition remove_node_ssl_tls_wrap_map (ssl : Z) : M world Z := ret 0.

(** [bpf_probe_read(&p, sizeof(p), addr)] of a pointer. *)
Definition read_ptr (addr : Z) : Z := le_load (bpf_probe_read addr 8).2.

(** The attributes shared by the trace messages of the walk. *)
Definition node_trace (pid tlswrap : Z) : list trace_arg := [TRACE_INT "pid" pid; TRACE_POINTER "tlswrap" tlswrap].

Definition get_fd_from_tlswrap (symaddrs : node_tls_symaddr) (tlswrap : Z) : M world Z :=
  let pid := pid_of bpf_get_current_pid_tgid in
  let stream_ptr := u64 (tlswrap + tls_wrap_stream_listener_offset symaddrs + stream_listener_stream_offset symaddrs) in
  let stream := read_ptr stream_ptr in
  if stream =? 0 then
    TRACE_NODETLS pid "nodetls/get_fd_from_tlswrap (no stream found)" (node_trace pid tlswrap) ;;
    ret 0
  else
    let uv_stream_ptr := u64 (stream - stream_base_stream_resource_offset symaddrs
                              - libuv_stream_wrap_stream_base_offset symaddrs
                              + libuv_stream_wrap_stream_offset symaddrs) in
    let uv_stream := read_ptr uv_stream_ptr in
    if uv_stream =? 0 then
      TRACE_NODETLS pid "nodetls/get_fd_from_tlswrap (no uv_stream found)" (node_trace pid tlswrap) ;;
      ret 0
    else
      let fd_ptr := u64 (uv_stream + uv_stream_s_io_watcher_offset symaddrs + uv_io_s_fd_offset symaddrs) in
      let r := bpf_probe_read fd_ptr 4 in
      if negb (r.1 =? 0) then
        TRACE_NODETLS pid "nodetls/get_fd_from_tlswrap (no fd found)" (node_trace pid tlswrap) ;;
        ret 0
      else ret (s32 (le_load r.2)).

Definition get_fd_from_node (pid_tgid ssl : Z) : M world Z :=
  let pid := pid_of pid_tgid in
  let attrs := [TRACE_INT "pid" pid; TRACE_POINTER "ssl" ssl] in
  TRACE_NODETLS pid "nodetls/get_fd_from_node" attrs ;;
  let* tls_wrap := get_tlswrap_from_ssl ssl in
  if tls_wrap =? 0 then
    TRACE_NODETLS pid "nodetls/get_fd_from_node (no tlswrap found)" attrs ;;
    ret 0
  else
    let* symaddrs := bpf_map_lookup_elem node_tls_symaddrs_map pid in
    match symaddrs with
    | None =>
        TRACE_NODETLS pid "nodetls/get_fd_from_node (no symaddrs found)" attrs ;;
        ret 0
    | Some symaddrs => get_fd_from_tlswrap symaddrs tls_wrap
    end.

Definition nodetls__probe_entry_TLSWrap_memfn (ctx : pt_regs) : M world Z :=
  let tls_wrap := PT_REGS_PARM1 ctx in
  let pid := pid_of bpf_get_current_pid_tgid in
  let* r := bpf_map_update_elem node_tlswrap_exists_map tls_wrap true in
  (if negb (r =? 0)
   then TRACE_NODETLS pid "nodetls/TLSWrap_memfn (bpf_map_update_elem failed)"
          (node_trace pid tls_wrap ++ [TRACE_INT "ret" r])
   else ret tt) ;;
  ret 0.

Definition nodetls__probe_entry_TLSWrap_destructor (ctx : pt_regs) : M world Z :=
  let tlswrap_ptr := PT_REGS_PARM1 ctx in
  let pid := pid_of bpf_get_current_pid_tgid in
  TRACE_NODETLS pid "nodetls/TLSWrap_destructor" (node_trace pid tlswrap_ptr) ;;
  let* _ := bpf_map_delete_elem node_tlswrap_to_ssl_map tlswrap_ptr in
  let* _ := bpf_map_delete_elem node_tlswrap_exists_map tlswrap_ptr in
  ret 0.

Definition nodetls__probe_entry_SSL_set_cert_cb (ctx : pt_regs) : M world Z :=
  let pid := pid_of bpf_get_current_pid_tgid in
  let ssl_ptr := PT_REGS_PARM1 ctx in
  let tlswrap_ptr := PT_REGS_PARM3 ctx in
  let* exists_ := bpf_map_lookup_elem node_tlswrap_exists_map tlswrap_ptr in
  match exists_ with
  | None =>
      TRACE_NODETLS pid "nodetls/SSL_set_cert_cb (tlswrap not found)" (node_trace pid tlswrap_ptr) ;;
      ret 0
  | Some _ =>
      TRACE_NODETLS pid "nodetls/SSL_set_cert_cb"
        [TRACE_INT "pid" pid; TRACE_POINTER "ssl" ssl_ptr; TRACE_POINTER "tlswrap" tlswrap_ptr] ;;
      let* _ := bpf_map_update_elem node_ssl_to_tlswrap_map ssl_ptr tlswrap_ptr in
      let* _ := bpf_map_update_elem node_tlswrap_to_ssl_map tlswrap_ptr ssl_ptr in
      ret 0
  end.

(** The source takes the pointer from the return-value register. *)
Definition nodetls__probe_entry_SSL_free (ctx : pt_regs) : M world Z :=
  let pid := pid_of bpf_get_current_pid_tgid in
  let ssl_ptr := PT_REGS_RC ctx in
  TRACE_NODETLS pid "nodetls/SSL_free" [TRACE_INT "pid" pid; TRACE_POINTER "ssl" ssl_ptr] ;;
  let* _ := bpf_map_delete_elem node_ssl_to_tlswrap_map ssl_ptr in
  ret 0.

End nodetls.
