(* ===== verification/OpenSsl.v ===== *)
(** * OpenSSL probes

    [bpf/tap/openssl.bpf.c], [bpf/tap/openssl.bpf.h]: the probes on [SSL_read],
    [SSL_write] and their [_ex] forms, which hand plaintext to connection tracking,
    and the resolution of the descriptor behind an [SSL] object: through node's
    objects, through the system call the library makes meanwhile, or from an
    earlier call on the same object. *)

From stdpp Require Import base numbers list gmap strings.
From S2P Require Import Prelude Tap Bpf Trace Common Socket NodeTls.

Definition active_ssl_read_args_map : bpf_map Z data_args :=
  tls_map f_ssl_read_args (fun m s => s <| f_ssl_read_args := m |>) 1024.
Definition active_ssl_write_args_map : bpf_map Z data_args :=
  tls_map f_ssl_write_args (fun m s => s <| f_ssl_write_args := m |>) 1024.

Section openssl.
Context {E : Env}.

Definition ssl_to_fd_map : bpf_map Z Z :=
  BpfMap (fun w => f_ssl_to_fd (w_tls w)) (fun m w => w <| w_tls ::= fun s => s <| f_ssl_to_fd := m |> |>)
    4096 (Some lru_keep).

Definition ssl_register_handle (ssl : Z) : M world Z := update_node_ssl_tls_wrap_map ssl.
Definition ssl_get_fd (pid_tgid ssl : Z) : M world Z := get_fd_from_node pid_tgid ssl.
Definition ssl_remove_handle (ssl : Z) : M world Z := remove_node_ssl_tls_wrap_map ssl.

Definition request_fd_from_syscall (pid_tgid : Z) : M world unit :=
  let* _ := bpf_map_update_elem uprobe_fd_requests pid_tgid (FdRequest 0 true) in
  ret tt.

Definition get_fd_from_syscall (pid_tgid : Z) : M world Z :=
  let pid := pid_of pid_tgid in
  let* fd_request := bpf_map_lookup_elem uprobe_fd_requests pid_tgid in
  match fd_request with
  | None =>
      TRACE_OPENSSL pid "openssl/get_fd_from_syscall (no request found)"
        [TRACE_INT "pid" pid; TRACE_INT "pid_tgid" pid_tgid] ;;
      ret 0
  | Some r =>
      let* _ := bpf_map_delete_elem uprobe_fd_requests pid_tgid in
      ret (s32 (fr_fd r))
  end.

Definition get_fd_from_cache (ssl : Z) : M world Z :=
  let* fd := bpf_map_lookup_elem ssl_to_fd_map ssl in
  match fd with None => ret 0 | Some fd => ret fd end.

Definition get_fd (pid_tgid ssl : Z) : M world Z :=
  let* fd := ssl_get_fd pid_tgid ssl in
  if fd >? 0 then ret fd
  else
    let* fd := get_fd_from_syscall pid_tgid in
    if fd >? 0 then ret fd
    else
      let* fd := get_fd_from_cache ssl in
      if fd >? 0 then ret fd else ret 0.

Definition openssl_probe_ret_SSL_new (ctx : pt_regs) : M world Z :=
  let pid := pid_of bpf_get_current_pid_tgid in
  let ssl := PT_REGS_RC ctx in
  TRACE_OPENSSL pid "openssl/new" [TRACE_INT "pid" pid; TRACE_POINTER "ssl" ssl] ;;
  let* _ := ssl_register_handle ssl in
  ret 0.

(** The source takes the pointer from the return-value register. *)
Definition openssl_probe_entry_SSL_free (ctx : pt_regs) : M world Z :=
  let pid := pid_of bpf_get_current_pid_tgid in
  let ssl := PT_REGS_RC ctx in
  TRACE_OPENSSL pid "openssl/free" [TRACE_INT "pid" pid; TRACE_POINTER "ssl" ssl] ;;
  let* _ := ssl_remove_handle ssl in
  let* _ := bpf_map_delete_elem ssl_to_fd_map ssl in
  ret 0.

Definition openssl__probe_entry_SSL_set_fd (ssl fd : Z) : M world Z :=
  let pid := pid_of bpf_get_current_pid_tgid in
  let fd32 := s32 fd in
  (if 3 <=? fd32 then
     let* _ := bpf_map_update_elem ssl_to_fd_map ssl fd32 in
     TRACE_OPENSSL pid "openssl/set_fd" [TRACE_INT "fd" fd32; TRACE_POINTER "ssl" ssl]
   else ret tt) ;;
  ret 0.

(** The body of the entry probes; [ex_bytes] is 0 for the plain forms. *)
Definition ssl_entry (args_map : bpf_map Z data_args) (ssl buf ex_bytes : Z) : M world Z :=
  let pid_tgid := bpf_get_current_pid_tgid in
  let* _ := ssl_register_handle ssl in
  request_fd_from_syscall pid_tgid ;;
  let* _ := bpf_map_update_elem args_map pid_tgid (DataArgs 0 buf 0 ssl ex_bytes) in
  ret 0.

Definition openssl__probe_entry_SSL_read (ssl buf : Z) : M world Z := ssl_entry active_ssl_read_args_map ssl buf 0.
Definition openssl__probe_entry_SSL_read_ex (ssl buf readbytes : Z) : M world Z :=
  ssl_entry active_ssl_read_args_map ssl buf readbytes.
Definition openssl__probe_entry_SSL_write (ssl buf : Z) : M world Z := ssl_entry active_ssl_write_args_map ssl buf 0.
Definition openssl__probe_entry_SSL_write_ex (ssl buf writebytes : Z) : M world Z :=
  ssl_entry active_ssl_write_args_map ssl buf writebytes.

(** The attributes shared by the trace messages of the return probes. *)
Definition ssl_trace (pid fd bytes : Z) : list trace_arg :=
  [TRACE_INT "pid" pid; TRACE_INT "fd" fd; TRACE_INT "bytes" bytes].

(** The end of the return probes, once the saved arguments and the byte count are known. *)
Definition ssl_data (args_map : bpf_map Z data_args) (name : string) (direction bytes : Z) (args : data_args) :
    M world Z :=
  let pid_tgid := bpf_get_current_pid_tgid in
  let pid := pid_of pid_tgid in
  (if bytes >? 0 then
     let* fd := get_fd pid_tgid (da_ssl args) in
     let args := args <| da_fd := fd |> in
     store_elem args_map pid_tgid args ;;
     if fd <? 3 then TRACE_OPENSSL pid (name ++ " (fd < 3)") (ssl_trace pid fd bytes)
     else
       let* _ := bpf_map_update_elem ssl_to_fd_map (da_ssl args) fd in
       TRACE_OPENSSL pid name (ssl_trace pid fd bytes) ;;
       process_data (SocketCtx (PidFd pid fd) pid_tgid name QTAP_OPENSSL) direction args (s64 bytes) true
   else ret tt) ;;
  let* _ := bpf_map_delete_elem args_map pid_tgid in
  ret 0.

(** The body of the plain return probes. *)
Definition ssl_ret (args_map : bpf_map Z data_args) (name : string) (direction : Z) (rc : Z) : M world Z :=
  let bytes_count := s32 rc in
  let* args := bpf_map_lookup_elem args_map bpf_get_current_pid_tgid in
  match args with
  | None => ret 0
  | Some args => ssl_data args_map name direction bytes_count args
  end.

Definition openssl__probe_ret_SSL_read : Z -> M world Z :=
  ssl_ret active_ssl_read_args_map "openssl/read" D_INGRESS.
Definition openssl__probe_ret_SSL_write : Z -> M world Z :=
  ssl_ret active_ssl_write_args_map "openssl/write" D_EGRESS.

Definition openssl__probe_ret_SSL_read_ex (rc : Z) : M world Z :=
  let pid := pid_of bpf_get_current_pid_tgid in
  let funcRet := s32 rc in
  if funcRet <? 1 then
    TRACE_OPENSSL pid "openssl/read_ex (funcRet < 1)" [TRACE_INT "pid" pid; TRACE_INT "funcRet" funcRet] ;;
    ret 0
  else
    let* read_args := bpf_map_lookup_elem active_ssl_read_args_map bpf_get_current_pid_tgid in
    match read_args with
    | None => ret 0
    | Some args =>
        let bytes_read := if negb (da_ex_bytes args =? 0) then le_load (bpf_probe_read (da_ex_bytes args) 8).2 else 0 in
        ssl_data active_ssl_read_args_map "openssl/read_ex" D_INGRESS bytes_read args
    end.

Definition openssl__probe_ret_SSL_write_ex (rc : Z) : M world Z :=
  let* write_args := bpf_map_lookup_elem active_ssl_write_args_map bpf_get_current_pid_tgid in
  match write_args with
  | None => ret 0
  | Some args =>
      let bytes_written :=
        if negb (da_ex_bytes args =? 0) then le_load (bpf_probe_read_user (da_ex_bytes args) 8).2 else 0 in
      ssl_data active_ssl_write_args_map "openssl/write_ex" D_EGRESS bytes_written args
  end.

End openssl.
