(* ===== verification/GoTls.v ===== *)
(** * Go TLS probes

    [bpf/tap/gotls.bpf.c]: the probes on [crypto/tls] connection [Read] and [Write] of
    Go binaries, which keep the arguments per goroutine and find the descriptor by
    following the connection's interface values. *)

From stdpp Require Import base numbers list gmap strings.
From S2P Require Import Prelude Tap Bpf Trace Common Socket NodeTls.

(** [enum GO_LOCATION], [struct go_location] *)
Inductive GO_LOCATION := GO_UNKNOWN | GO_STACK | GO_REGISTERS.
Record go_location := GoLocation { location : GO_LOCATION; gl_offset : Z }.

(** [struct go_interface] *)
Record go_interface := GoInterface { gi_type : Z; gi_ptr : Z }.

Definition write_c_loc : go_location := GoLocation GO_REGISTERS 0.
Definition write_b_loc : go_location := GoLocation GO_REGISTERS 1.
Definition write_retval0_loc : go_location := GoLocation GO_REGISTERS 0.
Definition write_retval1_loc : go_location := GoLocation GO_REGISTERS 1.
Definition read_c_loc : go_location := GoLocation GO_REGISTERS 0.
Definition read_b_loc : go_location := GoLocation GO_REGISTERS 1.
Definition read_retval0_loc : go_location := GoLocation GO_REGISTERS 0.
Definition read_retval1_loc : go_location := GoLocation GO_REGISTERS 1.

Definition go_tls_symaddrs_map : bpf_map Z go_tls_symaddr :=
  tls_map f_go_symaddrs (fun m s => s <| f_go_symaddrs := m |>) 1024.
Definition active_tls_conn_op_map : bpf_map tgid_goid_t go_tls_conn_args :=
  tls_map f_go_conn_op (fun m s => s <| f_go_conn_op := m |>) 1024.

Section gotls.
Context {E : Env}.

(** The argument as bytes: [arg] is its value before the call; a read of the
    register array, which lies in a map, always succeeds. *)
Definition assign_arg (arg : list Z) (loc : go_location) (sp : Z) (regs : list Z) : list Z :=
  match location loc with
  | GO_STACK => (bpf_probe_read (u64 (sp + gl_offset loc)) (Z.of_nat (length arg))).2
  | GO_REGISTERS =>
      if (0 <=? gl_offset loc) && (gl_offset loc <? 9)
      then take (length arg) (flat_map (le_store 8) (drop (Z.to_nat (gl_offset loc)) regs))
      else arg
  | GO_UNKNOWN => arg
  end.

(** A cleared word or interface filled from an argument location. *)
Definition arg_word (loc : go_location) (ctx : pt_regs) : Z :=
  le_load (assign_arg (zeros 8) loc (PT_REGS_SP ctx) (go_regs ctx)).
Definition arg_interface (loc : go_location) (ctx : pt_regs) : go_interface :=
  let bs := assign_arg (zeros 16) loc (PT_REGS_SP ctx) (go_regs ctx) in
  GoInterface (s64 (le_load (take 8 bs))) (le_load (drop 8 bs)).

Definition get_goid (ctx : pt_regs) : M world Z :=
  let tgid := pid_of bpf_get_current_pid_tgid in
  let* symaddrs := bpf_map_lookup_elem go_tls_symaddrs_map tgid in
  match symaddrs with
  | None => ret 0
  | Some symaddrs =>
      if (goid_offset symaddrs <? 0) || (goid_offset symaddrs >? 1024) then ret 0
      else if g_reg ctx =? 0 then ret 0
      else ret (le_load (bpf_probe_read (u64 (g_reg ctx + goid_offset symaddrs)) 8).2)
  end.

(** [bpf_probe_read(&conn_intf, sizeof(conn_intf), addr)] *)
Definition read_interface (addr : Z) : go_interface :=
  let bs := (bpf_probe_read addr 16).2 in
  GoInterface (s64 (le_load (take 8 bs))) (le_load (drop 8 bs)).

Definition get_fd_from_conn_intf_core (conn_intf : go_interface) (symaddrs : go_tls_symaddr) : Z :=
  if fd_sysfd_offset symaddrs =? -1 then INVALID_FD
  else
    let net (conn_intf : go_interface) :=
      if negb (gi_type conn_intf =? net_tcp_conn symaddrs) then INVALID_FD
      else
        let fd_ptr := le_load (bpf_probe_read (gi_ptr conn_intf) 8).2 in
        s32 (le_load (bpf_probe_read (u64 (fd_ptr + fd_sysfd_offset symaddrs)) 8).2) in
    let tls (conn_intf : go_interface) :=
      if gi_type conn_intf =? tls_conn symaddrs then
        if tls_conn_offset symaddrs =? -1 then INVALID_FD
        else net (read_interface (u64 (gi_ptr conn_intf + tls_conn_offset symaddrs)))
      else net conn_intf in
    if gi_type conn_intf =? internal_syscall_conn symaddrs then
      if syscall_conn_offset symaddrs =? -1 then INVALID_FD
      else tls (read_interface (u64 (gi_ptr conn_intf + syscall_conn_offset symaddrs)))
    else tls conn_intf.

(** The common body of [process_write] and [process_read]. *)
Definition process_go (name : string) (direction : Z) (retval0_loc retval1_loc : go_location) (ctx : pt_regs)
    (id tgid : Z) (args : go_tls_conn_args) : M world Z :=
  let* symaddrs := bpf_map_lookup_elem go_tls_symaddrs_map tgid in
  match symaddrs with
  | None => ret 0
  | Some symaddrs =>
      let bytes := s64 (arg_word retval0_loc ctx) in
      let err := arg_interface retval1_loc ctx in
      if negb (gi_ptr err =? 0) then ret 0
      else
        let fd := get_fd_from_conn_intf_core (GoInterface (tls_conn symaddrs) (ga_conn_ptr args)) symaddrs in
        if fd =? INVALID_FD then ret 0
        else
          (if bytes >? 0 then
             TRACE_GOTLS tgid name [TRACE_INT "pid" tgid; TRACE_INT "fd" fd; TRACE_INT "bytes" bytes] ;;
             process_data (SocketCtx (PidFd tgid fd) id name QTAP_GOTLS) direction
               (DataArgs 0 (ga_plaintext_ptr args) 0 0 0) bytes true
           else ret tt) ;;
          ret 0
  end.

Definition process_write := process_go "gotls/write" D_EGRESS write_retval0_loc write_retval1_loc.
Definition process_read := process_go "gotls/read" D_INGRESS read_retval0_loc read_retval1_loc.

(** [struct tgid_goid_t tgid_goid]; the field is signed. *)
Definition goroutine (goid : Z) : tgid_goid_t := TgidGoid (pid_of bpf_get_current_pid_tgid) (s64 goid).

Definition gotls__probe_entry_tls_conn_write (ctx : pt_regs) : M world Z :=
  let* goid := get_goid ctx in
  if goid =? 0 then ret 0
  else
    let* symaddrs := bpf_map_lookup_elem go_tls_symaddrs_map (pid_of bpf_get_current_pid_tgid) in
    match symaddrs with
    | None => ret 0
    | Some _ =>
        let* _ := bpf_map_update_elem active_tls_conn_op_map (goroutine goid)
                    (GoConnArgs (arg_word write_c_loc ctx) (arg_word write_b_loc ctx)) in
        ret 0
    end.

Definition gotls__probe_entry_tls_conn_read (ctx : pt_regs) : M world Z :=
  let* goid := get_goid ctx in
  if goid =? 0 then ret 0
  else
    let* symaddrs := bpf_map_lookup_elem go_tls_symaddrs_map (pid_of bpf_get_current_pid_tgid) in
    match symaddrs with
    | None => ret 0
    | Some _ =>
        match location read_c_loc, location read_b_loc with
        | GO_UNKNOWN, _ | _, GO_UNKNOWN => ret 0
        | lc, lb =>
            let out_of_range l off :=
              match l with GO_REGISTERS => (off <? 0) || (9 <=? off) | _ => false end in
            if out_of_range lc (gl_offset read_c_loc) then ret 0
            else if out_of_range lb (gl_offset read_b_loc) then ret 0
            else
              let* _ := bpf_map_update_elem active_tls_conn_op_map (goroutine goid)
                          (GoConnArgs (arg_word read_c_loc ctx) (arg_word read_b_loc ctx)) in
              ret 0
        end
    end.

(** The body of the two return probes. *)
Definition go_ret (process : pt_regs -> Z -> Z -> go_tls_conn_args -> M world Z) (ctx : pt_regs) : M world Z :=
  let id := bpf_get_current_pid_tgid in
  let tgid := pid_of id in
  let* goid := get_goid ctx in
  if goid =? 0 then ret 0
  else
    let* args := bpf_map_lookup_elem active_tls_conn_op_map (goroutine goid) in
    match args with
    | None => ret 0
    | Some args =>
        let* _ := process ctx id tgid args in
        let* _ := bpf_map_delete_elem active_tls_conn_op_map (goroutine goid) in
        ret 0
    end.

Definition gotls__probe_ret_tls_conn_write : pt_regs -> M world Z := go_ret process_write.
Definition gotls__probe_ret_tls_conn_read : pt_regs -> M world Z := go_ret process_read.

End gotls.
