(* ===== verification/JavaSsl.v ===== *)
(** * Java TLS probes

    [bpf/tap/javassl.bpf.c].  For [SSLSocket] the agent in the JVM announces the
    entry and the return of reads and writes, and the descriptor comes from the
    system call in between.  For [SSLEngine] there is no such call: the probes send
    plaintext under a session, together with ciphertext until the session is
    correlated, and the system-call programs send the ciphertext they see under a
    descriptor, so that user space can match the two. *)

From stdpp Require Import base numbers list gmap strings.
From S2P Require Import Prelude Tap Bpf Trace Common Buffers Socket NodeTls.

(** A hash map of the Java probes. *)
Definition java_map {K V} `{Countable K} (get : java_state -> gmap K V)
    (set : gmap K V -> java_state -> java_state) : bpf_map K V :=
  tls_map (fun s => get (f_java s)) (fun m s => s <| f_java ::= set m |>) 1024.

Definition java_active_ssl_read_args_map : bpf_map Z java_ssl_args :=
  java_map f_java_read_args (fun m s => s <| f_java_read_args := m |>).
Definition java_active_ssl_write_args_map : bpf_map Z java_ssl_args :=
  java_map f_java_write_args (fun m s => s <| f_java_write_args := m |>).
Definition java_active_ssl_syscall_args_map : bpf_map Z data_args :=
  java_map f_java_syscall_args (fun m s => s <| f_java_syscall_args := m |>).

(** Written by user space; only the presence of a key counts. *)
Definition java_process_pid_map : bpf_map Z bool :=
  java_map f_java_pids (fun m s => s <| f_java_pids := m |>).
Definition java_ssl_engine_session_ignore_map : bpf_map Z bool :=
  java_map f_java_session_ignore (fun m s => s <| f_java_session_ignore := m |>).
Definition java_ssl_engine_uprobe_correlated_map : bpf_map Z bool :=
  java_map f_java_uprobe_correlated (fun m s => s <| f_java_uprobe_correlated := m |>).
Definition java_ssl_engine_syscall_correlated_map : bpf_map pid_fd_key bool :=
  java_map f_java_syscall_correlated (fun m s => s <| f_java_syscall_correlated := m |>).

(** A store to [java_ssl_engine_event_heap]. *)
Definition java_heap (f : java_ssl_engine_event -> java_ssl_engine_event) : M world unit :=
  modify (fun w => w <| w_tls ::= fun s => s <| f_java ::= fun j => j <| f_java_heap ::= f |> |> |>).

(** The heap read as either member, with the size and the bytes about to be sent. *)
Definition as_data (u : java_ssl_engine_event) (msg_size : Z) (msg : list Z) : java_ssl_engine_data_event :=
  JavaDataEvent (ju_type u) (ju_timestamp_ns u) (ju_pid u) (ju_off24 u) (ju_direction u) (ju_off36 u) msg_size msg.
Definition as_correlate (u : java_ssl_engine_event) (msg : list Z) : java_ssl_engine_correlate_event :=
  JavaCorrelateEvent (ju_type u) (ju_timestamp_ns u) (ju_pid u) (ju_off20 u) (ju_off24 u) (ju_direction u)
    (ju_off36 u) msg.

(** [struct java_ssl_engine_data] *)
Record java_ssl_engine_data := JavaEngineData {
  ed_plaintext_buf : Z; ed_plaintext_len : Z; ed_encrypted_buf : Z; ed_encrypted_len : Z;
  ed_session_id_buf : Z; ed_session_id_len : Z; ed_direction : Z }.

Section javassl.
Context {E : Env}.

(** ** SSLSocket *)

Definition request_java_fd_from_syscall (pid_tgid : Z) : M world unit :=
  let* _ := bpf_map_update_elem uprobe_fd_requests pid_tgid (FdRequest 0 true) in
  ret tt.

Definition get_java_fd_from_syscall (pid_tgid : Z) : M world Z :=
  let pid := pid_of pid_tgid in
  let* fd_request := bpf_map_lookup_elem uprobe_fd_requests pid_tgid in
  match fd_request with
  | None =>
      TRACE_JAVASSL pid "javassl.get_java_fd_from_syscall (no request found)"
        [TRACE_INT "pid" pid; TRACE_INT "pid_tgid" pid_tgid] ;;
      ret 0
  | Some r =>
      let* _ := bpf_map_delete_elem uprobe_fd_requests pid_tgid in
      ret (s32 (fr_fd r))
  end.

(** The body of the two entry probes. *)
Definition java_ssl_entry (args_map : bpf_map Z java_ssl_args) (buf offset len : Z) : M world Z :=
  let pid_tgid := bpf_get_current_pid_tgid in
  request_java_fd_from_syscall pid_tgid ;;
  if s32 len <=? 0 then ret 0
  else
    let* _ := bpf_map_update_elem args_map pid_tgid (JavaArgs 0 (u64 (buf + s32 offset)) (s32 len)) in
    ret 0.

Definition java_ssl_read_entry := java_ssl_entry java_active_ssl_read_args_map.
Definition java_ssl_write_entry := java_ssl_entry java_active_ssl_write_args_map.

(** The middle of the two exit probes: the descriptor is stored in the saved
    arguments, and [bytes] of the buffer are handed to connection tracking. *)
Definition java_ssl_data (args_map : bpf_map Z java_ssl_args) (name : string) (direction : Z)
    (args : java_ssl_args) (bytes : Z) : M world unit :=
  let pid_tgid := bpf_get_current_pid_tgid in
  let* fd := get_java_fd_from_syscall pid_tgid in
  store_elem args_map pid_tgid (args <| ja_fd := fd |>) ;;
  if fd =? 0 then ret tt
  else
    process_data (SocketCtx (PidFd (pid_of pid_tgid) fd) pid_tgid name QTAP_JAVASSL) direction
      (DataArgs fd (ja_buf args) 0 0 0) bytes true.

Definition java_ssl_read_exit (arg0 : Z) : M world Z :=
  let bytes_count := s32 arg0 in
  let pid_tgid := bpf_get_current_pid_tgid in
  let* read_args := bpf_map_lookup_elem java_active_ssl_read_args_map pid_tgid in
  match read_args with
  | None => ret tt
  | Some args =>
      if bytes_count <=? 0 then ret tt
      else java_ssl_data java_active_ssl_read_args_map "javassl/read" D_INGRESS args bytes_count
  end ;;
  let* _ := bpf_map_delete_elem java_active_ssl_read_args_map pid_tgid in
  ret 0.

Definition java_ssl_write_exit : M world Z :=
  let pid_tgid := bpf_get_current_pid_tgid in
  let* write_args := bpf_map_lookup_elem java_active_ssl_write_args_map pid_tgid in
  match write_args with
  | None => ret 0
  | Some args =>
      java_ssl_data java_active_ssl_write_args_map "javassl/write" D_EGRESS args (ja_len args) ;;
      let* _ := bpf_map_delete_elem java_active_ssl_write_args_map pid_tgid in
      ret 0
  end.

(** ** SSLEngine: data *)

Definition compute_session_hash (session_id len : Z) : Z :=
  if len <=? 0 then 0
  else
    let copy_len := if len >? 8 then 8 else len in
    let r := bpf_probe_read_user session_id copy_len in
    if negb (r.1 =? 0) then 0 else Z.lxor (le_load r.2) len.

(** The chunk loop, the same in both submit functions, from chunk [i] with [n]
    iterations left; [chunk] sends one piece. *)
Fixpoint engine_chunks (chunk : Z -> Z -> M world unit) (n i : nat) (buf size bytes_sent : Z) : M world unit :=
  match n with
  | O => ret tt
  | S n' =>
      let bytes_remaining := s32 (size - bytes_sent) in
      let current_size := u64 (if (bytes_remaining >? MAX_MSG_SIZE) && negb (Nat.eqb i (BUF_CHUNK_LIMIT - 1))
                               then MAX_MSG_SIZE else bytes_remaining) in
      chunk (buf + bytes_sent) current_size ;;
      let bytes_sent := s32 (bytes_sent + current_size) in
      if size =? u64 bytes_sent then ret tt
      else engine_chunks chunk n' (S i) buf size bytes_sent
  end.

Definition submit_engine_data_chunk (buf buf_size : Z) : M world unit :=
  let amount_copied := if buf_size <? MAX_MSG_SIZE then buf_size else MAX_MSG_SIZE in
  let r := bpf_probe_read_user buf amount_copied in
  if negb (r.1 =? 0) then ret tt
  else if amount_copied >? 0 then
    let* event := gets (fun w => f_java_heap (f_java (w_tls w))) in
    java_events_output (Je_data (as_data event (u32 amount_copied) r.2))
  else ret tt.

Definition submit_engine_data (buf size : Z) : M world unit :=
  engine_chunks submit_engine_data_chunk BUF_CHUNK_LIMIT 0 buf size 0.

Definition handle_engine_data (ctx : java_ssl_engine_data) : M world Z :=
  if (ed_plaintext_buf ctx =? 0) || (ed_session_id_buf ctx =? 0) || (ed_plaintext_len ctx =? 0)
     || (ed_session_id_len ctx =? 0)
  then ret 0
  else
    let pid := bpf_get_current_userspace_pid in
    let session_hash := compute_session_hash (ed_session_id_buf ctx) (ed_session_id_len ctx) in
    if session_hash =? 0 then ret 0
    else
      let* ignore := bpf_map_lookup_elem java_ssl_engine_session_ignore_map session_hash in
      match ignore with
      | Some _ => ret 0
      | None =>
          let* correlated := bpf_map_lookup_elem java_ssl_engine_uprobe_correlated_map session_hash in
          (if negb (bool_decide (is_Some correlated)) && negb (ed_encrypted_buf ctx =? 0) && (ed_encrypted_len ctx >? 0)
           then
             let* timestamp_ns := bpf_ktime_get_ns in
             java_heap (fun u => u <| ju_type := J_DATA |> <| ju_timestamp_ns := timestamp_ns |> <| ju_pid := pid |>
               <| ju_off24 := session_hash |> <| ju_direction := ed_direction ctx |> <| ju_off36 := J_ENCRYPTED |>) ;;
             submit_engine_data (ed_encrypted_buf ctx) (u64 (ed_encrypted_len ctx))
           else ret tt) ;;
          let* timestamp_ns := bpf_ktime_get_ns in
          java_heap (fun u => u <| ju_type := J_DATA |> <| ju_timestamp_ns := timestamp_ns |>
            <| ju_off24 := session_hash |> <| ju_direction := ed_direction ctx |> <| ju_off36 := J_PLAINTEXT |>) ;;
          submit_engine_data (ed_plaintext_buf ctx) (u64 (ed_plaintext_len ctx)) ;;
          ret 0
      end.

Definition java_ssl_engine_wrap_exit (plaintext_buf plaintext_len encrypted_buf encrypted_len session_id_buf
    session_id_len : Z) : M world Z :=
  handle_engine_data (JavaEngineData plaintext_buf (s32 plaintext_len) encrypted_buf (s32 encrypted_len)
    session_id_buf (s32 session_id_len) D_EGRESS).

Definition java_ssl_engine_unwrap_exit (encrypted_buf encrypted_len plaintext_buf plaintext_len session_id_buf
    session_id_len : Z) : M world Z :=
  handle_engine_data (JavaEngineData plaintext_buf (s32 plaintext_len) encrypted_buf (s32 encrypted_len)
    session_id_buf (s32 session_id_len) D_INGRESS).

(** ** SSLEngine: correlation *)

Definition detect_tls_app_data (b : buf_info) (count : Z) : bool :=
  if count <? 5 then false
  else
    let header := buf_read 5 b 0 in
    if negb (header.1 =? 5) then false else nth 0 header.2 0 =? 23.

Definition submit_engine_correlation_chunk (buf buf_size : Z) : M world unit :=
  let amount_copied := if buf_size <? MAX_MSG_SIZE then buf_size else MAX_MSG_SIZE in
  let r := bpf_probe_read_user buf amount_copied in
  if negb (r.1 =? 0) then ret tt
  else if amount_copied >? 0 then
    java_heap (fun u => u <| ju_off36 := u32 amount_copied |>) ;;
    let* event := gets (fun w => f_java_heap (f_java (w_tls w))) in
    java_events_output (Je_correlate (as_correlate event r.2))
  else ret tt.

Definition submit_engine_correlation (buf size : Z) : M world unit :=
  engine_chunks submit_engine_correlation_chunk BUF_CHUNK_LIMIT 0 buf size 0.

(** The loop over the iovec array from entry [i], with [n] iterations left. *)
Fixpoint correlation_iovecs (n i : nat) (b : buf_info) (count bytes_sent : Z) : M world unit :=
  match n with
  | O => ret tt
  | S n' =>
      if negb ((Z.of_nat i <? bi_iovcnt b) && (bytes_sent <? count)) then ret tt
      else
        let iov := (bpf_probe_read_user (bi_buf b + SIZEOF_IOVEC * Z.of_nat i) SIZEOF_IOVEC).2 in
        let bytes_remaining := u64 (s32 (count - bytes_sent)) in
        let iov_size := if iov_len iov <? bytes_remaining then iov_len iov else bytes_remaining in
        submit_engine_correlation (iov_base iov) iov_size ;;
        correlation_iovecs n' (S i) b count (u64 (bytes_sent + iov_size))
  end.

Definition handle_engine_correlation (fd : Z) (b : buf_info) (count direction : Z) : M world Z :=
  let pid := bpf_get_current_userspace_pid in
  let* is_java := bpf_map_lookup_elem java_process_pid_map pid in
  match is_java with
  | None => ret 0
  | Some _ =>
      if fd <=? 2 then ret 0
      else
        let key := PidFd pid fd in
        let* correlated := bpf_map_lookup_elem java_ssl_engine_syscall_correlated_map key in
        match correlated with
        | Some _ => ret 0
        | None =>
            if negb (detect_tls_app_data b count) then ret 0
            else
              let* conn_info := bpf_map_lookup_elem conn_info_map key in
              match conn_info with
              | None => ret 0
              | Some ci =>
                  let* timestamp_ns := bpf_ktime_get_ns in
                  java_heap (fun u => u <| ju_type := J_CORRELATE |> <| ju_timestamp_ns := timestamp_ns |>
                    <| ju_pid := pid |> <| ju_off20 := fd |> <| ju_off24 := ci_cookie ci |>
                    <| ju_direction := direction |>) ;;
                  (if bi_iovcnt b >? 0 then correlation_iovecs LOOP_LIMIT 0 b count 0
                   else submit_engine_correlation (bi_buf b) count) ;;
                  ret 0
              end
        end
  end.

(** The body of the [sys_enter] programs. *)
Definition engine_sys_enter (fd buf iovcnt : Z) : M world Z :=
  let* _ := bpf_map_update_elem java_active_ssl_syscall_args_map bpf_get_current_pid_tgid
              (DataArgs (s32 fd) buf iovcnt 0 0) in
  ret 0.

(** The body of the [sys_exit] programs. *)
Definition engine_sys_exit (direction bytes_count : Z) : M world Z :=
  let pid_tgid := bpf_get_current_pid_tgid in
  let* args := bpf_map_lookup_elem java_active_ssl_syscall_args_map pid_tgid in
  match args with
  | None => ret 0
  | Some args =>
      (if bytes_count >? 0
       then handle_engine_correlation (da_fd args) (buf_info_of args) bytes_count direction
       else ret 0) ;;
      let* _ := bpf_map_delete_elem java_active_ssl_syscall_args_map pid_tgid in
      ret 0
  end.

Definition java_ssl_engine_sys_enter_write (arg0 arg1 : Z) := engine_sys_enter arg0 arg1 0.
Definition java_ssl_engine_sys_enter_read (arg0 arg1 : Z) := engine_sys_enter arg0 arg1 0.
Definition java_ssl_engine_sys_enter_writev (arg0 arg1 arg2 : Z) := engine_sys_enter arg0 arg1 (s32 arg2).
Definition java_ssl_engine_sys_enter_readv (arg0 arg1 arg2 : Z) := engine_sys_enter arg0 arg1 (s32 arg2).
Definition java_ssl_engine_sys_enter_sendto (arg0 arg1 : Z) := engine_sys_enter arg0 arg1 0.
Definition java_ssl_engine_sys_enter_recvfrom (arg0 arg1 : Z) := engine_sys_enter arg0 arg1 0.

Definition java_ssl_engine_sys_exit_write := engine_sys_exit D_EGRESS.
Definition java_ssl_engine_sys_exit_read := engine_sys_exit D_INGRESS.
Definition java_ssl_engine_sys_exit_writev := engine_sys_exit D_EGRESS.
Definition java_ssl_engine_sys_exit_readv := engine_sys_exit D_INGRESS.
Definition java_ssl_engine_sys_exit_sendto := engine_sys_exit D_EGRESS.
Definition java_ssl_engine_sys_exit_recvfrom := engine_sys_exit D_INGRESS.

Definition java_ssl_engine_sys_enter_close (arg0 : Z) : M world Z :=
  let fd := s32 arg0 in
  let pid := bpf_get_current_userspace_pid in
  let* is_java := bpf_map_lookup_elem java_process_pid_map pid in
  match is_java with
  | None => ret 0
  | Some _ =>
      java_events_output (Je_closed (JavaClosedEvent J_SOCKET_CLOSED pid fd)) ;;
      ret 0
  end.

End javassl.
