(* ===== verification/SockPidFd.v ===== *)
(** * From descriptors to kernel sockets

    [bpf/tap/sock_pid_fd.bpf.c]: the kernel probes that learn which socket is
    behind a descriptor, which process owns a source address, and when both are
    gone. *)

From stdpp Require Import base numbers list gmap strings.
From S2P Require Import Prelude Tap Net Bpf Trace Common Socket SocketProbes.

(** The hash maps of [sock_pid_fd.bpf.c] and its header hold 16384 entries. *)
Definition spf_map {K V} `{Countable K} (get : spf_state -> gmap K V)
    (set : gmap K V -> spf_state -> spf_state) : bpf_map K V :=
  BpfMap (fun w => get (w_spf w)) (fun m w => w <| w_spf ::= set m |>) 16384 None.

Definition active_sock_alloc_file_args : bpf_map Z Z :=
  spf_map f_sock_alloc_file_args (fun m s => s <| f_sock_alloc_file_args := m |>).
Definition active_file_to_sock_map : bpf_map Z Z :=
  spf_map f_file_to_sock (fun m s => s <| f_file_to_sock := m |>).
Definition active_file_to_pid_fd_map : bpf_map Z pid_fd_key :=
  spf_map f_file_to_pid_fd (fun m s => s <| f_file_to_pid_fd := m |>).
Definition active_tcp_source_addr_map : bpf_map Z addr_port_key :=
  spf_map f_tcp_source_addr (fun m s => s <| f_tcp_source_addr := m |>).
Definition addr_port_to_pid_map : bpf_map addr_port_key Z :=
  spf_map f_addr_port_to_pid (fun m s => s <| f_addr_port_to_pid := m |>).

(** The rewrite of an IPv4-mapped key to its IPv4 form. *)
Definition unmap_words (a : list Z) : list Z :=
  if words_v4_mapped a then [nth 3 a 0; 0; 0; 0] else a.

Section sock_pid_fd.
Context {E : Env}.

Definition track_sock_alloc_file_entry (sock : Z) : M world Z :=
  let* _ := bpf_map_update_elem active_sock_alloc_file_args bpf_get_current_pid_tgid sock in
  ret 0.

Definition track_sock_alloc_file_ret (file : Z) : M world Z :=
  let* sock := bpf_map_lookup_elem active_sock_alloc_file_args bpf_get_current_pid_tgid in
  match sock with
  | None => ret 0
  | Some sock =>
      let* _ := bpf_map_update_elem active_file_to_sock_map file sock in
      let* _ := bpf_map_delete_elem active_sock_alloc_file_args bpf_get_current_pid_tgid in
      ret 0
  end.

Definition track_fd_install_entry (parm1 file : Z) : M world Z :=
  let* sock := bpf_map_lookup_elem active_file_to_sock_map file in
  match sock with
  | None => ret 0
  | Some sock =>
      let fd := s32 parm1 in
      let pid := s32 (Z.shiftr bpf_get_current_pid_tgid 32) in
      let key := PidFd (u32 pid) fd in
      let* _ := bpf_map_update_elem pid_fd_to_sock_map key sock in
      let* _ := bpf_map_update_elem active_file_to_pid_fd_map file key in
      let* _ := bpf_map_delete_elem active_file_to_sock_map file in
      ret 0
  end.

Definition cleanup_pid_fd_file_entries (file : Z) : M world Z :=
  let* key := bpf_map_lookup_elem active_file_to_pid_fd_map file in
  match key with
  | None => ret 0
  | Some key =>
      let* conn_info := bpf_map_lookup_elem conn_info_map key in
      (match conn_info with
       | Some _ => process_close (sock_ctx key "kprobe/__fput")
       | None => ret tt
       end) ;;
      let* _ := bpf_map_delete_elem active_file_to_pid_fd_map file in
      let* _ := bpf_map_delete_elem pid_fd_to_sock_map key in
      ret 0
  end.

(** The end shared by the two connect probes. *)
Definition record_source (key : addr_port_key) (cookie : Z) : M world Z :=
  let pid := pid_of bpf_get_current_pid_tgid in
  let* _ := bpf_map_update_elem addr_port_to_pid_map key pid in
  let* _ := bpf_map_update_elem active_tcp_source_addr_map cookie key in
  ret 0.

Definition trace_tcp_v4_connect_fexit (sk : Z) : M world Z :=
  let key := AddrPortKey [le_load (skc_rcv_saddr sk); 0; 0; 0] (bswap16 (skc_num sk)) in
  record_source key (bpf_get_socket_cookie sk).

Definition trace_tcp_v6_connect_fexit (sk : Z) : M world Z :=
  let key := AddrPortKey (unmap_words (addr_words (skc_v6_rcv_saddr sk))) (bswap16 (skc_num sk)) in
  record_source key (bpf_get_socket_cookie sk).

(** The helper call makes the kernel assign a cookie; no map changes. *)
Definition trace_tcp_recvmsg_fexit (sk : Z) : M world Z := ret 0.

Definition trace_tcp_close (sk : Z) : M world Z :=
  let cookie := skc_cookie sk in
  let* savedKey := bpf_map_lookup_elem active_tcp_source_addr_map cookie in
  let key := match savedKey with Some k => k | None => AddrPortKey [0; 0; 0; 0] 0 end in
  let* _ := bpf_map_delete_elem addr_port_to_pid_map key in
  let* _ := bpf_map_delete_elem active_tcp_source_addr_map cookie in
  ret 0.

End sock_pid_fd.
