(* ===== verification/Redirector.v ===== *)
(** * Redirection to the transparent proxy

    [bpf/tap/redirector.bpf.c]: the cgroup programs that rewrite a connect to
    the proxy, remember the original destination, and give it back to the proxy.
    A program context is a record of the fields the program reads and writes;
    a program returns its verdict and the context it leaves. *)

From stdpp Require Import base numbers list gmap strings.
From S2P Require Import Prelude Tap Net Bpf Trace Common Settings Process Socket SockPidFd.

Definition SO_ORIGINAL_DST : Z := 80.
Definition SO_MARK : Z := 36.
Definition SO_COOKIE : Z := 57.
Definition BPF_SOCK_OPS_ACTIVE_ESTABLISHED_CB : Z := 4.
Definition BPF_SOCK_OPS_PASSIVE_ESTABLISHED_CB : Z := 5.

(** [struct bpf_sock_addr]; the addresses are words in network order. *)
Record bpf_sock_addr := SockAddr {
  user_family : Z; user_ip4 : Z; user_ip6 : list Z; user_port : Z; sa_protocol : Z }.
#[export] Instance bpf_sock_addr_settable : Settable bpf_sock_addr :=
  fun r => SockAddr (user_family r) (user_ip4 r) (user_ip6 r) (user_port r) (sa_protocol r).

(** [struct bpf_sock_ops]; [local_port] is in host order. *)
Record bpf_sock_ops := SockOps {
  so_family : Z; so_op : Z; local_ip4 : Z; local_ip6 : list Z; local_port : Z }.

(** What the program writes at [ctx->optval]. *)
Inductive sockopt_value :=
| Opt_unset
| Opt_cookie (cookie : Z)
| Opt_mark (tls_ok : Z)
| Opt_sockaddr_in (family addr port : Z)
| Opt_sockaddr_in6 (family : Z) (addr : list Z) (port : Z).

(** [struct bpf_sockopt] with the fields of [ctx->sk]; [opt_room] is the number
    of bytes between [optval] and [optval_end]. *)
Record bpf_sockopt := SockOpt {
  optname : Z; osk_family : Z; osk_protocol : Z; osk_dst_port : Z; osk_dst_ip4 : Z;
  osk_dst_ip6 : list Z; opt_room : Z; optlen : Z; opt_retval : Z; optval : sockopt_value }.
#[export] Instance bpf_sockopt_settable : Settable bpf_sockopt :=
  fun r => SockOpt (optname r) (osk_family r) (osk_protocol r) (osk_dst_port r) (osk_dst_ip4 r)
    (osk_dst_ip6 r) (opt_room r) (optlen r) (opt_retval r) (optval r).

Section redirector.
Context {E : Env}.

Definition map_ports : bpf_map addr_port_key Z :=
  BpfMap (fun w => f_map_ports (w_rdr w)) (fun m w => w <| w_rdr ::= fun s => s <| f_map_ports := m |> |>)
    4096 (Some lru_keep_port).
Definition map_socks : bpf_map Z rdr_socket :=
  BpfMap (fun w => f_map_socks (w_rdr w)) (fun m w => w <| w_rdr ::= fun s => s <| f_map_socks := m |> |>)
    4096 (Some lru_keep).

Definition should_ignore_pid (pid : Z) : bool := pid =? qpid.

(** The proxy address and port, when configured. *)
Definition set_ipv4_listen_addr : M world (option (Z * Z)) :=
  gets (fun w => match f_mgmt_addrs w !! 0 with
                 | None => None
                 | Some addrs => Some (ma_ipv4 addrs, ma_port addrs)
                 end).

Definition set_ipv6_listen_addr (is_ipv4_mapped : bool) : M world (option (list Z * Z)) :=
  gets (fun w => match f_mgmt_addrs w !! 0 with
                 | None => None
                 | Some addrs =>
                     Some (if is_ipv4_mapped then [0; 0; 0xffff0000; ma_ipv4 addrs]
                           else map (fun i => nth i (ma_ipv6 addrs) 0) (seq 0 4), ma_port addrs)
                 end).

(** [meta && (meta->qpoint_strategy == QP_FORWARD || ... == QP_PROXY)] *)
Definition redirected_strategy (meta : option process_meta) : bool :=
  has_strategy meta QP_FORWARD || has_strategy meta QP_PROXY.

(** The capture direction lets the destination through. *)
Definition direction_allows (capture_direction : Z) (addr : net_addr) : bool :=
  if capture_direction =? D_EGRESS_EXTERNAL then negb (is_private_ip addr)
  else if capture_direction =? D_EGRESS_INTERNAL then is_private_ip addr
  else true.

Definition connect4_addr (ctx : bpf_sock_addr) : net_addr :=
  NetAddr (user_family ctx) (write_prefix (le_store 4 (user_ip4 ctx)) (zeros 16)) (u16 (user_port ctx)).

Definition cg_connect4 (ctx : bpf_sock_addr) : M world (Z * bpf_sock_addr) :=
  if negb (user_family ctx =? AF_INET) then ret (1, ctx)
  else if negb (sa_protocol ctx =? IPPROTO_TCP) then ret (1, ctx)
  else
    let pid := pid_of bpf_get_current_pid_tgid in
    if should_ignore_pid pid then ret (1, ctx)
    else
      let* meta := get_process_meta pid in
      if negb (redirected_strategy meta) then ret (1, ctx)
      else
        let net_addr := connect4_addr ctx in
        TRACE_REDIRECTOR pid "cg_connect4"
          [TRACE_INT "pid" pid; TRACE_IP4 "ip" (na_addr net_addr); TRACE_PORT "port" (na_port net_addr)] ;;
        if is_local_ip net_addr then ret (1, ctx)
        else
          let* mgmt := gets (fun w => is_management_address (f_mgmt_addrs w) net_addr) in
          if mgmt then ret (1, ctx)
          else
            let* capture_direction := get_direction_setting in
            if negb (direction_allows capture_direction net_addr) then ret (1, ctx)
            else
              let cookie := bpf_get_socket_cookie 0 in
              let sock := RdrSocket [0; 0; 0; 0] 0 [user_ip4 ctx; 0; 0; 0] (u16 (user_port ctx)) in
              let* r := bpf_map_update_elem map_socks cookie sock in
              if r <? 0 then ret (1, ctx)
              else
                let* proxy := set_ipv4_listen_addr in
                match proxy with
                | None => ret (1, ctx)
                | Some (proxy_ip, proxy_port) =>
                    ret (1, ctx <| user_ip4 := proxy_ip |> <| user_port := proxy_port |>)
                end.

Definition connect6_addr (ctx : bpf_sock_addr) : net_addr :=
  NetAddr (user_family ctx) (write_prefix (flat_map (le_store 4) (user_ip6 ctx)) (zeros 16))
    (u16 (user_port ctx)).

Definition cg_connect6 (ctx : bpf_sock_addr) : M world (Z * bpf_sock_addr) :=
  if negb (sa_protocol ctx =? IPPROTO_TCP) then ret (1, ctx)
  else if negb (user_family ctx =? AF_INET6) then ret (1, ctx)
  else
    let pid := pid_of bpf_get_current_pid_tgid in
    if should_ignore_pid pid then ret (1, ctx)
    else
      let* meta := get_process_meta pid in
      if negb (redirected_strategy meta) then ret (1, ctx)
      else
        let net_addr := connect6_addr ctx in
        TRACE_REDIRECTOR pid "cg_connect6"
          [TRACE_INT "pid" pid; TRACE_IP6 "ip" (na_addr net_addr); TRACE_PORT "port" (na_port net_addr)] ;;
        if is_local_ip net_addr then ret (1, ctx)
        else
          let* mgmt := gets (fun w => is_management_address (f_mgmt_addrs w) net_addr) in
          if mgmt then ret (1, ctx)
          else
            let* capture_direction := get_direction_setting in
            if negb (direction_allows capture_direction net_addr) then ret (1, ctx)
            else
              let cookie := bpf_get_socket_cookie 0 in
              let dst_addr := map (fun i => nth i (user_ip6 ctx) 0) (seq 0 4) in
              let sock := RdrSocket [0; 0; 0; 0] 0 dst_addr (u16 (user_port ctx)) in
              let* r := bpf_map_update_elem map_socks cookie sock in
              if r <? 0 then ret (1, ctx)
              else
                let* proxy := set_ipv6_listen_addr (words_v4_mapped dst_addr) in
                match proxy with
                | None => ret (1, ctx)
                | Some (proxy_ip, proxy_port) =>
                    ret (1, ctx <| user_ip6 := proxy_ip |> <| user_port := proxy_port |>)
                end.

Definition cg_sock_ops (ctx : bpf_sock_ops) : M world Z :=
  if negb (so_family ctx =? AF_INET) && negb (so_family ctx =? AF_INET6) then ret 0
  else
    let cookie := bpf_get_socket_cookie 0 in
    if (so_op ctx =? BPF_SOCK_OPS_PASSIVE_ESTABLISHED_CB) || (so_op ctx =? BPF_SOCK_OPS_ACTIVE_ESTABLISHED_CB)
    then
      let* sock := bpf_map_lookup_elem map_socks cookie in
      match sock with
      | None => ret 0
      | Some _ =>
          let port := bswap16 (u16 (local_port ctx)) in
          let addr := if so_family ctx =? AF_INET then [local_ip4 ctx; 0; 0; 0]
                      else unmap_words (local_ip6 ctx) in
          let* r := bpf_map_update_elem map_ports (AddrPortKey addr port) cookie in
          if r <? 0 then ret 1 else ret 0
      end
    else ret 0.

(** The key of the client behind the proxy's socket.  In the AF_INET6 case the
    source tests the still cleared key for the IPv4-mapped form. *)
Definition sock_opt_key (ctx : bpf_sockopt) : addr_port_key :=
  let addr := [0; 0; 0; 0] in
  let addr := if osk_family ctx =? AF_INET then [osk_dst_ip4 ctx; 0; 0; 0] else addr in
  let addr := if osk_family ctx =? AF_INET6 then
                if words_v4_mapped addr then [nth 3 addr 0; 0; 0; 0] else osk_dst_ip6 ctx
              else addr in
  AddrPortKey addr (u16 (osk_dst_port ctx)).

Definition cg_sock_opt (ctx : bpf_sockopt) : M world (Z * bpf_sockopt) :=
  if negb (optname ctx =? SO_ORIGINAL_DST) && negb (optname ctx =? SO_MARK) && negb (optname ctx =? SO_COOKIE)
  then ret (1, ctx)
  else if negb (osk_family ctx =? AF_INET) && negb (osk_family ctx =? AF_INET6) then ret (1, ctx)
  else if negb (osk_protocol ctx =? IPPROTO_TCP) then ret (1, ctx)
  else
    let key := sock_opt_key ctx in
    let* cookie := bpf_map_lookup_elem map_ports key in
    match cookie with
    | None => ret (1, ctx)
    | Some cookie =>
        let* sock := bpf_map_lookup_elem map_socks cookie in
        match sock with
        | None => ret (1, ctx)
        | Some sock =>
            if optname ctx =? SO_COOKIE then
              if opt_room ctx <? 8 then ret (1, ctx)
              else ret (1, ctx <| optlen := 8 |> <| optval := Opt_cookie cookie |> <| opt_retval := 0 |>)
            else if optname ctx =? SO_MARK then
              if opt_room ctx <? 4 then ret (1, ctx)
              else
                let* pid := bpf_map_lookup_elem addr_port_to_pid_map key in
                match pid with
                | None => ret (1, ctx)
                | Some pid =>
                    let* meta := get_process_meta pid in
                    match meta with
                    | None => ret (1, ctx)
                    | Some meta =>
                        ret (1, ctx <| optlen := 4 |>
                                  <| optval := Opt_mark (if pm_tls_ok meta then 1 else 0) |>
                                  <| opt_retval := 0 |>)
                    end
                end
            else if osk_family ctx =? AF_INET then
              if opt_room ctx <? 16 then ret (1, ctx)
              else
                let s_addr := if words_v4_mapped (rs_dst_addr sock) then nth 3 (rs_dst_addr sock) 0
                              else nth 0 (rs_dst_addr sock) 0 in
                ret (1, ctx <| optlen := 16 |>
                          <| optval := Opt_sockaddr_in (osk_family ctx) s_addr (rs_dst_port sock) |>
                          <| opt_retval := 0 |>)
            else
              if opt_room ctx <? 28 then ret (1, ctx)
              else ret (1, ctx <| optlen := 28 |>
                             <| optval := Opt_sockaddr_in6 (osk_family ctx) (rs_dst_addr sock) (rs_dst_port sock) |>
                             <| opt_retval := 0 |>)
        end
    end.

End redirector.
