(* ===== verification/SocketInv.v ===== *)
(** * The life of a connection

    The events of one connection, as user space sees them, follow a small
    automaton: protocol events, then one open event, then data and protocol
    events with the same socket cookie, then at most one close event, and nothing
    after it.  This file states the automaton, the invariant of [conn_info_map]
    and the event log that implies it, and that every routine of
    [bpf/tap/socket.bpf.c] keeps the invariant.

    Programs are atomic steps here; the clock is the same for all programs and
    strictly increasing. *)

From stdpp Require Import base numbers list gmap.
From S2P Require Import Prelude Tap Net Bpf Trace Common Settings Process Buffers Protocol Socket.

(** ** The automaton *)

Inductive phase := Fresh | Opened (cookie : Z) | Closed.

#[export] Instance conn_pid_id_eq_dec : EqDecision conn_pid_id.
Proof. solve_decision. Defined.
#[export] Instance phase_eq_dec : EqDecision phase.
Proof. solve_decision. Defined.

(** The connection an event belongs to; hello events carry a cookie only. *)
Definition event_conn (ev : socket_event) : option conn_pid_id :=
  match ev with
  | Ev_open e => Some (oe_conn_pid_id e)
  | Ev_close e => Some (ce_conn_pid_id e)
  | Ev_data e => Some (de_conn_pid_id e)
  | Ev_proto e => Some (pe_conn_pid_id e)
  | Ev_tls_hello _ => None
  end.

(** One event of the connection; [None] is a violation. *)
Definition phase_step (ph : phase) (ev : socket_event) : option phase :=
  match ph, ev with
  | Fresh, Ev_open e => if oe_cookie e =? 0 then None else Some (Opened (oe_cookie e))
  | Fresh, Ev_proto _ => Some Fresh
  | Opened c, Ev_data e => if de_cookie e =? c then Some (Opened c) else None
  | Opened c, Ev_proto e => if pe_cookie e =? c then Some (Opened c) else None
  | Opened c, Ev_close e => if ce_cookie e =? c then Some Closed else None
  | _, _ => None
  end.

(** The phase of connection [cp] after the events [evs]. *)
Definition phase_next (cp : conn_pid_id) (ph : option phase) (ev : socket_event) : option phase :=
  match ph with
  | None => None
  | Some p => if decide (event_conn ev = Some cp) then phase_step p ev else Some p
  end.
Definition phase_of (cp : conn_pid_id) (evs : list socket_event) : option phase :=
  fold_left (phase_next cp) evs (Some Fresh).

Lemma phase_of_snoc cp evs ev : phase_of cp (evs ++ [ev]) = phase_next cp (phase_of cp evs) ev.
Proof. apply fold_left_app. Qed.

Lemma phase_of_other cp evs ev :
  event_conn ev <> Some cp -> phase_of cp (evs ++ [ev]) = phase_of cp evs.
Proof.
  intros Hne. rewrite phase_of_snoc. unfold phase_next. destruct (phase_of cp evs); [|done].
  by rewrite decide_False.
Qed.

Lemma phase_of_own cp evs ev ph :
  event_conn ev = Some cp -> phase_of cp evs = Some ph ->
  phase_of cp (evs ++ [ev]) = phase_step ph ev.
Proof. intros He Hp. rewrite phase_of_snoc, Hp. unfold phase_next. by rewrite decide_True. Qed.

(** ** The invariant *)

(** What the connection record of descriptor [id] satisfies. *)
Definition conn_flags (ci : conn_info) : Prop :=
  (ci_is_open ci = true -> ci_cookie ci <> 0)
  /\ (ci_is_open ci = false -> ci_ignore ci = false -> ci_cookie ci = 0)
  /\ (ci_tls_upgrade_pending ci = true -> ci_protocol ci = P_MYSQL).

Definition conn_ok (id : pid_fd_key) (ci : conn_info) : Prop :=
  cp_pid (ci_conn_pid_id ci) = k_pid id /\ cp_fd (ci_conn_pid_id ci) = k_fd id /\ conn_flags ci.

Definition conn_phase (ci : conn_info) : phase :=
  if ci_is_open ci then Opened (ci_cookie ci) else Fresh.

Section invariant.
Context (clk : nat -> Z).

(** [cp] was created before call [n]. *)
Definition stamped (n : nat) (cp : conn_pid_id) : Prop :=
  exists m, (m < n)%nat /\ cp_tsid cp = u64 (clk m).

Record inv (n : nat) (m : gmap pid_fd_key conn_info) (evs : list socket_event) : Prop := {
  inv_log cp : is_Some (phase_of cp evs);
  inv_stamp_log cp : phase_of cp evs <> Some Fresh -> stamped n cp;
  inv_conn id ci : m !! id = Some ci -> conn_ok id ci;
  inv_stamp_conn id ci : m !! id = Some ci -> stamped n (ci_conn_pid_id ci);
  inv_phase id ci : m !! id = Some ci ->
    phase_of (ci_conn_pid_id ci) evs = Some (conn_phase ci) }.

Definition Inv (w : world) : Prop :=
  inv (calls w) (f_conn_info (w_sock w)) (socket_events (w_sock w)).

(** The record of [id] is in flight: a routine holds it as [ci] and will store it. *)
Definition holds (id : pid_fd_key) (ci : conn_info) (w : world) : Prop :=
  inv (calls w) (<[id:=ci]> (f_conn_info (w_sock w))) (socket_events (w_sock w)).

Lemma stamped_mono n n' cp : (n <= n')%nat -> stamped n cp -> stamped n' cp.
Proof. intros Hle (m & Hm & ?). exists m. split; [lia|done]. Qed.

Lemma inv_mono n n' m evs : (n <= n')%nat -> inv n m evs -> inv n' m evs.
Proof. intros Hle []. constructor; eauto using stamped_mono. Qed.

Lemma inv_subset n m m' evs : m' ⊆ m -> inv n m evs -> inv n m' evs.
Proof.
  intros Hs []. constructor; eauto using lookup_weaken.
Qed.

(** Two descriptors never share a connection identifier. *)
Lemma inv_conn_inj n m evs i j ci cj :
  inv n m evs -> m !! i = Some ci -> m !! j = Some cj ->
  ci_conn_pid_id ci = ci_conn_pid_id cj -> i = j.
Proof.
  intros Hinv Hi Hj He. destruct (inv_conn _ _ _ Hinv i ci Hi) as (P1 & F1 & _).
  destruct (inv_conn _ _ _ Hinv j cj Hj) as (P2 & F2 & _).
  destruct i, j. simpl in *. congruence.
Qed.

(** Adding a record whose phase is the one the log gives it. *)
Lemma inv_add n m evs id ci :
  inv n (delete id m) evs -> conn_ok id ci -> stamped n (ci_conn_pid_id ci) ->
  phase_of (ci_conn_pid_id ci) evs = Some (conn_phase ci) ->
  inv n (<[id:=ci]> m) evs.
Proof.
  intros [H1 H2 H3 H4 H5] Hok Hst Hph.
  assert (forall j cj, <[id:=ci]> m !! j = Some cj -> (j = id /\ cj = ci) \/ delete id m !! j = Some cj)
    as Hj.
  { intros j cj [[<- <-]|[Hne Hm]]%lookup_insert_Some; [by left|right]. by rewrite lookup_delete_ne. }
  constructor; try done; intros j cj [[-> ->]|?]%Hj; eauto.
Qed.

(** An event of the connection in flight, seen from all others. *)
Lemma inv_event_others n m evs id ci ev ph :
  inv n (<[id:=ci]> m) evs -> event_conn ev = Some (ci_conn_pid_id ci) ->
  phase_step (conn_phase ci) ev = Some ph ->
  inv n (delete id m) (evs ++ [ev]) /\ phase_of (ci_conn_pid_id ci) (evs ++ [ev]) = Some ph.
Proof.
  intros Hinv Hev Hst. pose proof Hinv as [H1 H2 H3 H4 H5].
  pose proof (lookup_insert_eq m id ci) as Hid.
  assert (Hown : phase_of (ci_conn_pid_id ci) (evs ++ [ev]) = Some ph)
    by (by rewrite (phase_of_own _ _ _ (conn_phase ci)); [|done|apply (H5 id)]).
  assert (Hoth : forall cp, cp <> ci_conn_pid_id ci -> phase_of cp (evs ++ [ev]) = phase_of cp evs)
    by (intros; apply phase_of_other; congruence).
  assert (Hj : forall j cj, delete id m !! j = Some cj -> j <> id /\ <[id:=ci]> m !! j = Some cj).
  { intros j cj [? ?]%lookup_delete_Some. split; [done|]. by rewrite lookup_insert_ne. }
  split; [|done]. constructor.
  - intros cp. destruct (decide (cp = ci_conn_pid_id ci)) as [->|]; [by rewrite Hown|by rewrite Hoth].
  - intros cp Hp. destruct (decide (cp = ci_conn_pid_id ci)) as [->|]; [by apply (H4 id)|].
    apply H2. by rewrite <- Hoth.
  - intros j cj [_ ?]%Hj. by apply H3.
  - intros j cj [_ ?]%Hj. by apply (H4 j).
  - intros j cj [Hne Hjm]%Hj. rewrite Hoth; [by apply (H5 j)|].
    intros He. apply Hne. by apply (inv_conn_inj n _ evs j id cj ci Hinv).
Qed.

Lemma inv_others n m evs id ci : inv n (<[id:=ci]> m) evs -> inv n (delete id m) evs.
Proof.
  apply inv_subset. apply map_subseteq_spec. intros j cj [? ?]%lookup_delete_Some.
  by rewrite lookup_insert_ne.
Qed.

(** A store that keeps the identity and the phase of the record. *)
Lemma inv_update n m evs id ci ci' :
  inv n (<[id:=ci]> m) evs ->
  ci_conn_pid_id ci' = ci_conn_pid_id ci -> conn_phase ci' = conn_phase ci ->
  conn_flags ci' ->
  inv n (<[id:=ci']> m) evs.
Proof.
  intros Hinv Hcp Hph Hfl. pose proof (lookup_insert_eq m id ci) as Hid.
  destruct (inv_conn _ _ _ Hinv id ci Hid) as (? & ? & _).
  apply inv_add; [by eapply inv_others|..]; unfold conn_ok; rewrite ?Hcp, ?Hph.
  - by split_and!.
  - by apply (inv_stamp_conn _ _ _ Hinv id).
  - by apply (inv_phase _ _ _ Hinv id).
Qed.

(** An event of the connection in flight. *)
Lemma inv_event n m evs id ci ci' ev :
  inv n (<[id:=ci]> m) evs -> event_conn ev = Some (ci_conn_pid_id ci) ->
  phase_step (conn_phase ci) ev = Some (conn_phase ci') ->
  ci_conn_pid_id ci' = ci_conn_pid_id ci ->
  conn_flags ci' ->
  inv n (<[id:=ci']> m) (evs ++ [ev]).
Proof.
  intros Hinv Hev Hst Hcp Hfl. pose proof (lookup_insert_eq m id ci) as Hid.
  destruct (inv_conn _ _ _ Hinv id ci Hid) as (? & ? & _).
  destruct (inv_event_others _ _ _ _ _ _ _ Hinv Hev Hst) as [Hdel Hph].
  apply inv_add; unfold conn_ok; rewrite ?Hcp; try done.
  by apply (inv_stamp_conn _ _ _ Hinv id).
Qed.

(** An event that belongs to no connection. *)
Lemma inv_hello n m evs e : inv n m evs -> inv n m (evs ++ [Ev_tls_hello e]).
Proof.
  intros [H1 H2 H3 H4 H5].
  constructor; intros *; rewrite ?phase_of_other by done; eauto.
Qed.

(** The clock does not repeat before call [N]. *)
Definition clock_ok (N : nat) : Prop :=
  forall i j : nat, (i < j < N)%nat -> 0 <= clk i < clk j /\ clk j < 2 ^ 64.

(** A new record, stamped with the current call. *)
Lemma inv_insert N n m evs id ci :
  clock_ok N -> (n < N)%nat -> inv n m evs -> conn_ok id ci -> ci_is_open ci = false -> cp_tsid (ci_conn_pid_id ci) = u64 (clk n) ->
  inv (S n) (<[id:=ci]> m) evs.
Proof.
  intros Hclk Hn Hinv Hok Ho Hts. apply inv_add; [|done| |].
  - apply (inv_mono n); [lia|]. apply (inv_subset n m); [apply delete_subseteq|done].
  - exists n. split; [lia|done].
  - unfold conn_phase. rewrite Ho. destruct (decide (phase_of (ci_conn_pid_id ci) evs = Some Fresh)) as [|Hne];
      [done|]. destruct (inv_stamp_log _ _ _ Hinv _ Hne) as (k & Hk & Heq).
    rewrite Hts in Heq. destruct (Hclk k n); [lia|]. rewrite !u64_small in Heq; lia.
Qed.

(** ** Programs keep the invariant *)

(** Neither the connections nor the socket events change. *)
Definition quiet (w w' : world) : Prop :=
  (calls w <= calls w')%nat /\ f_conn_info (w_sock w') = f_conn_info (w_sock w)
  /\ socket_events (w_sock w') = socket_events (w_sock w).

#[export] Instance quiet_preorder : PreOrder quiet.
Proof.
  split; [by intros w; split_and!|]. intros u v w (? & ? & ?) (? & ? & ?).
  split_and!; [lia|congruence..].
Qed.

(** A program that keeps [P]. *)
Definition keeps (P : world -> Prop) (w w' : world) : Prop := P w -> P w'.

#[export] Instance keeps_preorder P : PreOrder (keeps P).
Proof. split; unfold keeps; [by intros w|]. intros u v w; auto. Qed.

Lemma quiet_Inv w w' : quiet w w' -> keeps Inv w w'.
Proof. intros (Hc & Hm & He) H. unfold Inv. rewrite Hm, He. by eapply inv_mono. Qed.

Lemma quiet_holds id ci w w' : quiet w w' -> keeps (holds id ci) w w'.
Proof. intros (Hc & Hm & He) H. unfold holds. rewrite Hm, He. by eapply inv_mono. Qed.

Lemma holds_lookup id ci w : Inv w -> f_conn_info (w_sock w) !! id = Some ci -> holds id ci w.
Proof. intros H Hl. unfold holds. by rewrite insert_id. Qed.

Lemma holds_store id ci w : holds id ci w -> Inv (store_elem conn_info_map id ci w).2.
Proof. done. Qed.

Lemma holds_ok id ci w : holds id ci w -> conn_ok id ci.
Proof. intros H. apply (inv_conn _ _ _ H id ci). apply lookup_insert_eq. Qed.

Lemma holds_update id ci ci' w :
  holds id ci w -> ci_conn_pid_id ci' = ci_conn_pid_id ci -> conn_phase ci' = conn_phase ci ->
  conn_flags ci' -> holds id ci' w.
Proof. intros. by eapply inv_update. Qed.

(** A record in flight through a routine that does not change it. *)
Lemma runs_keeps {A B} id ci (m : M world A) (k : A -> M world B) w Q :
  respects (keeps (holds id ci)) m -> holds id ci w ->
  (forall a w', holds id ci w' -> runs (k a) w' Q) -> runs (bind m k) w Q.
Proof. intros Hm Hw Hk. apply Hk. by apply Hm. Qed.


Lemma respects_quiet_Inv {A} (m : M world A) : respects quiet m -> respects (keeps Inv) m.
Proof. intros Hm w. by apply quiet_Inv. Qed.

Lemma respects_quiet_holds {A} id ci (m : M world A) :
  respects quiet m -> respects (keeps (holds id ci)) m.
Proof. intros Hm w. by apply quiet_holds. Qed.

End invariant.

(** *** Quiet programs *)

Lemma same_quiet w w' : same_but_trace w w' -> quiet w w'.
Proof. intros (? & _ & _ & _ & Hs & _). unfold quiet. by rewrite Hs. Qed.

Lemma respects_same_quiet {A} (m : M world A) : respects same_but_trace m -> respects quiet m.
Proof. intros Hm w. apply same_quiet, Hm. Qed.

(** A map other than [conn_info_map]. *)
Class QuietMap {K V} `{Countable K} (m : bpf_map K V) :=
  set_quiet x w : quiet w (bm_set m x w).

#[export] Hint Extern 1 (QuietMap _) => (intros ? ?; split_and!; [cbn; lia|done..]) : typeclass_instances.

Section quiet_maps.
Context {K V : Type} `{Countable K} (m : bpf_map K V).

Lemma lookup_quiet k : respects quiet (bpf_map_lookup_elem m k).
Proof. unfold bpf_map_lookup_elem. respects. Qed.

Context `{!QuietMap m}.

Lemma update_quiet k v : respects quiet (bpf_map_update_elem m k v).
Proof. intros w. unfold bpf_map_update_elem. destruct (bm_lru m); apply set_quiet. Qed.

Lemma delete_quiet k : respects quiet (bpf_map_delete_elem m k).
Proof. intros w. apply set_quiet. Qed.

Lemma store_quiet k v : respects quiet (store_elem m k v).
Proof. intros w. apply set_quiet. Qed.

End quiet_maps.

#[export] Instance active_socket_args_quiet : QuietMap active_socket_args_map := _.
#[export] Instance active_socket_types_quiet : QuietMap active_socket_types := _.
#[export] Instance active_fd_args_quiet : QuietMap active_fd_args_map := _.
#[export] Instance active_addr_args_quiet : QuietMap active_addr_args_map := _.
#[export] Instance active_write_args_quiet : QuietMap active_write_args_map := _.
#[export] Instance active_read_args_quiet : QuietMap active_read_args_map := _.
#[export] Instance active_close_args_quiet : QuietMap active_close_args_map := _.
#[export] Instance uprobe_fd_requests_quiet {E : Env} : QuietMap uprobe_fd_requests := _.
#[export] Instance pid_fd_to_sock_quiet : QuietMap pid_fd_to_sock_map := _.

#[export] Hint Extern 0 (QuietMap _) => apply _ : respects.
#[export] Hint Resolve lookup_quiet update_quiet delete_quiet store_quiet : respects.
#[export] Hint Resolve respects_quiet_holds respects_quiet_Inv | 5 : respects.
#[export] Hint Resolve respects_same_quiet | 6 : respects.

Section core.
Context {E : Env} (clk : nat -> Z).

Lemma respond_quiet pid_tgid fd : respects quiet (respond_to_fd_request pid_tgid fd).
Proof. unfold respond_to_fd_request. respects. Qed.

Lemma trace_ctx_quiet ctx msg args : respects quiet (trace_ctx ctx msg args).
Proof. unfold trace_ctx. respects. Qed.

Lemma data_heap_quiet f : respects quiet (data_heap f).
Proof. intros w. split_and!; [cbn; lia|done..]. Qed.

Lemma proto_event_keeps id ci : respects (keeps (holds clk id ci)) (submit_proto_event ci).
Proof.
  unfold submit_proto_event. case_bool_decide; [respects|].
  apply respects_bind; [apply _|respects|]. intros [k|]; [|respects].
  apply respects_bind; [apply _|respects|]. intros ts w Hw.
  eapply inv_event; [exact Hw|done| |done|apply (holds_ok _ _ _ _ Hw)].
  unfold conn_phase. destruct (ci_is_open ci); cbn [phase_step pe_cookie]; [by rewrite Z.eqb_refl|done].
Qed.

#[local] Hint Resolve respond_quiet trace_ctx_quiet data_heap_quiet proto_event_keeps : respects.

(** *** Open events *)

(** The filters only ever set the ignore flag. *)
Lemma open_filters_ignore dir lo skip e ci :
  exists b, open_filters dir lo skip e ci = ci <| ci_ignore := b |>
            /\ (ci_ignore ci = true -> b = true).
Proof.
  assert (Hset : forall (c : bool) ci0, (exists b, ci0 = ci <| ci_ignore := b |> /\ (ci_ignore ci = true -> b = true)) ->
    exists b, (if c then ci0 <| ci_ignore := true |> else ci0) = ci <| ci_ignore := b |>
              /\ (ci_ignore ci = true -> b = true)).
  { intros [] ci0 (b & -> & Hb); [by exists true|by exists b]. }
  unfold open_filters. apply Hset, Hset.
  destruct (bool_decide (cp_function (ci_conn_pid_id ci) = C_CLIENT)).
  - apply Hset, Hset, Hset, Hset, Hset. exists (ci_ignore ci). by destruct ci.
  - apply Hset, Hset. exists (ci_ignore ci). by destruct ci.
Qed.

Lemma ignore_holds id ci w : holds clk id ci w -> holds clk id (ci <| ci_ignore := true |>) w.
Proof.
  intros Hw. destruct (holds_ok _ _ _ _ Hw) as (_ & _ & F1 & F2 & F3).
  apply (holds_update clk id ci); try done; destruct ci; by split_and!.
Qed.

Lemma settings_same :
  respects same_but_trace get_direction_setting /\ respects same_but_trace get_ignore_loopback_setting.
Proof. split; intros w; [rewrite get_direction_setting_run|rewrite get_ignore_loopback_setting_run]; cbn; reflexivity. Qed.

Lemma skip_quiet pid :
  respects quiet (SKIP_DATA pid) /\ respects quiet (SKIP_DNS pid) /\ respects quiet (SKIP_TLS pid)
  /\ respects quiet (SKIP_HTTP pid) /\ respects quiet (SKIP_ALL pid).
Proof. unfold SKIP_ALL, SKIP_DATA, SKIP_DNS, SKIP_TLS, SKIP_HTTP, get_process_meta. split_and!; respects. Qed.

Lemma finish_open_keeps pid id ci ci1 ck e w :
  holds clk id ci w -> ci1 = ci <| ci_cookie := ck |> -> ci_is_open ci = false -> oe_conn_pid_id e = ci_conn_pid_id ci ->
  oe_cookie e = ck \/ ck = ci_cookie ci ->
  runs (finish_open pid ci1 e) w (holds clk id).
Proof.
  intros Hw -> Ho He Hck. destruct settings_same as [Hd Hl]. destruct (skip_quiet pid) as (_ & _ & _ & _ & Hs).
  unfold finish_open. cbv zeta. set (e1 := if sa_family _ =? 0 then _ else _).
  assert (He1 : oe_conn_pid_id e1 = ci_conn_pid_id ci /\ oe_cookie e1 = oe_cookie e)
    by (unfold e1; by destruct (sa_family _ =? 0)). clearbody e1.
  eapply runs_keeps; [respects|exact Hw|]. clear w Hw. intros red w Hw.
  eapply runs_keeps; [respects|exact Hw|]. clear w Hw. intros dir w Hw.
  eapply runs_keeps; [respects|exact Hw|]. clear w Hw. intros lo w Hw.
  eapply runs_keeps; [respects|exact Hw|]. clear w Hw. intros skip w Hw.
  destruct (open_filters_ignore dir lo skip (e1 <| oe_is_redirected := red |>) (ci <| ci_cookie := ck |>))
    as (b & -> & Hb).
  destruct (holds_ok _ _ _ _ Hw) as (_ & _ & F1 & F2 & F3). cbn in Hb.
  match goal with |- runs (if ?c then _ else _) _ _ => change c with (b || (ck =? 0)) end.
  destruct (b || (ck =? 0)) eqn:Hig.
  - apply (holds_update clk id ci); try done; [unfold conn_phase; cbn; by rewrite Ho|].
    split_and!; cbn; [congruence| |done]. intros _ ->. by apply Z.eqb_eq in Hig.
  - destruct b; [done|]. apply Z.eqb_neq in Hig.
    assert (oe_cookie e1 = ck) as Hc.
    { destruct He1 as [_ ->]. destruct Hck as [? | ->]; [done|]. destruct (ci_ignore ci) eqn:Hi; [|naive_solver].
      by specialize (Hb eq_refl). }
    eapply inv_event; [exact Hw|by cbn; rewrite (proj1 He1)| |done|].
    + unfold conn_phase. rewrite Ho. cbn -[Z.eqb]. rewrite Hc. by apply Z.eqb_neq in Hig as ->.
    + by split_and!.
Qed.

Lemma open_event_keeps ctx id ci w :
  holds clk id ci w -> runs (submit_open_event ctx ci) w (holds clk id).
Proof.
  intros Hw. unfold submit_open_event. destruct (ci_is_open ci) eqn:Ho; [done|].
  eapply runs_keeps; [unfold get_process_meta; respects|exact Hw|]. clear w Hw. intros meta w Hw.
  destruct (has_strategy meta QP_IGNORE); [by apply ignore_holds|].
  eapply runs_keeps; [respects|exact Hw|]. clear w Hw. intros [k|] w Hw; [|done].
  eapply runs_keeps; [respects|exact Hw|]. clear w Hw. intros ty w Hw. cbv zeta.
  eapply runs_keeps; [respects|exact Hw|]. clear w Hw. intros sock w Hw.
  destruct sock as [sk|]; cbn [fst snd open_from_sock].
  - eapply finish_open_keeps; [exact Hw|done|done|by destruct ty|]. left. by destruct ty.
  - apply (finish_open_keeps _ id ci ci (ci_cookie ci)); [exact Hw|by destruct ci|done|by destruct ty|by right].
Qed.

(** *** First packets *)

(** A change of fields the invariant does not read. *)
Lemma holds_same id ci ci' w :
  holds clk id ci w -> ci_conn_pid_id ci' = ci_conn_pid_id ci -> ci_is_open ci' = ci_is_open ci ->
  ci_cookie ci' = ci_cookie ci -> ci_ignore ci' = ci_ignore ci ->
  (ci_tls_upgrade_pending ci' = true -> ci_protocol ci' = P_MYSQL) ->
  holds clk id ci' w.
Proof.
  intros Hw Hcp Ho Hck Hig Htls. destruct (holds_ok _ _ _ _ Hw) as (_ & _ & F1 & F2 & F3).
  apply (holds_update clk id ci); [done|done|unfold conn_phase; by rewrite Ho, Hck|].
  unfold conn_flags. rewrite Ho, Hck, Hig. by split_and!.
Qed.

Lemma late_open_keeps ctx id ci w :
  holds clk id ci w -> runs (late_open ctx ci) w (holds clk id).
Proof.
  intros Hw. unfold late_open. destruct (_ =? 0); [|done].
  eapply runs_keeps; [respects|exact Hw|]. clear w Hw. intros [sk|] w Hw; [|done].
  destruct (_ >? 0); [by apply open_event_keeps|done].
Qed.

Lemma detect_tls_keeps id ci b bytes w :
  holds clk id ci w -> holds clk id (detect_tls ci b bytes).2 w.
Proof.
  intros Hw. destruct (holds_ok _ _ _ _ Hw) as (_ & _ & _ & _ & F3).
  assert (holds clk id (ci <| ci_is_ssl := true |>) w) by (by apply (holds_same id ci)).
  unfold detect_tls. by repeat case_match.
Qed.

Lemma detect_protocol_keeps id ci b bytes w :
  holds clk id ci w -> ci_protocol ci = P_UNKNOWN -> holds clk id (detect_protocol ci b bytes).2 w.
Proof.
  intros Hw Hp. destruct (holds_ok _ _ _ _ Hw) as (_ & _ & _ & _ & F3).
  destruct (detect_protocol_detected b bytes ci) as [p ->]. cbn [detected snd].
  apply (holds_same id ci); try done. cbn. destruct (ci_tls_upgrade_pending ci); [by rewrite F3 in Hp|].
  cbn. by intros ?%bool_decide_eq_true.
Qed.

Lemma hello_output_keeps id ci e :
  respects (keeps (holds clk id ci)) (socket_events_output (Ev_tls_hello e)).
Proof.
  unfold socket_events_output. apply respects_bind; [apply _|respects|]. intros [k|]; [|respects].
  intros w Hw. by apply inv_hello.
Qed.

Lemma hello_heap_quiet h :
  respects quiet (client_hello_heap h) /\ respects quiet (server_hello_heap h).
Proof. split; intros w; (split_and!; [cbn; lia|done..]). Qed.

Lemma submit_hellos_keeps id ci ci0 b bytes :
  respects (keeps (holds clk id ci)) (submit_hellos ci0 b bytes).
Proof.
  pose proof (fun h => proj1 (hello_heap_quiet h)). pose proof (fun h => proj2 (hello_heap_quiet h)).
  pose proof hello_output_keeps. unfold submit_hellos. respects.
Qed.

Lemma init_conn_found_keeps ctx direction args bytes id ci w :
  holds clk id ci w -> runs (init_conn_found ctx direction args bytes ci) w (holds clk id).
Proof.
  intros Hw. unfold init_conn_found.
  eapply runs_keeps; [unfold get_process_meta; respects|exact Hw|]. clear w Hw. intros meta w Hw.
  destruct (has_strategy meta QP_IGNORE); [by apply ignore_holds|].
  apply runs_bind. eapply runs_mono; [by apply late_open_keeps|]. clear ci w Hw. intros ci w Hw. cbv zeta.
  destruct (negb _); [done|]. apply (detect_tls_keeps id ci (buf_info_of args) bytes) in Hw.
  revert Hw. generalize (detect_tls ci (buf_info_of args) bytes).2. clear ci. intros ci Hw.
  apply runs_bind. apply (runs_mono _ _ (holds clk id)).
  - destruct (_ && _); [|done]. apply (runs_keeps clk id (ci <| ci_tls_upgrade_pending := false |>)); [|..|done].
    + pose proof proto_event_keeps. respects.
    + by apply (holds_same id ci).
  - clear ci w Hw. intros ci w Hw. destruct (negb _); [done|]. destruct (_ || _); [done|].
    pose proof submit_hellos_keeps. eapply runs_keeps; [respects|exact Hw|done].
Qed.

(** *** Data *)

(** The event on the heap belongs to the connection in flight. *)
Definition streaming (id : pid_fd_key) (ci : conn_info) (w : world) : Prop :=
  holds clk id ci w /\ de_conn_pid_id (f_data_heap (w_sock w)) = ci_conn_pid_id ci
  /\ de_cookie (f_data_heap (w_sock w)) = ci_cookie ci.

Lemma data_heap_streaming id ci f :
  (forall e, de_conn_pid_id (f e) = de_conn_pid_id e /\ de_cookie (f e) = de_cookie e) ->
  respects (keeps (streaming id ci)) (data_heap f).
Proof.
  intros Hf w (Hw & Hc & Hk). split; [exact Hw|].
  destruct (Hf (f_data_heap (w_sock w))) as [H1 H2]. cbn. by rewrite H1, H2.
Qed.

Lemma chunk_streaming id ci buf size :
  ci_is_open ci = true -> respects (keeps (streaming id ci)) (submit_buffer_chunk buf size).
Proof.
  intros Ho. unfold submit_buffer_chunk. cbv zeta.
  apply respects_bind; [apply _|by apply data_heap_streaming|intros _].
  destruct (negb _); [respects|]. destruct (_ >? 0); [|respects].
  apply respects_bind; [apply _|by apply data_heap_streaming|intros _].
  intros w (Hw & Hc & Hk). unfold socket_events_output, bpf_ringbuf_reserve, tick, bind, gets. cbn [fst snd ret].
  assert (holds clk id ci (w <| calls ::= S |>)) as Hw1 by (eapply inv_mono; [|exact Hw]; cbn; lia).
  destruct (ringbuf_room _); [|done]. split; [|done].
  eapply inv_event; [exact Hw1|by cbn; rewrite Hc| |done|apply (holds_ok _ _ _ _ Hw)].
  unfold conn_phase. rewrite Ho. cbn -[Z.eqb]. by rewrite Hk, Z.eqb_refl.
Qed.

Lemma buffer_streaming id ci direction buf size conn n :
  ci_is_open ci = true -> forall i sent,
  respects (keeps (streaming id ci)) (submit_buffer_loop n i direction buf size conn sent).
Proof.
  intros Ho. induction n as [|n IH]; intros i sent; cbn [submit_buffer_loop]; [respects|]. cbv zeta.
  apply respects_bind; [apply _| |intros _].
  { repeat case_match; try (by apply data_heap_streaming). respects. }
  apply respects_bind; [apply _|by apply chunk_streaming|intros _]. destruct (_ =? _); [respects|apply IH].
Qed.

Lemma iovecs_streaming id ci direction args bytes conn n :
  ci_is_open ci = true -> forall i sent,
  respects (keeps (streaming id ci)) (submit_iovecs n i direction args bytes conn sent).
Proof.
  intros Ho. induction n as [|n IH]; intros i sent; cbn [submit_iovecs]; [respects|].
  destruct (negb _); [respects|]. cbv zeta.
  apply respects_bind; [apply _|by apply buffer_streaming|intros _].
  apply respects_bind; [apply _|by apply data_heap_streaming|intros _]. apply IH.
Qed.

Lemma submit_data_keeps ctx direction args bytes id ci :
  ci_is_open ci = true -> respects (keeps (holds clk id ci)) (submit_data ctx direction args bytes ci).
Proof.
  intros Ho. unfold submit_data. apply respects_bind; [apply _|respects|intros ts]. intros w Hw.
  unfold bind. set (w1 := (data_heap _ w).2).
  assert (streaming id ci w1) as H1 by done.
  destruct (_ >? 0); [by apply (iovecs_streaming id ci _ _ _ _ LOOP_LIMIT Ho 0 0)|].
  by apply (buffer_streaming id ci _ _ _ _ CHUNK_LIMIT Ho 0 0).
Qed.

Lemma stream_data_keeps ctx direction args bytes ssl id ci w :
  holds clk id ci w -> ci_is_open ci = true ->
  runs (stream_data ctx direction args bytes ssl ci) w (holds clk id).
Proof.
  intros Hw Ho. unfold stream_data.
  apply runs_bind. unfold runs at 1. rewrite should_stream_run. cbn [fst snd].
  destruct (negb _).
  - eapply runs_keeps; [respects|exact Hw|]. intros _ w' Hw'. by apply ignore_holds.
  - pose proof (submit_data_keeps ctx direction args bytes id ci Ho).
    eapply runs_keeps; [respects|exact Hw|done].
Qed.

Lemma skip_flags_quiet ctx ci : respects quiet (skip_flags ctx ci).
Proof.
  destruct (skip_quiet (k_pid (sc_id ctx))) as (? & ? & ? & ? & _). unfold skip_flags. respects.
Qed.

Lemma detect_and_stream_keeps ctx direction args bytes ssl up id ci w :
  holds clk id ci w -> ci_is_open ci = true ->
  runs (detect_and_stream ctx direction args bytes ssl up ci) w (holds clk id).
Proof.
  intros Hw Ho. unfold detect_and_stream. cbv zeta.
  eapply runs_keeps; [respects|exact Hw|]. clear w Hw. intros _ w Hw.
  set (ci1 := if bool_decide (ci_protocol ci = P_UNKNOWN) then _ else ci).
  assert (holds clk id ci1 w /\ ci_is_open ci1 = true) as [Hw1 Ho1].
  { unfold ci1. case_bool_decide as Hp; [|done]. split; [by apply detect_protocol_keeps|].
    destruct (detect_protocol_detected (buf_info_of args) bytes ci) as [p ->]. done. }
  clearbody ci1. pose proof proto_event_keeps. pose proof skip_flags_quiet.
  eapply runs_keeps; [respects|exact Hw1|]. clear w Hw Hw1. intros skip w Hw.
  destruct skip; [by apply ignore_holds|].
  eapply runs_keeps; [respects|exact Hw|]. clear w Hw. intros _ w Hw.
  eapply runs_keeps; [respects|exact Hw|]. clear w Hw. intros _ w Hw.
  case_bool_decide; [|by apply stream_data_keeps].
  eapply runs_keeps; [respects|exact Hw|done].
Qed.

Lemma process_data_open_keeps ctx direction args bytes ssl id ci w :
  holds clk id ci w -> ci_is_open ci = true ->
  runs (process_data_open ctx direction args bytes ssl ci) w (holds clk id).
Proof.
  intros Hw Ho. unfold process_data_open. cbv zeta.
  set (ci1 := if ssl then ci else _).
  assert (holds clk id ci1 w /\ ci_is_open ci1 = true) as [Hw1 Ho1].
  { unfold ci1, update_bandwidth_tracking. destruct (holds_ok _ _ _ _ Hw) as (_ & _ & _ & _ & F3).
    repeat case_match; (split; [|done]); try done; by apply (holds_same id ci). }
  clearbody ci1. clear ci Hw Ho. destruct (ci_ignore ci1).
  { eapply runs_keeps; [respects|exact Hw1|done]. }
  eapply runs_keeps; [unfold get_process_meta; respects|exact Hw1|]. clear w Hw1. intros meta w Hw.
  destruct (has_strategy meta QP_IGNORE); [by apply ignore_holds|]. destruct (_ || _); [done|].
  set (ci2 := if ssl && negb (ci_is_ssl ci1) then _ else ci1).
  assert (holds clk id ci2 w /\ ci_is_open ci2 = true) as [Hw2 Ho2].
  { unfold ci2. destruct (holds_ok _ _ _ _ Hw) as (_ & _ & _ & _ & F3).
    destruct (_ && _); (split; [|done]); [|done]. by apply (holds_same id ci1). }
  clearbody ci2. destruct (negb ssl && _).
  - eapply runs_keeps; [respects|exact Hw2|done].
  - by apply detect_and_stream_keeps.
Qed.

(** *** Whole routines *)

(** The pattern of the handlers: look the connection up, work on it, store it. *)
Lemma found_keeps id (no : M world unit) (f : conn_info -> M world conn_info) :
  respects (keeps (Inv clk)) no ->
  (forall ci w, holds clk id ci w -> runs (f ci) w (holds clk id)) ->
  respects (keeps (Inv clk))
    (let* found := bpf_map_lookup_elem conn_info_map id in
     match found with
     | None => no
     | Some ci => let* ci' := f ci in store_elem conn_info_map id ci'
     end).
Proof.
  intros Hno Hf w Hw. unfold bpf_map_lookup_elem, bind, gets. cbn [fst snd].
  destruct (bm_get conn_info_map w !! id) as [ci|] eqn:Hl; [|by apply Hno].
  apply (holds_store clk id), (Hf ci w). by apply holds_lookup.
Qed.

Lemma init_conn_keeps ctx direction args bytes :
  respects (keeps (Inv clk)) (init_conn ctx direction args bytes).
Proof.
  unfold init_conn. destruct (_ =? 0); [respects|]. destruct (_ <=? 0); [respects|].
  apply found_keeps; [respects|]. intros. by apply init_conn_found_keeps.
Qed.

Lemma process_data_keeps ctx direction args bytes ssl :
  respects (keeps (Inv clk)) (process_data ctx direction args bytes ssl).
Proof.
  unfold process_data. destruct (_ =? 0); [respects|]. destruct (_ <=? 0); [respects|].
  apply (found_keeps _ _ (fun ci => if ci_is_open ci then _ else _)); [respects|]. intros ci w Hw.
  destruct (ci_is_open ci) eqn:Ho; [by apply process_data_open_keeps|].
  unfold process_data_early. eapply runs_keeps; [respects|exact Hw|]. clear w Hw. intros _ w Hw.
  case_bool_decide; [by apply detect_protocol_keeps|done].
Qed.

Lemma process_close_keeps ctx : respects (keeps (Inv clk)) (process_close ctx).
Proof.
  intros w Hw. unfold process_close, bpf_map_lookup_elem, bind at 1, gets. cbn [fst snd].
  destruct (bm_get conn_info_map w !! sc_id ctx) as [ci|] eqn:Hl; [|done].
  assert (Hd : forall w', quiet w w' -> Inv clk (bpf_map_delete_elem conn_info_map (sc_id ctx) w').2).
  { intros w' Hq. apply (inv_subset clk _ (f_conn_info (w_sock w'))); [apply delete_subseteq|].
    exact (quiet_Inv clk w w' Hq Hw). }
  destruct (ci_is_open ci) eqn:Ho; [|by apply Hd].
  unfold bind, bpf_ringbuf_reserve, bpf_ktime_get_ns, tick, bind. cbn [fst snd ret].
  destruct (ringbuf_room _); [|apply Hd; split_and!; [cbn; lia|done..]].
  assert (holds clk (sc_id ctx) ci (w <| calls ::= S |> <| calls ::= S |>)) as Hh.
  { apply (quiet_holds clk _ _ w); [split_and!; [cbn; lia|done..]|by apply holds_lookup]. }
  eapply (fun H1 H2 => proj1 (inv_event_others clk _ _ _ _ _ _ Closed Hh H1 H2)); [done|].
  unfold conn_phase. rewrite Ho. cbn -[Z.eqb]. by rewrite Z.eqb_refl.
Qed.

(** *** Connection set-up *)

(** The shape of an event by its kind. *)
Definition event_ok (ev : socket_event) : Prop :=
  match ev with
  | Ev_open e => oe_type e = S_OPEN
  | Ev_close e => ce_type e = S_CLOSE
  | Ev_data e => de_type e = S_DATA /\ 0 < de_msg_size e <= MAX_MSG_SIZE /\ Z.of_nat (length (de_msg e)) = de_msg_size e
  | Ev_proto e => pe_type e = S_PROTO /\ pe_protocol e <> P_UNKNOWN
  | Ev_tls_hello e =>
      (he_type e = S_TLS_CLIENT_HELLO \/ he_type e = S_TLS_SERVER_HELLO) /\ 0 < he_size e < MAX_MSG_SIZE
  end.

(** The call counter never goes back, and the events only grow, by well-formed ones. *)
Definition mono (w w' : world) : Prop :=
  (calls w <= calls w')%nat
  /\ exists evs, socket_events (w_sock w') = socket_events (w_sock w) ++ evs /\ (EnvOk E -> Forall event_ok evs).

Lemma mono_same w w' :
  (calls w <= calls w')%nat -> socket_events (w_sock w') = socket_events (w_sock w) -> mono w w'.
Proof. intros Hc He. split; [done|]. exists []. by rewrite app_nil_r. Qed.

#[export] Instance mono_preorder : PreOrder mono.
Proof.
  split; [intros w; by apply mono_same|]. intros u v w [? (l1 & H1 & F1)] [? (l2 & H2 & F2)].
  split; [lia|]. exists (l1 ++ l2). rewrite H2, H1, app_assoc. split; [done|]. intros ?. apply Forall_app. auto.
Qed.

Lemma respects_quiet_mono {A} (m : M world A) : respects quiet m -> respects mono m.
Proof. intros Hm w. destruct (Hm w) as (? & _ & He). by apply mono_same. Qed.

#[local] Hint Resolve respects_quiet_mono | 5 : respects.

Lemma submit_mono ev : (EnvOk E -> event_ok ev) -> respects mono (submit_socket_event ev).
Proof. intros Hok w. split; [cbn; lia|]. exists [ev]. split; [done|]. intros H. by apply Forall_singleton, Hok. Qed.

Lemma table_mono :
  (forall id ci, respects mono (store_elem conn_info_map id ci))
  /\ (forall id ci, respects mono (bpf_map_update_elem conn_info_map id ci))
  /\ (forall id, respects mono (bpf_map_delete_elem conn_info_map id)).
Proof. split_and!; intros * w; by apply mono_same. Qed.

Lemma output_mono ev : (EnvOk E -> event_ok ev) -> respects mono (socket_events_output ev).
Proof. intros. unfold socket_events_output. respects. by apply submit_mono. Qed.

Lemma proto_event_mono ci : respects mono (submit_proto_event ci).
Proof. unfold submit_proto_event. case_bool_decide; respects. by apply submit_mono. Qed.

Lemma finish_open_mono pid ci e : oe_type e = S_OPEN -> respects mono (finish_open pid ci e).
Proof.
  intros He. destruct settings_same. destruct (skip_quiet pid) as (_ & _ & _ & _ & ?). unfold finish_open.
  respects; apply submit_mono; intros _; cbn; by destruct (_ =? _).
Qed.

Lemma open_event_mono ctx ci : respects mono (submit_open_event ctx ci).
Proof.
  unfold submit_open_event, get_process_meta. respects; apply finish_open_mono; unfold open_from_sock; by repeat case_match.
Qed.

Lemma hello_ok hs_type h b count t cookie :
  (capture_tls_hello hs_type h b count).1 = true -> t = S_TLS_CLIENT_HELLO \/ t = S_TLS_SERVER_HELLO ->
  event_ok (Ev_tls_hello ((capture_tls_hello hs_type h b count).2 <| he_type := t |> <| he_cookie := cookie |>)).
Proof.
  unfold capture_tls_hello. repeat case_match; try done; intros _ Ht; (split; [done|]).
  match goal with H : ((buf_read ?n _ _).1 =? 0) = false |- _ => rename H into Hrd; set (size := n) in * end.
  change (0 < size < MAX_MSG_SIZE). assert (size <> 0) by (intros Hz; by rewrite Hz in Hrd).
  pose proof (land_bound (u32 (TLS_RECORD_HEADER_SIZE + or_be16 (read_header 6 6 b).2 3)) (MAX_MSG_SIZE - 1)) as Hb.
  fold size in Hb. unfold MAX_MSG_SIZE in *. lia.
Qed.

Lemma hellos_mono ci b bytes : respects mono (submit_hellos ci b bytes).
Proof.
  pose proof (fun h => proj1 (hello_heap_quiet h)). pose proof (fun h => proj2 (hello_heap_quiet h)).
  unfold submit_hellos.
  repeat match goal with
  | |- respects _ (if ?b then _ else _) => destruct b eqn:?
  | _ => respects_step
  end; apply output_mono; intros _; by apply hello_ok; [|auto].
Qed.

#[local] Hint Resolve proto_event_mono open_event_mono hellos_mono : respects.

Lemma init_conn_mono ctx direction args bytes : respects mono (init_conn ctx direction args bytes).
Proof.
  destruct table_mono as (? & _). unfold init_conn, init_conn_found, late_open, get_process_meta. respects.
Qed.

(** Once the event under construction is a data event, it stays one and what is
    emitted of it is well formed. *)
Definition data_ready (w : world) : Prop := de_type (f_data_heap (w_sock w)) = S_DATA.
Definition emits (w w' : world) : Prop := data_ready w -> mono w w' /\ data_ready w'.

#[local] Instance emits_preorder : PreOrder emits.
Proof. split; [by intros w|]. intros u v w H1 H2 Hu. destruct (H1 Hu) as [? Hv], (H2 Hv). by split; [etrans|]. Qed.

Lemma data_heap_emits f : (forall e, de_type (f e) = de_type e) -> respects emits (data_heap f).
Proof.
  intros Hf w Hw. split; [apply (respects_quiet_mono (data_heap f)), data_heap_quiet|].
  unfold data_ready. cbn. by rewrite Hf.
Qed.

Lemma chunk_emits buf size : respects emits (submit_buffer_chunk buf size).
Proof.
  unfold submit_buffer_chunk. set (n := if _ <? _ then _ else _).
  assert (n <= MAX_MSG_SIZE) as Hle by (unfold n; destruct (Z.ltb_spec size MAX_MSG_SIZE); lia). clearbody n.
  intros w. unfold bind at 1. set (w1 := (data_heap _ w).2).
  assert (emits w w1) as H1 by (by apply data_heap_emits).
  destruct (negb _); [done|]. destruct (Z.gtb_spec n 0) as [Hn|]; [|done]. etrans; [exact H1|].
  unfold bind, gets. cbn [fst snd]. set (w2 := (data_heap _ w1).2). transitivity w2; [by apply data_heap_emits|].
  intros Hw2. split; [|by unfold socket_events_output, bind; destruct (bpf_ringbuf_reserve w2) as [[?|] ?] eqn:Hr;
    injection Hr as _ <-].
  apply output_mono. intros Hok. split; [exact Hw2|]. cbn. rewrite u32_small by (unfold MAX_MSG_SIZE in *; lia). split; [lia|].
  pose proof (read_user_length buf n ltac:(lia)) as Hl. rewrite <- Hl, take_write_prefix, Hl. lia.
Qed.

Lemma buffer_emits direction buf size conn n : forall i sent,
  respects emits (submit_buffer_loop n i direction buf size conn sent).
Proof.
  pose proof chunk_emits. induction n as [|n IH]; intros i sent; cbn [submit_buffer_loop]; respects; by apply data_heap_emits.
Qed.

Lemma iovecs_emits direction args bytes conn n : forall i sent,
  respects emits (submit_iovecs n i direction args bytes conn sent).
Proof.
  pose proof buffer_emits. induction n as [|n IH]; intros i sent; cbn [submit_iovecs]; unfold submit_buffer; respects;
    by apply data_heap_emits.
Qed.

Lemma submit_data_mono ctx direction args bytes ci : respects mono (submit_data ctx direction args bytes ci).
Proof.
  unfold submit_data. apply respects_bind; [apply _|respects|]. intros t w. unfold bind. set (w1 := (data_heap _ w).2).
  transitivity w1; [apply (respects_quiet_mono (data_heap _)), data_heap_quiet|].
  assert (data_ready w1) as Hr by done. destruct (_ >? 0); [by apply iovecs_emits|by apply buffer_emits].
Qed.

Lemma process_data_mono ctx direction args bytes ssl :
  respects mono (process_data ctx direction args bytes ssl).
Proof.
  destruct table_mono as (? & _). pose proof submit_data_mono. pose proof skip_flags_quiet.
  assert (forall p, respects mono (should_stream p)) by (intros p w; by rewrite should_stream_run).
  unfold process_data, process_data_open, process_data_early, detect_and_stream, stream_data,
    get_process_meta. respects.
Qed.

Lemma process_close_mono ctx : respects mono (process_close ctx).
Proof. destruct table_mono as (_ & _ & ?). unfold process_close. respects. by apply submit_mono. Qed.

(** The invariant up to call [N]. *)
Definition keeps_until (N : nat) (w w' : world) : Prop :=
  mono w w' /\ (Inv clk w -> (calls w' <= N)%nat -> Inv clk w').

#[export] Instance keeps_until_preorder N : PreOrder (keeps_until N).
Proof.
  split; [by intros w; split|]. intros u v w [H1 K1] [H2 K2]. split; [by etrans|].
  intros Hu Hw. apply K2; [apply K1; [done|]|done]. unfold mono in H2. lia.
Qed.

Lemma respects_keeps_until {A} N (m : M world A) :
  respects mono m -> respects (keeps (Inv clk)) m -> respects (keeps_until N) m.
Proof. intros Hm Hk w. split; [apply Hm|]. intros Hw _. by apply Hk. Qed.

Lemma respects_quiet_until {A} N (m : M world A) : respects quiet m -> respects (keeps_until N) m.
Proof. intros Hm. apply respects_keeps_until; [by apply respects_quiet_mono|by apply respects_quiet_Inv]. Qed.

Context (Hnow : ktime_ns = clk) (N : nat) (Hclk : clock_ok clk N).

Lemma process_syscall_addr_insert_keeps ctx addr function :
  respects (keeps_until N) (process_syscall_addr_insert ctx addr function).
Proof.
  intros w. split; [apply mono_same; [cbn; lia|done]|]. intros Hw HN.
  unfold process_syscall_addr_insert, bpf_ktime_get_ns, tick, bind in *. cbn [fst snd ret] in *.
  rewrite Hnow in *. unfold Inv. cbn in *. unfold hash_update. set (ci := ConnInfo _ _ _ _ _ _ _ _ _ _).
  assert (inv clk (S (calls w)) (<[sc_id ctx:=ci]> (f_conn_info (w_sock w))) (socket_events (w_sock w)))
    by (by apply (inv_insert clk N)).
  repeat case_match; try done. by apply (inv_mono clk (calls w)); [lia|].
Qed.

Lemma process_syscall_addr_keeps ctx addr function :
  respects (keeps_until N) (process_syscall_addr ctx addr function).
Proof.
  unfold process_syscall_addr. apply respects_bind; [apply _|apply process_syscall_addr_insert_keeps|intros _].
  destruct table_mono as (? & _). unfold process_syscall_addr_open.
  apply respects_keeps_until; [respects|]. apply found_keeps; [respects|]. intros. by apply open_event_keeps.
Qed.

Lemma init_conn_until ctx d a n : respects (keeps_until N) (init_conn ctx d a n).
Proof. apply respects_keeps_until; [apply init_conn_mono|apply init_conn_keeps]. Qed.

Lemma process_data_until ctx d a n ssl : respects (keeps_until N) (process_data ctx d a n ssl).
Proof. apply respects_keeps_until; [apply process_data_mono|apply process_data_keeps]. Qed.

Lemma process_close_until ctx : respects (keeps_until N) (process_close ctx).
Proof. apply respects_keeps_until; [apply process_close_mono|apply process_close_keeps]. Qed.

End core.
