(* ===== verification/SocketSpec.v ===== *)
(** * What the connection routines report

    Functional specifications of [bpf/tap/socket.bpf.c]: which connections are
    reported and with what, how data is cut into events, what is counted, and
    what the entry and exit programs leave behind. *)

From stdpp Require Import base numbers list gmap strings.
From Stdlib Require Import Btauto.
From S2P Require Import Prelude Tap Net Bpf Trace Common Settings Process Buffers Protocol.
From S2P Require Import Socket SocketProbes SocketInv.

(** ** Open events *)

Definition meta_of (w : world) (pid : Z) : option process_meta := f_process_meta (w_proc w) !! pid.

Section open.
Context {E : Env}.

(** All capture is filtered out for the process. *)
Definition all_skipped (w : world) (pid : Z) : bool :=
  match meta_of w pid with
  | None => false
  | Some m => (Z.testbit (pm_filter m) 1 && Z.testbit (pm_filter m) 2 && Z.testbit (pm_filter m) 3)
              && ((pid =? qpid) || Z.testbit (pm_filter m) 0)
  end.

(** The connection is outside what the settings ask to capture. *)
Definition out_of_scope (w : world) (function : CONNECTION_TYPE) (remote : net_addr) (redirected dns : bool) :
    bool :=
  let dir := direction_of w in
  (is_local_ip remote && ignore_loopback_of w)
  || match function with
     | C_SERVER => negb ((dir =? D_INGRESS) || (dir =? D_ALL))
     | C_CLIENT => (dir =? D_INGRESS)
                   || (is_private_ip remote && (dir =? D_EGRESS_EXTERNAL) && negb redirected)
                   || (negb (is_private_ip remote) && (dir =? D_EGRESS_INTERNAL))
                   || dns
     end.

(** The open event that reports the connection of descriptor [id], if any. *)
Definition open_report (w : world) (ctx : socket_ctx) (ci : conn_info) : option socket_open_event :=
  let id := sc_id ctx in
  match f_pid_fd_to_sock (w_spf w) !! id with
  | None => None
  | Some sock =>
      let sk := sock_sk sock in
      let remote := if skc_family sk =? 0 then ci_addr ci else sock_remote_addr sk in
      let redirected := is_management_address (f_mgmt_addrs w) remote in
      let type := match f_active_socket_types (w_sock w) !! id with
                  | Some t => t | None => sock_type_fallback sk end in
      if ci_ignore ci || (skc_cookie sk =? 0) || all_skipped w (k_pid id)
         || out_of_scope w (cp_function (ci_conn_pid_id ci)) remote redirected (is_dns ci)
      then None
      else Some (OpenEvent S_OPEN (cp_tsid (ci_conn_pid_id ci)) (ci_conn_pid_id ci) (skc_cookie sk)
                   (sock_local_addr sk) remote (k_pid id) (tid_of (sc_pid_tgid ctx)) type redirected)
  end.

Lemma land_14 f : (Z.land f 14 =? 14) = Z.testbit f 1 && Z.testbit f 2 && Z.testbit f 3.
Proof.
  apply eq_true_iff_eq. rewrite Z.eqb_eq, !andb_true_iff. split.
  - intros H. rewrite <- (andb_true_r (Z.testbit f 1)), <- (andb_true_r (Z.testbit f 2)),
      <- (andb_true_r (Z.testbit f 3)).
    change true with (Z.testbit 14 1) at 1. change true with (Z.testbit 14 2) at 2.
    change true with (Z.testbit 14 3) at 3. by rewrite <- !Z.land_spec, H.
  - intros ((H1 & H2) & H3). apply Z.bits_inj'. intros i Hi. rewrite Z.land_spec.
    destruct (Z.testbit 14 i) eqn:H14; [|apply andb_false_r]. rewrite andb_true_r.
    assert (i = 0 \/ i = 1 \/ i = 2 \/ i = 3 \/ 4 <= i) as [->|[->|[->|[->|Hge]]]] by lia; try done.
    by rewrite Z.bits_above_log2 in H14 by (cbn; lia).
Qed.

Lemma SKIP_ALL_run pid w : SKIP_ALL pid w = (all_skipped w pid, w).
Proof.
  unfold SKIP_ALL, SKIP_DATA, all_skipped, meta_of, get_process_meta, bpf_map_lookup_elem, bind, gets, ret.
  cbn [fst snd]. change (bm_get process_meta_map w) with (f_process_meta (w_proc w)).
  destruct (f_process_meta (w_proc w) !! pid) as [m|] eqn:Hm; [|done]. cbn [fst snd].
  change (Z.land SKIP_ALL_FLAGS (Z.lnot SKIP_DATA_FLAG)) with 14. rewrite land_14.
  destruct (_ && _ && _); [|done]. cbn [fst snd]. change (bm_get process_meta_map w) with (f_process_meta (w_proc w)).
  rewrite Hm. pose proof (land_pow2_testbit (pm_filter m) 0) as H0. change (2 ^ 0) with 1 in H0.
  unfold meta_flag, SKIP_DATA_FLAG. by rewrite H0.
Qed.

Lemma ignore_if (c b : bool) ci :
  (if c then ci <| ci_ignore := b |> <| ci_ignore := true |> else ci <| ci_ignore := b |>)
  = ci <| ci_ignore := b || c |>.
Proof. destruct c; [by rewrite orb_true_r|by rewrite orb_false_r]. Qed.

Lemma open_filters_spec w skip e ci :
  open_filters (direction_of w) (ignore_loopback_of w) skip e ci
  = ci <| ci_ignore := ci_ignore ci || skip
            || out_of_scope w (cp_function (ci_conn_pid_id ci)) (oe_remote e) (oe_is_redirected e) (is_dns ci) |>.
Proof.
  replace ci with (ci <| ci_ignore := ci_ignore ci |>) at 1 by (by destruct ci).
  unfold open_filters, out_of_scope. cbv zeta. rewrite !ignore_if.
  change (cp_function (ci_conn_pid_id (ci <| ci_ignore := ci_ignore ci |>)))
    with (cp_function (ci_conn_pid_id ci)).
  destruct (cp_function (ci_conn_pid_id ci)); cbn [bool_decide decide_rel andb];
    rewrite ?bool_decide_true, ?bool_decide_false by done; cbn [andb]; rewrite !ignore_if.
  - change (is_dns (ci <| ci_ignore := _ |>)) with (is_dns ci).
    apply (f_equal (fun b => ci <| ci_ignore := b |>)). btauto.
  - rewrite bool_decide_true by done. apply (f_equal (fun b => ci <| ci_ignore := b |>)). btauto.
Qed.

(** What reading the socket leaves in the record and the event. *)
Lemma open_from_sock_spec sock ty ci e :
  open_from_sock sock ty ci e
  = (ci <| ci_cookie := skc_cookie (sock_sk sock) |>,
     OpenEvent (oe_type e) (oe_timestamp_ns e) (oe_conn_pid_id e) (skc_cookie (sock_sk sock))
       (sock_local_addr (sock_sk sock)) (sock_remote_addr (sock_sk sock)) (oe_pid e) (oe_tgid e)
       (match ty with Some _ => oe_socket_type e | None => sock_type_fallback (sock_sk sock) end)
       (oe_is_redirected e)).
Proof. by destruct ty. Qed.

Lemma sock_remote_family sk : sa_family (sock_remote_addr sk) = skc_family sk.
Proof. unfold sock_remote_addr. by destruct (_ =? AF_INET), (_ =? AF_INET6). Qed.

(** [finish_open] in closed form. *)
Lemma finish_open_run pid ci e w :
  let remote := if sa_family (oe_remote e) =? 0 then ci_addr ci else oe_remote e in
  let red := is_management_address (f_mgmt_addrs w) remote in
  let ign := ci_ignore ci || all_skipped w pid
             || out_of_scope w (cp_function (ci_conn_pid_id ci)) remote red (is_dns ci) in
  let ci' := ci <| ci_ignore := ign |> in
  finish_open pid ci e w
  = if ign || (ci_cookie ci =? 0) then (ci', w)
    else (ci' <| ci_is_open := true |>,
          (submit_socket_event (Ev_open (e <| oe_remote := remote |> <| oe_is_redirected := red |>)) w).2).
Proof.
  intros remote red ign ci'. unfold finish_open. cbv zeta.
  set (e1 := if sa_family _ =? 0 then _ else _).
  assert (e1 = e <| oe_remote := remote |>) as -> by (unfold e1, remote; destruct (_ =? 0); by destruct e).
  unfold bind, gets. cbn [fst snd]. change (oe_remote (e <| oe_remote := remote |>)) with remote. fold red.
  rewrite get_direction_setting_run. cbn [fst snd].
  rewrite get_ignore_loopback_setting_run. cbn [fst snd]. rewrite SKIP_ALL_run. cbn [fst snd].
  rewrite open_filters_spec.
  change (oe_remote (e <| oe_remote := remote |> <| oe_is_redirected := red |>)) with remote.
  change (oe_is_redirected (e <| oe_remote := remote |> <| oe_is_redirected := red |>)) with red.
  fold ign. fold ci'. change (ci_ignore ci') with ign. change (ci_cookie ci') with (ci_cookie ci).
  by destruct (ign || _).
Qed.

Lemma or_reorder a b c d : a || b || c || d = a || c || d || b.
Proof. btauto. Qed.

(** [submit_open_event] once the record is reserved. *)
Lemma submit_open_event_run ctx ci w :
  ci_is_open ci = false -> has_strategy (meta_of w (k_pid (sc_id ctx))) QP_IGNORE = false ->
  ringbuf_room (calls w) = true ->
  exists e, submit_open_event ctx ci w
    = (let ce := match f_pid_fd_to_sock (w_spf w) !! sc_id ctx with
                 | Some sock => open_from_sock sock (f_active_socket_types (w_sock w) !! sc_id ctx) ci e
                 | None => (ci, e)
                 end in
       finish_open (k_pid (sc_id ctx)) ce.1 ce.2 (w <| calls ::= S |>))
  /\ oe_type e = S_OPEN /\ oe_timestamp_ns e = cp_tsid (ci_conn_pid_id ci)
  /\ oe_conn_pid_id e = ci_conn_pid_id ci /\ oe_pid e = k_pid (sc_id ctx)
  /\ oe_tgid e = tid_of (sc_pid_tgid ctx)
  /\ oe_socket_type e = default S_UNKNOWN (f_active_socket_types (w_sock w) !! sc_id ctx).
Proof.
  intros Ho Hm Hr. unfold submit_open_event. rewrite Ho.
  unfold get_process_meta, bpf_map_lookup_elem, bpf_ringbuf_reserve, tick, bind, gets, ret. cbn [fst snd].
  change (bm_get process_meta_map w !! _) with (meta_of w (k_pid (sc_id ctx))). rewrite Hm, Hr.
  replace (PidFd (k_pid (sc_id ctx)) (k_fd (sc_id ctx))) with (sc_id ctx) by (by destruct (sc_id ctx)).
  change (bm_get active_socket_types _) with (f_active_socket_types (w_sock w)).
  change (bm_get pid_fd_to_sock_map _) with (f_pid_fd_to_sock (w_spf w)).
  eexists. split; [reflexivity|]. by destruct (f_active_socket_types (w_sock w) !! sc_id ctx).
Qed.

(** Neither a process to be ignored nor a full ring buffer changes anything but flags. *)
Lemma submit_open_event_ignored ctx ci w :
  ci_is_open ci = false -> has_strategy (meta_of w (k_pid (sc_id ctx))) QP_IGNORE = true ->
  submit_open_event ctx ci w = (ci <| ci_ignore := true |>, w).
Proof.
  intros Ho Hm. unfold submit_open_event. rewrite Ho. unfold get_process_meta, bpf_map_lookup_elem, bind, gets, ret. cbn [fst snd].
  change (bm_get process_meta_map w !! _) with (meta_of w (k_pid (sc_id ctx))). by rewrite Hm.
Qed.

Lemma submit_open_event_full ctx ci w :
  ci_is_open ci = false -> has_strategy (meta_of w (k_pid (sc_id ctx))) QP_IGNORE = false -> ringbuf_room (calls w) = false ->
  submit_open_event ctx ci w = (ci, w <| calls ::= S |>).
Proof.
  intros Ho Hm Hr. unfold submit_open_event. rewrite Ho.
  unfold get_process_meta, bpf_map_lookup_elem, bpf_ringbuf_reserve, tick, bind, gets, ret. cbn [fst snd].
  change (bm_get process_meta_map w !! _) with (meta_of w (k_pid (sc_id ctx))). by rewrite Hm, Hr.
Qed.

Lemma open_report_dns w ctx ci :
  cp_function (ci_conn_pid_id ci) = C_CLIENT -> is_dns ci = true -> open_report w ctx ci = None.
Proof.
  intros Hc Hd. unfold open_report. destruct (f_pid_fd_to_sock (w_spf w) !! sc_id ctx) as [sock|]; [|done].
  unfold out_of_scope. rewrite Hc, Hd. by rewrite !orb_true_r.
Qed.

Lemma submit_open_event_reserved ctx ci w :
  ci_is_open ci = false -> conn_flags ci ->
  has_strategy (meta_of w (k_pid (sc_id ctx))) QP_IGNORE = false -> ringbuf_room (calls w) = true ->
  let r := submit_open_event ctx ci w in
  let report := open_report w ctx ci in
  socket_events (w_sock r.2)
    = socket_events (w_sock w) ++ match report with Some e => [Ev_open e] | None => [] end
  /\ ci_is_open r.1 = match report with Some _ => true | None => false end.
Proof.
  intros Ho (_ & F2 & _) Hm Hr r report. unfold r.
destruct (submit_open_event_run ctx ci w Ho Hm Hr) as (e & -> & T1 & T2 & T3 & T4 & T5 & T6).
  unfold report, open_report. destruct (f_pid_fd_to_sock (w_spf w) !! sc_id ctx) as [sock|].
  - rewrite open_from_sock_spec. cbn [fst snd]. rewrite finish_open_run, T1, T2, T3, T4, T5, T6.
    cbn [oe_remote]. rewrite sock_remote_family.
    change (ci_addr (ci <| ci_cookie := _ |>)) with (ci_addr ci).
    set (remote := if skc_family (sock_sk sock) =? 0 then _ else _). cbv zeta.
    set (red := is_management_address (f_mgmt_addrs w) remote).
    set (out := ci_ignore ci || _ || _ || _).
    match goal with |- context [if ?c then (_, _) else _] =>
      replace c with out by exact (or_reorder _ _ _ _) end.
    destruct out; [by rewrite app_nil_r|]. split; [|done].
    by destruct (f_active_socket_types (w_sock w) !! sc_id ctx).
  - cbn [fst snd]. rewrite finish_open_run. cbv zeta. destruct (ci_ignore ci) eqn:Hi.
    + cbn [orb]. by rewrite app_nil_r.
    + rewrite (F2 Ho eq_refl). cbn [Z.eqb orb]. rewrite orb_true_r. by rewrite app_nil_r.
Qed.

End open.

(** C6: a connection that is not yet reported is reported exactly when all of these
    hold: it is not marked as ignored; its process neither has the strategy to be ignored
    nor has all its traffic filtered; the ring buffer has room; its socket is known and
    has a cookie; and the settings ask for its direction, for its kind of remote address
    and for loopback if it is local, and it is not the connection of a DNS client.  The
    last exception is spelled out: the comment in the source says that DNS queries are
    not ignored, and the statement below it ignores them.  The event carries the
    addresses, cookie and identifiers of that connection and nothing of the uncleared
    ring-buffer record it was built in. *)
Theorem submit_open_event_spec (E : Env) ctx ci w :
  ci_is_open ci = false -> conn_flags ci ->
  let r := submit_open_event ctx ci w in
  let report := if has_strategy (meta_of w (k_pid (sc_id ctx))) QP_IGNORE || negb (ringbuf_room (calls w)) then None
                else open_report w ctx ci in
  socket_events (w_sock r.2)
    = socket_events (w_sock w) ++ match report with Some e => [Ev_open e] | None => [] end
  /\ ci_is_open r.1 = match report with Some _ => true | None => false end
  /\ (cp_function (ci_conn_pid_id ci) = C_CLIENT -> is_dns ci = true -> report = None).
Proof.
  intros Ho Hf r report. apply and_assoc. split; [|by intros; unfold report; destruct (_ || _); [|apply open_report_dns]].
  unfold r, report. destruct (has_strategy _ _) eqn:Hm; cbn [orb]; [rewrite submit_open_event_ignored, app_nil_r by done; done|].
  destruct (ringbuf_room (calls w)) eqn:Hr; cbn [negb]; [|rewrite submit_open_event_full, app_nil_r by done; done].
  by apply submit_open_event_reserved.
Qed.

(** *** A concrete connection

    Process 1000 has descriptor 5 connected to 1.2.3.4:80; its socket is at 1 and
    has cookie 7. *)

Definition demo_request : list Z := bytes_of_string "GET / HTTP/1.1".

(** The socket address at 4096, the request at 4112. *)
Definition demo_env : Env :=
  (flat_env (1000 * 2 ^ 32 + 1000) 4096 ([2; 0; 0; 80; 1; 2; 3; 4] ++ zeros 8 ++ demo_request))
    <| (@skc_cookie) := fun _ => 7 |> <| (@skc_family) := fun _ => AF_INET |>
    <| (@skc_daddr) := fun _ => [1; 2; 3; 4] |> <| (@skc_dport) := fun _ => bswap16 80 |>
    <| (@sk_protocol) := fun _ => IPPROTO_TCP |> <| (@sk_type) := fun _ => SOCK_STREAM |>.

Definition demo_ctx : socket_ctx := SocketCtx (PidFd 1000 5) (1000 * 2 ^ 32 + 1000) "demo" QTAP_SOCKET.

Definition demo_cp : conn_pid_id := ConnPidId 1000 1000 5 C_CLIENT 3.

(** Its record before and after the open event. *)
Definition demo_new : conn_info :=
  ConnInfo demo_cp 0 net_addr_zero 0 0 false false P_UNKNOWN false false.
Definition demo_open : conn_info := demo_new <| ci_cookie := 7 |> <| ci_is_open := true |>.

(** The state with that record; HTTP is streamed. *)
Definition demo_state (ci : conn_info) : world :=
  world_init <| f_socket_settings := {[SOCK_SETTING_STREAM_PROTOCOLS := STREAM_HTTP_FLAG]} |>
    <| w_spf ::= fun s => s <| f_pid_fd_to_sock := {[PidFd 1000 5 := 1]} |> |>
    <| w_sock ::= fun s => s <| f_conn_info := {[PidFd 1000 5 := ci]} |> |>.

Lemma submit_open_event_spec_witness :
  socket_events (w_sock (@submit_open_event demo_env demo_ctx demo_new (demo_state demo_new)).2)
  = [Ev_open (OpenEvent S_OPEN 3 demo_cp 7 (NetAddr AF_INET (zeros 16) 0)
                (NetAddr AF_INET ([1; 2; 3; 4] ++ zeros 12) (bswap16 80)) 1000 1000 S_TCP false)].
Proof.
  apply (submit_open_event_spec demo_env demo_ctx demo_new (demo_state demo_new)); try done.
Defined.

(** ** Data events *)

(** The pieces a buffer is cut into, with [n] chunks left: offset and bytes. *)
Fixpoint chunks (n : nat) (off : Z) (bs : list Z) : list (Z * list Z) :=
  match n with
  | O => []
  | S n' =>
      let msg := take (Z.to_nat MAX_MSG_SIZE) bs in
      let rest := drop (Z.to_nat MAX_MSG_SIZE) bs in
      (off, msg) :: match rest with [] => [] | _ => chunks n' (off + MAX_MSG_SIZE) rest end
  end.

(** The event for one piece, with the attributes of the event [h] on the heap. *)
Definition chunk_event (h : socket_data_event) (base : Z) (c : Z * list Z) : socket_data_event :=
  h <| de_pos := u64 (base + c.1) |> <| de_msg_size := Z.of_nat (length c.2) |> <| de_msg := c.2 |>.

(** The byte count the positions of a direction start from. *)
Definition base_of (direction : Z) (conn : conn_info) : Z :=
  if direction =? D_EGRESS then ci_wr_bytes conn else ci_rd_bytes conn.

Section chunks.
Context {E : Env} (Hroom : forall k, ringbuf_room k = true).

Lemma submit_chunk_run buf size msg w :
  let amount := if size <? MAX_MSG_SIZE then size else MAX_MSG_SIZE in
  bpf_probe_read_user buf amount = (0, msg) -> Z.of_nat (length msg) = amount -> 0 < amount ->
  let w' := (submit_buffer_chunk buf size w).2 in
  let h := f_data_heap (w_sock w) in
  socket_events (w_sock w') = socket_events (w_sock w)
    ++ [Ev_data (h <| de_msg_size := Z.of_nat (length msg) |> <| de_msg := msg |>)]
  /\ exists m, f_data_heap (w_sock w') = h <| de_msg_size := Z.of_nat (length msg) |> <| de_msg := m |>.
Proof.
  intros amount Hrd Hlen Hpos w' h. unfold w', submit_buffer_chunk. fold amount. rewrite Hrd. cbn [fst snd].
  assert (amount <= MAX_MSG_SIZE) by (unfold amount; destruct (Z.ltb_spec size MAX_MSG_SIZE); lia).
  unfold MAX_MSG_SIZE in *. rewrite (proj2 (Z.gtb_lt amount 0) Hpos).
  unfold socket_events_output, bpf_ringbuf_reserve, tick, data_heap, modify, bind, gets.
  cbn [fst snd negb Z.eqb ret]. rewrite Hroom, u32_small by lia. rewrite <- Hlen, Nat2Z.id.
  split; [|by eexists]. unfold over. cbn. by rewrite take_write_prefix.
Qed.

Lemma chunk_pos_run direction conn sent w :
  direction = D_EGRESS \/ direction = D_INGRESS ->
  (if direction =? D_EGRESS
   then data_heap (fun ev => ev <| de_pos := u64 (ci_wr_bytes conn + sent) |>)
   else if direction =? D_INGRESS
   then data_heap (fun ev => ev <| de_pos := u64 (ci_rd_bytes conn + sent) |>)
   else ret tt) w
  = (tt, w <| w_sock ::= fun s => s <| f_data_heap ::= fun ev =>
             ev <| de_pos := u64 (base_of direction conn + sent) |> |> |>).
Proof. by intros [-> | ->]. Qed.

Lemma take_min_length (k : nat) (bs : list Z) : take (k `min` length bs) bs = take k bs.
Proof.
  destruct (Nat.le_ge_cases k (length bs)); [by rewrite Nat.min_l|].
  by rewrite Nat.min_r, !take_ge by lia.
Qed.

(** The size the chunk loops ask for when [bs] is still to go. *)
Definition asks_for (cur : Z) (bs : list Z) : Prop :=
  cur = Z.of_nat (length bs) \/ (cur = MAX_MSG_SIZE /\ MAX_MSG_SIZE < Z.of_nat (length bs)).

(** The read for one chunk of the buffer [bs]. *)
Lemma cut_read buf cur bs :
  user_holds buf bs -> bs <> [] -> asks_for cur bs ->
  let msg := take (Z.to_nat MAX_MSG_SIZE) bs in
  let amount := if cur <? MAX_MSG_SIZE then cur else MAX_MSG_SIZE in
  bpf_probe_read_user buf amount = (0, msg) /\ Z.of_nat (length msg) = amount /\ 0 < amount.
Proof.
  intros Hbs Hne Hcur msg amount. assert (0 < length bs)%nat by (by destruct bs; [|simpl; lia]).
  assert (Hlen : amount = Z.of_nat (length msg)).
  { unfold asks_for, amount, msg, MAX_MSG_SIZE in *. rewrite length_take. destruct (Z.ltb_spec cur 30720); lia. }
  rewrite Hlen. split_and!; [|done|].
  - pose proof (Hbs 0%nat (length msg)) as Hr. rewrite Z.add_0_r, drop_0 in Hr.
    unfold msg in *. rewrite length_take in *. rewrite Hr, take_min_length by lia. done.
  - unfold msg, MAX_MSG_SIZE in *. rewrite length_take. lia.
Qed.

(** One chunk of the buffer [bs]. *)
Lemma submit_chunk_cut buf cur bs w :
  user_holds buf bs -> bs <> [] -> asks_for cur bs ->
  let msg := take (Z.to_nat MAX_MSG_SIZE) bs in
  let w' := (submit_buffer_chunk buf cur w).2 in
  let h := f_data_heap (w_sock w) in
  socket_events (w_sock w') = socket_events (w_sock w)
    ++ [Ev_data (h <| de_msg_size := Z.of_nat (length msg) |> <| de_msg := msg |>)]
  /\ exists m, f_data_heap (w_sock w') = h <| de_msg_size := Z.of_nat (length msg) |> <| de_msg := m |>.
Proof. intros Hbs Hne Hcur msg. destruct (cut_read buf cur bs Hbs Hne Hcur) as (? & ? & ?). by apply (submit_chunk_run buf cur msg w). Qed.

Lemma user_holds_drop a bs k :
  (k <= length bs)%nat -> user_holds a bs -> user_holds (a + Z.of_nat k) (drop k bs).
Proof.
  intros Hk H off n Hle. rewrite length_drop in Hle.
  replace (a + Z.of_nat k + Z.of_nat off) with (a + Z.of_nat (k + off)) by lia.
  rewrite H by lia. by rewrite drop_drop.
Qed.

(** The chunk loop, with the bytes from [sent] on still to go. *)
Lemma submit_buffer_loop_run direction buf size conn n : forall bs i sent w,
  direction = D_EGRESS \/ direction = D_INGRESS ->
  user_holds (buf + sent) bs -> sent + Z.of_nat (length bs) = size -> size < 2 ^ 31 ->
  0 <= sent -> (i + n = CHUNK_LIMIT)%nat -> bs <> [] ->
  let w' := (submit_buffer_loop n i direction buf size conn sent w).2 in
  socket_events (w_sock w') = socket_events (w_sock w)
    ++ map (fun c => Ev_data (chunk_event (f_data_heap (w_sock w)) (base_of direction conn) c))
         (chunks n sent bs).
Proof.
  induction n as [|n IH]; intros bs i sent w Hd Hbs Hlen Hmax Hs Hi Hne w'; [by rewrite app_nil_r|].
  assert (0 < length bs)%nat by (by destruct bs; [|simpl; lia]).
  unfold w'. cbn [submit_buffer_loop]. unfold bind at 1. rewrite chunk_pos_run by done. cbn [fst snd].
  rewrite s32_small by lia. replace (size - sent) with (Z.of_nat (length bs)) by lia.
  set (cur := u64 _). set (w1 := w <| w_sock ::= _ |>).
  assert (Hcur : cur = if (Z.of_nat (length bs) >? MAX_MSG_SIZE) && negb (Nat.eqb i 3) then MAX_MSG_SIZE
                       else Z.of_nat (length bs)).
  { unfold cur, MAX_MSG_SIZE. rewrite u64_small; [done|]. destruct (_ && _) eqn:Hc; lia. }
  clearbody cur. destruct (submit_chunk_cut (buf + sent) cur bs w1 Hbs Hne) as [Hev [m Hheap]].
  { destruct (_ && _) eqn:Hc; [right; lia|by left]. }
  assert (0 <= cur <= Z.of_nat (length bs)) as Hcb
    by (rewrite Hcur; unfold MAX_MSG_SIZE in *; destruct (_ && _) eqn:?; lia).
  unfold bind at 1. set (w2 := (submit_buffer_chunk _ _ w1).2) in *.
  rewrite (s32_small (sent + cur)), u64_small by lia.
  cbn [chunks map]. set (rest := drop (Z.to_nat MAX_MSG_SIZE) bs).
  assert (Hrest : length rest = (length bs - Z.to_nat MAX_MSG_SIZE)%nat) by apply length_drop.
  unfold MAX_MSG_SIZE in *.
  destruct ((Z.of_nat (length bs) >? 30720) && negb (Nat.eqb i 3)) eqn:Hc.
  - assert (rest <> []) as Hrne by (intros Hn; rewrite Hn in Hrest; cbn [length] in Hrest; lia).
    rewrite (proj2 (Z.eqb_neq size _)), Hcur by lia. rewrite (IH rest); try done; try lia.
    + rewrite Hev, Hheap, <- app_assoc. destruct rest as [|x rest']; [done|]. done.
    + replace (buf + (sent + 30720)) with (buf + sent + Z.of_nat (Z.to_nat 30720)) by lia.
      apply user_holds_drop; [lia|done].
  - rewrite (proj2 (Z.eqb_eq size _)) by lia. cbn [snd ret].
    assert (match rest with [] => [] | _ => chunks n (sent + 30720) rest end = []) as ->.
    { destruct rest as [|x rest']; [done|]. destruct n; [done|]. cbn [length] in Hrest. unfold CHUNK_LIMIT in Hi. lia. }
    by rewrite Hev.
Qed.

End chunks.

(** *** The pieces cover the buffer *)

Lemma take_plus (k m : nat) (bs : list Z) : take (k + m) bs = take k bs ++ take m (drop k bs).
Proof.
  rewrite <- (take_drop k (take (k + m) bs)), take_take, Nat.min_l, skipn_firstn_comm by lia.
  by replace (k + m - k)%nat with m by lia.
Qed.

Lemma chunks_concat n : forall off bs,
  concat (map snd (chunks n off bs)) = take (n * Z.to_nat MAX_MSG_SIZE) bs.
Proof.
  induction n as [|n IH]; intros off bs; [by rewrite take_0|].
  cbn [Nat.mul]. rewrite take_plus. cbn [chunks map concat snd]. f_equal.
  destruct (drop _ bs) as [|x rest]; [by rewrite take_nil|]. by rewrite IH.
Qed.

Lemma chunks_lookup n : forall off bs i c,
  chunks n off bs !! i = Some c ->
  c.1 = off + MAX_MSG_SIZE * Z.of_nat i /\ c.2 = take (Z.to_nat MAX_MSG_SIZE) (drop (i * Z.to_nat MAX_MSG_SIZE) bs)
  /\ (bs <> [] -> c.2 <> []).
Proof.
  induction n as [|n IH]; intros off bs [|i] c; cbn [chunks]; try done.
  - intros [= <-]. cbn [fst snd]. split; [lia|]. split; [done|]. by destruct bs.
  - rewrite Nat.mul_succ_l, Nat.add_comm, <- drop_drop.
    destruct (drop (Z.to_nat MAX_MSG_SIZE) bs) as [|x rest]; [done|]. intros (H1 & H2 & H3)%IH. split; [lia|]. auto.
Qed.

Lemma chunks_bound n off bs i c : chunks n off bs !! i = Some c -> Z.of_nat (length c.2) <= MAX_MSG_SIZE.
Proof. intros (_ & -> & _)%chunks_lookup. rewrite length_take. unfold MAX_MSG_SIZE. lia. Qed.

Lemma of_nat_chunk i : Z.of_nat (i * Z.to_nat MAX_MSG_SIZE) = MAX_MSG_SIZE * Z.of_nat i.
Proof. rewrite Nat2Z.inj_mul, Z2Nat.id by done. apply Z.mul_comm. Qed.

Lemma chunk_event_pos h base c : de_pos (chunk_event h base c) = u64 (base + c.1).
Proof. done. Qed.

Lemma length_chunks n off bs : (length (chunks n off bs) <= n)%nat.
Proof.
  revert off bs. induction n as [|n IH]; intros off bs; cbn [chunks length]; [lia|].
  destruct (drop _ bs) as [|x rest]; cbn [length]; [lia|]. specialize (IH (off + MAX_MSG_SIZE) (x :: rest)). lia.
Qed.

(** A readable buffer becomes at most four data events that carry, in
    order and without gap or overlap, its first 4 * 30720 bytes; each event has
    the length of its message, the next position, and the attributes of the
    event prepared on the heap. *)
Theorem submit_buffer_spec (E : Env) direction buf bs conn w :
  (forall k, ringbuf_room k = true) -> direction = D_EGRESS \/ direction = D_INGRESS ->
  user_holds buf bs -> 0 < Z.of_nat (length bs) < 2 ^ 31 ->
  exists evs,
    socket_events (w_sock (submit_buffer direction buf (Z.of_nat (length bs)) conn w).2)
      = socket_events (w_sock w) ++ map Ev_data evs
    /\ concat (map de_msg evs) = take (4 * Z.to_nat MAX_MSG_SIZE) bs /\ (length evs <= 4)%nat
    /\ forall i e, evs !! i = Some e ->
       exists msg, e = (f_data_heap (w_sock w)) <| de_pos := u64 (base_of direction conn + MAX_MSG_SIZE * Z.of_nat i) |>
                        <| de_msg_size := Z.of_nat (length msg) |> <| de_msg := msg |>
                   /\ Z.of_nat (length msg) <= MAX_MSG_SIZE.
Proof.
  intros Hroom Hd Hbs Hlen.
  exists (map (chunk_event (f_data_heap (w_sock w)) (base_of direction conn)) (chunks CHUNK_LIMIT 0 bs)).
  split_and!.
  - unfold submit_buffer. rewrite (submit_buffer_loop_run Hroom direction buf _ conn CHUNK_LIMIT bs);
      try done; try lia; [by rewrite map_map|by rewrite Z.add_0_r|]. intros ->. simpl in Hlen. lia.
  - rewrite map_map. change (fun x => de_msg (chunk_event _ _ x)) with (@snd Z (list Z)).
    apply chunks_concat.
  - rewrite length_map. apply length_chunks.
  - intros i e (c & He & Hc)%list_lookup_fmap_Some. destruct (chunks_lookup _ _ _ _ _ Hc) as [Hpos _].
    exists c.2. split; [|by eapply chunks_bound]. rewrite He. unfold chunk_event. by rewrite Hpos.
Qed.

Lemma submit_buffer_spec_witness :
  exists evs,
    socket_events (w_sock (@submit_buffer demo_env D_EGRESS 4112 14 demo_open (demo_state demo_open)).2)
      = map Ev_data evs
    /\ concat (map de_msg evs) = demo_request.
Proof.
  destruct (submit_buffer_spec demo_env D_EGRESS 4112 demo_request demo_open (demo_state demo_open))
    as (evs & Hev & Hc & _).
  - done.
  - by left.
  - by apply flat_env_holds_at.
  - done.
  - exists evs. split; [exact Hev|]. rewrite Hc. apply take_ge. unfold MAX_MSG_SIZE.
    change (length demo_request) with 14%nat. lia.
Defined.

(** ** The data handler *)

(** The process filter drops the data of the connection. *)
Definition skipped {E : Env} (w : world) (pid : Z) (ci : conn_info) : bool :=
  let meta := meta_of w pid in
  (pid =? qpid) || meta_flag meta SKIP_DATA_FLAG
  || (bool_decide (ci_protocol ci = P_DNS) && meta_flag meta SKIP_DNS_FLAG)
  || (ci_is_ssl ci && meta_flag meta SKIP_TLS_FLAG)
  || (negb (ci_is_ssl ci) && meta_flag meta SKIP_HTTP_FLAG).

(** The protocol is one whose data is streamed. *)
Definition streamed (w : world) (ci : conn_info) : bool :=
  (bool_decide (cp_function (ci_conn_pid_id ci) = C_CLIENT) && bool_decide (ci_protocol ci = P_DNS))
  || streams w (ci_protocol ci).

(** The process leaves its connections to be observed. *)
Definition observed (w : world) (pid : Z) : Prop :=
  forall s, s = QP_IGNORE \/ s = QP_FORWARD \/ s = QP_PROXY -> has_strategy (meta_of w pid) s = false.

Section data.
Context {E : Env}.

Lemma skip_flags_run ctx ci w :
  skip_flags ctx ci w = (skipped w (k_pid (sc_id ctx)) ci, w).
Proof. done. Qed.

Lemma runs_same {A B} (m : M world A) (k : A -> M world B) w Q :
  respects same_but_trace m -> (forall a w', same_but_trace w w' -> runs (k a) w' Q) ->
  runs (bind m k) w Q.
Proof. intros Hm Hk. apply Hk, Hm. Qed.

Lemma trace_ctx_same ctx msg args : respects same_but_trace (trace_ctx ctx msg args).
Proof. unfold trace_ctx. respects. Qed.

(** What the routines below read of the state. *)
Lemma same_reads w w' pid ci :
  same_but_trace w w' ->
  w_sock w' = w_sock w /\ meta_of w' pid = meta_of w pid /\ streamed w' ci = streamed w ci
  /\ skipped w' pid ci = skipped w pid ci /\ (observed w pid -> observed w' pid).
Proof.
  intros (_ & Hset & _ & Hp & Hs & _).
  assert (meta_of w' pid = meta_of w pid) as Hm by (unfold meta_of; by rewrite Hp).
  split_and!; [done|done| | |]; unfold streamed, streams, skipped, observed; by rewrite ?Hset, ?Hm.
Qed.

(** [submit_data] on a plain readable buffer. *)
Lemma submit_data_plain ctx direction args bs ci w :
  (forall k, ringbuf_room k = true) -> direction = D_EGRESS \/ direction = D_INGRESS ->
  da_iovcnt args = 0 -> user_holds (da_buf args) bs -> 0 < Z.of_nat (length bs) < 2 ^ 31 ->
  exists h, de_type h = S_DATA /\ de_conn_pid_id h = ci_conn_pid_id ci /\ de_cookie h = ci_cookie ci
    /\ de_direction h = direction
    /\ socket_events (w_sock (submit_data ctx direction args (Z.of_nat (length bs)) ci w).2)
       = socket_events (w_sock w)
         ++ map (fun c => Ev_data (chunk_event h (base_of direction ci) c)) (chunks CHUNK_LIMIT 0 bs).
Proof.
  intros Hroom Hd Hi Hbs Hlen. unfold submit_data. rewrite Hi. cbn [Z.gtb Z.compare].
  unfold bpf_ktime_get_ns, tick, bind. cbn [fst snd ret].
  set (w1 := (data_heap _ _).2). exists (f_data_heap (w_sock w1)). split_and!; [done..|].
  unfold submit_buffer. rewrite (submit_buffer_loop_run Hroom direction (da_buf args) _ ci CHUNK_LIMIT bs);
    try done; try lia; [by rewrite Z.add_0_r|]. intros ->. simpl in Hlen. lia.
Qed.

(** The connection table does not change. *)
Definition same_conns (w w' : world) : Prop := f_conn_info (w_sock w') = f_conn_info (w_sock w).

#[local] Instance same_conns_preorder : PreOrder same_conns.
Proof. split; unfold same_conns; [done|]. intros u v w; congruence. Qed.

Lemma quiet_same_conns {A} (m : M world A) : respects quiet m -> respects same_conns m.
Proof. intros Hm w. apply Hm. Qed.

#[local] Hint Resolve quiet_same_conns | 5 : respects.
#[local] Hint Resolve data_heap_quiet trace_ctx_quiet : respects.

Lemma output_same_conns ev : respects same_conns (socket_events_output ev).
Proof.
  assert (respects same_conns (submit_socket_event ev)) by done. unfold socket_events_output. respects.
Qed.

Lemma buffer_same_conns direction buf size conn n : forall i sent,
  respects same_conns (submit_buffer_loop n i direction buf size conn sent).
Proof.
  pose proof output_same_conns.
  induction n as [|n IH]; intros i sent; cbn [submit_buffer_loop]; unfold submit_buffer_chunk; respects.
Qed.

Lemma submit_data_same_conns ctx direction args bytes ci :
  da_iovcnt args = 0 -> respects same_conns (submit_data ctx direction args bytes ci).
Proof.
  intros Hi. pose proof buffer_same_conns. unfold submit_data, submit_buffer. rewrite Hi. cbn [Z.gtb Z.compare].
  respects.
Qed.

Lemma bandwidth_fields ci direction bytes :
  let ci1 := update_bandwidth_tracking ci direction bytes in
  ci_ignore ci1 = ci_ignore ci /\ ci_protocol ci1 = ci_protocol ci /\ ci_is_ssl ci1 = ci_is_ssl ci
  /\ ci_conn_pid_id ci1 = ci_conn_pid_id ci /\ ci_cookie ci1 = ci_cookie ci.
Proof. unfold update_bandwidth_tracking. by repeat case_match. Qed.

(** The record after the byte count. *)
Definition counted (ssl : bool) (ci : conn_info) (direction bytes : Z) : conn_info :=
  if ssl then ci else update_bandwidth_tracking ci direction bytes.

Lemma counted_fields ssl ci direction bytes w pid :
  let ci1 := counted ssl ci direction bytes in
  ci_ignore ci1 = ci_ignore ci /\ ci_protocol ci1 = ci_protocol ci /\ ci_is_ssl ci1 = ci_is_ssl ci
  /\ ci_conn_pid_id ci1 = ci_conn_pid_id ci /\ ci_cookie ci1 = ci_cookie ci
  /\ skipped w pid ci1 = skipped w pid ci /\ streamed w ci1 = streamed w ci.
Proof.
  pose proof (bandwidth_fields ci direction bytes) as (H1 & H2 & H3 & H4 & H5).
  unfold counted. destruct ssl; [by split_and!|]. split_and!; try done;
    unfold skipped, streamed; by rewrite ?H2, ?H3, ?H4.
Qed.

(** [process_data] on an open connection that is being streamed. *)
Lemma process_data_open_streams ctx direction args bs ssl ci w :
  (forall k, ringbuf_room k = true) -> direction = D_EGRESS \/ direction = D_INGRESS ->
  da_iovcnt args = 0 -> user_holds (da_buf args) bs -> 0 < Z.of_nat (length bs) < 2 ^ 31 ->
  ci_ignore ci = false -> ci_protocol ci <> P_UNKNOWN -> ci_is_ssl ci = ssl ->
  observed w (k_pid (sc_id ctx)) -> skipped w (k_pid (sc_id ctx)) ci = false -> streamed w ci = true ->
  let ci1 := counted ssl ci direction (Z.of_nat (length bs)) in
  runs (process_data_open ctx direction args (Z.of_nat (length bs)) ssl ci) w (fun ci' w' =>
    ci' = ci1 /\ same_conns w w'
    /\ exists h, de_type h = S_DATA /\ de_conn_pid_id h = ci_conn_pid_id ci /\ de_cookie h = ci_cookie ci
       /\ de_direction h = direction
       /\ socket_events (w_sock w') = socket_events (w_sock w)
          ++ map (fun c => Ev_data (chunk_event h (base_of direction ci1) c)) (chunks CHUNK_LIMIT 0 bs)).
Proof.
  intros Hroom Hd Hi Hbs Hlen Hig Hp Hssl Hobs Hskip Hstr ci1. unfold process_data_open. cbv zeta.
  fold (counted ssl ci direction (Z.of_nat (length bs))). fold ci1.
  destruct (counted_fields ssl ci direction (Z.of_nat (length bs)) w (k_pid (sc_id ctx)))
    as (F1 & F2 & F3 & F4 & F5 & F6 & F7). fold ci1 in F1, F2, F3, F4, F5, F6, F7.
  rewrite F1, Hig. unfold bind at 1, get_process_meta, bpf_map_lookup_elem, gets. cbn [fst snd].
  change (bm_get process_meta_map w !! _) with (meta_of w (k_pid (sc_id ctx))).
  unfold runs at 1. rewrite !Hobs by auto. cbn [orb].
  rewrite F3, Hssl, andb_negb_r. cbn [andb]. rewrite F3, Hssl, andb_negb_l.
  unfold detect_and_stream. cbv zeta. rewrite F2.
  apply (runs_same (trace_ctx _ _ _)); [apply trace_ctx_same|]. intros _ w1 Hw1.
  destruct (same_reads w w1 (k_pid (sc_id ctx)) ci1 Hw1) as (Hs & _ & Hst & Hsk & _).
  rewrite bool_decide_false by done. apply runs_bind. unfold runs at 1. rewrite skip_flags_run. cbn [fst snd].
  rewrite Hsk, F6, Hskip. cbn [andb]. unfold bind, ret. cbn [fst snd]. rewrite F2, bool_decide_false by done.
  unfold stream_data. apply runs_bind. unfold runs at 1. rewrite should_stream_run. cbn [fst snd].
  fold (streamed w1 ci1). rewrite Hst, F7, Hstr. cbn [negb]. apply runs_bind. unfold runs.
  destruct (submit_data_plain ctx direction args bs ci1 w1) as (h & H1 & H2 & H3 & H4 & H5); try done.
  split_and!; [done| |].
  - unfold same_conns. etrans; [by apply submit_data_same_conns|]. by rewrite Hs.
  - exists h. rewrite <- F4, <- F5. split_and!; try done. etrans; [exact H5|]. by rewrite Hs.
Qed.

End data.

(** The table has an open connection for [ctx] whose data is streamed, and the
    system call moved the bytes [bs] in one readable buffer. *)
Record ready {E : Env} (ctx : socket_ctx) (args : data_args) (bs : list Z) (ssl : bool) (ci : conn_info)
    (w : world) : Prop := {
  rd_room k : ringbuf_room k = true;
  rd_buf : da_buf args <> 0;
  rd_plain : da_iovcnt args = 0;
  rd_mem : user_holds (da_buf args) bs;
  rd_len : 0 < Z.of_nat (length bs) < 2 ^ 31;
  rd_conn : f_conn_info (w_sock w) !! sc_id ctx = Some ci;
  rd_open : ci_is_open ci = true;
  rd_ignore : ci_ignore ci = false;
  rd_proto : ci_protocol ci <> P_UNKNOWN;
  rd_ssl : ci_is_ssl ci = ssl;
  rd_obs : observed w (k_pid (sc_id ctx));
  rd_skip : skipped w (k_pid (sc_id ctx)) ci = false;
  rd_stream : streamed w ci = true }.

Lemma u64_s64_add a b : u64 (s64 a + b) = u64 (a + b).
Proof.
  unfold u64, s64. replace ((a + 2 ^ 63) `mod` 2 ^ 64 - 2 ^ 63 + b) with ((a + 2 ^ 63) `mod` 2 ^ 64 + (b - 2 ^ 63)) by lia.
  rewrite Z.add_mod_idemp_l by lia. f_equal. lia.
Qed.

Lemma counted_base ssl ci direction n x :
  direction = D_EGRESS \/ direction = D_INGRESS ->
  u64 (base_of direction (counted ssl ci direction n) + x)
  = u64 (base_of direction ci + (if ssl then 0 else n) + x).
Proof.
  intros Hd. unfold counted. destruct ssl; [by rewrite Z.add_0_r|].
  destruct Hd as [-> | ->]; cbn; by rewrite u64_s64_add.
Qed.

(** [process_data] on a connection in the table. *)
Lemma process_data_found {E : Env} ctx direction args bytes ssl ci w :
  da_buf args <> 0 -> 0 < bytes -> f_conn_info (w_sock w) !! sc_id ctx = Some ci ->
  let r := (if ci_is_open ci then process_data_open ctx direction args bytes ssl ci
            else process_data_early ctx direction args bytes ssl ci) w in
  process_data ctx direction args bytes ssl w = store_elem conn_info_map (sc_id ctx) r.1 r.2.
Proof.
  intros Hb Hn Hl r. unfold process_data. rewrite (proj2 (Z.eqb_neq _ 0) Hb).
  rewrite (proj2 (Z.leb_gt bytes 0)) by lia. unfold bind at 1, bpf_map_lookup_elem, gets. cbn [fst snd].
  change (bm_get conn_info_map w) with (f_conn_info (w_sock w)). by rewrite Hl.
Qed.

(** [process_data] on a [ready] connection. *)
Lemma process_data_ready {E : Env} ctx direction args bs ssl ci w :
  ready ctx args bs ssl ci w -> direction = D_EGRESS \/ direction = D_INGRESS ->
  let n := Z.of_nat (length bs) in
  let w' := (process_data ctx direction args n ssl w).2 in
  f_conn_info (w_sock w') !! sc_id ctx = Some (counted ssl ci direction n)
  /\ exists evs,
       socket_events (w_sock w') = socket_events (w_sock w) ++ map Ev_data evs
       /\ concat (map de_msg evs) = take (4 * Z.to_nat MAX_MSG_SIZE) bs /\ (length evs <= 4)%nat
       /\ forall i e, evs !! i = Some e ->
          de_type e = S_DATA /\ de_conn_pid_id e = ci_conn_pid_id ci /\ de_cookie e = ci_cookie ci
          /\ de_direction e = direction /\ de_msg_size e = Z.of_nat (length (de_msg e))
          /\ de_msg e <> [] /\ de_msg e = take (Z.to_nat MAX_MSG_SIZE) (drop (i * Z.to_nat MAX_MSG_SIZE) bs)
          /\ de_pos e = u64 (base_of direction ci + (if ssl then 0 else n) + Z.of_nat (i * Z.to_nat MAX_MSG_SIZE)).
Proof.
  intros [] Hd n w'. unfold w'. rewrite (process_data_found _ _ _ _ _ ci), rd_open0 by (lia || done).
  pose proof (process_data_open_streams ctx direction args bs ssl ci w) as H. unfold runs in H. fold n in H.
  destruct H as (H1 & H2 & h & T1 & T2 & T3 & T4 & Hev); try done. rewrite H1.
  split; [cbn; apply lookup_insert_eq|].
  exists (map (chunk_event h (base_of direction (counted ssl ci direction n))) (chunks CHUNK_LIMIT 0 bs)).
  split_and!; [etrans; [exact Hev|by rewrite map_map]| | |].
  - rewrite map_map. apply chunks_concat.
  - rewrite length_map. apply length_chunks.
  - intros i e (c & -> & Hc)%list_lookup_fmap_Some. destruct (chunks_lookup _ _ _ _ _ Hc) as (Hpos & Hmsg & Hne).
    do 5 (split; [done|]). split; [apply Hne; intros ->; by destruct rd_len0|]. split; [exact Hmsg|].
    rewrite chunk_event_pos, Hpos, Z.add_0_l, of_nat_chunk. by apply counted_base.
Qed.


