(* ===== verification/SocketTotals.v ===== *)
(** * Byte counts

    What [process_data] adds to the counters of a connection, over any sequence
    of calls, and what the close event of [bpf/tap/socket.bpf.c] reports. *)

From stdpp Require Import base numbers list gmap strings.
From S2P Require Import Prelude Tap Bpf Trace Common Settings Process Buffers Protocol.
From S2P Require Import Socket SocketProbes SocketInv SocketSpec.

(** [ci'] is [ci] up to what data handling may change. *)
Definition tracks (ci ci' : conn_info) : Prop :=
  ci_wr_bytes ci' = ci_wr_bytes ci /\ ci_rd_bytes ci' = ci_rd_bytes ci
  /\ ci_is_open ci' = ci_is_open ci /\ ci_cookie ci' = ci_cookie ci
  /\ ci_conn_pid_id ci' = ci_conn_pid_id ci.

Section counts.
Context {E : Env}.

#[local] Existing Instance same_conns_preorder.
#[local] Hint Resolve quiet_same_conns | 5 : respects.
#[local] Hint Resolve data_heap_quiet trace_ctx_quiet skip_flags_quiet : respects.

Lemma iovecs_same_conns direction args bytes conn n : forall i sent,
  respects same_conns (submit_iovecs n i direction args bytes conn sent).
Proof.
  pose proof buffer_same_conns. induction n as [|n IH]; intros i sent; cbn [submit_iovecs];
    unfold submit_buffer; respects.
Qed.

Lemma proto_same_conns ci : respects same_conns (submit_proto_event ci).
Proof.
  assert (forall ev, respects same_conns (submit_socket_event ev)) by done. unfold submit_proto_event. respects.
Qed.

#[local] Hint Resolve iovecs_same_conns buffer_same_conns proto_same_conns : respects.

Lemma process_data_open_conns ctx direction args bytes ssl ci :
  respects same_conns (process_data_open ctx direction args bytes ssl ci).
Proof.
  assert (forall p, respects same_conns (should_stream p)) by (intros p w; by rewrite should_stream_run).
  unfold process_data_open, detect_and_stream, stream_data, submit_data, submit_buffer, get_process_meta.
  respects.
Qed.

(** The result of a program, whatever the state does. *)
Definition returns {A} (m : M world A) (P : A -> Prop) : Prop := forall w, P (m w).1.

Lemma returns_bind {A B} (m : M world A) (k : A -> M world B) P :
  (forall a, returns (k a) P) -> returns (bind m k) P.
Proof. intros Hk w. apply Hk. Qed.

Lemma returns_ret {A} (a : A) (P : A -> Prop) : P a -> returns (ret a) P.
Proof. intros Ha w. exact Ha. Qed.

Lemma tracks_trans a b c : tracks a b -> tracks b c -> tracks a c.
Proof. intros (?&?&?&?&?) (?&?&?&?&?). split_and!; congruence. Qed.

Lemma detect_tracks ci b bytes : tracks ci (detect_protocol ci b bytes).2.
Proof. by destruct (detect_protocol_detected b bytes ci) as [p ->]. Qed.

Lemma stream_data_tracks ctx direction args bytes ssl ci :
  returns (stream_data ctx direction args bytes ssl ci) (tracks ci).
Proof. apply returns_bind; intros s. cbv zeta. destruct (negb _); apply returns_bind; intros _; by apply returns_ret. Qed.

Lemma detect_and_stream_tracks ctx direction args bytes ssl up ci :
  returns (detect_and_stream ctx direction args bytes ssl up ci) (tracks ci).
Proof.
  apply returns_bind; intros _. cbv zeta. set (ci1 := if bool_decide _ then _ else ci).
  assert (tracks ci ci1) as H1 by (unfold ci1; case_bool_decide; [apply detect_tracks|done]).
  apply returns_bind; intros [|]; [by apply returns_ret|]. apply returns_bind; intros _.
  apply returns_bind; intros _. case_bool_decide.
  - apply returns_bind; intros _. by apply returns_ret.
  - intros w. eapply tracks_trans; [exact H1|apply stream_data_tracks].
Qed.

Lemma process_data_open_tracks ctx direction args bytes ssl ci :
  returns (process_data_open ctx direction args bytes ssl ci) (tracks (counted ssl ci direction bytes)).
Proof.
  unfold process_data_open. fold (counted ssl ci direction bytes). generalize (counted ssl ci direction bytes).
  clear ci. intros ci. cbv zeta. destruct (ci_ignore ci); [apply returns_bind; intros _; by apply returns_ret|].
  apply returns_bind; intros meta. destruct (has_strategy meta QP_IGNORE); [by apply returns_ret|].
  destruct (_ || _); [by apply returns_ret|]. set (ci1 := if ssl && _ then _ else ci).
  assert (tracks ci ci1) as H1 by (unfold ci1; by destruct (ssl && _)).
  destruct (negb ssl && _); [apply returns_bind; intros _; by apply returns_ret|].
  intros w. eapply tracks_trans; [exact H1|apply detect_and_stream_tracks].
Qed.

End counts.

(** One data call on a connection, with the environment it runs in. *)
Record call := Call {
  cl_env : Env; cl_direction : Z; cl_args : data_args; cl_bytes : Z; cl_ssl : bool }.

Definition run_call (ctx : socket_ctx) (w : world) (c : call) : world :=
  (@process_data (cl_env c) ctx (cl_direction c) (cl_args c) (cl_bytes c) (cl_ssl c) w).2.

(** The traffic of the calls in one direction; decrypted data is not traffic. *)
Definition traffic (direction : Z) (cs : list call) : Z :=
  foldr (fun c t => (if cl_ssl c then 0 else if cl_direction c =? direction then cl_bytes c else 0) + t) 0 cs.

Definition call_ok (c : call) : Prop := da_buf (cl_args c) <> 0 /\ 0 < cl_bytes c.

Lemma s64_s64_add a b : s64 (s64 a + b) = s64 (a + b).
Proof.
  unfold s64. replace ((a + 2 ^ 63) `mod` 2 ^ 64 - 2 ^ 63 + b + 2 ^ 63) with ((a + 2 ^ 63) `mod` 2 ^ 64 + b) by lia.
  rewrite Z.add_mod_idemp_l by lia. do 2 f_equal. lia.
Qed.

Lemma s64_idem a : s64 (s64 a) = s64 a.
Proof. pose proof (s64_s64_add a 0) as H. by rewrite !Z.add_0_r in H. Qed.

Lemma run_call_table ctx w c ci :
  call_ok c -> f_conn_info (w_sock w) !! sc_id ctx = Some ci -> ci_is_open ci = true ->
  exists ci', f_conn_info (w_sock (run_call ctx w c)) !! sc_id ctx = Some ci'
    /\ tracks (counted (cl_ssl c) ci (cl_direction c) (cl_bytes c)) ci'.
Proof.
  intros [Hb Hn] Hl Ho. unfold run_call. rewrite (process_data_found _ _ _ _ _ ci), Ho by done.
  eexists. split; [cbn; apply lookup_insert_eq|]. apply process_data_open_tracks.
Qed.

(** The counters after a sequence of calls. *)
Lemma run_calls_table ctx cs : forall w ci,
  Forall call_ok cs -> f_conn_info (w_sock w) !! sc_id ctx = Some ci -> ci_is_open ci = true ->
  s64 (ci_wr_bytes ci) = ci_wr_bytes ci -> s64 (ci_rd_bytes ci) = ci_rd_bytes ci ->
  exists ci', f_conn_info (w_sock (fold_left (run_call ctx) cs w)) !! sc_id ctx = Some ci'
    /\ ci_is_open ci' = true /\ ci_cookie ci' = ci_cookie ci /\ ci_conn_pid_id ci' = ci_conn_pid_id ci
    /\ ci_wr_bytes ci' = s64 (ci_wr_bytes ci + traffic D_EGRESS cs)
    /\ ci_rd_bytes ci' = s64 (ci_rd_bytes ci + traffic D_INGRESS cs).
Proof.
  induction cs as [|c cs IH]; intros w ci Hall Hl Ho Hw Hr.
  { exists ci. cbn [traffic foldr]. rewrite !Z.add_0_r. by split_and!. }
  apply Forall_cons in Hall as [Hc Hcs].
  destruct (run_call_table ctx w c ci Hc Hl Ho) as (ci1 & Hl1 & T1 & T2 & T3 & T4 & T5).
  assert (Hcnt : ci_is_open ci1 = true /\ ci_cookie ci1 = ci_cookie ci /\ ci_conn_pid_id ci1 = ci_conn_pid_id ci
    /\ ci_wr_bytes ci1 = s64 (ci_wr_bytes ci + traffic D_EGRESS [c])
    /\ ci_rd_bytes ci1 = s64 (ci_rd_bytes ci + traffic D_INGRESS [c])).
  { rewrite T1, T2, T3, T4, T5. unfold counted, traffic, update_bandwidth_tracking. cbn [foldr].
    rewrite !Z.add_0_r. destruct (cl_ssl c); [by rewrite !Z.add_0_r|].
    destruct (Z.eqb_spec (cl_direction c) D_EGRESS) as [-> |]; [by rewrite Z.add_0_r|].
    destruct (Z.eqb_spec (cl_direction c) D_INGRESS); by rewrite !Z.add_0_r. }
  destruct Hcnt as (Ho1 & Hk1 & Hp1 & Hw1 & Hr1).
  destruct (IH (run_call ctx w c) ci1) as (ci' & Hl' & Ho' & Hk' & Hp' & Hw' & Hr'); try done.
  { by rewrite Hw1, s64_idem. }
  { by rewrite Hr1, s64_idem. }
  exists ci'. split_and!; try done; try congruence.
  - rewrite Hw', Hw1, s64_s64_add. f_equal. unfold traffic. cbn [foldr]. lia.
  - rewrite Hr', Hr1, s64_s64_add. f_equal. unfold traffic. cbn [foldr]. lia.
Qed.

(** The close of an open connection, when the ring buffer has room. *)
Lemma process_close_open {E : Env} ctx ci w :
  f_conn_info (w_sock w) !! sc_id ctx = Some ci -> ci_is_open ci = true -> ringbuf_room (calls w) = true ->
  exists ts,
    socket_events (w_sock (process_close ctx w).2) = socket_events (w_sock w)
      ++ [Ev_close (CloseEvent S_CLOSE ts (ci_conn_pid_id ci) (ci_cookie ci) (ci_wr_bytes ci) (ci_rd_bytes ci)
                      (k_pid (sc_id ctx)) (tid_of (sc_pid_tgid ctx)))]
    /\ f_conn_info (w_sock (process_close ctx w).2) = delete (sc_id ctx) (f_conn_info (w_sock w)).
Proof.
  intros Hl Ho Hr. unfold process_close, bpf_map_lookup_elem, gets, bind, bpf_ringbuf_reserve,
    bpf_ktime_get_ns, tick, bind. cbn [fst snd ret].
  change (bm_get conn_info_map w) with (f_conn_info (w_sock w)). rewrite Hl, Ho. cbn [fst snd]. rewrite Hr.
  by eexists.
Qed.

(** C7: after any sequence of data calls on an open connection (ignored or
    not, detected or not, streamed or not), closing it reports the bytes written
    and read by exactly the calls that carried traffic, modulo 2^64, under the
    identity and cookie of the connection, and forgets the connection. *)
Theorem close_reports_traffic (E : Env) ctx cs ci w :
  Forall call_ok cs -> f_conn_info (w_sock w) !! sc_id ctx = Some ci -> ci_is_open ci = true ->
  ci_wr_bytes ci = 0 -> ci_rd_bytes ci = 0 -> (forall k, ringbuf_room k = true) ->
  let w1 := fold_left (run_call ctx) cs w in
  let w2 := (process_close ctx w1).2 in
  (exists ts, socket_events (w_sock w2) = socket_events (w_sock w1)
     ++ [Ev_close (CloseEvent S_CLOSE ts (ci_conn_pid_id ci) (ci_cookie ci)
                     (s64 (traffic D_EGRESS cs)) (s64 (traffic D_INGRESS cs))
                     (k_pid (sc_id ctx)) (tid_of (sc_pid_tgid ctx)))])
  /\ f_conn_info (w_sock w2) !! sc_id ctx = None.
Proof.
  intros Hall Hl Ho Hw Hr Hroom w1 w2.
  destruct (run_calls_table ctx cs w ci Hall Hl Ho) as (ci' & Hl' & Ho' & Hk & Hp & Hw' & Hr');
    [by rewrite Hw|by rewrite Hr|].
  destruct (process_close_open ctx ci' w1 Hl' Ho' (Hroom _)) as (ts & Hev & Hdel).
  rewrite Hk, Hp, Hw', Hr', Hw, Hr in Hev. split; [by exists ts|].
  unfold w2. rewrite Hdel. apply lookup_delete_eq.
Qed.

Lemma close_reports_traffic_witness :
  let c dir ssl := Call demo_env dir (DataArgs 5 4112 0 0 0) 14 ssl in
  let w1 := fold_left (run_call demo_ctx) [c D_EGRESS false; c D_EGRESS true; c D_INGRESS false; c D_EGRESS false]
              (demo_state demo_open) in
  let w2 := (@process_close demo_env demo_ctx w1).2 in
  (exists ts, socket_events (w_sock w2) = socket_events (w_sock w1)
     ++ [Ev_close (CloseEvent S_CLOSE ts demo_cp 7 28 14 1000 1000)])
  /\ f_conn_info (w_sock w2) !! PidFd 1000 5 = None.
Proof.
  intros c. apply (close_reports_traffic demo_env demo_ctx
    [c D_EGRESS false; c D_EGRESS true; c D_INGRESS false; c D_EGRESS false] demo_open (demo_state demo_open));
    try done. by repeat constructor.
Defined.
