(* ===== verification/SocketDetect.v ===== *)
(** * Detection, announcements and TLS upgrades

    When user space learns the protocol of a connection: what becomes of a
    protocol that [process_data] detects before the open event, and how a
    connection that turns to TLS after a plaintext greeting is announced again
    ([bpf/tap/socket.bpf.c]). *)

From stdpp Require Import base numbers list gmap strings.
From S2P Require Import Prelude Tap Net Bpf Trace Common Settings Process Buffers Protocol.
From S2P Require Import Socket SocketProbes SocketInv SocketSpec SocketTotals.

(** ** Protocol events *)

(** The protocol announcements in a log. *)
Definition announced (evs : list socket_event) : list socket_proto_event :=
  omap (fun ev => match ev with Ev_proto e => Some e | _ => None end) evs.

Definition same_protos (w w' : world) : Prop :=
  announced (socket_events (w_sock w')) = announced (socket_events (w_sock w)).

#[export] Instance same_protos_preorder : PreOrder same_protos.
Proof. split; unfold same_protos; [done|]. intros u v w; congruence. Qed.

Lemma respects_same_protos {A} (m : M world A) : respects quiet m -> respects same_protos m.
Proof. intros Hm w. destruct (Hm w) as (_ & _ & He). unfold same_protos. by rewrite He. Qed.

Lemma submit_same_protos ev :
  announced [ev] = [] -> respects same_protos (submit_socket_event ev).
Proof. intros He w. unfold same_protos. cbn. unfold announced in *. by rewrite omap_app, He, app_nil_r. Qed.

#[local] Hint Resolve respects_same_protos | 5 : respects.
#[local] Hint Extern 4 (respects same_protos (submit_socket_event _)) =>
  (apply submit_same_protos; reflexivity) : respects.
#[local] Hint Resolve data_heap_quiet trace_ctx_quiet skip_flags_quiet : respects.

Section announcements.
Context {E : Env}.

Lemma output_same_protos ev : announced [ev] = [] -> respects same_protos (socket_events_output ev).
Proof. intros He. pose proof (submit_same_protos ev He). unfold socket_events_output. respects. Qed.

#[local] Hint Extern 4 (respects same_protos (socket_events_output _)) =>
  (apply output_same_protos; reflexivity) : respects.

Lemma open_same_protos ctx ci : respects same_protos (submit_open_event ctx ci).
Proof.
  destruct settings_same. destruct (skip_quiet (k_pid (sc_id ctx))) as (_ & _ & _ & _ & ?).
  unfold submit_open_event, finish_open, get_process_meta. respects.
Qed.

Lemma buffer_same_protos direction buf size conn n : forall i sent,
  respects same_protos (submit_buffer_loop n i direction buf size conn sent).
Proof. induction n as [|n IH]; intros i sent; cbn [submit_buffer_loop]; unfold submit_buffer_chunk; respects. Qed.

#[local] Hint Resolve buffer_same_protos : respects.

Lemma iovecs_same_protos direction args bytes conn n : forall i sent,
  respects same_protos (submit_iovecs n i direction args bytes conn sent).
Proof. induction n as [|n IH]; intros i sent; cbn [submit_iovecs]; unfold submit_buffer; respects. Qed.

#[local] Hint Resolve iovecs_same_protos : respects.

Lemma stream_same_protos ctx direction args bytes ssl ci :
  respects same_protos (stream_data ctx direction args bytes ssl ci).
Proof.
  assert (forall p, respects same_protos (should_stream p)) by (intros p w; by rewrite should_stream_run).
  unfold stream_data, submit_data, submit_buffer. respects.
Qed.

#[local] Hint Resolve stream_same_protos : respects.

(** Plaintext data on a connection whose protocol is already known. *)
Lemma known_same_protos ctx direction args bytes ci :
  ci_protocol ci <> P_UNKNOWN ->
  respects same_protos (process_data_open ctx direction args bytes false ci).
Proof.
  intros Hp. destruct (bandwidth_fields ci direction bytes) as (_ & F2 & _).
  unfold process_data_open, detect_and_stream, get_process_meta. cbn [andb]. cbv zeta.
  rewrite !F2, !(bool_decide_false (_ = P_UNKNOWN)) by done. cbn [andb]. respects.
Qed.

Lemma known_keeps_protocol ctx direction args bytes ci :
  ci_protocol ci <> P_UNKNOWN ->
  returns (process_data_open ctx direction args bytes false ci) (fun ci' => ci_protocol ci' = ci_protocol ci).
Proof.
  intros Hp. destruct (bandwidth_fields ci direction bytes) as (_ & F2 & _).
  unfold process_data_open, detect_and_stream, stream_data. cbn [andb]. cbv zeta.
  rewrite !F2, !(bool_decide_false (_ = P_UNKNOWN)) by done. cbn [andb].
  repeat first [apply returns_bind; intros ? | apply returns_ret; exact F2
    | match goal with |- returns (if ?b then _ else _) _ => destruct b end].
Qed.

(** [submit_open_event] does not touch the detection fields. *)
Lemma open_keeps_protocol ctx ci :
  returns (submit_open_event ctx ci) (fun ci' => ci_protocol ci' = ci_protocol ci).
Proof.
  unfold submit_open_event. destruct (ci_is_open ci); [by apply returns_ret|].
  apply returns_bind; intros meta. destruct (has_strategy _ _); [by apply returns_ret|].
  apply returns_bind; intros [r|]; [|by apply returns_ret]. cbv zeta.
  apply returns_bind; intros ty. apply returns_bind; intros sock.
  intros w. rewrite finish_open_run. cbv zeta. destruct sock as [s|]; [rewrite open_from_sock_spec|];
    cbn [fst snd]; by destruct (_ || _).
Qed.

End announcements.

(** One more call after detection, whatever the state of the connection. *)
Lemma known_call ctx w c ci :
  cl_ssl c = false -> f_conn_info (w_sock w) !! sc_id ctx = Some ci -> ci_protocol ci <> P_UNKNOWN ->
  same_protos w (run_call ctx w c)
  /\ exists ci', f_conn_info (w_sock (run_call ctx w c)) !! sc_id ctx = Some ci' /\ ci_protocol ci' = ci_protocol ci.
Proof.
  intros Hs Hl Hp. unfold run_call. rewrite Hs. destruct c as [E d args n s]. cbn [cl_env cl_direction cl_args cl_bytes].
  destruct (decide (da_buf args = 0)) as [Hb|Hb].
  { unfold process_data. rewrite (proj2 (Z.eqb_eq _ _) Hb). split; [done|]. by exists ci. }
  destruct (Z.leb_spec n 0) as [Hn|Hn].
  { unfold process_data. rewrite (proj2 (Z.eqb_neq _ _) Hb), (proj2 (Z.leb_le _ _) Hn). split; [done|]. by exists ci. }
  rewrite (process_data_found _ _ _ _ _ ci) by done. destruct (ci_is_open ci).
  - split; [apply known_same_protos, Hp|]. eexists. split; [cbn; apply lookup_insert_eq|].
    by apply known_keeps_protocol.
  - unfold process_data_early. rewrite bool_decide_false by done.
    split; [|eexists; split; [cbn; apply lookup_insert_eq|done]].
    apply (respects_same_protos (trace_ctx _ _ _)), trace_ctx_quiet.
Qed.

Lemma known_calls ctx cs : forall w ci,
  Forall (fun c => cl_ssl c = false) cs ->
  f_conn_info (w_sock w) !! sc_id ctx = Some ci -> ci_protocol ci <> P_UNKNOWN ->
  same_protos w (fold_left (run_call ctx) cs w).
Proof.
  induction cs as [|c cs IH]; intros w ci Hall Hl Hp; [done|]. apply Forall_cons in Hall as [Hc Hcs].
  destruct (known_call ctx w c ci Hc Hl Hp) as (H1 & ci' & Hl' & Hp'). cbn [fold_left].
  etrans; [exact H1|]. apply (IH _ ci'); congruence.
Qed.

(** [process_data] before the open event. *)
Lemma early_call {E : Env} ctx direction args bs ssl ci w :
  plain_buffer (buf_info_of args) bs -> bs <> [] -> f_conn_info (w_sock w) !! sc_id ctx = Some ci ->
  ci_is_open ci = false -> ci_protocol ci = P_UNKNOWN ->
  let w' := (process_data ctx direction args (Z.of_nat (length bs)) ssl w).2 in
  socket_events (w_sock w') = socket_events (w_sock w)
  /\ f_conn_info (w_sock w') !! sc_id ctx = Some (with_protocol (classify (na_port (ci_addr ci)) bs) ci).
Proof.
  intros Hb Hne Hl Ho Hp w'. unfold w'. pose proof Hb as (_ & Hnz & _).
  rewrite (process_data_found _ _ _ _ _ ci); [|exact Hnz|destruct bs; [done|cbn; lia]|done].
  rewrite Ho. unfold process_data_early. rewrite Hp, bool_decide_true by done.
  rewrite detect_protocol_plain by done. unfold bind. cbn [fst snd ret].
  assert (forall m a, w_sock (trace_ctx ctx m a w).2 = w_sock w) as Ht by (intros; apply trace_ctx_same).
  split; [exact (f_equal socket_events (Ht _ _))|cbn; apply lookup_insert_eq].
Qed.

(** Data that arrives before the open event of its connection (a server
    that speaks first) is classified and the protocol is kept in the table, but it
    is never announced: neither that call, nor the open event, nor any plaintext
    traffic after it emits a protocol event, so user space does not learn the
    protocol of such a connection. *)
Theorem early_detection_unannounced (E E' : Env) ctx direction args bs ssl ci w cs :
  @plain_buffer E (buf_info_of args) bs -> bs <> [] ->
  f_conn_info (w_sock w) !! sc_id ctx = Some ci -> ci_is_open ci = false -> ci_protocol ci = P_UNKNOWN ->
  classify (na_port (ci_addr ci)) bs <> P_UNKNOWN -> Forall (fun c => cl_ssl c = false) cs ->
  let w1 := (@process_data E ctx direction args (Z.of_nat (length bs)) ssl w).2 in
  let w2 := (@process_syscall_addr_open E' ctx w1).2 in
  let w3 := fold_left (run_call ctx) cs w2 in
  (exists ci2, f_conn_info (w_sock w2) !! sc_id ctx = Some ci2
     /\ ci_protocol ci2 = classify (na_port (ci_addr ci)) bs)
  /\ announced (socket_events (w_sock w3)) = announced (socket_events (w_sock w)).
Proof.
  intros Hb Hne Hl Ho Hp Hk Hcs w1 w2 w3.
  destruct (early_call ctx direction args bs ssl ci w Hb Hne Hl Ho Hp) as [He1 Hl1]. fold w1 in He1, Hl1.
  set (ci1 := with_protocol _ ci) in Hl1.
  assert (w2 = (store_elem conn_info_map (sc_id ctx) (submit_open_event ctx ci1 w1).1 (submit_open_event ctx ci1 w1).2).2)
    as Hw2.
  { unfold w2, process_syscall_addr_open, bpf_map_lookup_elem, gets, bind at 1. cbn [fst snd].
    change (bm_get conn_info_map w1) with (f_conn_info (w_sock w1)). by rewrite Hl1. }
  assert (f_conn_info (w_sock w2) !! sc_id ctx = Some (submit_open_event ctx ci1 w1).1) as Hl2
    by (rewrite Hw2; cbn; apply lookup_insert_eq).
  assert (ci_protocol (submit_open_event ctx ci1 w1).1 = classify (na_port (ci_addr ci)) bs) as Hp2
    by apply open_keeps_protocol.
  split; [by eexists|]. change (same_protos w w3). trans w2.
  - trans w1; [unfold same_protos; by rewrite He1|]. rewrite Hw2. apply open_same_protos.
  - apply (known_calls ctx cs w2 _ Hcs Hl2). by rewrite Hp2.
Qed.

(** A MySQL client: the greeting overtakes the open event, a query follows. *)
Lemma early_detection_unannounced_witness :
  let args := DataArgs 5 4096 0 0 0 in
  let E := flat_env (1000 * 2 ^ 32 + 1000) 4096 greeting_demo in
  let cs := [Call demo_env D_EGRESS (DataArgs 5 4112 0 0 0) 14 false] in
  let w1 := (@process_data E demo_ctx D_INGRESS args 8 false (demo_state demo_new)).2 in
  let w2 := (@process_syscall_addr_open demo_env demo_ctx w1).2 in
  let w3 := fold_left (run_call demo_ctx) cs w2 in
  (exists ci, f_conn_info (w_sock w2) !! PidFd 1000 5 = Some ci /\ ci_protocol ci = P_MYSQL)
  /\ announced (socket_events (w_sock w3)) = [].
Proof.
  intros args E cs. apply (early_detection_unannounced E demo_env demo_ctx D_INGRESS args greeting_demo false demo_new
    (demo_state demo_new) cs); try done; [|by repeat constructor].
  split_and!; try done; [apply flat_env_user_holds|]. unfold greeting_demo. repeat constructor; lia.
Defined.

(** ** TLS upgrades *)

(** The first bytes of a TLS handshake record. *)
Definition tls_handshake (bs : list Z) : Prop :=
  (5 <= length bs)%nat /\ byte_at bs 0 = 22 /\ byte_at bs 1 = 3 /\ 1 <= byte_at bs 2.

Lemma detect_tls_plain {E : Env} b bs ci :
  plain_buffer b bs -> tls_handshake bs ->
  detect_tls ci b (Z.of_nat (length bs)) = (true, ci <| ci_is_ssl := true |>).
Proof.
  intros Hb (Hl & H0 & H1 & H2). unfold detect_tls. pose proof Hb as (_ & Hnz & _).
  rewrite (proj2 (Z.ltb_ge _ 5)), (proj2 (Z.eqb_neq _ 0) Hnz) by lia. cbn [orb].
  change 5 with (Z.of_nat 5). rewrite (read_header_plain b bs Hb 5) by lia. cbn [fst snd negb].
  rewrite !byte_at_take, H0, H1 by lia. by rewrite (proj2 (Z.leb_le _ _) H2).
Qed.

(** Hello events appended to the log, nothing else of the sockets' state but the
    two scratch buffers. *)
Definition adds_hellos (w w' : world) : Prop :=
  f_conn_info (w_sock w') = f_conn_info (w_sock w)
  /\ exists hs, socket_events (w_sock w') = socket_events (w_sock w) ++ map Ev_tls_hello hs.

#[export] Instance adds_hellos_preorder : PreOrder adds_hellos.
Proof.
  split; [intros w; split; [done|]; exists []; by rewrite app_nil_r|].
  intros u v w (H1 & hs1 & E1) (H2 & hs2 & E2). split; [congruence|]. exists (hs1 ++ hs2).
  by rewrite E2, E1, map_app, app_assoc.
Qed.

Lemma submit_hellos_adds {E : Env} ci b bytes : respects adds_hellos (submit_hellos ci b bytes).
Proof.
  assert (forall A (m : M world A), respects quiet m -> respects adds_hellos m) as Hq.
  { intros A m Hm w. destruct (Hm w) as (_ & Hc & He). split; [done|]. exists []. by rewrite He, app_nil_r. }
  assert (forall e, respects adds_hellos (submit_socket_event (Ev_tls_hello e))) by (intros e w; split; [done|by exists [e]]).
  pose proof (fun h => Hq _ _ (proj1 (hello_heap_quiet h))). pose proof (fun h => Hq _ _ (proj2 (hello_heap_quiet h))).
  assert (respects adds_hellos bpf_ringbuf_reserve) by (apply Hq; respects).
  unfold submit_hellos, socket_events_output. respects.
Qed.

(** A protocol event, when the ring buffer has room. *)
Lemma submit_proto_event_run {E : Env} ci w :
  ci_protocol ci <> P_UNKNOWN -> ringbuf_room (calls w) = true ->
  exists ts w1, submit_proto_event ci w
    = (tt, (submit_socket_event (Ev_proto (ProtoEvent S_PROTO ts (ci_conn_pid_id ci) (ci_cookie ci)
                                             (ci_protocol ci) (ci_is_ssl ci))) w1).2)
    /\ w_sock w1 = w_sock w.
Proof.
  intros Hp Hroom. unfold submit_proto_event. rewrite bool_decide_false by done.
  unfold bpf_ringbuf_reserve, bpf_ktime_get_ns, tick, bind. cbn [fst snd ret]. rewrite Hroom.
  do 2 eexists. by split.
Qed.

Lemma init_conn_found_upgrade {E : Env} ctx direction args bs ci w :
  plain_buffer (buf_info_of args) bs -> tls_handshake bs ->
  ci_tls_upgrade_pending ci = true -> ci_is_ssl ci = false -> ci_protocol ci <> P_UNKNOWN -> ci_cookie ci <> 0 ->
  has_strategy (meta_of w (k_pid (sc_id ctx))) QP_IGNORE = false -> ringbuf_room (calls w) = true ->
  runs (init_conn_found ctx direction args (Z.of_nat (length bs)) ci) w (fun ci' w' =>
    ci' = ci <| ci_is_ssl := true |> <| ci_tls_upgrade_pending := false |>
    /\ exists ts hs, socket_events (w_sock w') = socket_events (w_sock w)
         ++ Ev_proto (ProtoEvent S_PROTO ts (ci_conn_pid_id ci) (ci_cookie ci) (ci_protocol ci) true)
            :: map Ev_tls_hello hs).
Proof.
  intros Hb Ht Hpend Hssl Hp Hck Hm Hroom. unfold init_conn_found. apply runs_bind, runs_gets.
  change (bm_get process_meta_map w !! _) with (meta_of w (k_pid (sc_id ctx))). rewrite Hm.
  apply runs_bind. unfold late_open. rewrite (proj2 (Z.eqb_neq _ _) Hck). apply runs_ret. cbv zeta.
  rewrite Hpend, Hssl. cbn [andb negb]. rewrite orb_true_r. cbn [negb]. rewrite (detect_tls_plain _ bs) by done.
  cbn [fst snd]. change (ci_is_ssl (ci <| ci_is_ssl := true |>)) with true.
  change (ci_tls_upgrade_pending (ci <| ci_is_ssl := true |>)) with (ci_tls_upgrade_pending ci). rewrite Hpend. cbn [andb].
  set (ci1 := ci <| ci_is_ssl := true |> <| ci_tls_upgrade_pending := false |>).
  destruct (submit_proto_event_run ci1 w Hp Hroom) as (ts & w1 & Hpe & Hw1).
  rewrite (bool_decide_true (ci_protocol ci1 <> P_UNKNOWN)) by done.
  do 2 apply runs_bind. unfold runs at 1. rewrite Hpe. cbn [fst snd]. set (w2 := (submit_socket_event _ w1).2).
  apply runs_ret. change (ci_is_ssl ci1) with true. cbn [negb].
  assert (socket_events (w_sock w2) = socket_events (w_sock w)
    ++ [Ev_proto (ProtoEvent S_PROTO ts (ci_conn_pid_id ci) (ci_cookie ci) (ci_protocol ci) true)]) as He
    by (unfold w2; cbn; by rewrite Hw1).
  destruct (_ || _).
  - split; [done|]. exists ts, []. exact He.
  - destruct (submit_hellos_adds ci1 (buf_info_of args) (Z.of_nat (length bs)) w2) as (_ & hs & Hhs).
    split; [done|]. exists ts, hs. etrans; [exact Hhs|]. by rewrite He, <- app_assoc.
Qed.

(** [init_conn] on a connection in the table. *)
Lemma init_conn_in_table {E : Env} ctx direction args bytes ci w :
  da_buf args <> 0 -> 0 < bytes -> f_conn_info (w_sock w) !! sc_id ctx = Some ci ->
  let r := init_conn_found ctx direction args bytes ci w in
  init_conn ctx direction args bytes w = store_elem conn_info_map (sc_id ctx) r.1 r.2.
Proof.
  intros Hb Hn Hl r. unfold init_conn. rewrite (proj2 (Z.eqb_neq _ 0) Hb).
  rewrite (proj2 (Z.leb_gt bytes 0)) by lia. unfold bind at 1, bpf_map_lookup_elem, gets. cbn [fst snd].
  change (bm_get conn_info_map w) with (f_conn_info (w_sock w)). by rewrite Hl.
Qed.

(** C20: when a connection that began with a plaintext protocol that may
    upgrade (a MySQL greeting was seen) turns to TLS, the first handshake record
    marks it encrypted, ends the watch, and announces its protocol a second time,
    now with the TLS flag, ahead of any hello event. *)
Theorem starttls_announced (E : Env) ctx direction args bs ci w :
  plain_buffer (buf_info_of args) bs -> tls_handshake bs ->
  f_conn_info (w_sock w) !! sc_id ctx = Some ci ->
  ci_tls_upgrade_pending ci = true -> ci_is_ssl ci = false -> ci_protocol ci <> P_UNKNOWN -> ci_cookie ci <> 0 ->
  has_strategy (meta_of w (k_pid (sc_id ctx))) QP_IGNORE = false -> ringbuf_room (calls w) = true ->
  let w' := (init_conn ctx direction args (Z.of_nat (length bs)) w).2 in
  f_conn_info (w_sock w') !! sc_id ctx = Some (ci <| ci_is_ssl := true |> <| ci_tls_upgrade_pending := false |>)
  /\ exists ts hs, socket_events (w_sock w') = socket_events (w_sock w)
       ++ Ev_proto (ProtoEvent S_PROTO ts (ci_conn_pid_id ci) (ci_cookie ci) (ci_protocol ci) true)
          :: map Ev_tls_hello hs.
Proof.
  intros Hb Ht Hl Hpend Hssl Hp Hck Hm Hroom w'. pose proof Hb as (_ & Hnz & _). pose proof Ht as (Hlen & _).
  unfold w'. rewrite (init_conn_in_table _ _ _ _ ci) by (lia || done).
  destruct (init_conn_found_upgrade ctx direction args bs ci w) as (H1 & ts & hs & H2); try done.
  rewrite H1. split; [cbn; apply lookup_insert_eq|]. exists ts, hs. exact H2.
Qed.

(** The header of a ClientHello record on the connection of the greeting. *)
Lemma starttls_announced_witness :
  let args := DataArgs 5 4096 0 0 0 in
  let E := flat_env (1000 * 2 ^ 32 + 1000) 4096 [22; 3; 1; 2; 0; 1] in
  let ci := demo_open <| ci_protocol := P_MYSQL |> <| ci_tls_upgrade_pending := true |> <| ci_wr_bytes := 36 |> in
  let w' := (@init_conn E demo_ctx D_EGRESS args 6 (demo_state ci)).2 in
  f_conn_info (w_sock w') !! PidFd 1000 5 = Some (ci <| ci_is_ssl := true |> <| ci_tls_upgrade_pending := false |>)
  /\ exists ts hs, socket_events (w_sock w')
       = Ev_proto (ProtoEvent S_PROTO ts demo_cp 7 P_MYSQL true) :: map Ev_tls_hello hs.
Proof.
  intros args E ci. apply (starttls_announced E demo_ctx D_EGRESS args [22; 3; 1; 2; 0; 1] ci (demo_state ci)); try done.
  - split_and!; try done; [apply flat_env_user_holds|]. repeat constructor; lia.
  - split_and!; try done. cbn. lia.
Defined.
