(* ===== verification/System.v ===== *)
(** * The loaded object as a transition system

    Every program of the modelled components is one step; user space may change
    its configuration maps between steps.  The invariant of SocketInv holds in every reachable state. *)

From stdpp Require Import base numbers list gmap strings.
From S2P Require Import Prelude Tap Net Bpf Trace Common Settings Process Buffers Protocol.
From S2P Require Import Socket SocketProbes NodeTls OpenSsl GoTls JavaSsl SockPidFd Redirector SocketInv SocketSpec.

(** ** Programs *)

(** The system calls with a data buffer. *)
Inductive data_call := SENDTO | WRITE | WRITEV | SENDMSG | RECVFROM | READ | READV | RECVMSG.

(** The functions of OpenSSL that move plaintext. *)
Inductive ssl_call := SSL_READ | SSL_READ_EX | SSL_WRITE | SSL_WRITE_EX.

(** The system calls with a program of the Java probes. *)
Inductive engine_call := ENGINE_WRITE | ENGINE_READ | ENGINE_WRITEV | ENGINE_READV | ENGINE_SENDTO | ENGINE_RECVFROM.

Inductive program :=
| Enter_socket (domain type protocol : Z)
| Exit_socket (r : Z)
| Enter_accept (fd addr : Z)
| Exit_accept (r : Z)
| Enter_accept4 (fd addr : Z)
| Exit_accept4 (r : Z)
| Enter_connect (fd addr : Z)
| Exit_connect (r : Z)
| Enter_data (c : data_call) (arg0 arg1 arg2 arg3 : Z)
| Exit_data (c : data_call) (r : Z)
| Exit_data_init (c : data_call) (r : Z)
| Enter_close (fd : Z)
| Exit_close
| Sock_alloc_file (sock : Z)
| Sock_alloc_file_ret (file : Z)
| Fd_install (fd file : Z)
| Fput (file : Z)
| Tcp_v4_connect (sk : Z)
| Tcp_v6_connect (sk : Z)
| Tcp_recvmsg (sk : Z)
| Tcp_close (sk : Z)
| Connect4 (ctx : bpf_sock_addr)
| Connect6 (ctx : bpf_sock_addr)
| Sock_ops (ctx : bpf_sock_ops)
| Getsockopt (ctx : bpf_sockopt)
| Execve (path argv : Z)
| Execve_ret
| Exit_group (code : Z)
| Process_exit
| Ssl_new_ret (ctx : pt_regs)
| Ssl_free (ctx : pt_regs)
| Ssl_set_fd (ssl fd : Z)
| Enter_ssl (c : ssl_call) (ssl buf ex_bytes : Z)
| Exit_ssl (c : ssl_call) (rc : Z)
| Node_TLSWrap_memfn (ctx : pt_regs)
| Node_TLSWrap_destructor (ctx : pt_regs)
| Node_SSL_set_cert_cb (ctx : pt_regs)
| Node_SSL_free (ctx : pt_regs)
| Enter_go_write (ctx : pt_regs)
| Exit_go_write (ctx : pt_regs)
| Enter_go_read (ctx : pt_regs)
| Exit_go_read (ctx : pt_regs)
| Java_read_entry (buf offset len : Z)
| Java_read_exit (r : Z)
| Java_write_entry (buf offset len : Z)
| Java_write_exit
| Java_wrap_exit (plaintext plaintext_len encrypted encrypted_len session session_len : Z)
| Java_unwrap_exit (encrypted encrypted_len plaintext plaintext_len session session_len : Z)
| Enter_engine (c : engine_call) (arg0 arg1 arg2 : Z)
| Exit_engine (c : engine_call) (r : Z)
| Enter_engine_close (fd : Z)
| Configure (settings : gmap Z Z) (mgmt : gmap Z mgmt_addrs) (meta : gmap Z process_meta)
    (toggles : gmap Z bool)
| Configure_tls (node : gmap Z node_tls_symaddr) (go : gmap Z go_tls_symaddr)
| Configure_java (pids ignored correlated : gmap Z bool) (descriptors : gmap pid_fd_key bool).

Section run.
Context {E : Env}.

Definition enter_data (c : data_call) (arg0 arg1 arg2 arg3 : Z) : M world Z :=
  match c with
  | SENDTO => syscall__probe_entry_sendto arg0 arg1
  | WRITE => syscall__probe_entry_write arg0 arg1
  | WRITEV => syscall__probe_entry_writev arg0 arg1 arg2
  | SENDMSG => syscall__probe_entry_sendmsg arg0 arg1
  | RECVFROM => syscall__probe_entry_recvfrom arg0 arg1 arg3
  | READ => syscall__probe_entry_read arg0 arg1
  | READV => syscall__probe_entry_readv arg0 arg1 arg2
  | RECVMSG => syscall__probe_entry_recvmsg arg0 arg1 arg2
  end.

Definition exit_data (c : data_call) : Z -> M world Z :=
  match c with
  | SENDTO => syscall__probe_ret_sendto
  | WRITE => syscall__probe_ret_write
  | WRITEV => syscall__probe_ret_writev
  | SENDMSG => syscall__probe_ret_sendmsg
  | RECVFROM => syscall__probe_ret_recvfrom
  | READ => syscall__probe_ret_read
  | READV => syscall__probe_ret_readv
  | RECVMSG => syscall__probe_ret_recvmsg
  end.

Definition exit_data_init (c : data_call) : Z -> M world Z :=
  match c with
  | SENDTO => syscall__probe_ret_sendto_init
  | WRITE => syscall__probe_ret_write_init
  | WRITEV => syscall__probe_ret_writev_init
  | SENDMSG => syscall__probe_ret_sendmsg_init
  | RECVFROM => syscall__probe_ret_recvfrom_init
  | READ => syscall__probe_ret_read_init
  | READV => syscall__probe_ret_readv_init
  | RECVMSG => syscall__probe_ret_recvmsg_init
  end.

Definition enter_ssl (c : ssl_call) (ssl buf ex_bytes : Z) : M world Z :=
  match c with
  | SSL_READ => openssl__probe_entry_SSL_read ssl buf
  | SSL_READ_EX => openssl__probe_entry_SSL_read_ex ssl buf ex_bytes
  | SSL_WRITE => openssl__probe_entry_SSL_write ssl buf
  | SSL_WRITE_EX => openssl__probe_entry_SSL_write_ex ssl buf ex_bytes
  end.

Definition exit_ssl (c : ssl_call) : Z -> M world Z :=
  match c with
  | SSL_READ => openssl__probe_ret_SSL_read
  | SSL_READ_EX => openssl__probe_ret_SSL_read_ex
  | SSL_WRITE => openssl__probe_ret_SSL_write
  | SSL_WRITE_EX => openssl__probe_ret_SSL_write_ex
  end.

Definition enter_engine (c : engine_call) (arg0 arg1 arg2 : Z) : M world Z :=
  match c with
  | ENGINE_WRITE => java_ssl_engine_sys_enter_write arg0 arg1
  | ENGINE_READ => java_ssl_engine_sys_enter_read arg0 arg1
  | ENGINE_WRITEV => java_ssl_engine_sys_enter_writev arg0 arg1 arg2
  | ENGINE_READV => java_ssl_engine_sys_enter_readv arg0 arg1 arg2
  | ENGINE_SENDTO => java_ssl_engine_sys_enter_sendto arg0 arg1
  | ENGINE_RECVFROM => java_ssl_engine_sys_enter_recvfrom arg0 arg1
  end.

Definition exit_engine (c : engine_call) : Z -> M world Z :=
  match c with
  | ENGINE_WRITE => java_ssl_engine_sys_exit_write
  | ENGINE_READ => java_ssl_engine_sys_exit_read
  | ENGINE_WRITEV => java_ssl_engine_sys_exit_writev
  | ENGINE_READV => java_ssl_engine_sys_exit_readv
  | ENGINE_SENDTO => java_ssl_engine_sys_exit_sendto
  | ENGINE_RECVFROM => java_ssl_engine_sys_exit_recvfrom
  end.

Definition configure (settings : gmap Z Z) (mgmt : gmap Z mgmt_addrs) (meta : gmap Z process_meta)
    (toggles : gmap Z bool) (w : world) : world :=
  w <| f_socket_settings := settings |> <| f_mgmt_addrs := mgmt |>
    <| w_proc ::= fun s => s <| f_process_meta := meta |> |>
    <| w_trace ::= fun s => s <| f_trace_toggle := toggles |> |>.

Definition configure_tls (node : gmap Z node_tls_symaddr) (go : gmap Z go_tls_symaddr) (w : world) : world :=
  w <| w_tls ::= fun s => s <| f_node_symaddrs := node |> <| f_go_symaddrs := go |> |>.

Definition configure_java (pids ignored correlated : gmap Z bool) (descriptors : gmap pid_fd_key bool) (w : world) :
    world :=
  w <| w_tls ::= fun s => s <| f_java ::= fun j => j <| f_java_pids := pids |> <| f_java_session_ignore := ignored |>
    <| f_java_uprobe_correlated := correlated |> <| f_java_syscall_correlated := descriptors |> |> |>.

Definition run_program (p : program) (w : world) : world :=
  match p with
  | Enter_socket d t pr => (syscall__probe_entry_socket d t pr w).2
  | Exit_socket r => (syscall__probe_ret_socket r w).2
  | Enter_accept fd a => (syscall__probe_entry_accept fd a w).2
  | Exit_accept r => (syscall__probe_ret_accept r w).2
  | Enter_accept4 fd a => (syscall__probe_entry_accept4 fd a w).2
  | Exit_accept4 r => (syscall__probe_ret_accept4 r w).2
  | Enter_connect fd a => (syscall__probe_entry_connect fd a w).2
  | Exit_connect r => (syscall__probe_ret_connect r w).2
  | Enter_data c a0 a1 a2 a3 => (enter_data c a0 a1 a2 a3 w).2
  | Exit_data c r => (exit_data c r w).2
  | Exit_data_init c r => (exit_data_init c r w).2
  | Enter_close fd => (syscall__probe_entry_close fd w).2
  | Exit_close => (syscall__probe_ret_close w).2
  | Sock_alloc_file s => (track_sock_alloc_file_entry s w).2
  | Sock_alloc_file_ret f => (track_sock_alloc_file_ret f w).2
  | Fd_install fd f => (track_fd_install_entry fd f w).2
  | Fput f => (cleanup_pid_fd_file_entries f w).2
  | Tcp_v4_connect sk => (trace_tcp_v4_connect_fexit sk w).2
  | Tcp_v6_connect sk => (trace_tcp_v6_connect_fexit sk w).2
  | Tcp_recvmsg sk => (trace_tcp_recvmsg_fexit sk w).2
  | Tcp_close sk => (trace_tcp_close sk w).2
  | Connect4 ctx => (cg_connect4 ctx w).2
  | Connect6 ctx => (cg_connect6 ctx w).2
  | Sock_ops ctx => (cg_sock_ops ctx w).2
  | Getsockopt ctx => (cg_sock_opt ctx w).2
  | Execve path argv => (process_exec_entry path argv w).2
  | Execve_ret => (process_exec_ret w).2
  | Exit_group code => (syscall__probe_entry_exit_group code w).2
  | Process_exit => (tracepoint__sched__process_exit w).2
  | Ssl_new_ret ctx => (openssl_probe_ret_SSL_new ctx w).2
  | Ssl_free ctx => (openssl_probe_entry_SSL_free ctx w).2
  | Ssl_set_fd ssl fd => (openssl__probe_entry_SSL_set_fd ssl fd w).2
  | Enter_ssl c ssl buf ex => (enter_ssl c ssl buf ex w).2
  | Exit_ssl c rc => (exit_ssl c rc w).2
  | Node_TLSWrap_memfn ctx => (nodetls__probe_entry_TLSWrap_memfn ctx w).2
  | Node_TLSWrap_destructor ctx => (nodetls__probe_entry_TLSWrap_destructor ctx w).2
  | Node_SSL_set_cert_cb ctx => (nodetls__probe_entry_SSL_set_cert_cb ctx w).2
  | Node_SSL_free ctx => (nodetls__probe_entry_SSL_free ctx w).2
  | Enter_go_write ctx => (gotls__probe_entry_tls_conn_write ctx w).2
  | Exit_go_write ctx => (gotls__probe_ret_tls_conn_write ctx w).2
  | Enter_go_read ctx => (gotls__probe_entry_tls_conn_read ctx w).2
  | Exit_go_read ctx => (gotls__probe_ret_tls_conn_read ctx w).2
  | Java_read_entry buf off len => (java_ssl_read_entry buf off len w).2
  | Java_read_exit n => (java_ssl_read_exit n w).2
  | Java_write_entry buf off len => (java_ssl_write_entry buf off len w).2
  | Java_write_exit => (java_ssl_write_exit w).2
  | Java_wrap_exit p pl e el s sl => (java_ssl_engine_wrap_exit p pl e el s sl w).2
  | Java_unwrap_exit e el p pl s sl => (java_ssl_engine_unwrap_exit e el p pl s sl w).2
  | Enter_engine c a0 a1 a2 => (enter_engine c a0 a1 a2 w).2
  | Exit_engine c r => (exit_engine c r w).2
  | Enter_engine_close fd => (java_ssl_engine_sys_enter_close fd w).2
  | Configure s m pm t => configure s m pm t w
  | Configure_tls node go => configure_tls node go w
  | Configure_java p i c d => configure_java p i c d w
  end.

End run.

(** States the object can reach from loading. *)
Inductive reachable (clk : nat -> Z) : world -> Prop :=
| reach_init : reachable clk world_init
| reach_step (E : Env) (p : program) (w : world) :
    @ktime_ns E = clk -> reachable clk w -> reachable clk (@run_program E p w).

(** ** Every program keeps the invariant *)

Section preservation.
Context {E : Env} (clk : nat -> Z) (Hnow : ktime_ns = clk) (N : nat) (Hclk : clock_ok clk N).

#[local] Hint Resolve respond_quiet trace_ctx_quiet init_conn_until process_data_until
  process_close_until process_syscall_addr_keeps : respects.
#[local] Hint Resolve respects_quiet_until | 5 : respects.

#[local] Instance sock_alloc_quiet : QuietMap active_sock_alloc_file_args := _.
#[local] Instance file_to_sock_quiet : QuietMap active_file_to_sock_map := _.
#[local] Instance file_to_pid_fd_quiet : QuietMap active_file_to_pid_fd_map := _.
#[local] Instance tcp_source_quiet : QuietMap active_tcp_source_addr_map := _.
#[local] Instance addr_port_quiet : QuietMap addr_port_to_pid_map := _.
#[local] Instance map_ports_quiet : QuietMap map_ports := _.
#[local] Instance map_socks_quiet : QuietMap map_socks := _.
#[local] Instance exit_code_quiet : QuietMap exit_code_map := _.
#[local] Instance ssl_read_quiet : QuietMap active_ssl_read_args_map := _.
#[local] Instance ssl_write_quiet : QuietMap active_ssl_write_args_map := _.
#[local] Instance ssl_to_fd_quiet : QuietMap ssl_to_fd_map := _.
#[local] Instance node_ssl_quiet : QuietMap node_ssl_to_tlswrap_map := _.
#[local] Instance node_tlswrap_quiet : QuietMap node_tlswrap_to_ssl_map := _.
#[local] Instance node_exists_quiet : QuietMap node_tlswrap_exists_map := _.
#[local] Instance go_conn_op_quiet : QuietMap active_tls_conn_op_map := _.
#[local] Instance java_read_quiet : QuietMap java_active_ssl_read_args_map := _.
#[local] Instance java_write_quiet : QuietMap java_active_ssl_write_args_map := _.
#[local] Instance java_syscall_quiet : QuietMap java_active_ssl_syscall_args_map := _.

Lemma entry_data_keeps m `{!QuietMap m} op share fd buf iovcnt :
  respects (keeps_until clk N) (entry_data m op share fd buf iovcnt).
Proof. unfold entry_data. respects. Qed.

Lemma ret_data_keeps m `{!QuietMap m} op name direction share bytes :
  respects (keeps_until clk N) (ret_data m op name direction share bytes).
Proof. unfold ret_data, trace_bytes, TRACE_SOCKET. respects. Qed.

Lemma ret_data_init_keeps m `{!QuietMap m} op name md direction share bytes :
  respects (keeps_until clk N) (ret_data_init m op name md direction share bytes).
Proof. unfold ret_data_init, trace_bytes, TRACE_SOCKET. respects. Qed.

Lemma submit_proc_quiet ev : respects quiet (submit_proc_event ev).
Proof. intros w. split_and!; [cbn; lia|done..]. Qed.

Lemma exec_argv_quiet pid argv n : forall i, respects quiet (exec_argv_loop pid argv i n).
Proof.
  pose proof submit_proc_quiet. induction n as [|n IH]; intros i; cbn [exec_argv_loop]; respects.
Qed.

#[local] Hint Resolve entry_data_keeps ret_data_keeps ret_data_init_keeps submit_proc_quiet
  exec_argv_quiet : respects.

Lemma syscall_keeps :
  (forall d t p, respects (keeps_until clk N) (syscall__probe_entry_socket d t p))
  /\ (forall r, respects (keeps_until clk N) (syscall__probe_ret_socket r))
  /\ (forall op fd a, respects (keeps_until clk N) (entry_addr op fd a))
  /\ (forall r, respects (keeps_until clk N) (syscall__probe_ret_accept r))
  /\ (forall r, respects (keeps_until clk N) (syscall__probe_ret_accept4 r))
  /\ (forall r, respects (keeps_until clk N) (syscall__probe_ret_connect r))
  /\ (forall fd, respects (keeps_until clk N) (syscall__probe_entry_close fd))
  /\ respects (keeps_until clk N) syscall__probe_ret_close.
Proof.
  split_and!; intros; unfold syscall__probe_entry_socket, syscall__probe_ret_socket, entry_addr,
    syscall__probe_ret_accept, syscall__probe_ret_accept4, syscall__probe_ret_connect,
    syscall__probe_entry_close, syscall__probe_ret_close, trace_accept; respects.
Qed.

Lemma data_call_keeps c :
  (forall a0 a1 a2 a3, respects (keeps_until clk N) (enter_data c a0 a1 a2 a3))
  /\ (forall r, respects (keeps_until clk N) (exit_data c r))
  /\ (forall r, respects (keeps_until clk N) (exit_data_init c r)).
Proof.
  destruct c; (split_and!; intros);
    unfold enter_data, syscall__probe_entry_recvfrom, syscall__probe_entry_recvmsg; respects;
    first [apply entry_data_keeps | apply ret_data_keeps | apply ret_data_init_keeps]; apply _.
Qed.

Lemma sock_pid_fd_keeps :
  (forall s, respects quiet (track_sock_alloc_file_entry s))
  /\ (forall f, respects quiet (track_sock_alloc_file_ret f))
  /\ (forall fd f, respects quiet (track_fd_install_entry fd f))
  /\ (forall k c, respects quiet (record_source k c))
  /\ (forall sk, respects quiet (trace_tcp_close sk))
  /\ (forall f, respects (keeps_until clk N) (cleanup_pid_fd_file_entries f)).
Proof.
  split_and!; intros; unfold track_sock_alloc_file_entry, track_sock_alloc_file_ret,
    track_fd_install_entry, record_source, trace_tcp_close, cleanup_pid_fd_file_entries; respects.
Qed.

Lemma redirector_quiet :
  (forall ctx, respects quiet (cg_connect4 ctx)) /\ (forall ctx, respects quiet (cg_connect6 ctx))
  /\ (forall ctx, respects quiet (cg_sock_ops ctx)) /\ (forall ctx, respects quiet (cg_sock_opt ctx)).
Proof.
  destruct (@settings_same) as [? _].
  split_and!; intros; unfold cg_connect4, cg_connect6, cg_sock_ops, cg_sock_opt, get_process_meta,
    set_ipv4_listen_addr, set_ipv6_listen_addr, TRACE_REDIRECTOR; respects.
Qed.

Lemma process_quiet :
  (forall p a, respects quiet (process_exec_entry p a)) /\ respects quiet process_exec_ret
  /\ (forall c, respects quiet (syscall__probe_entry_exit_group c))
  /\ respects quiet tracepoint__sched__process_exit.
Proof.
  split_and!; intros; unfold process_exec_entry, process_exec_ret, syscall__probe_entry_exit_group,
    tracepoint__sched__process_exit; respects.
Qed.

Lemma ssl_trace_quiet :
  (forall p n a, respects quiet (TRACE_OPENSSL p n a)) /\ (forall p n a, respects quiet (TRACE_NODETLS p n a))
  /\ (forall p n a, respects quiet (TRACE_GOTLS p n a)).
Proof. split_and!; intros; unfold TRACE_OPENSSL, TRACE_NODETLS, TRACE_GOTLS; respects. Qed.

Lemma node_quiet :
  (forall ctx, respects quiet (nodetls__probe_entry_TLSWrap_memfn ctx))
  /\ (forall ctx, respects quiet (nodetls__probe_entry_TLSWrap_destructor ctx))
  /\ (forall ctx, respects quiet (nodetls__probe_entry_SSL_set_cert_cb ctx))
  /\ (forall ctx, respects quiet (nodetls__probe_entry_SSL_free ctx))
  /\ (forall pid ssl, respects quiet (get_fd_from_node pid ssl)).
Proof.
  destruct ssl_trace_quiet as (T1 & T2 & T3).
  split_and!; intros; unfold nodetls__probe_entry_TLSWrap_memfn, nodetls__probe_entry_TLSWrap_destructor,
    nodetls__probe_entry_SSL_set_cert_cb, nodetls__probe_entry_SSL_free, get_fd_from_node,
    get_tlswrap_from_ssl, get_fd_from_tlswrap; respects.
Qed.

Lemma get_fd_quiet pid_tgid ssl : respects quiet (get_fd pid_tgid ssl).
Proof.
  destruct ssl_trace_quiet as (T1 & T2 & T3). destruct node_quiet as (_ & _ & _ & _ & N5).
  unfold get_fd, ssl_get_fd, get_fd_from_syscall, get_fd_from_cache. respects.
Qed.

#[local] Hint Resolve get_fd_quiet : respects.

Lemma ssl_data_keeps m `{!QuietMap m} name direction bytes args :
  respects (keeps_until clk N) (ssl_data m name direction bytes args).
Proof. destruct ssl_trace_quiet as (T1 & _). unfold ssl_data. respects. Qed.

#[local] Hint Resolve ssl_data_keeps : respects.

Lemma openssl_keeps :
  (forall ctx, respects (keeps_until clk N) (openssl_probe_ret_SSL_new ctx))
  /\ (forall ctx, respects (keeps_until clk N) (openssl_probe_entry_SSL_free ctx))
  /\ (forall ssl fd, respects (keeps_until clk N) (openssl__probe_entry_SSL_set_fd ssl fd))
  /\ (forall c ssl buf ex, respects (keeps_until clk N) (enter_ssl c ssl buf ex))
  /\ (forall c rc, respects (keeps_until clk N) (exit_ssl c rc)).
Proof.
  destruct ssl_trace_quiet as (T1 & _).
  split_and!; [intros..|intros []|intros []]; intros;
    unfold openssl_probe_ret_SSL_new, openssl_probe_entry_SSL_free, openssl__probe_entry_SSL_set_fd,
      enter_ssl, openssl__probe_entry_SSL_read, openssl__probe_entry_SSL_read_ex,
      openssl__probe_entry_SSL_write, openssl__probe_entry_SSL_write_ex, ssl_entry, request_fd_from_syscall,
      exit_ssl, openssl__probe_ret_SSL_read, openssl__probe_ret_SSL_read_ex, openssl__probe_ret_SSL_write,
      openssl__probe_ret_SSL_write_ex, ssl_ret, ssl_register_handle, ssl_remove_handle,
      update_node_ssl_tls_wrap_map, remove_node_ssl_tls_wrap_map; respects.
Qed.

Lemma gotls_keeps :
  (forall ctx, respects (keeps_until clk N) (gotls__probe_entry_tls_conn_write ctx))
  /\ (forall ctx, respects (keeps_until clk N) (gotls__probe_ret_tls_conn_write ctx))
  /\ (forall ctx, respects (keeps_until clk N) (gotls__probe_entry_tls_conn_read ctx))
  /\ (forall ctx, respects (keeps_until clk N) (gotls__probe_ret_tls_conn_read ctx)).
Proof.
  destruct ssl_trace_quiet as (_ & _ & T3).
  split_and!; intros; unfold gotls__probe_entry_tls_conn_write, gotls__probe_ret_tls_conn_write,
    gotls__probe_entry_tls_conn_read, gotls__probe_ret_tls_conn_read, go_ret, process_write, process_read,
    process_go, get_goid; cbn [location read_c_loc read_b_loc]; respects.
Qed.

Lemma java_writes_quiet :
  (forall f, respects quiet (java_heap f)) /\ (forall ev, respects quiet (java_events_output ev)).
Proof.
  split; intros; [intros w; split_and!; [cbn; lia|done..]|].
  assert (forall ev, respects quiet (submit_java_event ev)) by (intros ? w; split_and!; [cbn; lia|done..]).
  unfold java_events_output. respects.
Qed.

Lemma engine_chunks_quiet chunk n : (forall buf size, respects quiet (chunk buf size)) ->
  forall i buf size sent, respects quiet (engine_chunks chunk n i buf size sent).
Proof. intros Hc. induction n as [|n IH]; intros i buf size sent; cbn [engine_chunks]; respects. Qed.

Lemma submit_engine_quiet :
  (forall buf size, respects quiet (submit_engine_data buf size))
  /\ (forall buf size, respects quiet (submit_engine_correlation buf size)).
Proof.
  destruct java_writes_quiet as [J1 J2]. split; intros; apply engine_chunks_quiet; intros;
    unfold submit_engine_data_chunk, submit_engine_correlation_chunk; respects.
Qed.

Lemma correlation_iovecs_quiet b count n : forall i sent, respects quiet (correlation_iovecs n i b count sent).
Proof.
  destruct submit_engine_quiet as [_ C]. induction n as [|n IH]; intros i sent; cbn [correlation_iovecs]; respects.
Qed.

Lemma engine_quiet :
  (forall p pl e el s sl, respects quiet (java_ssl_engine_wrap_exit p pl e el s sl))
  /\ (forall e el p pl s sl, respects quiet (java_ssl_engine_unwrap_exit e el p pl s sl))
  /\ (forall c a0 a1 a2, respects quiet (enter_engine c a0 a1 a2))
  /\ (forall c r, respects quiet (exit_engine c r))
  /\ (forall fd, respects quiet (java_ssl_engine_sys_enter_close fd)).
Proof.
  destruct java_writes_quiet as [J1 J2]. destruct submit_engine_quiet as [D C]. pose proof correlation_iovecs_quiet.
  assert (forall fd b count dir, respects quiet (handle_engine_correlation fd b count dir)) as Hh
    by (intros; unfold handle_engine_correlation; respects).
  assert (forall dir r, respects quiet (engine_sys_exit dir r)) as Hx by (intros; unfold engine_sys_exit; respects).
  assert (forall a b c, respects quiet (engine_sys_enter a b c)) as He by (intros; unfold engine_sys_enter; respects).
  split_and!; intros; try (by destruct c; first [apply Hx | apply He]);
    unfold java_ssl_engine_wrap_exit, java_ssl_engine_unwrap_exit, handle_engine_data,
      java_ssl_engine_sys_enter_close; respects.
Qed.

Lemma java_keeps :
  (forall buf off len, respects (keeps_until clk N) (java_ssl_read_entry buf off len))
  /\ (forall r, respects (keeps_until clk N) (java_ssl_read_exit r))
  /\ (forall buf off len, respects (keeps_until clk N) (java_ssl_write_entry buf off len))
  /\ respects (keeps_until clk N) java_ssl_write_exit.
Proof.
  assert (forall m name d a n `{!QuietMap m}, respects (keeps_until clk N) (java_ssl_data m name d a n)) as Hd.
  { intros. unfold java_ssl_data, get_java_fd_from_syscall, TRACE_JAVASSL. respects. }
  split_and!; intros; unfold java_ssl_read_entry, java_ssl_write_entry, java_ssl_entry, request_java_fd_from_syscall,
    java_ssl_read_exit, java_ssl_write_exit; respects; by apply Hd, _.
Qed.

Lemma run_program_keeps p w : keeps_until clk N w (run_program p w).
Proof.
  destruct syscall_keeps as (S1 & S2 & S3 & S4 & S5 & S6 & S7 & S8).
  destruct sock_pid_fd_keeps as (F1 & F2 & F3 & F4 & F5 & F6).
  destruct redirector_quiet as (R1 & R2 & R3 & R4). destruct process_quiet as (P1 & P2 & P3 & P4).
  destruct openssl_keeps as (O1 & O2 & O3 & O4 & O5). destruct gotls_keeps as (G1 & G2 & G3 & G4).
  destruct node_quiet as (N1 & N2 & N3 & N4 & _). destruct java_keeps as (J1 & J2 & J3 & J4).
  destruct engine_quiet as (Q1 & Q2 & Q3 & Q4 & Q5).
  pose proof (fun c => proj1 (data_call_keeps c)) as D1.
  pose proof (fun c => proj1 (proj2 (data_call_keeps c))) as D2.
  pose proof (fun c => proj2 (proj2 (data_call_keeps c))) as D3.
  destruct p; cbn [run_program];
    try match goal with
    | |- keeps_until clk N w (?m w).2 =>
        revert w; change (respects (keeps_until clk N) m);
        solve [auto | apply S3 | apply respects_quiet_until; first [solve [auto] | apply F4]]
    end.
  1: exact (respects_quiet_until clk N (ret 0) ltac:(respects) w).
  all: split; [by apply mono_same|]; intros Hw _; by apply (quiet_Inv clk w); [split_and!|].
Qed.

End preservation.

(** ** Reachable states *)

Lemma inv_init clk : Inv clk world_init.
Proof.
  constructor; intros *; unfold world_init; cbn -[zeros]; try done; by rewrite lookup_empty.
Qed.

Lemma reachable_Inv clk w : clock_ok clk (calls w) -> reachable clk w -> Inv clk w.
Proof.
  intros Hc Hr. revert Hc. induction Hr as [|E p w Hnow _ IH]; intros Hc; [apply inv_init|].
  destruct (run_program_keeps clk Hnow _ Hc p w) as [Hm Hk]. apply Hk; [|done]. apply IH.
  intros i j Hij. apply Hc. unfold mono in Hm. lia.
Qed.

(** A run of programs that all see the same environment. *)
Definition run_all (E : Env) (ps : list program) (w : world) : world :=
  fold_left (fun w p => run_program p w) ps w.

Lemma reachable_run_all E ps : reachable ktime_ns (run_all E ps world_init).
Proof.
  unfold run_all. generalize (reach_init (@ktime_ns E)). generalize world_init.
  induction ps as [|p ps IH]; intros w Hw; [done|]. apply IH. by constructor.
Qed.

Lemma phase_of_app_inv cp l1 l2 : is_Some (phase_of cp (l1 ++ l2)) -> is_Some (phase_of cp l1).
Proof.
  induction l2 as [|ev l2 IH] using rev_ind; [by rewrite app_nil_r|].
  rewrite app_assoc, phase_of_snoc. intros H. apply IH. destruct (phase_of cp (l1 ++ l2)); [by eexists|by destruct H].
Qed.

(** ** Properties *)

(** C1: in every reachable state, under any interleaving of the programs,
    the events of each connection follow the life-cycle automaton: at most one
    open event, data only while open and with the cookie of the open event, at
    most one close event, and nothing after it. *)
Theorem events_follow_lifecycle clk w cp :
  clock_ok clk (calls w) -> reachable clk w -> is_Some (phase_of cp (socket_events (w_sock w))).
Proof. intros Hc Hr. apply (inv_log _ _ _ _ (reachable_Inv clk w Hc Hr)). Qed.

(** C2: in every reachable state, the table entry of a descriptor carries
    that process and descriptor, an open connection has a cookie, one that is
    neither open nor ignored has none, a pending TLS upgrade means MySQL, and the
    open flag agrees with the event log. *)
Theorem conn_table_consistent clk w id ci :
  clock_ok clk (calls w) -> reachable clk w -> f_conn_info (w_sock w) !! id = Some ci ->
  conn_ok id ci
  /\ phase_of (ci_conn_pid_id ci) (socket_events (w_sock w)) = Some (conn_phase ci).
Proof.
  intros Hc Hr Hl. pose proof (reachable_Inv clk w Hc Hr) as Hi.
  split; [by apply (inv_conn _ _ _ _ Hi)|by apply (inv_phase _ _ _ _ Hi id)].
Qed.

(** *** A complete run

    Process 1000 connects descriptor 5 to 1.2.3.4:80, writes an HTTP request and
    closes it; HTTP is streamed. *)

Definition demo_run : list program :=
  [Configure {[SOCK_SETTING_STREAM_PROTOCOLS := STREAM_HTTP_FLAG]} ∅ ∅ ∅;
   Sock_alloc_file 1; Sock_alloc_file_ret 2; Fd_install 5 2; Enter_connect 5 4096; Exit_connect 0;
   Enter_data WRITE 5 4112 0 0; Exit_data_init WRITE 14; Exit_data WRITE 14;
   Enter_close 5; Exit_close].

Definition demo_world : world := run_all demo_env demo_run world_init.

(** The events of the run, by kind. *)
Definition event_kind (ev : socket_event) : Z :=
  match ev with
  | Ev_open e => oe_type e | Ev_close e => ce_type e | Ev_data e => de_type e
  | Ev_proto e => pe_type e | Ev_tls_hello e => he_type e
  end.

Lemma demo_kinds : map event_kind (socket_events (w_sock demo_world)) = [S_OPEN; S_PROTO; S_DATA; S_CLOSE].
Proof. vm_compute. reflexivity. Qed.

Lemma clock_ok_nat N : Z.of_nat N < 2 ^ 64 -> clock_ok Z.of_nat N.
Proof. intros HN i j Hij. lia. Qed.

Lemma events_follow_lifecycle_witness :
  is_Some (phase_of (ConnPidId 1000 1000 5 C_CLIENT 0) (socket_events (w_sock demo_world)))
  /\ length (socket_events (w_sock demo_world)) = 4%nat.
Proof.
  split; [|vm_compute; reflexivity].
  apply (events_follow_lifecycle Z.of_nat demo_world).
  - apply clock_ok_nat. vm_compute. reflexivity.
  - apply (reachable_run_all demo_env).
Defined.

(** The run before the close. *)
Definition demo_mid : world := run_all demo_env (take 9 demo_run) world_init.
Definition demo_conn : conn_info := default conn_zero (f_conn_info (w_sock demo_mid) !! PidFd 1000 5).

Lemma conn_table_consistent_witness :
  conn_ok (PidFd 1000 5) demo_conn /\ ci_is_open demo_conn = true /\ ci_cookie demo_conn = 7
  /\ phase_of (ci_conn_pid_id demo_conn) (socket_events (w_sock demo_mid)) = Some (Opened 7).
Proof.
  assert (f_conn_info (w_sock demo_mid) !! PidFd 1000 5 = Some demo_conn) as Hl by (vm_compute; reflexivity).
  pose proof (conn_table_consistent Z.of_nat demo_mid (PidFd 1000 5) demo_conn
    (clock_ok_nat (calls demo_mid) ltac:(vm_compute; reflexivity))
    (reachable_run_all demo_env (take 9 demo_run)) Hl) as [H1 H2].
  split_and!; [exact H1|vm_compute; reflexivity..|]. rewrite H2. vm_compute. reflexivity.
Defined.
