(* ===== verification/Ledger.v ===== *)
(** * The ledger of connections

    What the event stream promises to its consumer, apart from any probe: a ledger of
    the live connections, each with its socket cookie, and of the ended ones.  Each
    event is one move of the ledger.  The object refines it: every program run is a
    sequence of moves, and the open connections of [conn_info_map] are entries of the
    ledger. *)

From stdpp Require Import base numbers list gmap strings.
From S2P Require Import Prelude Tap Net Bpf Trace Common Settings Process Buffers Protocol.
From S2P Require Import Socket SocketProbes SocketInv SocketSpec System.

#[export] Instance CONNECTION_TYPE_countable : Countable CONNECTION_TYPE.
Proof.
  refine (inj_countable' (fun t => match t with C_CLIENT => true | C_SERVER => false end)
    (fun b : bool => if b then C_CLIENT else C_SERVER) _). by intros [].
Defined.

#[export] Instance conn_pid_id_countable : Countable conn_pid_id.
Proof.
  refine (inj_countable' (fun c => (cp_pid c, cp_tgid c, cp_fd c, cp_function c, cp_tsid c))
    (fun '(p, t, f, k, s) => ConnPidId p t f k s) _). by intros [].
Defined.

(** ** The abstract machine *)

Record ledger := Ledger { live : gmap conn_pid_id Z; ended : gset conn_pid_id }.

Definition ledger_init : ledger := Ledger ∅ ∅.

(** Neither live nor ended. *)
Definition unseen (L : ledger) (cp : conn_pid_id) : Prop := live L !! cp = None /\ cp ∉ ended L.

Inductive move (L : ledger) : socket_event -> ledger -> Prop :=
| move_open e :
    unseen L (oe_conn_pid_id e) -> oe_cookie e <> 0 ->
    move L (Ev_open e) (Ledger (<[oe_conn_pid_id e := oe_cookie e]> (live L)) (ended L))
| move_data e : live L !! de_conn_pid_id e = Some (de_cookie e) -> move L (Ev_data e) L
| move_early_proto e : unseen L (pe_conn_pid_id e) -> move L (Ev_proto e) L
| move_proto e : live L !! pe_conn_pid_id e = Some (pe_cookie e) -> move L (Ev_proto e) L
| move_close e :
    live L !! ce_conn_pid_id e = Some (ce_cookie e) ->
    move L (Ev_close e) (Ledger (delete (ce_conn_pid_id e) (live L)) ({[ce_conn_pid_id e]} ∪ ended L))
| move_hello e : move L (Ev_tls_hello e) L.

Inductive moves : ledger -> list socket_event -> ledger -> Prop :=
| moves_nil L : moves L [] L
| moves_cons L ev L' evs L'' : move L ev L' -> moves L' evs L'' -> moves L (ev :: evs) L''.

(** The phase the ledger gives a connection. *)
Definition ledger_phase (L : ledger) (cp : conn_pid_id) : phase :=
  match live L !! cp with
  | Some cookie => Opened cookie
  | None => if decide (cp ∈ ended L) then Closed else Fresh
  end.

(** ** The abstraction relation *)

(** The ledger a state stands for: its live and ended connections are those of the
    events so far, and each record of the connection table is live with its cookie
    when it is open, and unseen when not. *)
Record stands_for (w : world) (L : ledger) : Prop := {
  sf_log cp : phase_of cp (socket_events (w_sock w)) = Some (ledger_phase L cp);
  sf_table id ci : f_conn_info (w_sock w) !! id = Some ci ->
    if ci_is_open ci then live L !! ci_conn_pid_id ci = Some (ci_cookie ci) else unseen L (ci_conn_pid_id ci) }.

Lemma ledger_phase_live L cp c : ledger_phase L cp = Opened c <-> live L !! cp = Some c.
Proof. unfold ledger_phase. repeat case_match; naive_solver. Qed.

Lemma ledger_phase_unseen L cp : ledger_phase L cp = Fresh <-> unseen L cp.
Proof. unfold ledger_phase, unseen. repeat case_match; naive_solver. Qed.

(** An event the automaton allows its connection is a move of the ledger; the other
    connections keep their phase. *)
Lemma move_own L ev cp ph :
  event_conn ev = Some cp -> phase_step (ledger_phase L cp) ev = Some ph ->
  exists L', move L ev L' /\ ledger_phase L' cp = ph
    /\ forall cp', cp' <> cp -> ledger_phase L' cp' = ledger_phase L cp'.
Proof.
  intros He Hs. destruct (ledger_phase L cp) as [|c|] eqn:Hp;
    [apply ledger_phase_unseen in Hp|pose proof Hp as Hl; apply ledger_phase_live in Hl|];
    destruct ev as [e|e|e|e|e]; cbn in He, Hs; repeat case_match; try done; simplify_eq.
  - eexists. split; [apply move_open; [done|by apply Z.eqb_neq]|]. split; [by apply ledger_phase_live, lookup_insert_eq|].
    intros cp' Hne. unfold ledger_phase. cbn [live ended]. by rewrite lookup_insert_ne.
  - exists L. split; [by apply move_early_proto|]. by rewrite (proj2 (ledger_phase_unseen _ _) Hp).
  - eexists. split; [apply move_close; rewrite Hl; f_equal; lia|]. unfold ledger_phase. cbn [live ended]. split.
    + rewrite lookup_delete_eq. by rewrite decide_True by set_solver.
    + intros cp' Hne. rewrite lookup_delete_ne by done. case_match; [done|]. by do 2 case_decide; [set_solver..|].
  - exists L. split; [apply move_data; rewrite Hl; f_equal; lia|done].
  - exists L. split; [apply move_proto; rewrite Hl; f_equal; lia|done].
Qed.

Lemma move_of_phase L ev :
  (forall cp, is_Some (phase_next cp (Some (ledger_phase L cp)) ev)) ->
  exists L', move L ev L' /\ forall cp, phase_next cp (Some (ledger_phase L cp)) ev = Some (ledger_phase L' cp).
Proof.
  intros H. destruct (event_conn ev) as [cp|] eqn:He.
  - destruct (H cp) as [ph Hph]. unfold phase_next in *. rewrite decide_True in Hph by done.
    destruct (move_own L ev cp ph He Hph) as (L' & Hm & Hown & Hoth). exists L'. split; [done|].
    intros cp'. case_decide as Hd; [|rewrite Hoth by congruence; done]. rewrite He in Hd. by simplify_eq.
  - destruct ev; try done. exists L. split; [constructor|done].
Qed.

(** A log that every automaton accepts is a run of the ledger. *)
Lemma moves_of_log evs0 L evs :
  (forall cp, phase_of cp evs0 = Some (ledger_phase L cp)) ->
  (forall cp, is_Some (phase_of cp (evs0 ++ evs))) ->
  exists L', moves L evs L' /\ forall cp, phase_of cp (evs0 ++ evs) = Some (ledger_phase L' cp).
Proof.
  revert evs0 L. induction evs as [|ev evs IH]; intros evs0 L Hp Hl.
  { exists L. rewrite app_nil_r. split; [constructor|done]. }
  destruct (move_of_phase L ev) as (L1 & Hm & H1).
  { intros cp. rewrite <- Hp, <- phase_of_snoc. apply (phase_of_app_inv _ _ evs). by rewrite <- app_assoc. }
  destruct (IH (evs0 ++ [ev]) L1) as (L2 & Hms & H2).
  - intros cp. by rewrite phase_of_snoc, Hp.
  - intros cp. by rewrite <- app_assoc.
  - exists L2. split; [by econstructor|]. intros cp. by rewrite <- H2, <- app_assoc.
Qed.

Lemma stands_for_Inv clk w L :
  Inv clk w -> (forall cp, phase_of cp (socket_events (w_sock w)) = Some (ledger_phase L cp)) -> stands_for w L.
Proof.
  intros Hi Hp. split; [done|]. intros id ci Hl. pose proof (inv_phase _ _ _ _ Hi id ci Hl) as Hc.
  rewrite Hp in Hc. simplify_eq. unfold conn_phase in Hc.
  destruct (ci_is_open ci); [by apply ledger_phase_live|by apply ledger_phase_unseen].
Qed.

(** ** Refinement *)

Definition stream_of (w : world) : list socket_event := socket_events (w_sock w).

(** C3: the object refines the ledger.  Just after loading it stands for the empty
    ledger; and when a reachable state stands for a ledger, whatever program runs
    next, the events it adds are moves from that ledger to one the new state stands
    for. *)
Theorem refines_ledger clk :
  stands_for world_init ledger_init
  /\ forall (E : Env) p w L, @ktime_ns E = clk -> clock_ok clk (calls (@run_program E p w)) ->
     reachable clk w -> stands_for w L ->
     let w' := @run_program E p w in
     exists evs L', stream_of w' = stream_of w ++ evs /\ moves L evs L' /\ stands_for w' L'.
Proof.
  split. { apply (stands_for_Inv clk); [apply inv_init|done]. }
  intros E p w L Hnow Hc Hr Hs w'.
  assert (Hi : Inv clk w') by (apply (reachable_Inv clk w'); [done|by constructor]).
  destruct (run_program_keeps clk Hnow _ Hc p w) as [[_ (evs & Hev & _)] _]. fold w' in Hev.
  destruct (moves_of_log (stream_of w) L evs) as (L' & Hm & Hp).
  - apply (sf_log _ _ Hs).
  - intros cp. unfold stream_of. rewrite <- Hev. apply (inv_log _ _ _ _ Hi).
  - exists evs, L'. split; [exact Hev|]. split; [done|]. apply (stands_for_Inv clk); [done|].
    intros cp. rewrite Hev. apply Hp.
Qed.

(** The run up to the return of connect. *)
Definition demo_connecting : world := run_all demo_env (take 5 demo_run) world_init.

Lemma refines_ledger_witness :
  let w' := @run_program demo_env (Exit_connect 0) demo_connecting in
  length (stream_of w') = 1%nat
  /\ exists L, moves ledger_init (stream_of w') L /\ stands_for w' L.
Proof.
  intros w'. split; [vm_compute; reflexivity|].
  assert (Hr : reachable Z.of_nat demo_connecting) by apply (reachable_run_all demo_env (take 5 demo_run)).
  assert (H0 : stream_of demo_connecting = []) by (vm_compute; reflexivity).
  assert (Hc : Z.of_nat (calls demo_connecting) < 2 ^ 64) by (vm_compute; reflexivity).
  assert (Hc' : Z.of_nat (calls w') < 2 ^ 64) by (vm_compute; reflexivity).
  assert (Hs : stands_for demo_connecting ledger_init).
  { apply (stands_for_Inv Z.of_nat); [apply reachable_Inv; [by apply clock_ok_nat|done]|].
    intros cp. fold (stream_of demo_connecting). by rewrite H0. }
  destruct (proj2 (refines_ledger Z.of_nat) demo_env (Exit_connect 0) demo_connecting ledger_init eq_refl
    (clock_ok_nat _ Hc') Hr Hs) as (evs & L & He & Hm & HL).
  exists L. split; [|exact HL]. unfold w'. rewrite He, H0. exact Hm.
Defined.

(** C38: whatever program runs, from whatever state, the events it adds are well
    formed: each carries its kind, a data event between 1 and [MAX_MSG_SIZE] bytes and
    as many as its size field says, a protocol event a protocol, a hello event a size
    below the limit. *)
Theorem events_well_formed (E : Env) p w :
  EnvOk E ->
  exists evs, stream_of (@run_program E p w) = stream_of w ++ evs /\ Forall event_ok evs.
Proof.
  intros Hok. destruct (run_program_keeps (E := E) ktime_ns eq_refl 0 ltac:(intros i j; lia) p w) as [[_ (evs & He & Hf)] _].
  exists evs. auto.
Qed.

Lemma demo_env_ok : EnvOk demo_env.
Proof.
  assert (Hb : Forall is_byte ([2; 0; 0; 80; 1; 2; 3; 4] ++ zeros 8 ++ demo_request)).
  { apply (bool_decide_unpack _). vm_compute. done. }
  destruct (flat_env_ok (1000 * 2 ^ 32 + 1000) 4096 _ Hb ltac:(done)) as [H1 H2 H3].
  constructor; [exact H1|exact H2|exact H3].
Qed.

Lemma events_well_formed_witness :
  exists evs, stream_of (@run_program demo_env (Exit_data WRITE 14) (run_all demo_env (take 8 demo_run) world_init))
    = stream_of (run_all demo_env (take 8 demo_run) world_init) ++ evs
    /\ Forall event_ok evs /\ length evs = 2%nat.
Proof.
  destruct (events_well_formed demo_env (Exit_data WRITE 14) (run_all demo_env (take 8 demo_run) world_init) demo_env_ok)
    as (evs & He & Hf).
  exists evs. split_and!; [exact He|exact Hf|].
  assert (length (stream_of (@run_program demo_env (Exit_data WRITE 14) (run_all demo_env (take 8 demo_run) world_init)))
    = 3%nat) as H3 by (vm_compute; reflexivity).
  assert (length (stream_of (run_all demo_env (take 8 demo_run) world_init)) = 1%nat) as H1 by (vm_compute; reflexivity).
  rewrite He, length_app, H1 in H3. lia.
Defined.
