(* ===== verification/SocketCalls.v ===== *)
(** * System calls from entry to exit

    How the entry and exit programs of [bpf/tap/socket.bpf.c] hand the saved
    arguments over, what a failing [accept] leaves behind, which data never
    reaches user space, and what happens to data that overtakes the open event. *)

From stdpp Require Import base numbers list gmap strings.
From S2P Require Import Prelude Tap Net Bpf Trace Common Settings Process Buffers Protocol.
From S2P Require Import Socket SocketProbes SocketInv SocketSpec SocketTotals System.

(** ** Saved arguments *)

(** The maps between entry and exit, which no other routine touches. *)
Definition same_args (w w' : world) : Prop :=
  f_active_fd_args (w_sock w') = f_active_fd_args (w_sock w)
  /\ f_active_addr_args (w_sock w') = f_active_addr_args (w_sock w)
  /\ f_active_write_args (w_sock w') = f_active_write_args (w_sock w)
  /\ f_active_read_args (w_sock w') = f_active_read_args (w_sock w).

(** These maps, the descriptor requests and the state of the TLS probes. *)
Definition same_saved (w w' : world) : Prop :=
  same_args w w' /\ f_uprobe_fd_requests (w_sock w') = f_uprobe_fd_requests (w_sock w) /\ w_tls w' = w_tls w.

#[export] Instance same_args_preorder : PreOrder same_args.
Proof.
  split; [by intros w; split_and!|].
  intros u v w (?&?&?&?) (?&?&?&?). split_and!; congruence.
Qed.

#[export] Instance same_saved_preorder : PreOrder same_saved.
Proof.
  split; [by intros w; split_and!|].
  intros u v w (?&?&?) (?&?&?). split_and!; [by etrans|congruence..].
Qed.

Lemma respects_same_saved {A} (m : M world A) : respects same_but_trace m -> respects same_saved m.
Proof.
  intros Hm w. destruct (Hm w) as (_ & _ & _ & _ & Hs & _ & _ & _ & _ & Ht).
  unfold same_saved, same_args. by rewrite Hs, Ht.
Qed.

Lemma respects_same_args {A} (m : M world A) : respects same_saved m -> respects same_args m.
Proof. intros Hm w. apply Hm. Qed.

#[local] Hint Resolve respects_same_saved respects_same_args | 5 : respects.

Section saved.
Context {E : Env}.

Lemma writes_saved :
  (forall ev, respects same_saved (submit_socket_event ev))
  /\ (forall id ci, respects same_saved (store_elem conn_info_map id ci))
  /\ (forall f, respects same_saved (data_heap f))
  /\ (forall h, respects same_saved (client_hello_heap h))
  /\ (forall h, respects same_saved (server_hello_heap h)).
Proof. by split_and!. Qed.

Lemma lookup_saved {K V} `{Countable K} (m : bpf_map K V) k : respects same_saved (bpf_map_lookup_elem m k).
Proof. done. Qed.

#[local] Hint Resolve lookup_saved trace_ctx_same : respects.
#[local] Hint Extern 4 (respects same_saved _) => apply writes_saved : respects.

Lemma respond_args pid_tgid fd : respects same_args (respond_to_fd_request pid_tgid fd).
Proof. intros w. unfold respond_to_fd_request, bind, bpf_map_lookup_elem, gets. cbn [fst snd]. by case_match. Qed.

Lemma output_saved ev : respects same_saved (socket_events_output ev).
Proof. unfold socket_events_output. respects. Qed.

Lemma proto_event_saved ci : respects same_saved (submit_proto_event ci).
Proof. unfold submit_proto_event. respects. Qed.

Lemma settings_saved :
  respects same_saved get_direction_setting /\ respects same_saved get_ignore_loopback_setting
  /\ (forall p, respects same_saved (should_stream p)) /\ (forall pid, respects same_saved (SKIP_ALL pid))
  /\ (forall ctx ci, respects same_saved (skip_flags ctx ci)).
Proof.
  destruct settings_same as [Hd Hl]. split_and!; [by apply respects_same_saved|by apply respects_same_saved| | |];
    intros * w; by rewrite ?should_stream_run, ?SKIP_ALL_run, ?skip_flags_run.
Qed.

#[local] Hint Extern 4 (respects same_saved _) => apply settings_saved : respects.
#[local] Hint Resolve output_saved proto_event_saved : respects.

Lemma open_event_saved ctx ci : respects same_saved (submit_open_event ctx ci).
Proof. unfold submit_open_event, finish_open, get_process_meta. respects. Qed.

Lemma buffer_saved direction buf size conn n : forall i sent,
  respects same_saved (submit_buffer_loop n i direction buf size conn sent).
Proof. induction n as [|n IH]; intros i sent; cbn [submit_buffer_loop]; unfold submit_buffer_chunk; respects. Qed.

#[local] Hint Resolve open_event_saved buffer_saved : respects.

Lemma iovecs_saved direction args bytes conn n : forall i sent,
  respects same_saved (submit_iovecs n i direction args bytes conn sent).
Proof. induction n as [|n IH]; intros i sent; cbn [submit_iovecs]; unfold submit_buffer; respects. Qed.

#[local] Hint Resolve iovecs_saved : respects.

Lemma init_conn_saved ctx direction args bytes : respects same_saved (init_conn ctx direction args bytes).
Proof. unfold init_conn, init_conn_found, late_open, submit_hellos, get_process_meta. respects. Qed.

Lemma process_data_saved ctx direction args bytes ssl :
  respects same_saved (process_data ctx direction args bytes ssl).
Proof.
  unfold process_data, process_data_open, process_data_early, detect_and_stream, stream_data, submit_data,
    submit_buffer, get_process_meta. respects.
Qed.

End saved.

(** ** Entry and exit pair up *)

(** The map and the key a data call saves its arguments under. *)
Definition op_of (c : data_call) : SYSCALL_OP :=
  match c with
  | SENDTO => SYS_SENDTO | WRITE => SYS_WRITE | WRITEV => SYS_WRITEV | SENDMSG => SYS_SENDMSG
  | RECVFROM => SYS_RECVFROM | READ => SYS_READ | READV => SYS_READV | RECVMSG => SYS_RECVMSG
  end.

Definition saved_args (c : data_call) (w : world) : gmap pid_fd_key data_args :=
  match c with
  | SENDTO | WRITE | WRITEV | SENDMSG => f_active_write_args (w_sock w)
  | RECVFROM | READ | READV | RECVMSG => f_active_read_args (w_sock w)
  end.

Definition saved_fd {E : Env} (c : data_call) (w : world) : option Z :=
  f_active_fd_args (w_sock w) !! current_op (op_of c).

Section pairing.
Context {E : Env}.

Lemma ret_data_unsaved m op name dir share n w :
  f_active_fd_args (w_sock w) !! current_op op = None -> ret_data m op name dir share n w = (0, w).
Proof.
  intros Hn. unfold ret_data, bpf_map_lookup_elem, gets, bind at 1. cbn [fst snd].
  change (bm_get active_fd_args_map w) with (f_active_fd_args (w_sock w)). by rewrite Hn.
Qed.

Lemma ret_data_init_unsaved m op name md dir share n w :
  f_active_fd_args (w_sock w) !! current_op op = None -> ret_data_init m op name md dir share n w = (0, w).
Proof.
  intros Hn. unfold ret_data_init, bpf_map_lookup_elem, gets, bind at 1. cbn [fst snd].
  change (bm_get active_fd_args_map w) with (f_active_fd_args (w_sock w)). by rewrite Hn.
Qed.

#[local] Hint Resolve respects_same_saved respects_same_args | 5 : respects.
#[local] Hint Resolve respond_args process_data_saved init_conn_saved : respects.

Lemma ret_data_init_args m op name md dir share n :
  respects same_args (ret_data_init m op name md dir share n).
Proof.
  unfold ret_data_init, trace_bytes, TRACE_SOCKET. pose proof @lookup_saved. respects.
Qed.

(** The main exit program removes the two entries and nothing else. *)
Lemma ret_data_clears m op name dir share n fd w :
  m = active_write_args_map \/ m = active_read_args_map ->
  f_active_fd_args (w_sock w) !! current_op op = Some fd ->
  runs (ret_data m op name dir share n) w (fun _ w' =>
    f_active_fd_args (w_sock w') = delete (current_op op) (f_active_fd_args (w_sock w))
    /\ bm_get m w' = delete (current_id fd) (bm_get m w)).
Proof.
  intros Hm Hfd. unfold ret_data. apply runs_bind, runs_gets.
  change (bm_get active_fd_args_map w) with (f_active_fd_args (w_sock w)). rewrite Hfd.
  apply runs_bind. unfold runs at 1. set (w1 := (bpf_map_delete_elem _ _ w).2).
  assert (H1 : f_active_fd_args (w_sock w1) = delete (current_op op) (f_active_fd_args (w_sock w))
    /\ bm_get m w1 = bm_get m w) by (by destruct Hm as [-> | ->]).
  clearbody w1. destruct H1 as [H1 H2]. rewrite <- H1, <- H2. clear H1 H2 w Hfd.
  apply runs_bind, runs_gets. destruct (bm_get m w1 !! current_id fd) as [args|] eqn:Ha.
  2:{ split; [done|]. by rewrite delete_id. }
  apply runs_bind. unfold runs at 1.
  match goal with |- context [(?p w1).2] => assert (respects same_args p) as Hp end.
  { unfold trace_bytes, TRACE_SOCKET. respects. }
  destruct (Hp w1) as (S1 & _ & S3 & S4). unfold runs. destruct Hm as [-> | ->]; cbn; by rewrite ?S1, ?S3, ?S4.
Qed.

(** Both exit programs of a call are instances of the shared bodies. *)
Lemma exit_data_shape (c : data_call) : exists m name md dir share share',
  (m = active_write_args_map \/ m = active_read_args_map)
  /\ (forall w, saved_args c w = bm_get m w)
  /\ exit_data c = ret_data m (op_of c) name dir share
  /\ exit_data_init c = ret_data_init m (op_of c) name md dir share'.
Proof. destruct c; do 6 eexists; (refine (conj _ (conj _ (conj eq_refl eq_refl))); [auto|done]). Qed.

End pairing.

(** The programs of a data call pair up.  Without saved arguments (the
    call was not seen entering) both exit programs change nothing.  The early exit
    program leaves the saved arguments to the main one, which removes exactly the
    two entries of its own thread and descriptor, whatever the call returned. *)
Theorem data_calls_pair (E : Env) (c : data_call) (r : Z) (w : world) :
  (saved_fd c w = None -> (exit_data_init c r w).2 = w /\ (exit_data c r w).2 = w)
  /\ (saved_fd c (exit_data_init c r w).2 = saved_fd c w
      /\ saved_args c (exit_data_init c r w).2 = saved_args c w)
  /\ forall fd, saved_fd c w = Some fd ->
     let w' := (exit_data c r w).2 in
     f_active_fd_args (w_sock w') = delete (current_op (op_of c)) (f_active_fd_args (w_sock w))
     /\ saved_args c w' = delete (current_id fd) (saved_args c w).
Proof.
  destruct (exit_data_shape c) as (m & name & md & dir & share & share' & Hm & Ha & -> & ->).
  assert (same_args w (ret_data_init m (op_of c) name md dir share' r w).2) as (S1 & _ & S3 & S4)
    by apply ret_data_init_args.
  unfold saved_fd. split_and!.
  - intros Hn. by rewrite ret_data_init_unsaved, ret_data_unsaved.
  - by rewrite S1.
  - rewrite !Ha. destruct Hm as [-> | ->]; [apply S3|apply S4].
  - intros fd Hfd. rewrite !Ha. by apply (ret_data_clears m).
Qed.

Lemma data_calls_pair_witness :
  let w := (@enter_data demo_env WRITE 5 4112 14 0 (demo_state demo_open)).2 in
  let w' := (@exit_data demo_env WRITE 14 w).2 in
  f_active_write_args (w_sock w) !! PidFd 1000 5 = Some (DataArgs 5 4112 0 0 0)
  /\ f_active_fd_args (w_sock w') = ∅ /\ f_active_write_args (w_sock w') = ∅.
Proof.
  intros w w'. split; [done|]. destruct (data_calls_pair demo_env WRITE 14 w) as (_ & _ & H).
  destruct (H 5 eq_refl) as [H1 H2].
  split; [etrans; [exact H1|vm_compute; reflexivity]|etrans; [exact H2|vm_compute; reflexivity]].
Defined.

(** A receive with [MSG_PEEK] is invisible: its entry program saves
    nothing, so its exit programs see nothing and the bytes are not counted or
    reported twice. *)
Theorem peek_invisible (E : Env) (c : data_call) a0 a1 a2 a3 r w :
  (c = RECVFROM /\ Z.testbit (s32 a3) 1 = true) \/ (c = RECVMSG /\ Z.testbit (s32 a2) 1 = true) ->
  saved_fd c w = None ->
  run_program (Exit_data c r) (run_program (Exit_data_init c r) (run_program (Enter_data c a0 a1 a2 a3) w)) = w.
Proof.
  intros Hc Hn. assert (Hin : run_program (Enter_data c a0 a1 a2 a3) w = w).
  { destruct Hc as [[-> Hp]|[-> Hp]]; cbn [run_program enter_data];
      unfold syscall__probe_entry_recvfrom, syscall__probe_entry_recvmsg;
      change MSG_PEEK with (2 ^ 1); by rewrite land_pow2_testbit, Hp. }
  rewrite Hin. cbn [run_program].
  destruct (exit_data_shape c) as (m & name & md & dir & share & share' & _ & _ & -> & ->).
  by rewrite ret_data_init_unsaved, ret_data_unsaved.
Qed.

Lemma peek_invisible_witness :
  let w := demo_state demo_open in
  @run_program demo_env (Exit_data RECVFROM 14)
    (@run_program demo_env (Exit_data_init RECVFROM 14)
       (@run_program demo_env (Enter_data RECVFROM 5 4112 14 66) w)) = w.
Proof. apply (peek_invisible demo_env RECVFROM 5 4112 14 66 14); [by left|done]. Defined.

(** A failed [accept4] forgets its saved address, while a failed
    [accept] returns before deleting it, so the entry stays in
    [active_addr_args_map].  Neither touches a connection or reports anything. *)
Theorem failed_accept (E : Env) r fd w :
  s32 r <= 0 ->
  (f_active_fd_args (w_sock w) !! current_op SYS_ACCEPT = Some fd ->
   let w' := (syscall__probe_ret_accept r w).2 in
   f_active_addr_args (w_sock w') = f_active_addr_args (w_sock w)
   /\ f_active_fd_args (w_sock w') = delete (current_op SYS_ACCEPT) (f_active_fd_args (w_sock w))
   /\ quiet w w')
  /\ (f_active_fd_args (w_sock w) !! current_op SYS_ACCEPT4 = Some fd ->
   let w' := (syscall__probe_ret_accept4 r w).2 in
   f_active_addr_args (w_sock w') = delete (current_id fd) (f_active_addr_args (w_sock w))
   /\ f_active_fd_args (w_sock w') = delete (current_op SYS_ACCEPT4) (f_active_fd_args (w_sock w))
   /\ quiet w w').
Proof.
  intros Hr%Z.leb_le. split; intros Hfd w'; unfold w', syscall__probe_ret_accept, syscall__probe_ret_accept4,
    bpf_map_lookup_elem, gets, bind; cbn [fst snd];
    change (bm_get active_fd_args_map w) with (f_active_fd_args (w_sock w)); rewrite Hfd, Hr; [done|].
  cbn [fst snd]. destruct (bm_get active_addr_args_map _ !! current_id fd) eqn:Ha; [done|].
  cbn. rewrite delete_id by exact Ha. done.
Qed.

Lemma failed_accept_witness :
  let w op := (@entry_addr demo_env op 5 4096 world_init).2 in
  f_active_addr_args (w_sock (@syscall__probe_ret_accept demo_env (-11) (w SYS_ACCEPT)).2)
    = {[PidFd 1000 5 := 4096]}
  /\ f_active_addr_args (w_sock (@syscall__probe_ret_accept4 demo_env (-11) (w SYS_ACCEPT4)).2) = ∅.
Proof.
  intros w. assert (s32 (-11) <= 0) as Hr by done. split.
  - exact (proj1 (proj1 (failed_accept demo_env (-11) 5 (w SYS_ACCEPT) Hr) eq_refl)).
  - exact (proj1 (proj2 (failed_accept demo_env (-11) 5 (w SYS_ACCEPT4) Hr) eq_refl)).
Defined.

(** ** Data that stays in the kernel *)

(** User space gets nothing of a call on this connection. *)
Definition silenced (w : world) (pid : Z) (ci : conn_info) (ssl : bool) : Prop :=
  ci_ignore ci = true
  \/ (exists s, (s = QP_IGNORE \/ s = QP_FORWARD \/ s = QP_PROXY) /\ has_strategy (meta_of w pid) s = true)
  \/ (ci_is_ssl ci = true /\ ssl = false).

Lemma silenced_open {E : Env} ctx direction args bytes ssl ci w :
  silenced w (k_pid (sc_id ctx)) ci ssl ->
  w_sock (process_data_open ctx direction args bytes ssl ci w).2 = w_sock w.
Proof.
  intros Hs. pose proof (fun msg args => trace_ctx_same ctx msg args w) as Ht.
  assert (forall msg args, w_sock (trace_ctx ctx msg args w).2 = w_sock w) as Ht' by (intros; apply Ht). clear Ht.
  unfold process_data_open. fold (counted ssl ci direction bytes). cbv zeta.
  destruct (counted_fields ssl ci direction bytes w (k_pid (sc_id ctx))) as (-> & F2 & F3 & _).
  destruct (ci_ignore ci) eqn:Hig; [apply Ht'|].
  unfold bind at 1, get_process_meta, bpf_map_lookup_elem, gets. cbn [fst snd].
  change (bm_get process_meta_map w !! _) with (meta_of w (k_pid (sc_id ctx))).
  destruct (has_strategy _ QP_IGNORE) eqn:H1; [done|]. destruct (has_strategy _ QP_FORWARD) eqn:H2; [done|].
  destruct (has_strategy _ QP_PROXY) eqn:H3; [done|].
  destruct Hs as [|[(s & [-> |[-> | ->]] & ?)|[Hssl ->]]]; try congruence.
  cbn [orb andb negb]. rewrite F3, Hssl. apply Ht'.
Qed.

(** The total of one direction after a call of [bytes] bytes. *)
Definition total_after (counts : bool) (total bytes : Z) : Z := if counts then s64 (total + bytes) else total.

Lemma counted_totals ssl ci direction bytes :
  let ci1 := counted ssl ci direction bytes in
  ci_wr_bytes ci1 = total_after (negb ssl && (direction =? D_EGRESS)) (ci_wr_bytes ci) bytes
  /\ ci_rd_bytes ci1 = total_after (negb ssl && (direction =? D_INGRESS)) (ci_rd_bytes ci) bytes.
Proof.
  unfold counted, update_bandwidth_tracking. destruct ssl; [done|]. cbn [negb andb].
  destruct (Z.eqb_spec direction D_EGRESS) as [->|]; [done|]. by destruct (direction =? D_INGRESS).
Qed.

(** A call on a connection whose open event is not out reports nothing and
    counts nothing. *)
Lemma early_silent {E : Env} ctx direction args bytes ssl ci w :
  let r := process_data_early ctx direction args bytes ssl ci w in
  w_sock r.2 = w_sock w /\ tracks ci r.1.
Proof.
  assert (forall msg args, w_sock (trace_ctx ctx msg args w).2 = w_sock w) as Ht by (intros; apply trace_ctx_same).
  unfold process_data_early. case_bool_decide; (split; [apply Ht|]); [apply detect_tracks|done].
Qed.


