(* ===== verification/RedirectorSpec.v ===== *)
(** * What redirection guarantees

    Properties of [bpf/tap/redirector.bpf.c]: which connects are redirected,
    that the proxy's own address is not, and that the proxy recovers the original
    destination, the cookie and the TLS decision of the client behind an accepted
    socket. *)

From stdpp Require Import base numbers list gmap strings.
From S2P Require Import Prelude Tap Net Bpf Trace Common Settings Process Socket SockPidFd Redirector.
From S2P Require Import SocketSpec.

(** ** The decision *)

(** The connect of the current process to [addr] goes to the proxy. *)
Definition redirects {E : Env} (w : world) (addr : net_addr) : bool :=
  let pid := pid_of bpf_get_current_pid_tgid in
  negb (pid =? qpid) && redirected_strategy (meta_of w pid)
  && negb (is_local_ip addr) && negb (is_management_address (f_mgmt_addrs w) addr)
  && direction_allows (direction_of w) addr.

(** The context after redirection, when the proxy address is [m]. *)
Definition to_proxy4 (m : mgmt_addrs) (ctx : bpf_sock_addr) : bpf_sock_addr :=
  ctx <| user_ip4 := ma_ipv4 m |> <| user_port := ma_port m |>.

Definition four_words (a : list Z) : list Z := map (fun i => nth i a 0) (seq 0 4).

Definition to_proxy6 (m : mgmt_addrs) (ctx : bpf_sock_addr) : bpf_sock_addr :=
  ctx <| user_ip6 := if words_v4_mapped (four_words (user_ip6 ctx)) then [0; 0; 0xffff0000; ma_ipv4 m]
                     else four_words (ma_ipv6 m) |>
      <| user_port := ma_port m |>.

(** The original destination that is remembered. *)
Definition original (words : list Z) (port : Z) : rdr_socket := RdrSocket [0; 0; 0; 0] 0 words (u16 port).

Section decision.
Context {E : Env}.

(** What a connect program returns and leaves: [sock] is remembered under the
    socket's cookie before the proxy address is looked up. *)
Definition connect_result (redirect : bool) (sock : rdr_socket) (ctx ctx' : bpf_sock_addr) (w : world)
    (r : (Z * bpf_sock_addr) * world) : Prop :=
  exists w1, same_but_trace w w1
  /\ r = if redirect then ((1, ctx'), (bpf_map_update_elem map_socks (bpf_get_socket_cookie 0) sock w1).2)
         else ((1, ctx), w1).

(** Run a connect program past its guards. *)
Ltac run_connect w :=
  match goal with |- connect_result (?fam && ?tcp && _) _ _ _ _ _ => destruct fam, tcp end;
    cbn [andb negb]; try (by exists w);
  unfold should_ignore_pid; destruct (_ =? qpid); [by exists w|]; cbn [andb negb];
  unfold bind at 1, get_process_meta, bpf_map_lookup_elem, gets; cbn [fst snd];
  change (bm_get process_meta_map w !! ?k) with (meta_of w k);
  destruct (redirected_strategy _); [|by exists w]; cbn [andb negb];
  unfold bind at 1;
  match goal with |- context [TRACE_REDIRECTOR ?pid ?msg ?args w] =>
    assert (same_but_trace w (TRACE_REDIRECTOR pid msg args w).2) as Hs by apply trace_if_enabled_same;
    generalize dependent (TRACE_REDIRECTOR pid msg args w).2
  end;
  intros w1 Hs; exists w1; split; [done|];
  pose proof Hs as (_ & H1 & H2 & _); cbv zeta;
  destruct (is_local_ip _); [done|]; unfold bind at 1, gets; cbn [fst snd]; rewrite H2;
  destruct (is_management_address _ _); [done|];
  unfold bind at 1; rewrite get_direction_setting_run; cbn [fst snd];
  unfold direction_of; rewrite H1; destruct (direction_allows _ _); [|done]; cbn [negb andb].

Lemma cg_connect4_run ctx w :
  connect_result ((user_family ctx =? AF_INET) && (sa_protocol ctx =? IPPROTO_TCP) && redirects w (connect4_addr ctx))
    (original [user_ip4 ctx; 0; 0; 0] (user_port ctx)) ctx
    match f_mgmt_addrs w !! 0 with Some m => to_proxy4 m ctx | None => ctx end w (cg_connect4 ctx w).
Proof.
  unfold cg_connect4, redirects. run_connect w.
  unfold set_ipv4_listen_addr, bind, gets, bpf_map_update_elem. cbn -[lru_update]. rewrite H2.
  by destruct (f_mgmt_addrs w !! 0).
Qed.

Lemma cg_connect6_run ctx w :
  connect_result ((sa_protocol ctx =? IPPROTO_TCP) && (user_family ctx =? AF_INET6) && redirects w (connect6_addr ctx))
    (original (four_words (user_ip6 ctx)) (user_port ctx)) ctx
    match f_mgmt_addrs w !! 0 with Some m => to_proxy6 m ctx | None => ctx end w (cg_connect6 ctx w).
Proof.
  unfold cg_connect6, redirects. run_connect w.
  unfold set_ipv6_listen_addr, bind, gets, bpf_map_update_elem. cbn -[lru_update]. rewrite H2.
  by destruct (f_mgmt_addrs w !! 0).
Qed.

End decision.

Lemma connect_result_facts {E : Env} go sock ctx ctx' w r :
  connect_result go sock ctx ctx' w r ->
  r.1 = (1, if go then ctx' else ctx)
  /\ f_map_socks (w_rdr r.2) !! bpf_get_socket_cookie 0
     = (if go then Some sock else f_map_socks (w_rdr w) !! bpf_get_socket_cookie 0)
  /\ (go = false -> w_rdr r.2 = w_rdr w)
  /\ f_map_ports (w_rdr r.2) = f_map_ports (w_rdr w) /\ w_sock r.2 = w_sock w
  /\ w_proc r.2 = w_proc w /\ w_spf r.2 = w_spf w /\ f_mgmt_addrs r.2 = f_mgmt_addrs w.
Proof.
  intros (w1 & (_ & _ & Hm & Hp & Hs & Hf & Hr & _) & ->). destruct go; cbn -[lru_update].
  - rewrite lru_update_lookup. split_and!; try done; by rewrite Hr.
  - rewrite Hr. by split_and!.
Qed.

(** The connect programs never refuse a connect.  They redirect exactly
    the TCP connects of a process with a forward or proxy strategy, other than
    qtap's own, to an address that is not local, not the proxy, and inside the
    configured direction; the original destination is remembered under the
    socket's cookie exactly then. *)
Theorem connect_decision (E : Env) ctx w :
  let go4 := (user_family ctx =? AF_INET) && (sa_protocol ctx =? IPPROTO_TCP) && redirects w (connect4_addr ctx) in
  let go6 := (sa_protocol ctx =? IPPROTO_TCP) && (user_family ctx =? AF_INET6) && redirects w (connect6_addr ctx) in
  let saved w := f_map_socks (w_rdr w) !! bpf_get_socket_cookie 0 in
  ((cg_connect4 ctx w).1
     = (1, if go4 then match f_mgmt_addrs w !! 0 with Some m => to_proxy4 m ctx | None => ctx end else ctx)
   /\ saved (cg_connect4 ctx w).2 = if go4 then Some (original [user_ip4 ctx; 0; 0; 0] (user_port ctx)) else saved w)
  /\ ((cg_connect6 ctx w).1
     = (1, if go6 then match f_mgmt_addrs w !! 0 with Some m => to_proxy6 m ctx | None => ctx end else ctx)
   /\ saved (cg_connect6 ctx w).2
      = if go6 then Some (original (four_words (user_ip6 ctx)) (user_port ctx)) else saved w).
Proof.
  intros go4 go6 saved. destruct (connect_result_facts _ _ _ _ _ _ (cg_connect4_run ctx w)) as (H1 & H2 & _).
  destruct (connect_result_facts _ _ _ _ _ _ (cg_connect6_run ctx w)) as (H3 & H4 & _). by split_and!.
Qed.

(** ** The proxy's own address *)

(** A configured proxy address: words and port at their width, the IPv6 address
    not itself an IPv4-mapped one. *)
Definition mgmt_wf (m : mgmt_addrs) : Prop :=
  0 <= ma_ipv4 m < 2 ^ 32 /\ 0 <= ma_port m < 2 ^ 16
  /\ Forall (fun x => 0 <= x < 2 ^ 32) (four_words (ma_ipv6 m))
  /\ words_v4_mapped (ma_ipv6 m) = false.

Lemma le_load_store4 x : 0 <= x < 2 ^ 32 -> le_load (le_store 4 x) = x.
Proof. intros Hx. rewrite le_load_store. by apply Z.mod_small. Qed.

(** The words a program copies into [net_addr.addr] come back. *)
Lemma addr_words_bytes a b c d dst :
  Forall (fun x => 0 <= x < 2 ^ 32) [a; b; c; d] ->
  addr_words (write_prefix (flat_map (le_store 4) [a; b; c; d]) dst) = [a; b; c; d].
Proof.
  rewrite !Forall_cons. intros (Ha & Hb & Hc & Hd & _).
  trans [le_load (le_store 4 a); le_load (le_store 4 b); le_load (le_store 4 c); le_load (le_store 4 d)];
    [reflexivity|by rewrite !le_load_store4].
Qed.

Lemma words_mapped_four a : words_v4_mapped (four_words a) = words_v4_mapped a.
Proof. done. Qed.

Lemma proxy4_managed m ctx addrs :
  mgmt_wf m -> addrs !! 0 = Some m -> user_family ctx = AF_INET ->
  is_management_address addrs (connect4_addr (to_proxy4 m ctx)) = true.
Proof.
  intros (H4 & Hp & _) Hm Hf. unfold is_management_address. rewrite Hm. cbn [na_port connect4_addr sa_family na_addr].
  change (user_port (to_proxy4 m ctx)) with (ma_port m). change (user_family (to_proxy4 m ctx)) with (user_family ctx).
  change (user_ip4 (to_proxy4 m ctx)) with (ma_ipv4 m).
  unfold u16. rewrite Z.mod_small, Z.eqb_refl, Hf by done. apply Z.eqb_eq. exact (le_load_store4 _ H4).
Qed.

Lemma proxy6_managed m ctx addrs :
  mgmt_wf m -> addrs !! 0 = Some m -> user_family ctx = AF_INET6 ->
  is_management_address addrs (connect6_addr (to_proxy6 m ctx)) = true.
Proof.
  intros (H4 & Hp & H6 & Hn) Hm Hf. unfold is_management_address. rewrite Hm.
  cbn [na_port connect6_addr sa_family na_addr].
  change (user_port (to_proxy6 m ctx)) with (ma_port m). change (user_family (to_proxy6 m ctx)) with (user_family ctx).
  unfold u16. rewrite Z.mod_small, Z.eqb_refl, Hf by done. cbn [negb AF_INET AF_INET6 Z.eqb Pos.eqb].
  unfold to_proxy6. cbn [over user_ip6]. destruct (words_v4_mapped (four_words (user_ip6 ctx))).
  - rewrite addr_words_bytes by (repeat constructor; lia). cbn [words_v4_mapped nth Z.eqb Pos.eqb andb]. apply Z.eqb_refl.
  - unfold four_words in *. cbn [map seq] in *. rewrite addr_words_bytes by done.
    change (words_v4_mapped [_; _; _; _]) with (words_v4_mapped (ma_ipv6 m)). rewrite Hn.
    cbn [forallb seq nth]. by rewrite !Z.eqb_refl.
Qed.

Lemma managed_not_redirected {E : Env} w addr :
  is_management_address (f_mgmt_addrs w) addr = true -> redirects w addr = false.
Proof. intros H. unfold redirects. rewrite H. cbn [negb]. by rewrite andb_false_r. Qed.

Lemma left_alone {E : Env} a b w addr sock ctx ctx' r :
  connect_result (a && b && redirects w addr) sock ctx ctx' w r ->
  is_management_address (f_mgmt_addrs w) addr = true -> r.1 = (1, ctx) /\ w_rdr r.2 = w_rdr w.
Proof.
  intros Hr Hm%managed_not_redirected. rewrite Hm, andb_false_r in Hr.
  destruct (connect_result_facts _ _ _ _ _ _ Hr) as (H1 & _ & H2 & _). auto.
Qed.

(** C18: no redirect loop.  A connect that was redirected once is left alone
    when it comes back to the connect programs, from any process and in any later
    state with the same proxy address, and leaves the redirection maps as they
    are. *)
Theorem no_redirect_loop (E E' : Env) ctx m w w' :
  mgmt_wf m -> f_mgmt_addrs w !! 0 = Some m -> f_mgmt_addrs w' !! 0 = Some m ->
  (let ctx1 := (@cg_connect4 E ctx w).1.2 in
   let r := @cg_connect4 E' ctx1 w' in
   ctx1 <> ctx -> r.1 = (1, ctx1) /\ w_rdr r.2 = w_rdr w')
  /\ (let ctx1 := (@cg_connect6 E ctx w).1.2 in
   let r := @cg_connect6 E' ctx1 w' in
   ctx1 <> ctx -> r.1 = (1, ctx1) /\ w_rdr r.2 = w_rdr w').
Proof.
  intros Hwf Hm Hm'. split; intros ctx1 r Hne.
  - destruct (connect_result_facts _ _ _ _ _ _ (@cg_connect4_run E ctx w)) as (H1 & _).
    assert (ctx1 = to_proxy4 m ctx /\ user_family ctx = AF_INET) as [Hc Hf].
    { unfold ctx1 in *. rewrite H1, Hm in Hne |- *. cbn [snd] in *. destruct (user_family ctx =? AF_INET) eqn:Hf; [|done].
      cbn [andb] in *. destruct (_ && _); [|done]. split; [done|lia]. }
    apply (left_alone _ _ _ _ _ _ _ _ (@cg_connect4_run E' ctx1 w')). rewrite Hc. by apply proxy4_managed.
  - destruct (connect_result_facts _ _ _ _ _ _ (@cg_connect6_run E ctx w)) as (H1 & _).
    assert (ctx1 = to_proxy6 m ctx /\ user_family ctx = AF_INET6) as [Hc Hf].
    { unfold ctx1 in *. rewrite H1, Hm in Hne |- *. cbn [snd] in *. rewrite (andb_comm (_ =? IPPROTO_TCP)) in Hne |- *.
      destruct (user_family ctx =? AF_INET6) eqn:Hf; [|done].
      cbn [andb] in *. destruct (_ && _); [|done]. split; [done|lia]. }
    apply (left_alone _ _ _ _ _ _ _ _ (@cg_connect6_run E' ctx1 w')). rewrite Hc. by apply proxy6_managed.
Qed.

(** A forwarded process 1000, the proxy at 10.0.0.1:10080 and fd00::1. *)
Definition rdr_mgmt : mgmt_addrs := MgmtAddrs (le_load [10; 0; 0; 1]) [le_load [253; 0; 0; 0]; 0; 0; 0x01000000] (bswap16 10080).
Definition rdr_env : Env := (flat_env (1000 * 2 ^ 32 + 1000) 4096 []) <| (@bpf_get_socket_cookie) := fun _ => 77 |>.
Definition rdr_world : world :=
  world_init <| f_mgmt_addrs := {[0 := rdr_mgmt]} |>
    <| w_proc ::= fun s => s <| f_process_meta := {[1000 := ProcessMeta 0 QP_FORWARD 0 true]} |> |>.

(** A connect to 1.2.3.4:443. *)
Definition rdr_connect : bpf_sock_addr := SockAddr AF_INET (le_load [1; 2; 3; 4]) [0; 0; 0; 0] (bswap16 443) IPPROTO_TCP.

Lemma no_redirect_loop_witness :
  let ctx1 := (@cg_connect4 rdr_env rdr_connect rdr_world).1.2 in
  user_ip4 ctx1 = le_load [10; 0; 0; 1] /\ user_port ctx1 = bswap16 10080
  /\ (@cg_connect4 rdr_env ctx1 rdr_world).1 = (1, ctx1).
Proof.
  intros ctx1. split; [vm_compute; reflexivity|]. split; [vm_compute; reflexivity|].
  apply (no_redirect_loop rdr_env rdr_env rdr_connect rdr_mgmt rdr_world rdr_world); try done.
  split_and!; try done. repeat constructor; done.
Defined.

(** ** Recovering the destination *)

(** The key under which [cg_sock_ops] files the client. *)
Definition sock_ops_key (ops : bpf_sock_ops) : addr_port_key :=
  AddrPortKey (if so_family ops =? AF_INET then [local_ip4 ops; 0; 0; 0] else unmap_words (local_ip6 ops))
    (bswap16 (u16 (local_port ops))).

(** The client's connection is established. *)
Definition established (ops : bpf_sock_ops) : Prop :=
  (so_family ops = AF_INET \/ so_family ops = AF_INET6) /\ so_op ops = BPF_SOCK_OPS_ACTIVE_ESTABLISHED_CB.

(** The proxy asks with enough room for the answer. *)
Definition asks (name : Z) (opt : bpf_sockopt) : Prop :=
  optname opt = name /\ (osk_family opt = AF_INET \/ osk_family opt = AF_INET6)
  /\ osk_protocol opt = IPPROTO_TCP /\ 28 <= opt_room opt.

Lemma cg_sock_ops_run {E : Env} ops sock w :
  established ops -> f_map_socks (w_rdr w) !! bpf_get_socket_cookie 0 = Some sock ->
  runs (cg_sock_ops ops) w (fun _ w' =>
    f_map_ports (w_rdr w') !! sock_ops_key ops = Some (bpf_get_socket_cookie 0)
    /\ f_map_socks (w_rdr w') = f_map_socks (w_rdr w)).
Proof.
  intros [Hf Hop] Hs. unfold cg_sock_ops. rewrite Hop.
  replace (negb (so_family ops =? AF_INET) && negb (so_family ops =? AF_INET6)) with false
    by (unfold AF_INET, AF_INET6 in *; lia).
  cbn [Z.eqb Pos.eqb orb BPF_SOCK_OPS_ACTIVE_ESTABLISHED_CB BPF_SOCK_OPS_PASSIVE_ESTABLISHED_CB].
  apply runs_bind, runs_gets. change (bm_get map_socks w) with (f_map_socks (w_rdr w)). rewrite Hs.
  split; [cbn -[lru_update]; apply lru_update_lookup|done].
Qed.

(** The answer to the proxy once the client is found. *)
Definition answer {E : Env} (w : world) (opt : bpf_sockopt) (cookie : Z) (sock : rdr_socket) : bpf_sockopt :=
  let reply len v := opt <| optlen := len |> <| optval := v |> <| opt_retval := 0 |> in
  let dst := rs_dst_addr sock in
  if optname opt =? SO_COOKIE then reply 8 (Opt_cookie cookie)
  else if optname opt =? SO_MARK then
    match f_addr_port_to_pid (w_spf w) !! sock_opt_key opt ≫= meta_of w with
    | Some meta => reply 4 (Opt_mark (if pm_tls_ok meta then 1 else 0))
    | None => opt
    end
  else if osk_family opt =? AF_INET
  then reply 16 (Opt_sockaddr_in AF_INET (if words_v4_mapped dst then nth 3 dst 0 else nth 0 dst 0) (rs_dst_port sock))
  else reply 28 (Opt_sockaddr_in6 AF_INET6 dst (rs_dst_port sock)).

Lemma cg_sock_opt_run {E : Env} name opt cookie sock w :
  asks name opt -> name = SO_ORIGINAL_DST \/ name = SO_MARK \/ name = SO_COOKIE ->
  f_map_ports (w_rdr w) !! sock_opt_key opt = Some cookie -> f_map_socks (w_rdr w) !! cookie = Some sock ->
  cg_sock_opt opt w = ((1, answer w opt cookie sock), w).
Proof.
  intros (<- & Hf & Hp & Hr) Hn Hk Hs. unfold cg_sock_opt, answer. rewrite Hp.
  replace (negb (optname opt =? SO_ORIGINAL_DST) && negb (optname opt =? SO_MARK) && negb (optname opt =? SO_COOKIE))
    with false by (unfold SO_ORIGINAL_DST, SO_MARK, SO_COOKIE in *; lia).
  replace (negb (osk_family opt =? AF_INET) && negb (osk_family opt =? AF_INET6)) with false
    by (unfold AF_INET, AF_INET6 in *; lia).
  cbn [IPPROTO_TCP Z.eqb Pos.eqb negb]. unfold bind at 1, bpf_map_lookup_elem, gets. cbn [fst snd].
  change (bm_get map_ports w) with (f_map_ports (w_rdr w)). rewrite Hk.
  unfold bind at 1. cbn [fst snd]. change (bm_get map_socks w) with (f_map_socks (w_rdr w)). rewrite Hs.
  rewrite !(proj2 (Z.ltb_ge (opt_room opt) _)) by lia.
  destruct (optname opt =? SO_COOKIE); [done|]. destruct (optname opt =? SO_MARK).
  - unfold get_process_meta, bpf_map_lookup_elem, gets, bind. cbn [fst snd].
    change (bm_get addr_port_to_pid_map w) with (f_addr_port_to_pid (w_spf w)).
    destruct (f_addr_port_to_pid (w_spf w) !! _) as [pid|]; [|done]. cbn [fst snd mbind option_bind].
    change (bm_get process_meta_map w !! pid) with (meta_of w pid). by destruct (meta_of w pid).
  - destruct Hf as [Hf | Hf]; rewrite Hf; done.
Qed.

Lemma words_mapped_v4 x : words_v4_mapped [x; 0; 0; 0] = false.
Proof. apply andb_false_r. Qed.

(** [opt] is asked on a socket whose peer is the local end of [ops], seen as an
    IPv4 or an IPv6 socket. *)
Definition peer_of (opt : bpf_sockopt) (ops : bpf_sock_ops) : Prop :=
  u16 (osk_dst_port opt) = bswap16 (u16 (local_port ops))
  /\ ((so_family ops = AF_INET /\ osk_family opt = AF_INET /\ osk_dst_ip4 opt = local_ip4 ops)
      \/ (so_family ops = AF_INET6 /\ osk_family opt = AF_INET6 /\ osk_dst_ip6 opt = local_ip6 ops)
      \/ (so_family ops = AF_INET6 /\ osk_family opt = AF_INET /\ words_v4_mapped (local_ip6 ops) = true
          /\ osk_dst_ip4 opt = nth 3 (local_ip6 ops) 0)).

(** The key the proxy's query computes for its peer is the key the
    establishment callback filed the client under, except for an IPv4-mapped
    client on an AF_INET6 socket of the proxy: there the query tests the cleared
    key instead of the address, and the two keys differ. *)
Theorem client_key_agrees opt ops :
  peer_of opt ops ->
  if (osk_family opt =? AF_INET6) && words_v4_mapped (local_ip6 ops)
  then sock_opt_key opt <> sock_ops_key ops
  else sock_opt_key opt = sock_ops_key ops.
Proof.
  intros [Hp Hc]. unfold sock_opt_key, sock_ops_key. rewrite Hp.
  destruct Hc as [(-> & -> & ->)|[(-> & -> & ->)|(-> & -> & Hm & ->)]];
    cbn [AF_INET AF_INET6 Z.eqb Pos.eqb andb]; change (words_v4_mapped [0; 0; 0; 0]) with false; cbn [andb].
  - done.
  - unfold unmap_words. destruct (words_v4_mapped (local_ip6 ops)) eqn:Hm; [|done].
    intros [= He]. rewrite He in Hm. by rewrite words_mapped_v4 in Hm.
  - unfold unmap_words. by rewrite Hm.
Qed.

(** The client's establishment and the proxy's query, in states where the
    entries of the client are the ones the programs left. *)
Record same_client (E2 : Env) (cookie : Z) (ops : bpf_sock_ops) (opt : bpf_sockopt) (w1 w2 : world) : Prop := {
  sc_cookie : @bpf_get_socket_cookie E2 0 = cookie;
  sc_established : established ops;
  sc_peer : peer_of opt ops;
  sc_socks : f_map_socks (w_rdr w2) !! cookie = f_map_socks (w_rdr (@cg_sock_ops E2 ops w1).2) !! cookie;
  sc_ports k : f_map_ports (w_rdr (@cg_sock_ops E2 ops w1).2) !! k = Some cookie -> f_map_ports (w_rdr w2) !! k = Some cookie }.

Lemma recovered (E2 E3 : Env) cookie ops opt sock w1 w2 name :
  same_client E2 cookie ops opt w1 w2 -> (osk_family opt =? AF_INET6) && words_v4_mapped (local_ip6 ops) = false -> asks name opt ->
  name = SO_ORIGINAL_DST \/ name = SO_MARK \/ name = SO_COOKIE ->
  f_map_socks (w_rdr w1) !! cookie = Some sock ->
  @cg_sock_opt E3 opt w2 = ((1, answer w2 opt cookie sock), w2).
Proof.
  intros [Hck Hest Hkey%client_key_agrees H2 H3] Hm Hask Hn H1. rewrite Hm in Hkey. rewrite <- Hck in H1.
  destruct (cg_sock_ops_run ops _ w1 Hest H1) as [Hport Hsocks]. rewrite Hck in H1, Hport.
  apply H3 in Hport. rewrite Hsocks, H1 in H2. rewrite <- Hkey in Hport.
  exact (cg_sock_opt_run _ opt cookie _ w2 Hask Hn Hport H2).
Qed.


(** The client is 10.0.0.9:40000. *)
Definition rdr_ops : bpf_sock_ops :=
  SockOps AF_INET BPF_SOCK_OPS_ACTIVE_ESTABLISHED_CB (le_load [10; 0; 0; 9]) [0; 0; 0; 0] 40000.
Definition rdr_opt (name : Z) : bpf_sockopt :=
  SockOpt name AF_INET IPPROTO_TCP (bswap16 40000) (le_load [10; 0; 0; 9]) [0; 0; 0; 0] 28 0 0 Opt_unset.


(** The proxy recovers the destination of an IPv6 client.  On an accepted
    AF_INET6 socket it is the client's full address; on an accepted AF_INET socket,
    which is where an IPv4-mapped destination is redirected, the IPv4 address
    inside it. *)
Theorem original_dst_v6 (E1 E2 E3 : Env) ctx ops opt w w1 w2 :
  user_family ctx = AF_INET6 -> sa_protocol ctx = IPPROTO_TCP -> @redirects E1 w (connect6_addr ctx) = true ->
  let cookie := @bpf_get_socket_cookie E1 0 in
  let dst := four_words (user_ip6 ctx) in
  f_map_socks (w_rdr w1) !! cookie = f_map_socks (w_rdr (@cg_connect6 E1 ctx w).2) !! cookie ->
  same_client E2 cookie ops opt w1 w2 -> (osk_family opt =? AF_INET6) && words_v4_mapped (local_ip6 ops) = false ->
  asks SO_ORIGINAL_DST opt ->
  let r := (@cg_sock_opt E3 opt w2).1.2 in
  (osk_family opt = AF_INET6 -> optval r = Opt_sockaddr_in6 AF_INET6 dst (u16 (user_port ctx)))
  /\ (osk_family opt = AF_INET -> words_v4_mapped dst = true ->
      optval r = Opt_sockaddr_in AF_INET (nth 3 dst 0) (u16 (user_port ctx))).
Proof.
  intros Hf Hp Hgo cookie dst H1 Hcl Hm Hask r.
  destruct (connect_result_facts _ _ _ _ _ _ (@cg_connect6_run E1 ctx w)) as (_ & Hs & _).
  rewrite Hf, Hp, Hgo in Hs. cbn [AF_INET6 IPPROTO_TCP Z.eqb Pos.eqb andb] in Hs. fold cookie in Hs. rewrite Hs in H1.
  unfold r. rewrite (recovered E2 E3 cookie ops opt _ w1 w2 _ Hcl Hm Hask ltac:(auto) H1). cbn [fst snd].
  unfold answer. destruct Hask as (-> & _). cbn [rs_dst_addr rs_dst_port original]. fold dst.
  split; intros ->; [done|]. intros ->. done.
Qed.

(** A client at ::ffff:10.0.0.9 connects to ::ffff:1.2.3.4. *)
Definition rdr_connect6 : bpf_sock_addr :=
  SockAddr AF_INET6 0 [0; 0; 0xffff0000; le_load [1; 2; 3; 4]] (bswap16 443) IPPROTO_TCP.
Definition rdr_ops6 : bpf_sock_ops :=
  SockOps AF_INET6 BPF_SOCK_OPS_ACTIVE_ESTABLISHED_CB 0 [0; 0; 0xffff0000; le_load [10; 0; 0; 9]] 40000.

Lemma original_dst_v6_witness :
  let w1 := (@cg_connect6 rdr_env rdr_connect6 rdr_world).2 in
  let w2 := (@cg_sock_ops rdr_env rdr_ops6 w1).2 in
  optval (@cg_sock_opt rdr_env (rdr_opt SO_ORIGINAL_DST) w2).1.2
  = Opt_sockaddr_in AF_INET (le_load [1; 2; 3; 4]) (bswap16 443).
Proof.
  intros w1 w2. apply (original_dst_v6 rdr_env rdr_env rdr_env rdr_connect6 rdr_ops6 (rdr_opt SO_ORIGINAL_DST)
    rdr_world w1 w2); try done.
  - split; try done; [split; [by right|done]|]. split; [done|]. right. by right.
  - split_and!; try done. by left.
Defined.

(** ** Client keys *)

Lemma client_key_agrees_witness : sock_opt_key (rdr_opt SO_ORIGINAL_DST) = sock_ops_key rdr_ops6.
Proof. apply (client_key_agrees (rdr_opt SO_ORIGINAL_DST) rdr_ops6). split; [done|]. right; right. done. Defined.

(** The redirection maps as the programs and the rest of the object drive them. *)
Inductive rdr_reachable : world -> Prop :=
| rdr_init : rdr_reachable world_init
| rdr_connect4_step (E : Env) ctx w : rdr_reachable w -> rdr_reachable (cg_connect4 ctx w).2
| rdr_connect6_step (E : Env) ctx w : rdr_reachable w -> rdr_reachable (cg_connect6 ctx w).2
| rdr_sock_ops_step (E : Env) ops w : rdr_reachable w -> rdr_reachable (cg_sock_ops ops w).2
| rdr_other w w' : rdr_reachable w -> w_rdr w' = w_rdr w -> rdr_reachable w'.

(** Every client is filed under its IPv4 address when it has one. *)
Definition keys_unmapped (w : world) : Prop :=
  forall k c, f_map_ports (w_rdr w) !! k = Some c -> words_v4_mapped (ap_addr k) = false.

Lemma sock_ops_key_unmapped ops : words_v4_mapped (ap_addr (sock_ops_key ops)) = false.
Proof.
  unfold sock_ops_key. cbn [ap_addr]. destruct (_ =? AF_INET); [apply words_mapped_v4|].
  unfold unmap_words. destruct (words_v4_mapped (local_ip6 ops)) eqn:Hm; [apply words_mapped_v4|done].
Qed.

Lemma lru_update_Some {K V} `{Countable K} keep max (k : K) (v : V) m j x :
  lru_update keep max k v m !! j = Some x -> j = k \/ m !! j = Some x.
Proof.
  unfold lru_update. destruct (_ || _); intros [[<- _]|[_ Hj]]%lookup_insert_Some; auto.
  apply map_lookup_filter_Some in Hj as [? _]. auto.
Qed.

Lemma sock_ops_keeps_keys {E : Env} ops w : keys_unmapped w -> keys_unmapped (cg_sock_ops ops w).2.
Proof.
  intros Hk. unfold cg_sock_ops. destruct (_ && _); [done|]. cbv zeta. destruct (_ || _); [|done].
  unfold bind at 1, bpf_map_lookup_elem, gets. cbn [fst snd]. destruct (bm_get map_socks w !! _); [|done].
  unfold bind. cbn -[lru_update]. intros k c [-> | Hm]%lru_update_Some; [|by eapply Hk].
  apply sock_ops_key_unmapped.
Qed.

Lemma rdr_reachable_keys w : rdr_reachable w -> keys_unmapped w.
Proof.
  induction 1 as [|E ctx w _ IH|E ctx w _ IH|E ops w _ IH|w w' _ IH Hr]; [by intros k c|..].
  - destruct (connect_result_facts _ _ _ _ _ _ (cg_connect4_run ctx w)) as (_ & _ & _ & Hp & _).
    unfold keys_unmapped. by rewrite Hp.
  - destruct (connect_result_facts _ _ _ _ _ _ (cg_connect6_run ctx w)) as (_ & _ & _ & Hp & _).
    unfold keys_unmapped. by rewrite Hp.
  - by apply sock_ops_keeps_keys.
  - unfold keys_unmapped. by rewrite Hr.
Qed.

(** In every state the programs can reach, the query of a proxy that
    accepts on an AF_INET6 socket is never answered for an IPv4-mapped client: the
    option, its length and the return value are left as the kernel set them. *)
Theorem mapped_peer_unanswered (E : Env) opt w :
  rdr_reachable w -> osk_family opt = AF_INET6 -> words_v4_mapped (osk_dst_ip6 opt) = true ->
  cg_sock_opt opt w = ((1, opt), w).
Proof.
  intros Hw%rdr_reachable_keys Hf Hm. unfold cg_sock_opt. destruct (_ && _); [done|]. destruct (_ && _); [done|].
  destruct (negb _); [done|]. cbv zeta. unfold bind at 1, bpf_map_lookup_elem, gets. cbn [fst snd].
  destruct (bm_get map_ports w !! sock_opt_key opt) as [c|] eqn:Hk; [|done].
  apply Hw in Hk. unfold sock_opt_key in Hk. rewrite Hf in Hk. cbn [AF_INET AF_INET6 Z.eqb Pos.eqb ap_addr] in Hk.
  change (words_v4_mapped [0; 0; 0; 0]) with false in Hk. cbn in Hk, Hm. congruence.
Qed.

Lemma mapped_peer_unanswered_witness :
  let opt := SockOpt SO_ORIGINAL_DST AF_INET6 IPPROTO_TCP (bswap16 40000) 0
               [0; 0; 0xffff0000; le_load [10; 0; 0; 9]] 28 0 0 Opt_unset in
  let w := (@cg_sock_ops rdr_env rdr_ops6 (@cg_connect6 rdr_env rdr_connect6
              rdr_world).2).2 in
  f_map_ports (w_rdr w) !! sock_ops_key rdr_ops6 = Some 77 /\ @cg_sock_opt rdr_env opt w = ((1, opt), w).
Proof.
  intros opt w. split; [vm_compute; reflexivity|]. apply (mapped_peer_unanswered rdr_env opt w); try done.
  apply rdr_sock_ops_step, rdr_connect6_step. exact (rdr_other world_init rdr_world rdr_init eq_refl).
Defined.
