(* ===== verification/SockPidFdSpec.v ===== *)
(** * Descriptors and source addresses over their life

    Properties of [bpf/tap/sock_pid_fd.bpf.c]: the three kernel probes that link
    a descriptor to its socket, the probe that unlinks it, and the ownership of
    TCP source addresses. *)

From stdpp Require Import base numbers list gmap strings.
From S2P Require Import Prelude Tap Net Bpf Trace Common Settings Process Socket SocketProbes SockPidFd.
From S2P Require Import Redirector SocketInv SocketSpec SocketTotals RedirectorSpec.

(** Room in a map of this component. *)
Definition room {K V} `{Countable K} (k : K) (m : gmap K V) : Prop := has_room 16384 k m.

(** ** Descriptors *)

(** The key of a descriptor that the current process installs. *)
Definition installed_key {E : Env} (fd : Z) : pid_fd_key := PidFd (pid_of bpf_get_current_pid_tgid) (s32 fd).

Lemma installed_key_eq {E : Env} fd :
  PidFd (u32 (s32 (Z.shiftr bpf_get_current_pid_tgid 32))) (s32 fd) = installed_key fd.
Proof.
  unfold installed_key, pid_of. f_equal. unfold u32, s32.
  rewrite Zminus_mod, Z.mod_mod, <- Zminus_mod by lia. f_equal. lia.
Qed.

(** When the kernel allocates the file of a socket and installs it under
    a descriptor (from the same thread for the allocation, from any process for the
    installation), the descriptor is linked to that socket, the file to the
    descriptor, and the two intermediate entries are gone. *)
Theorem descriptor_linked (E1 E2 E3 : Env) sock file fd w :
  @bpf_get_current_pid_tgid E2 = @bpf_get_current_pid_tgid E1 ->
  let tid := @bpf_get_current_pid_tgid E1 in
  let key := @installed_key E3 fd in
  let s := w_spf w in
  room tid (f_sock_alloc_file_args s) -> room file (f_file_to_sock s) ->
  room key (f_pid_fd_to_sock s) -> room file (f_file_to_pid_fd s) ->
  let w1 := (@track_sock_alloc_file_entry E1 sock w).2 in
  let w2 := (@track_sock_alloc_file_ret E2 file w1).2 in
  let w3 := (@track_fd_install_entry E3 fd file w2).2 in
  w_spf w3 = s <| f_sock_alloc_file_args := delete tid (f_sock_alloc_file_args s) |>
               <| f_file_to_sock := delete file (f_file_to_sock s) |>
               <| f_file_to_pid_fd := <[file:=key]> (f_file_to_pid_fd s) |>
               <| f_pid_fd_to_sock := <[key:=sock]> (f_pid_fd_to_sock s) |>.
Proof.
  intros He tid key s R1 R2 R3 R4 w1 w2 w3.
  assert (w1 = w <| w_spf := s <| f_sock_alloc_file_args := <[tid:=sock]> (f_sock_alloc_file_args s) |> |>) as Hw1.
  { unfold w1, track_sock_alloc_file_entry, bind. by rewrite update_elem_room. }
  assert (w2 = w <| w_spf := s <| f_sock_alloc_file_args := delete tid (f_sock_alloc_file_args s) |>
                             <| f_file_to_sock := <[file:=sock]> (f_file_to_sock s) |> |>) as Hw2.
  { unfold w2, track_sock_alloc_file_ret, bpf_map_lookup_elem, gets, bind. rewrite He. fold tid.
    rewrite Hw1. cbn -[bpf_map_update_elem]. rewrite lookup_insert_eq. rewrite update_elem_room by done.
    cbn. by rewrite delete_insert_eq. }
  unfold w3, track_fd_install_entry, bpf_map_lookup_elem, gets, bind. rewrite Hw2, installed_key_eq.
  cbn -[bpf_map_update_elem]. rewrite lookup_insert_eq. fold key.
  rewrite update_elem_room by done. cbn -[bpf_map_update_elem]. rewrite update_elem_room by done.
  cbn. by rewrite delete_insert_eq.
Qed.

(** Socket 1 gets file 9, installed as descriptor 5 of process 1000. *)
Lemma descriptor_linked_witness :
  let w1 := (@track_sock_alloc_file_entry demo_env 1 world_init).2 in
  let w2 := (@track_sock_alloc_file_ret demo_env 9 w1).2 in
  let w3 := (@track_fd_install_entry demo_env 5 9 w2).2 in
  f_pid_fd_to_sock (w_spf w3) = {[PidFd 1000 5 := 1]} /\ f_file_to_sock (w_spf w3) = ∅.
Proof.
  intros w1 w2 w3. assert (w_spf w3 = _) as ->
    by (apply (descriptor_linked demo_env demo_env demo_env 1 9 5 world_init); [done|by right..]).
  split; vm_compute; reflexivity.
Defined.

(** The close event owed for descriptor [key]: one if its connection was reported. *)
Definition close_owed {E : Env} (w : world) (key : pid_fd_key) (ts : Z) : list socket_event :=
  match f_conn_info (w_sock w) !! key with
  | Some ci =>
      if ci_is_open ci
      then [Ev_close (CloseEvent S_CLOSE ts (ci_conn_pid_id ci) (ci_cookie ci) (ci_wr_bytes ci) (ci_rd_bytes ci)
                        (k_pid key) (tid_of bpf_get_current_pid_tgid))]
      else []
  | None => []
  end.

Lemma process_close_run {E : Env} key name w :
  (forall k, ringbuf_room k = true) ->
  runs (process_close (sock_ctx key name)) w (fun _ w' =>
    w_spf w' = w_spf w /\ f_conn_info (w_sock w') = delete key (f_conn_info (w_sock w))
    /\ exists ts, socket_events (w_sock w') = socket_events (w_sock w) ++ close_owed w key ts).
Proof.
  intros Hroom. unfold process_close. cbn [sc_id sock_ctx]. apply runs_bind, runs_gets.
  unfold close_owed. change (bm_get conn_info_map w) with (f_conn_info (w_sock w)).
  destruct (f_conn_info (w_sock w) !! key) as [ci|] eqn:Hl.
  - apply runs_bind. destruct (ci_is_open ci).
    + unfold bpf_ringbuf_reserve, bpf_ktime_get_ns, tick, bind, runs. cbn [fst snd ret]. rewrite Hroom. by split_and!; [..|eexists].
    + apply runs_ret. split_and!; [done..|]. exists 0. by rewrite app_nil_r.
  - apply runs_ret. split_and!; [done|by rewrite delete_id|]. exists 0. by rewrite app_nil_r.
Qed.

(** When the last reference to a file goes away, its descriptor is
    unlinked and its connection forgotten; if the connection was still reported as
    open (the process died or the close system call was missed), its close event is
    emitted then, and otherwise no event is. *)
Theorem descriptor_released (E : Env) file key w :
  f_file_to_pid_fd (w_spf w) !! file = Some key -> (forall k, ringbuf_room k = true) ->
  let w' := (cleanup_pid_fd_file_entries file w).2 in
  f_file_to_pid_fd (w_spf w') = delete file (f_file_to_pid_fd (w_spf w))
  /\ f_pid_fd_to_sock (w_spf w') = delete key (f_pid_fd_to_sock (w_spf w))
  /\ f_conn_info (w_sock w') = delete key (f_conn_info (w_sock w))
  /\ exists ts, socket_events (w_sock w') = socket_events (w_sock w) ++ close_owed w key ts.
Proof.
  intros Hk Hroom. set (Q := fun w' => w_spf w' = w_spf w /\ f_conn_info (w_sock w') = delete key (f_conn_info (w_sock w))
    /\ exists ts, socket_events (w_sock w') = socket_events (w_sock w) ++ close_owed w key ts).
  cut (runs (cleanup_pid_fd_file_entries file) w (fun _ w' => exists w1, Q w1
    /\ w' = w1 <| w_spf ::= fun s => s <| f_file_to_pid_fd ::= delete file |> <| f_pid_fd_to_sock ::= delete key |> |>)).
  { intros (w1 & (H1 & H2 & H3) & ->). cbn. by rewrite H1. }
  unfold cleanup_pid_fd_file_entries. apply runs_bind, runs_gets.
  change (bm_get active_file_to_pid_fd_map w) with (f_file_to_pid_fd (w_spf w)). rewrite Hk.
  apply runs_bind, runs_gets. apply runs_bind. eapply (runs_mono _ _ (fun _ => Q)).
  2:{ intros _ w1 HQ. by exists w1. }
  destruct (bm_get conn_info_map w !! key) as [ci|] eqn:Hl; [by apply process_close_run|].
  apply runs_ret. unfold Q, close_owed. change (f_conn_info (w_sock w) !! key = None) in Hl. rewrite Hl, delete_id by done.
  split_and!; [done..|]. exists 0. by rewrite app_nil_r.
Qed.

Lemma descriptor_released_witness :
  let w := (demo_state (demo_open <| ci_wr_bytes := 12 |>))
             <| w_spf ::= fun s => s <| f_file_to_pid_fd := {[9 := PidFd 1000 5]} |> |> in
  let w' := (@cleanup_pid_fd_file_entries demo_env 9 w).2 in
  f_pid_fd_to_sock (w_spf w') = ∅ /\ f_conn_info (w_sock w') = ∅
  /\ exists ts, socket_events (w_sock w') = [Ev_close (CloseEvent S_CLOSE ts demo_cp 7 12 0 1000 1000)].
Proof.
  intros w w'. destruct (descriptor_released demo_env 9 (PidFd 1000 5) w) as (_ & H2 & H3 & H4); [done|done|].
  split; [etrans; [exact H2|vm_compute; reflexivity]|]. split; [etrans; [exact H3|vm_compute; reflexivity]|exact H4].
Defined.

(** ** Source addresses *)

Definition source4 {E : Env} (sk : Z) : addr_port_key :=
  AddrPortKey [le_load (skc_rcv_saddr sk); 0; 0; 0] (bswap16 (skc_num sk)).
Definition source6 {E : Env} (sk : Z) : addr_port_key :=
  AddrPortKey (unmap_words (addr_words (skc_v6_rcv_saddr sk))) (bswap16 (skc_num sk)).

Lemma record_source_run {E : Env} key cookie w :
  room key (f_addr_port_to_pid (w_spf w)) -> room cookie (f_tcp_source_addr (w_spf w)) ->
  record_source key cookie w
  = (0, w <| w_spf ::= fun s => s <| f_addr_port_to_pid := <[key:=pid_of bpf_get_current_pid_tgid]> (f_addr_port_to_pid s) |>
                                  <| f_tcp_source_addr := <[cookie:=key]> (f_tcp_source_addr s) |> |>).
Proof. intros R1 R2. unfold record_source, bind. by rewrite !update_elem_room. Qed.

Lemma tcp_close_saved {E : Env} sk key w :
  f_tcp_source_addr (w_spf w) !! skc_cookie sk = Some key ->
  trace_tcp_close sk w
  = (0, w <| w_spf ::= fun s => s <| f_addr_port_to_pid := delete key (f_addr_port_to_pid s) |>
                                  <| f_tcp_source_addr := delete (skc_cookie sk) (f_tcp_source_addr s) |> |>).
Proof.
  intros Hs. unfold trace_tcp_close, bind, bpf_map_lookup_elem, gets. cbn [fst snd].
  change (bm_get active_tcp_source_addr_map w) with (f_tcp_source_addr (w_spf w)). by rewrite Hs.
Qed.

(** A connecting process owns its source address until the socket is
    closed: [connect] on an IPv4 or IPv6 socket files the process under it (an
    IPv4-mapped address under its IPv4 form), and closing the same socket removes
    exactly what was filed. *)
Theorem source_owned_until_close (E1 E2 : Env) (v6 : bool) sk w :
  let key := if v6 then @source6 E1 sk else @source4 E1 sk in
  let cookie := @bpf_get_socket_cookie E1 sk in
  @skc_cookie E2 sk = cookie ->
  room key (f_addr_port_to_pid (w_spf w)) -> room cookie (f_tcp_source_addr (w_spf w)) ->
  let w1 := ((if v6 then @trace_tcp_v6_connect_fexit E1 sk else @trace_tcp_v4_connect_fexit E1 sk) w).2 in
  let w2 := (@trace_tcp_close E2 sk w1).2 in
  f_addr_port_to_pid (w_spf w1) !! key = Some (pid_of (@bpf_get_current_pid_tgid E1))
  /\ f_addr_port_to_pid (w_spf w2) = delete key (f_addr_port_to_pid (w_spf w))
  /\ f_tcp_source_addr (w_spf w2) = delete cookie (f_tcp_source_addr (w_spf w)).
Proof.
  intros key cookie Hck R1 R2 w1 w2.
  assert (w1 = (@record_source E1 key cookie w).2) as Hw1 by (by destruct v6).
  rewrite record_source_run in Hw1 by done.
  assert (w2 = (@trace_tcp_close E2 sk w1).2) as Hw2 by done. rewrite (@tcp_close_saved E2 sk key w1) in Hw2.
  2:{ rewrite Hw1, Hck. cbn. apply lookup_insert_eq. }
  rewrite Hw2, Hck, Hw1. cbn. rewrite lookup_insert_eq, !delete_insert_eq. done.
Qed.

(** The TCP client of the redirection example, 10.0.0.9:40000. *)
Definition source_env : Env :=
  rdr_env <| (@skc_cookie) := fun _ => 77 |> <| (@skc_rcv_saddr) := fun _ => [10; 0; 0; 9] |>
    <| (@skc_num) := fun _ => 40000 |>.

Lemma source_owned_until_close_witness :
  let w1 := (@trace_tcp_v4_connect_fexit source_env 1 rdr_world).2 in
  let w2 := (@trace_tcp_close source_env 1 w1).2 in
  f_addr_port_to_pid (w_spf w1) !! @source4 source_env 1 = Some 1000 /\ f_addr_port_to_pid (w_spf w2) = ∅.
Proof.
  intros w1 w2. destruct (source_owned_until_close source_env source_env false 1 rdr_world) as (H1 & H2 & _);
    [done|by right|by right|]. split; [exact H1|]. etrans; [exact H2|vm_compute; reflexivity].
Defined.

(** The TLS decision of the client's process reaches the proxy.  Once an
    IPv4 client process has connected from its source address and been redirected,
    the proxy's [SO_MARK] query on the accepted socket answers 1 exactly when TLS
    interception is enabled for that process. *)
Theorem tls_decision_reaches_proxy (E1 E2 E3 : Env) sk ops opt cookie sock meta w w1 w2 :
  room (@source4 E1 sk) (f_addr_port_to_pid (w_spf w)) ->
  room (@bpf_get_socket_cookie E1 sk) (f_tcp_source_addr (w_spf w)) ->
  f_map_socks (w_rdr w1) !! cookie = Some sock ->
  same_client E2 cookie ops opt w1 w2 -> asks SO_MARK opt -> osk_family opt = AF_INET -> sock_opt_key opt = @source4 E1 sk ->
  f_addr_port_to_pid (w_spf w2) !! @source4 E1 sk
    = f_addr_port_to_pid (w_spf (@trace_tcp_v4_connect_fexit E1 sk w).2) !! @source4 E1 sk ->
  meta_of w2 (pid_of (@bpf_get_current_pid_tgid E1)) = Some meta ->
  optval (@cg_sock_opt E3 opt w2).1.2 = Opt_mark (if pm_tls_ok meta then 1 else 0).
Proof.
  intros R1 R2 Hs Hcl Hask Hof Hkey Hpid Hmeta.
  rewrite (recovered E2 E3 cookie ops opt sock w1 w2 _ Hcl ltac:(by rewrite Hof) Hask ltac:(auto) Hs). cbn [fst snd].
  unfold trace_tcp_v4_connect_fexit in Hpid. fold (@source4 E1 sk) in Hpid. rewrite record_source_run in Hpid by done.
  cbn in Hpid. rewrite lookup_insert_eq in Hpid. unfold answer. destruct Hask as (-> & _).
  rewrite Hkey, Hpid. cbn [mbind option_bind]. by rewrite Hmeta.
Qed.

Lemma tls_decision_reaches_proxy_witness :
  let w := (@cg_connect4 rdr_env rdr_connect rdr_world).2 in
  let w1 := (@trace_tcp_v4_connect_fexit source_env 1 w).2 in
  let w2 := (@cg_sock_ops rdr_env rdr_ops w1).2 in
  optval (@cg_sock_opt rdr_env (rdr_opt SO_MARK) w2).1.2 = Opt_mark 1.
Proof.
  intros w w1 w2. apply (tls_decision_reaches_proxy source_env rdr_env rdr_env 1 rdr_ops (rdr_opt SO_MARK) 77
    (original [le_load [1; 2; 3; 4]; 0; 0; 0] (bswap16 443)) (ProcessMeta 0 QP_FORWARD 0 true) w w1 w2);
    try done; try by right.
  - split; try done; [split; [by left|done]|]. split; [done|]. by left.
  - split_and!; try done. by left.
Defined.
