(* ===== verification/TlsSpec.v ===== *)
(** * What the TLS probes promise

    Which descriptor an [SSL] object resolves to, that plaintext is reported under
    the connection whose system call carried the ciphertext, and the same for node
    and Go, where the descriptor is read from the process. *)

From stdpp Require Import base numbers list gmap strings.
From S2P Require Import Prelude Tap Net Bpf Trace Common Settings Process Buffers Protocol.
From S2P Require Import Socket SocketProbes NodeTls OpenSsl GoTls SocketInv SocketSpec SocketTotals System SocketCalls.

(** ** Descriptor resolution *)

(** The first positive descriptor, 0 without one. *)
Definition first_fd : list Z -> Z := foldr (fun fd rest => if fd >? 0 then fd else rest) 0.

Definition request_fd (w : world) (pid_tgid : Z) : Z :=
  match f_uprobe_fd_requests (w_sock w) !! pid_tgid with Some r => s32 (fr_fd r) | None => 0 end.

Definition cached_fd (w : world) (ssl : Z) : Z := default 0 (f_ssl_to_fd (w_tls w) !! ssl).

(** The state without the thread's request. *)
Definition forget_request (pid_tgid : Z) (w : world) : world :=
  w <| w_sock ::= fun s => s <| f_uprobe_fd_requests ::= delete pid_tgid |> |>.

Section resolution.
Context {E : Env}.

#[local] Hint Extern 4 (respects same_but_trace (bpf_map_lookup_elem _ _)) => (intros ?; reflexivity) : respects.

Lemma get_fd_from_node_same pid_tgid ssl : respects same_but_trace (get_fd_from_node pid_tgid ssl).
Proof.
  unfold get_fd_from_node, get_tlswrap_from_ssl, get_fd_from_tlswrap, TRACE_NODETLS. respects.
Qed.

Lemma forget_request_none pid_tgid w :
  f_uprobe_fd_requests (w_sock w) !! pid_tgid = None -> forget_request pid_tgid w = w.
Proof. intros Hn. destruct w as [?????[] ???]. cbn in *. unfold forget_request, over. cbn.
  by rewrite delete_id.
Qed.

Lemma same_forget pid_tgid w w' :
  same_but_trace w w' -> same_but_trace (forget_request pid_tgid w) (forget_request pid_tgid w').
Proof. intros (? & ? & ? & ? & Hs & ? & ? & ? & ? & ?). split_and!; try done. cbn. by rewrite Hs. Qed.

Lemma get_fd_from_syscall_run pid_tgid w :
  runs (get_fd_from_syscall pid_tgid) w (fun fd w' =>
    fd = request_fd w pid_tgid /\ same_but_trace (forget_request pid_tgid w) w').
Proof.
  unfold get_fd_from_syscall, request_fd. apply runs_bind, runs_gets.
  change (bm_get uprobe_fd_requests w) with (f_uprobe_fd_requests (w_sock w)).
  destruct (_ !! pid_tgid) as [r|] eqn:Hr; [done|]. rewrite forget_request_none by done.
  apply (runs_same (TRACE_OPENSSL _ _ _)); [unfold TRACE_OPENSSL; respects|]. by intros _ w'.
Qed.

(** The resolution and its effect. *)
Lemma get_fd_run pid_tgid ssl w :
  runs (get_fd pid_tgid ssl) w (fun fd w' =>
    let node := (get_fd_from_node pid_tgid ssl w).1 in
    fd = first_fd [node; request_fd w pid_tgid; cached_fd w ssl]
    /\ same_but_trace (if node >? 0 then w else forget_request pid_tgid w) w').
Proof.
  unfold get_fd, ssl_get_fd, first_fd. cbn [foldr]. apply runs_bind. unfold runs at 1.
  pose proof (get_fd_from_node_same pid_tgid ssl w) as Hn.
  set (node := (get_fd_from_node pid_tgid ssl w).1). set (w1 := (get_fd_from_node pid_tgid ssl w).2) in *.
  destruct (node >? 0); [done|]. apply runs_bind. eapply runs_mono; [apply get_fd_from_syscall_run|].
  intros fd w2 [-> H2]. pose proof (same_forget pid_tgid _ _ Hn) as H1.
  assert (Hs : same_but_trace (forget_request pid_tgid w) w2) by (etrans; [exact H1|exact H2]).
  assert (request_fd w1 pid_tgid = request_fd w pid_tgid) as ->.
  { unfold request_fd. destruct Hn as (_ & _ & _ & _ & -> & _). done. }
  destruct (request_fd w pid_tgid >? 0); [done|]. unfold get_fd_from_cache. do 2 apply runs_bind. apply runs_gets.
  assert (Hc : bm_get ssl_to_fd_map w2 !! ssl = f_ssl_to_fd (w_tls w) !! ssl).
  { destruct Hs as (_ & _ & _ & _ & _ & _ & _ & _ & _ & Ht). cbn. by rewrite Ht. }
  rewrite Hc. unfold cached_fd. destruct (f_ssl_to_fd (w_tls w) !! ssl) as [fd|]; cbn [default]; [|done].
  apply runs_ret. cbv [id]. by destruct (fd >? 0); apply runs_ret.
Qed.

End resolution.

(** The descriptor of an [SSL] object is the first positive one of three:
    node's own object, the system call the thread made since the call was entered,
    the cache of earlier calls.  The thread's request is consumed unless node
    answered, and nothing else changes but the trace. *)
Theorem fd_resolution (E : Env) pid_tgid ssl w :
  let node := (get_fd_from_node pid_tgid ssl w).1 in
  let r := get_fd pid_tgid ssl w in
  r.1 = first_fd [node; request_fd w pid_tgid; cached_fd w ssl]
  /\ same_but_trace (if node >? 0 then w else forget_request pid_tgid w) r.2.
Proof. apply get_fd_run. Qed.

(** ** Plaintext follows the ciphertext *)

(** A TLS connection past its handshake whose plaintext is to be streamed. *)
Record tls_streamed {E : Env} (id : pid_fd_key) (ci : conn_info) (w : world) : Prop := {
  ts_conn : f_conn_info (w_sock w) !! id = Some ci;
  ts_open : ci_is_open ci = true;
  ts_cookie : ci_cookie ci <> 0;
  ts_ssl : ci_is_ssl ci = true;
  ts_ignore : ci_ignore ci = false;
  ts_proto : ci_protocol ci <> P_UNKNOWN;
  ts_traffic : ci_rd_bytes ci <> 0 /\ ci_wr_bytes ci <> 0;
  ts_obs : observed w (k_pid id);
  ts_skip : skipped w (k_pid id) ci = false;
  ts_stream : streamed w ci = true }.

(** What the report itself needs of these. *)
Record tls_reported {E : Env} (id : pid_fd_key) (ci : conn_info) (w : world) : Prop := {
  tr_conn : f_conn_info (w_sock w) !! id = Some ci;
  tr_open : ci_is_open ci = true;
  tr_ignore : ci_ignore ci = false;
  tr_proto : ci_protocol ci <> P_UNKNOWN;
  tr_ssl : ci_is_ssl ci = true;
  tr_obs : observed w (k_pid id);
  tr_skip : skipped w (k_pid id) ci = false;
  tr_stream : streamed w ci = true }.

(** The state [w] while the thread is inside an OpenSSL call entered in [w0]: its
    request stands, and holds [fd] once a system call has answered it. *)
Record during {E : Env} (w0 : world) (fd : Z) (ci : conn_info) (answered : bool) (w : world) : Prop := {
  du_events : socket_events (w_sock w) = socket_events (w_sock w0);
  du_settings : f_socket_settings w = f_socket_settings w0;
  du_proc : w_proc w = w_proc w0;
  du_tls : w_tls w = w_tls w0;
  du_conn : f_conn_info (w_sock w) !! current_id fd = Some ci;
  du_request : exists r, f_uprobe_fd_requests (w_sock w) !! bpf_get_current_pid_tgid = Some r
    /\ (answered = true -> s32 (fr_fd r) = fd) }.

Section inside.
Context {E : Env} (w0 : world) (fd : Z) (Hfd : - 2 ^ 31 <= fd < 2 ^ 31).

Lemma during_same ci b w w' : same_but_trace w w' -> during w0 fd ci b w -> during w0 fd ci b w'.
Proof. intros (_ & Hs & _ & Hp & Hk & _ & _ & _ & _ & Ht) []. split; rewrite ?Hs, ?Hp, ?Hk, ?Ht; done. Qed.

Lemma during_trace {A} (m : M world A) ci b w :
  respects same_but_trace m -> during w0 fd ci b w -> during w0 fd ci b (m w).2.
Proof. intros Hm. by apply during_same. Qed.

(** The system-call probes write their own maps. *)
Lemma during_fd_args ci b w k v :
  during w0 fd ci b w -> during w0 fd ci b (bpf_map_update_elem active_fd_args_map k v w).2
  /\ during w0 fd ci b (bpf_map_delete_elem active_fd_args_map k w).2.
Proof. intros []. by do 2 split. Qed.

Lemma during_args m ci b w k v :
  m = active_write_args_map \/ m = active_read_args_map -> during w0 fd ci b w ->
  during w0 fd ci b (bpf_map_update_elem m k v w).2 /\ during w0 fd ci b (bpf_map_delete_elem m k w).2.
Proof. intros [-> | ->] []; by do 2 split. Qed.

Lemma during_respond ci b w :
  during w0 fd ci b w -> during w0 fd ci true (respond_to_fd_request bpf_get_current_pid_tgid fd w).2.
Proof.
  intros [???? Hc (r & Hr & _)]. unfold respond_to_fd_request, bpf_map_lookup_elem, gets, bind. cbn [fst snd].
  change (bm_get uprobe_fd_requests w) with (f_uprobe_fd_requests (w_sock w)). rewrite Hr.
  split; try done. cbn. rewrite lookup_insert_eq. eexists. split; [done|]. intros _. cbn.
  unfold s32, u32. rewrite Zplus_mod_idemp_l, Z.mod_small; lia.
Qed.

Lemma during_share (share : bool) ci b w :
  during w0 fd ci b w ->
  during w0 fd ci (b || share) ((if share then respond_to_fd_request bpf_get_current_pid_tgid fd else ret tt) w).2.
Proof. destruct share; [rewrite orb_true_r; apply during_respond|by rewrite orb_false_r]. Qed.

(** The early exit program has nothing to do for such a connection. *)
Lemma during_init ci b w trace_id md dir args n :
  tls_streamed (current_id fd) ci w0 -> dir = D_EGRESS \/ dir = D_INGRESS ->
  during w0 fd ci b w ->
  during w0 fd ci b (init_conn (SocketCtx (current_id fd) bpf_get_current_pid_tgid trace_id md) dir args n w).2.
Proof.
  intros [] Hd Hw. pose proof Hw as [? ? Hp ? Hc ?]. unfold init_conn. destruct (da_buf args =? 0); [done|].
  destruct (n <=? 0); [done|]. unfold bpf_map_lookup_elem, gets, bind at 1. cbn [fst snd sc_id].
  change (bm_get conn_info_map w) with (f_conn_info (w_sock w)). rewrite Hc.
  assert (Hf : init_conn_found (SocketCtx (current_id fd) bpf_get_current_pid_tgid trace_id md) dir args n ci w
    = (ci, w)).
  { unfold init_conn_found, get_process_meta, late_open, bpf_map_lookup_elem, gets, bind. cbn [fst snd sc_id].
    change (bm_get process_meta_map w !! _) with (meta_of w (k_pid (current_id fd))).
    replace (meta_of w (k_pid (current_id fd))) with (meta_of w0 (k_pid (current_id fd)))
      by (unfold meta_of; by rewrite Hp).
    rewrite ts_obs0 by auto. rewrite (proj2 (Z.eqb_neq _ _) ts_cookie0). cbn [ret fst snd].
    destruct ts_traffic0 as [Hr%Z.eqb_neq Hwr%Z.eqb_neq]. rewrite Hr, Hwr, ts_ssl0, !andb_false_r. done. }
  unfold bind. rewrite Hf. cbn [fst snd]. destruct Hw. split; try done. cbn. by apply lookup_insert_eq.
Qed.

(** The main one counts the ciphertext. *)
Lemma during_data ci b w trace_id dir args n :
  tls_streamed (current_id fd) ci w0 -> da_buf args <> 0 -> 0 < n ->
  during w0 fd ci b w ->
  during w0 fd (counted false ci dir n) b (process_data (sock_ctx (current_id fd) trace_id) dir args n false w).2.
Proof.
  intros [] Hb Hn Hw. pose proof Hw as [? ? Hp ? Hc ?].
  rewrite (process_data_found _ _ _ _ _ ci), ts_open0 by done.
  assert (Hf : runs (process_data_open (sock_ctx (current_id fd) trace_id) dir args n false ci) w (fun ci' w' =>
    ci' = counted false ci dir n /\ same_but_trace w w')).
  { unfold process_data_open. fold (counted false ci dir n). cbv zeta.
    destruct (counted_fields false ci dir n w (k_pid (current_id fd))) as (-> & _ & F3 & _). rewrite ts_ignore0.
    apply runs_bind, runs_gets. cbn [sc_id sock_ctx].
    change (bm_get process_meta_map w !! _) with (meta_of w (k_pid (current_id fd))).
    replace (meta_of w (k_pid (current_id fd))) with (meta_of w0 (k_pid (current_id fd)))
      by (unfold meta_of; by rewrite Hp).
    rewrite !ts_obs0 by auto. cbn [orb andb negb]. rewrite F3, ts_ssl0.
    apply (runs_same (trace_ctx _ _ _)); [apply trace_ctx_same|]. by intros _ w'. }
  destruct Hf as [-> Hs]. apply (during_same _ _ _ _ Hs) in Hw. destruct Hw. split; try done.
  cbn. apply lookup_insert_eq.
Qed.

End inside.

(** The buffer and the direction of a data call; a peek saves nothing. *)
Definition call_buf {E : Env} (d : data_call) (arg1 : Z) : Z :=
  match d with SENDMSG | RECVMSG => msg_iov arg1 | _ => arg1 end.
Definition call_dir (d : data_call) : Z :=
  match d with SENDTO | WRITE | WRITEV | SENDMSG => D_EGRESS | _ => D_INGRESS end.
Definition peeks (d : data_call) (arg2 arg3 : Z) : bool :=
  match d with RECVFROM => Z.testbit (s32 arg3) 1 | RECVMSG => Z.testbit (s32 arg2) 1 | _ => false end.

(** The maps of the data calls have room for this one. *)
Definition call_room {E : Env} (d : data_call) (fd : Z) (w : world) : Prop :=
  has_room (bm_max active_fd_args_map) (current_op (op_of d)) (f_active_fd_args (w_sock w))
  /\ has_room (bm_max active_write_args_map) (current_id fd) (saved_args d w).

Section data_call.
Context {E : Env}.

Lemma data_call_shape (d : data_call) a0 a1 a2 a3 : peeks d a2 a3 = false ->
  exists m iov name md share share',
  (m = active_write_args_map \/ m = active_read_args_map)
  /\ (forall w, saved_args d w = bm_get m w)
  /\ enter_data d a0 a1 a2 a3 = entry_data m (op_of d) share (s32 a0) (call_buf d a1) iov
  /\ exit_data d = ret_data m (op_of d) name (call_dir d) share'
  /\ exit_data_init d = ret_data_init m (op_of d) name md (call_dir d) share'
  /\ share || share' = true.
Proof.
  intros Hp. assert (forall x, Z.testbit x 1 = false -> negb (Z.land x MSG_PEEK =? 0) = false) as Hk.
  { intros x Hx. change MSG_PEEK with (2 ^ 1). by rewrite land_pow2_testbit, Hx. }
  destruct d; cbn [peeks enter_data op_of call_buf call_dir] in *;
    unfold syscall__probe_entry_sendto, syscall__probe_entry_write, syscall__probe_entry_writev,
      syscall__probe_entry_sendmsg, syscall__probe_entry_recvfrom, syscall__probe_entry_read,
      syscall__probe_entry_readv, syscall__probe_entry_recvmsg; rewrite ?(Hk _ Hp); do 6 eexists;
    (refine (conj _ (conj _ (conj eq_refl (conj eq_refl (conj eq_refl _))))); [auto|done|done]).
Qed.

Lemma entry_during w0 fd ci b m op share buf iov w :
  - 2 ^ 31 <= fd < 2 ^ 31 -> m = active_write_args_map \/ m = active_read_args_map ->
  has_room (bm_max active_fd_args_map) (current_op op) (f_active_fd_args (w_sock w)) ->
  has_room (bm_max m) (current_id fd) (bm_get m w) -> during w0 fd ci b w ->
  runs (entry_data m op share fd buf iov) w (fun _ w' => during w0 fd ci (b || share) w'
    /\ f_active_fd_args (w_sock w') !! current_op op = Some fd
    /\ bm_get m w' !! current_id fd = Some (DataArgs fd buf iov 0 0)).
Proof.
  intros Hfd Hm Hr1 Hr2 Hw. unfold entry_data. apply runs_bind. unfold runs at 1.
  destruct (during_fd_args _ _ _ _ _ (current_op op) fd Hw) as [Hw1 _]. revert Hw1.
  rewrite update_elem_room by done. cbn [fst snd]. set (w1 := bm_set _ _ w). intros Hw1.
  apply runs_bind. unfold runs at 1. pose proof (during_share w0 fd Hfd share ci b w1 Hw1) as Hw2. revert Hw2.
  match goal with |- context [(?p w1).2] => assert (Hp : respects same_args p) end.
  { destruct share; [apply respond_args|done]. }
  destruct (Hp w1) as (S1 & _ & S3 & S4). set (w2 := (_ w1).2) in *. clearbody w2. intros Hw2.
  assert (Hg : bm_get m w2 = bm_get m w) by (by destruct Hm as [-> | ->]). unfold runs.
  destruct (during_args w0 fd m ci _ w2 (current_id fd) (DataArgs fd buf iov 0 0) Hm Hw2) as [Hw3 _]. revert Hw3.
  rewrite update_elem_room; [|by destruct Hm as [-> | ->]|by rewrite Hg]. cbn [snd]. intros Hw3. split; [done|].
  assert (Hf : f_active_fd_args (w_sock w2) !! current_op op = Some fd) by (rewrite S1; apply lookup_insert_eq).
  destruct Hm as [-> | ->]; (split; [exact Hf|apply lookup_insert_eq]).
Qed.

Lemma ret_init_during w0 fd ci b m op name md dir share n args w :
  - 2 ^ 31 <= fd < 2 ^ 31 -> tls_streamed (current_id fd) ci w0 -> dir = D_EGRESS \/ dir = D_INGRESS -> 0 < n ->
  f_active_fd_args (w_sock w) !! current_op op = Some fd -> bm_get m w !! current_id fd = Some args ->
  during w0 fd ci b w -> during w0 fd ci (b || share) (ret_data_init m op name md dir share n w).2.
Proof.
  intros Hfd Ht Hd Hn Hf Ha Hw. unfold ret_data_init, bpf_map_lookup_elem, gets, bind at 1. cbn [fst snd].
  change (bm_get active_fd_args_map w) with (f_active_fd_args (w_sock w)). rewrite Hf.
  unfold bind at 1. cbn [fst snd]. rewrite Ha. replace (n >? 0) with true by lia. unfold bind, ret. cbn [fst snd].
  apply during_init; try done. apply during_share; [done|].
  apply during_trace; [unfold trace_bytes, TRACE_SOCKET; respects|done].
Qed.

Lemma ret_during w0 fd ci b m op name dir share n args w :
  - 2 ^ 31 <= fd < 2 ^ 31 -> tls_streamed (current_id fd) ci w0 -> 0 < n -> da_buf args <> 0 ->
  m = active_write_args_map \/ m = active_read_args_map ->
  f_active_fd_args (w_sock w) !! current_op op = Some fd -> bm_get m w !! current_id fd = Some args ->
  during w0 fd ci b w ->
  during w0 fd (counted false ci dir n) (b || share) (ret_data m op name dir share n w).2.
Proof.
  intros Hfd Ht Hn Hb Hm Hf Ha Hw. unfold ret_data, bpf_map_lookup_elem, gets, bind at 1. cbn [fst snd].
  change (bm_get active_fd_args_map w) with (f_active_fd_args (w_sock w)). rewrite Hf.
  destruct (during_fd_args _ _ _ _ _ (current_op op) fd Hw) as [_ Hw1].
  unfold bind at 1. set (w1 := (bpf_map_delete_elem _ _ w).2) in *. unfold bind at 1. cbn [fst snd].
  assert (bm_get m w1 = bm_get m w) as -> by (by destruct Hm as [-> | ->]). rewrite Ha.
  replace (n >? 0) with true by lia. unfold bind, ret. cbn [fst snd].
  apply (during_args _ _ m _ _ _ _ args); [done|]. apply during_data; try done. apply during_share; [done|].
  apply during_trace; [unfold trace_bytes, TRACE_SOCKET; respects|done].
Qed.

(** A whole system call inside an OpenSSL call. *)
Lemma data_call_during w0 fd ci d a0 a1 a2 a3 r w :
  s32 a0 = fd -> - 2 ^ 31 <= fd < 2 ^ 31 -> tls_streamed (current_id fd) ci w0 ->
  peeks d a2 a3 = false -> call_buf d a1 <> 0 -> 0 < r -> call_room d fd w -> during w0 fd ci false w ->
  during w0 fd (counted false ci (call_dir d) r) true
    (run_all E [Enter_data d a0 a1 a2 a3; Exit_data_init d r; Exit_data d r] w).
Proof.
  intros <- Hfd Ht Hp Hb Hr [R1 R2] Hw. unfold run_all. cbn [fold_left run_program].
  destruct (data_call_shape d a0 a1 a2 a3 Hp)
    as (m & iov & name & md & share & share' & Hm & Hg & -> & -> & -> & Hsh).
  rewrite Hg in R2. replace (bm_max active_write_args_map) with (bm_max m) in R2 by (by destruct Hm as [-> | ->]).
  destruct (entry_during w0 (s32 a0) ci false m (op_of d) share (call_buf d a1) iov w) as (H1 & F1 & A1); try done.
  set (w1 := (entry_data _ _ _ _ _ _ w).2) in *. clearbody w1.
  assert (Hd : call_dir d = D_EGRESS \/ call_dir d = D_INGRESS) by (destruct d; auto).
  pose proof (ret_init_during w0 (s32 a0) ci _ m (op_of d) name md (call_dir d) share' r _ w1
    Hfd Ht Hd Hr F1 A1 H1) as H2.
  destruct (ret_data_init_args m (op_of d) name md (call_dir d) share' r w1) as (S1 & _ & S3 & S4).
  set (w2 := (ret_data_init _ _ _ _ _ _ _ w1).2) in *. clearbody w2. rewrite <- S1 in F1.
  assert (A2 : bm_get m w2 !! current_id (s32 a0) = Some (DataArgs (s32 a0) (call_buf d a1) iov 0 0)).
  { destruct Hm as [-> | ->]; cbn [bm_get active_write_args_map active_read_args_map sock_map] in *; congruence. }
  pose proof (ret_during w0 (s32 a0) ci _ m (op_of d) name (call_dir d) share' r
    (DataArgs (s32 a0) (call_buf d a1) iov 0 0) w2
    Hfd Ht Hr Hb Hm F1 A2 H2) as H3.
  cbn [orb] in H3. by destruct share, share'.
Qed.

End data_call.

(** What an OpenSSL call saves, where, and its direction. *)
Definition ssl_args_map (c : ssl_call) : bpf_map Z data_args :=
  match c with SSL_READ | SSL_READ_EX => active_ssl_read_args_map | _ => active_ssl_write_args_map end.
Definition ssl_args (c : ssl_call) (ssl buf ex_bytes : Z) : data_args :=
  DataArgs 0 buf 0 ssl (match c with SSL_READ | SSL_WRITE => 0 | _ => ex_bytes end).
Definition ssl_dir (c : ssl_call) : Z := match c with SSL_READ | SSL_READ_EX => D_INGRESS | _ => D_EGRESS end.

(** The call returned [rc] and moved [n] bytes; the [_ex] forms store the count. *)
Definition moved {E : Env} (c : ssl_call) (ex_bytes rc n : Z) : Prop :=
  match c with
  | SSL_READ | SSL_WRITE => s32 rc = n
  | SSL_READ_EX => 1 <= s32 rc /\ ex_bytes <> 0 /\ le_load (bpf_probe_read ex_bytes 8).2 = n
  | SSL_WRITE_EX => ex_bytes <> 0 /\ le_load (bpf_probe_read_user ex_bytes 8).2 = n
  end.

(** The parts of the state that the handling of plaintext reads. *)
Definition aside (w w' : world) : Prop :=
  socket_events (w_sock w') = socket_events (w_sock w) /\ f_conn_info (w_sock w') = f_conn_info (w_sock w)
  /\ f_socket_settings w' = f_socket_settings w /\ w_proc w' = w_proc w.

#[export] Instance aside_preorder : PreOrder aside.
Proof. split; [by intros w; split_and!|]. intros u v w (?&?&?&?) (?&?&?&?). split_and!; congruence. Qed.

Lemma same_aside w w' : same_but_trace w w' -> aside w w'.
Proof. intros (_ & ? & _ & ? & Hs & _). split_and!; by rewrite ?Hs. Qed.

Lemma config_reads {E : Env} w w' id ci :
  f_socket_settings w' = f_socket_settings w -> w_proc w' = w_proc w ->
  (observed w (k_pid id) -> observed w' (k_pid id))
  /\ skipped w' (k_pid id) ci = skipped w (k_pid id) ci /\ streamed w' ci = streamed w ci.
Proof.
  intros Hs Hp. assert (Hm : meta_of w' (k_pid id) = meta_of w (k_pid id)) by (unfold meta_of; by rewrite Hp).
  unfold observed, skipped, streamed, streams. by rewrite Hm, Hs.
Qed.

Lemma aside_streamed {E : Env} w w' id ci : aside w w' -> tls_streamed id ci w -> tls_streamed id ci w'.
Proof.
  intros (_ & Hc & Ha & Hp) []. destruct (config_reads w w' id ci Ha Hp) as (? & Hk & Hs).
  split; rewrite ?Hc, ?Hk, ?Hs; auto.
Qed.

Lemma reported_aside {E : Env} w w' id ci : aside w w' -> tls_reported id ci w -> tls_reported id ci w'.
Proof.
  intros (_ & Hc & Ha & Hp) []. destruct (config_reads w w' id ci Ha Hp) as (? & Hk & Hs).
  split; rewrite ?Hc, ?Hk, ?Hs; auto.
Qed.

Section ssl_call.
Context {E : Env}.

Lemma enter_ssl_run c ssl buf ex w :
  has_room 1024 bpf_get_current_pid_tgid (bm_get (ssl_args_map c) w) ->
  runs (enter_ssl c ssl buf ex) w (fun _ w' => aside w w' /\ same_args w w'
    /\ f_uprobe_fd_requests (w_sock w') !! bpf_get_current_pid_tgid = Some (FdRequest 0 true)
    /\ bm_get (ssl_args_map c) w' !! bpf_get_current_pid_tgid = Some (ssl_args c ssl buf ex)
    /\ f_node_ssl_to_tlswrap (w_tls w') = f_node_ssl_to_tlswrap (w_tls w)).
Proof.
  intros Hr. destruct c; cbn [enter_ssl]; unfold openssl__probe_entry_SSL_read, openssl__probe_entry_SSL_read_ex,
    openssl__probe_entry_SSL_write, openssl__probe_entry_SSL_write_ex, ssl_entry, ssl_register_handle,
    request_fd_from_syscall, update_node_ssl_tls_wrap_map, runs, bind, ret; cbn [fst snd];
    (rewrite update_elem_room by done);
    (split_and!; try done; cbn; [apply lru_update_lookup|apply lookup_insert_eq]).
Qed.

(** The return probes once the saved arguments and the count are known. *)
Lemma exit_ssl_shape c ssl buf ex rc n w :
  moved c ex rc n -> bm_get (ssl_args_map c) w !! bpf_get_current_pid_tgid = Some (ssl_args c ssl buf ex) ->
  exists name, exit_ssl c rc w = ssl_data (ssl_args_map c) name (ssl_dir c) n (ssl_args c ssl buf ex) w.
Proof.
  intros Hm Ha. destruct c; cbn [moved ssl_args_map ssl_args ssl_dir exit_ssl] in *; eexists;
    unfold openssl__probe_ret_SSL_read, openssl__probe_ret_SSL_read_ex, openssl__probe_ret_SSL_write,
      openssl__probe_ret_SSL_write_ex, ssl_ret, bpf_map_lookup_elem, gets, bind at 1; cbn [fst snd].
  - rewrite Ha, Hm. done.
  - destruct Hm as (H1 & H2%Z.eqb_neq & H3). rewrite (proj2 (Z.ltb_ge _ _) H1). unfold bind at 1. cbn [fst snd].
    rewrite Ha. change (da_ex_bytes (ssl_args _ ssl buf ex)) with ex. rewrite H2, <- H3. done.
  - rewrite Ha, Hm. done.
  - destruct Hm as (H2%Z.eqb_neq & H3). rewrite Ha. change (da_ex_bytes (ssl_args _ ssl buf ex)) with ex. rewrite H2, <- H3. done.
Qed.

End ssl_call.

(** The plaintext events of a call: the bytes up to the limit, under the
    connection's identity. *)
Definition plaintext_of (ci : conn_info) (direction : Z) (bs : list Z) (evs : list socket_data_event) : Prop :=
  concat (map de_msg evs) = take (4 * Z.to_nat MAX_MSG_SIZE) bs
  /\ Forall (fun e => de_conn_pid_id e = ci_conn_pid_id ci /\ de_cookie e = ci_cookie ci
                      /\ de_direction e = direction /\ de_msg_size e = Z.of_nat (length (de_msg e))) evs.

(** The reader's side: room in the ring buffer and the bytes in memory. *)
Definition plaintext_at {E : Env} (buf : Z) (bs : list Z) : Prop :=
  (forall k, ringbuf_room k = true) /\ buf <> 0 /\ user_holds buf bs /\ 0 < Z.of_nat (length bs) < 2 ^ 31.

Section report.
Context {E : Env}.

Lemma process_data_plaintext ctx direction args bs ci w :
  plaintext_at (da_buf args) bs -> da_iovcnt args = 0 -> direction = D_EGRESS \/ direction = D_INGRESS ->
  tls_reported (sc_id ctx) ci w ->
  let w' := (process_data ctx direction args (Z.of_nat (length bs)) true w).2 in
  f_conn_info (w_sock w') !! sc_id ctx = Some ci
  /\ exists evs, socket_events (w_sock w') = socket_events (w_sock w) ++ map Ev_data evs
                 /\ plaintext_of ci direction bs evs.
Proof.
  intros (? & ? & ? & ?) Hi Hd [] w'.
  destruct (process_data_ready ctx direction args bs true ci w) as (Hc & evs & He & Hm & _ & Hall); [by split|done|].
  split; [exact Hc|]. exists evs. split; [exact He|]. split; [exact Hm|]. apply Forall_lookup. intros i e Hie.
  destruct (Hall i e Hie) as (_ & ? & ? & ? & ? & _). by split_and!.
Qed.

Lemma ssl_data_reports c name ssl buf ex fd ci bs w :
  let id := PidFd (pid_of bpf_get_current_pid_tgid) fd in
  (get_fd_from_node bpf_get_current_pid_tgid ssl w).1 <= 0 -> request_fd w bpf_get_current_pid_tgid = fd -> 3 <= fd ->
  plaintext_at buf bs -> tls_reported id ci w ->
  runs (ssl_data (ssl_args_map c) name (ssl_dir c) (Z.of_nat (length bs)) (ssl_args c ssl buf ex)) w (fun _ w' =>
    f_conn_info (w_sock w') !! id = Some ci
    /\ (exists evs, socket_events (w_sock w') = socket_events (w_sock w) ++ map Ev_data evs
                    /\ plaintext_of ci (ssl_dir c) bs evs)
    /\ f_ssl_to_fd (w_tls w') !! ssl = Some fd
    /\ f_uprobe_fd_requests (w_sock w') !! bpf_get_current_pid_tgid = None
    /\ bm_get (ssl_args_map c) w' !! bpf_get_current_pid_tgid = None).
Proof.
  intros id Hnode Hreq Hfd Hbs Hc. pose proof Hbs as (_ & _ & _ & Hlen). unfold ssl_data.
  replace (Z.of_nat (length bs) >? 0) with true by lia. do 2 apply runs_bind.
  eapply runs_mono; [apply get_fd_run|]. cbn beta zeta. intros fd' w1 [Hfd' H1].
  replace ((get_fd_from_node bpf_get_current_pid_tgid ssl w).1 >? 0) with false in H1 by lia.
  assert (fd' = fd) as -> by (rewrite Hfd'; cbn; rewrite Hreq; repeat case_match; lia). clear Hfd'.
  apply runs_bind, runs_modify. replace (fd <? 3) with false by lia. apply runs_bind.
  set (args := (ssl_args c ssl buf ex) <| da_fd := fd |>). set (w2 := bm_set (ssl_args_map c) _ w1).
  unfold runs at 1. set (w3 := (bpf_map_update_elem ssl_to_fd_map (da_ssl args) fd w2).2).
  assert (H3 : aside w w3 /\ f_uprobe_fd_requests (w_sock w3) = delete bpf_get_current_pid_tgid (f_uprobe_fd_requests (w_sock w))
    /\ f_ssl_to_fd (w_tls w3) !! ssl = Some fd).
  { split; [etrans; [exact (same_aside _ _ H1)|by destruct c]|]. destruct H1 as (_ & _ & _ & _ & Hk & _).
    unfold w3, w2. split; [destruct c; cbn; by rewrite Hk|]. destruct c; apply lru_update_lookup. }
  clearbody w3. clear w2 H1. destruct H3 as (A3 & R3 & F3).
  apply (runs_same (TRACE_OPENSSL _ _ _)); [unfold TRACE_OPENSSL; respects|]. intros _ w4 H4.
  assert (A4 : aside w w4) by (etrans; [exact A3|by apply same_aside]).
  pose proof (reported_aside w w4 id ci A4 Hc) as Hc4. destruct A4 as (E4 & _).
  replace (s64 (Z.of_nat (length bs))) with (Z.of_nat (length bs)) by (symmetry; apply s64_small; lia).
  unfold runs at 1. set (ctx := SocketCtx _ _ _ _).
  destruct (process_data_plaintext ctx (ssl_dir c) args bs ci w4) as (C5 & evs & E5 & P5);
    [done|done|by destruct c; auto|done|].
  destruct (process_data_saved ctx (ssl_dir c) args (Z.of_nat (length bs)) true w4) as (_ & R5 & T5).
  set (w5 := (process_data _ _ _ _ _ w4).2) in *. clearbody w5.
  destruct H4 as (_ & _ & _ & _ & Hk4 & _ & _ & _ & _ & Ht4). unfold runs.
  assert (R : f_uprobe_fd_requests (w_sock w5) !! bpf_get_current_pid_tgid = None) by (rewrite R5, Hk4, R3; apply lookup_delete_eq).
  assert (F : f_ssl_to_fd (w_tls w5) !! ssl = Some fd) by (by rewrite T5, Ht4).
  rewrite E4 in E5.
  destruct c; (split_and!; [exact C5|by exists evs|exact F|exact R|apply lookup_delete_eq]).
Qed.

End report.

(** After a system call inside the OpenSSL call the connection is still reported, also
    to the return probe; counting bytes does not change its identity. *)
Lemma during_reported {E' E : Env} w0 fd ci dir n b w :
  @qpid E' = @qpid E -> @tls_streamed E (@current_id E fd) ci w0 -> @during E w0 fd (counted false ci dir n) b w ->
  @tls_reported E' (@current_id E fd) (counted false ci dir n) w
  /\ forall direction bs evs,
       plaintext_of (counted false ci dir n) direction bs evs -> plaintext_of ci direction bs evs.
Proof.
  intros Hq [] [? Hse Hpr _ Hc _]. set (ci' := counted false ci dir n) in *. set (id := @current_id E fd) in *.
  destruct (counted_fields false ci dir n w0 (k_pid id)) as (F1 & F2 & F3 & F4 & F5 & F6 & F7).
  fold ci' in F1, F2, F3, F4, F5, F6, F7.
  destruct (config_reads w0 w id ci' Hse Hpr) as (O & K & S).
  assert (Ho : ci_is_open ci' = ci_is_open ci) by (unfold ci', counted, update_bandwidth_tracking; by repeat case_match).
  split; [split|]; rewrite ?Ho, ?F1, ?F2, ?F3; auto.
  - unfold skipped. rewrite Hq. fold (@skipped E w (k_pid id) ci'). by rewrite K, F6.
  - by rewrite S, F7.
  - unfold plaintext_of. by rewrite F4, F5.
Qed.

Lemma node_unaware {E : Env} pid_tgid ssl w :
  f_node_ssl_to_tlswrap (w_tls w) !! ssl = None -> (get_fd_from_node pid_tgid ssl w).1 = 0.
Proof.
  intros Hn. unfold get_fd_from_node. unfold bind at 1.
  assert (Ht : w_tls (TRACE_NODETLS (pid_of pid_tgid) "nodetls/get_fd_from_node"
    [TRACE_INT "pid" (pid_of pid_tgid); TRACE_POINTER "ssl" ssl] w).2 = w_tls w) by (apply trace_if_enabled_same).
  set (w1 := (TRACE_NODETLS _ _ _ w).2) in *. unfold get_tlswrap_from_ssl, bpf_map_lookup_elem, gets, bind. cbn [fst snd].
  change (bm_get node_ssl_to_tlswrap_map w1) with (f_node_ssl_to_tlswrap (w_tls w1)). by rewrite Ht, Hn.
Qed.

(** C5: what a process sends or receives through OpenSSL is reported as the
    plaintext of the connection whose system call carried the ciphertext.  The
    thread enters an OpenSSL call on an object that is not node's, makes one system
    call on descriptor [fd] of a streamed TLS connection meanwhile, and returns
    having moved [bs]: user space gets exactly the plaintext, cut at 4 * 30720 bytes, under
    that connection's identity; the ciphertext is only counted; the object's
    descriptor is remembered; and neither the request nor the saved arguments are
    left behind. *)
Theorem plaintext_attributed (E' E : Env) c d ssl buf ex a0 a1 a2 a3 r rc bs ci w :
  let fd := s32 a0 in
  let pid_tgid := @bpf_get_current_pid_tgid E in
  @bpf_get_current_pid_tgid E' = pid_tgid -> @qpid E' = @qpid E ->
  3 <= fd < 2 ^ 31 -> @tls_streamed E (@current_id E fd) ci w ->
  f_node_ssl_to_tlswrap (w_tls w) !! ssl = None ->
  has_room 1024 pid_tgid (bm_get (ssl_args_map c) w) -> @call_room E d fd w ->
  peeks d a2 a3 = false -> @call_buf E d a1 <> 0 -> 0 < r ->
  @moved E' c ex rc (Z.of_nat (length bs)) -> @plaintext_at E' buf bs ->
  let w' := @run_program E' (Exit_ssl c rc)
    (run_all E [Enter_ssl c ssl buf ex; Enter_data d a0 a1 a2 a3; Exit_data_init d r; Exit_data d r] w) in
  (exists evs, socket_events (w_sock w') = socket_events (w_sock w) ++ map Ev_data evs
               /\ plaintext_of ci (ssl_dir c) bs evs)
  /\ f_conn_info (w_sock w') !! @current_id E fd = Some (counted false ci (call_dir d) r)
  /\ f_ssl_to_fd (w_tls w') !! ssl = Some fd
  /\ f_uprobe_fd_requests (w_sock w') !! pid_tgid = None
  /\ bm_get (ssl_args_map c) w' !! pid_tgid = None.
Proof.
  intros fd pid_tgid He Hq Hfd Ht Hn Hr1 Hr2 Hp Hb Hr Hm Hbs w'. unfold w', run_all. cbn [fold_left run_program].
  destruct (enter_ssl_run c ssl buf ex w Hr1) as (A1 & (S1 & S2 & S3 & S4) & R1 & G1 & N1).
  set (w1 := (enter_ssl c ssl buf ex w).2) in *. clearbody w1.
  pose proof (aside_streamed w w1 _ ci A1 Ht) as Ht1.
  assert (H1 : during w1 fd ci false w1) by (split; try done; [apply Ht1|eexists; split; [exact R1|done]]).
  assert (Hr3 : call_room d fd w1) by (unfold call_room, saved_args; rewrite S1; destruct d; by rewrite ?S3, ?S4).
  pose proof (data_call_during w1 fd ci d a0 a1 a2 a3 r w1 eq_refl ltac:(lia) Ht1 Hp Hb Hr Hr3 H1) as H4.
  set (w4 := (exit_data d r _).2). change (run_all E _ w1) with w4 in *. clearbody w4.
  destruct (during_reported (E' := E') w1 fd ci _ _ _ w4 Hq Ht1 H4) as [Ht4 D4].
  destruct H4 as [E4 _ _ T4 _ (q & Q4 & Hq4)].
  assert (Hg : bm_get (ssl_args_map c) w4 !! @bpf_get_current_pid_tgid E' = Some (ssl_args c ssl buf ex)).
  { rewrite He. destruct c; cbn in *; by rewrite T4. }
  destruct (@exit_ssl_shape E' c ssl buf ex rc _ w4 Hm Hg) as [name ->].
  assert (Hid : PidFd (pid_of (@bpf_get_current_pid_tgid E')) fd = current_id fd) by (by rewrite He).
  destruct (@ssl_data_reports E' c name ssl buf ex fd (counted false ci (call_dir d) r) bs w4)
    as (C6 & (evs & E6 & P6) & F6 & R6 & G6); rewrite ?Hid; try done.
  - rewrite (@node_unaware E'); [done|]. by rewrite T4, N1.
  - unfold request_fd. rewrite He. unfold pid_tgid. rewrite Q4. by apply Hq4.
  - lia.
  - rewrite Hid in C6. rewrite He in R6, G6. destruct A1 as (A1 & _). rewrite E4, A1 in E6.
    split_and!; try done. exists evs. split; [exact E6|by apply D4].
Qed.

(** A thread of process 1000 writes the request through object 36864 while
    [write] sends 35 bytes on descriptor 5. *)
Lemma plaintext_attributed_witness :
  let ci := demo_open <| ci_is_ssl := true |> <| ci_protocol := P_HTTP1 |>
              <| ci_rd_bytes := 50 |> <| ci_wr_bytes := 100 |> in
  let w' := @run_program demo_env (Exit_ssl SSL_WRITE 14)
    (run_all demo_env [Enter_ssl SSL_WRITE 36864 4112 0; Enter_data WRITE 5 4096 35 0;
                       Exit_data_init WRITE 35; Exit_data WRITE 35] (demo_state ci)) in
  (exists evs, socket_events (w_sock w') = map Ev_data evs /\ concat (map de_msg evs) = demo_request)
  /\ f_conn_info (w_sock w') !! PidFd 1000 5 = Some (ci <| ci_wr_bytes := 135 |>)
  /\ f_ssl_to_fd (w_tls w') !! 36864 = Some 5.
Proof.
  intros ci w'.
  assert (@plaintext_at demo_env 4112 demo_request) as Hb.
  { split_and!; [done|done|by apply flat_env_holds_at|done..]. }
  assert (@tls_streamed demo_env (PidFd 1000 5) ci (demo_state ci)) as Ht.
  { split; first [done | by intros s [-> |[-> | ->]]]. }
  assert (@call_room demo_env WRITE 5 (demo_state ci)) as Hr by (by split; right).
  assert (has_room 1024 (@bpf_get_current_pid_tgid demo_env) (bm_get (ssl_args_map SSL_WRITE) (demo_state ci))) as Hs
    by (by right).
  assert (3 <= s32 5 < 2 ^ 31 /\ @call_buf demo_env WRITE 4096 <> 0 /\ 0 < 35) as (H1 & H2 & H3) by done.
  destruct (plaintext_attributed demo_env demo_env SSL_WRITE WRITE 36864 4112 0 5 4096 35 0 35 14 demo_request ci
    (demo_state ci) eq_refl eq_refl H1 Ht eq_refl Hs Hr eq_refl H2 H3 eq_refl Hb) as ((evs & E1 & E2 & _) & E3 & E4 & _).
  split_and!; [exists evs; split; [exact E1|etrans; [exact E2|vm_compute; reflexivity]]|exact E3|exact E4].
Defined.
