(* ===== verification/RuntimeTlsSpec.v ===== *)
(** * Descriptors read from the process

    Node and Go: the probes follow the runtime's own objects to the descriptor.
    Also what becomes of the tables when an [SSL] object is freed. *)

From stdpp Require Import base numbers list gmap strings.
From S2P Require Import Prelude Tap Net Bpf Trace Common Settings Process Buffers Protocol.
From S2P Require Import Socket SocketProbes NodeTls OpenSsl GoTls SocketInv SocketSpec SocketTotals System SocketCalls.
From S2P Require Import TlsSpec.

(** ** Node *)

(** The objects behind a [TLSWrap]: its stream, the libuv stream, the descriptor. *)
Record libuv_stream {E : Env} (sa : node_tls_symaddr) (tlswrap stream uv_stream fd : Z) : Prop := {
  lu_stream : read_ptr (u64 (tlswrap + tls_wrap_stream_listener_offset sa + stream_listener_stream_offset sa)) = stream;
  lu_stream_ok : stream <> 0;
  lu_uv : read_ptr (u64 (stream - stream_base_stream_resource_offset sa - libuv_stream_wrap_stream_base_offset sa
                         + libuv_stream_wrap_stream_offset sa)) = uv_stream;
  lu_uv_ok : uv_stream <> 0;
  lu_fd : bpf_probe_read (u64 (uv_stream + uv_stream_s_io_watcher_offset sa + uv_io_s_fd_offset sa)) 4
          = (0, le_store 4 fd);
  lu_fd_range : 0 < fd < 2 ^ 31 }.

(** A program that writes a trace message first. *)
Lemma runs_trace {E : Env} {B} component pid msg args (k : unit -> M world B) w Q :
  (forall w', same_but_trace w w' -> runs (k tt) w' Q) -> runs (bind (TRACE_IF_ENABLED component pid msg args) k) w Q.
Proof. intros Hk. apply (runs_same (TRACE_IF_ENABLED _ _ _ _)); [respects|]. by intros [] w' Hw; apply Hk. Qed.

Section node.
Context {E : Env}.

Lemma get_fd_from_tlswrap_run sa tlswrap stream uv fd w :
  libuv_stream sa tlswrap stream uv fd -> get_fd_from_tlswrap sa tlswrap w = (fd, w).
Proof.
  intros [H1 H2%Z.eqb_neq H3 H4%Z.eqb_neq H5 H6]. unfold get_fd_from_tlswrap. cbv zeta.
  rewrite H1, H2, H3, H4, H5. cbn [fst snd negb Z.eqb]. unfold ret. f_equal.
  rewrite le_load_store, Z.mod_small by lia. apply s32_small. lia.
Qed.

Lemma get_fd_from_node_walk pid_tgid ssl sa tlswrap stream uv fd w :
  f_node_ssl_to_tlswrap (w_tls w) !! ssl = Some tlswrap -> tlswrap <> 0 ->
  f_node_symaddrs (w_tls w) !! pid_of pid_tgid = Some sa -> libuv_stream sa tlswrap stream uv fd ->
  (get_fd_from_node pid_tgid ssl w).1 = fd.
Proof.
  intros Hm Hnz Hs Hl. enough (runs (get_fd_from_node pid_tgid ssl) w (fun r _ => r = fd)) by done.
  unfold get_fd_from_node. apply runs_trace. intros w1 (_ & _ & _ & _ & _ & _ & _ & _ & _ & Ht).
  unfold get_tlswrap_from_ssl. do 2 apply runs_bind. apply runs_gets.
  change (bm_get node_ssl_to_tlswrap_map w1) with (f_node_ssl_to_tlswrap (w_tls w1)). rewrite Ht, Hm.
  apply runs_ret. rewrite (proj2 (Z.eqb_neq _ _) Hnz). apply runs_bind, runs_gets.
  change (bm_get node_tls_symaddrs_map w1) with (f_node_symaddrs (w_tls w1)). rewrite Ht, Hs.
  unfold runs. by rewrite (get_fd_from_tlswrap_run sa tlswrap stream uv fd).
Qed.

(** The two registration probes. *)
Lemma memfn_run ctx w :
  has_room 2048 (PT_REGS_PARM1 ctx) (f_node_tlswrap_exists (w_tls w)) ->
  runs (nodetls__probe_entry_TLSWrap_memfn ctx) w (fun _ w' =>
    w_tls w' = (w_tls w) <| f_node_tlswrap_exists ::= insert (PT_REGS_PARM1 ctx) true |> /\ w_sock w' = w_sock w).
Proof.
  intros Hr. unfold nodetls__probe_entry_TLSWrap_memfn, runs, bind. by rewrite update_elem_room.
Qed.

Lemma set_cert_cb_run ctx w :
  has_room 1024 (PT_REGS_PARM1 ctx) (f_node_ssl_to_tlswrap (w_tls w)) ->
  has_room 1024 (PT_REGS_PARM3 ctx) (f_node_tlswrap_to_ssl (w_tls w)) ->
  runs (nodetls__probe_entry_SSL_set_cert_cb ctx) w (fun _ w' => w_sock w' = w_sock w /\
    w_tls w' = match f_node_tlswrap_exists (w_tls w) !! PT_REGS_PARM3 ctx with
               | None => w_tls w
               | Some _ => (w_tls w) <| f_node_ssl_to_tlswrap ::= insert (PT_REGS_PARM1 ctx) (PT_REGS_PARM3 ctx) |>
                             <| f_node_tlswrap_to_ssl ::= insert (PT_REGS_PARM3 ctx) (PT_REGS_PARM1 ctx) |>
               end).
Proof.
  intros Hr1 Hr2. unfold nodetls__probe_entry_SSL_set_cert_cb. apply runs_bind, runs_gets.
  change (bm_get node_tlswrap_exists_map w) with (f_node_tlswrap_exists (w_tls w)).
  destruct (_ !! PT_REGS_PARM3 ctx); apply runs_trace; intros w1 (_ & _ & _ & _ & Hs & _ & _ & _ & _ & Ht).
  - rewrite <- Ht in Hr1, Hr2 |- *. rewrite <- Hs. unfold runs, bind. rewrite update_elem_room by done.
    cbn [fst snd]. by rewrite update_elem_room.
  - done.
Qed.

End node.

(** The resolution when node knows the object: its descriptor, and the thread's
    request stays. *)
Lemma get_fd_node {E : Env} pid_tgid ssl sa tlswrap stream uv fd w :
  f_node_ssl_to_tlswrap (w_tls w) !! ssl = Some tlswrap -> tlswrap <> 0 ->
  f_node_symaddrs (w_tls w) !! pid_of pid_tgid = Some sa -> libuv_stream sa tlswrap stream uv fd ->
  runs (get_fd pid_tgid ssl) w (fun r w' => r = fd /\ same_but_trace w w').
Proof.
  intros Hm Hnz Hs Hl. pose proof (get_fd_from_node_walk pid_tgid ssl sa tlswrap stream uv fd w Hm Hnz Hs Hl) as Hn.
  eapply runs_mono; [apply get_fd_run|]. cbv zeta. rewrite Hn. intros r w' [-> Hw]. destruct Hl.
  unfold first_fd. cbn [foldr]. rewrite (proj2 (Z.gtb_lt fd 0)) in Hw |- * by lia. done.
Qed.

(** A node connection resolves to the descriptor of its libuv stream.  Once a
    [TLSWrap] has been seen and set its certificate callback on an [SSL] object, that
    object resolves by walking the wrap's stream, whatever the thread's request or the
    cache say, and the request stays pending.  An object whose callback argument is no
    known wrap is not registered.  Destroying the wrap does not undo the registration:
    the object still resolves through the wrap's memory. *)
Theorem node_descriptor (E1 E2 E3 : Env) ctx1 ctx2 sa stream uv fd pid_tgid w :
  let tlswrap := PT_REGS_PARM1 ctx1 in
  let ssl := PT_REGS_PARM1 ctx2 in
  PT_REGS_PARM3 ctx2 = tlswrap -> tlswrap <> 0 ->
  has_room 2048 tlswrap (f_node_tlswrap_exists (w_tls w)) ->
  has_room 1024 ssl (f_node_ssl_to_tlswrap (w_tls w)) -> has_room 1024 tlswrap (f_node_tlswrap_to_ssl (w_tls w)) ->
  f_node_symaddrs (w_tls w) !! pid_of pid_tgid = Some sa -> @libuv_stream E3 sa tlswrap stream uv fd ->
  let w1 := (@nodetls__probe_entry_TLSWrap_memfn E1 ctx1 w).2 in
  let w2 := (@nodetls__probe_entry_SSL_set_cert_cb E2 ctx2 w1).2 in
  let w3 := (@nodetls__probe_entry_TLSWrap_destructor E1 ctx1 w2).2 in
  let resolves v := (@get_fd E3 pid_tgid ssl v).1 = fd /\ same_but_trace v (@get_fd E3 pid_tgid ssl v).2 in
  resolves w2 /\ resolves w3
  /\ (f_node_tlswrap_exists (w_tls w) !! tlswrap = None ->
      w_tls (@nodetls__probe_entry_SSL_set_cert_cb E2 ctx2 w).2 = w_tls w).
Proof.
  intros tlswrap ssl H3 Hnz R1 R2 R3 Hs Hl w1 w2 w3 resolves.
  destruct (@memfn_run E1 ctx1 w R1) as [T1 _]. fold w1 in T1.
  assert (R2' : has_room 1024 (PT_REGS_PARM1 ctx2) (f_node_ssl_to_tlswrap (w_tls w1))) by (by rewrite T1).
  assert (R3' : has_room 1024 (PT_REGS_PARM3 ctx2) (f_node_tlswrap_to_ssl (w_tls w1))) by (by rewrite T1, H3).
  destruct (@set_cert_cb_run E2 ctx2 w1 R2' R3') as [_ T2]. fold w2 in T2.
  rewrite H3, T1 in T2. cbn [f_node_tlswrap_exists over] in T2. rewrite lookup_insert_eq in T2.
  assert (M2 : f_node_ssl_to_tlswrap (w_tls w2) !! ssl = Some tlswrap) by (rewrite T2; apply lookup_insert_eq).
  assert (S2 : f_node_symaddrs (w_tls w2) !! pid_of pid_tgid = Some sa) by (by rewrite T2).
  assert (T3 : f_node_ssl_to_tlswrap (w_tls w3) = f_node_ssl_to_tlswrap (w_tls w2)
    /\ f_node_symaddrs (w_tls w3) = f_node_symaddrs (w_tls w2)).
  { enough (runs (@nodetls__probe_entry_TLSWrap_destructor E1 ctx1) w2 (fun _ v =>
      f_node_ssl_to_tlswrap (w_tls v) = f_node_ssl_to_tlswrap (w_tls w2)
      /\ f_node_symaddrs (w_tls v) = f_node_symaddrs (w_tls w2))) by done.
    apply runs_trace. intros v (_ & _ & _ & _ & _ & _ & _ & _ & _ & Ht). unfold runs, bind. cbn. by rewrite Ht. }
  destruct T3 as [M3 S3]. split_and!.
  - by apply (@get_fd_node E3 pid_tgid ssl sa tlswrap stream uv).
  - apply (@get_fd_node E3 pid_tgid ssl sa tlswrap stream uv); [by rewrite M3|done|by rewrite S3|done].
  - intros Hn. rewrite <- H3 in Hn, R3. destruct (@set_cert_cb_run E2 ctx2 w R2 R3) as [_ ->]. by rewrite Hn.
Qed.

(** A wrap at 4096 whose stream, libuv stream and descriptor follow each other in memory. *)
Definition node_env : Env :=
  flat_env (1000 * 2 ^ 32 + 1000) 4096 (le_store 8 4104 ++ le_store 8 4112 ++ le_store 4 5).
Definition node_world : world :=
  world_init <| w_tls ::= fun s => s <| f_node_symaddrs := {[1000 := NodeSymaddr 0 0 0 0 0 0 0]} |> |>.

Lemma node_descriptor_witness :
  let ctx1 := PtRegs 4096 0 0 0 0 0 [] 0 in
  let ctx2 := PtRegs 36864 0 4096 0 0 0 [] 0 in
  let w2 := (@nodetls__probe_entry_SSL_set_cert_cb node_env ctx2
               (@nodetls__probe_entry_TLSWrap_memfn node_env ctx1 node_world).2).2 in
  (@get_fd node_env (1000 * 2 ^ 32 + 1000) 36864 w2).1 = 5.
Proof.
  intros ctx1 ctx2 w2.
  assert (Hl : @libuv_stream node_env (NodeSymaddr 0 0 0 0 0 0 0) 4096 4104 4112 5) by (by split).
  assert (Hr : has_room 2048 4096 (f_node_tlswrap_exists (w_tls node_world))
    /\ has_room 1024 36864 (f_node_ssl_to_tlswrap (w_tls node_world))
    /\ has_room 1024 4096 (f_node_tlswrap_to_ssl (w_tls node_world))) by (by split_and!; right).
  destruct Hr as (R1 & R2 & R3).
  destruct (node_descriptor node_env node_env node_env ctx1 ctx2 (NodeSymaddr 0 0 0 0 0 0 0) 4104 4112 5
    (1000 * 2 ^ 32 + 1000) node_world eq_refl ltac:(done) R1 R2 R3 eq_refl Hl) as ([H _] & _).
  exact H.
Defined.

(** ** Freed objects *)

(** Both probes on [SSL_free], on one call. *)
Definition free_probes (ctx : pt_regs) : list program := [Ssl_free ctx; Node_SSL_free ctx].

(** The two probes on [SSL_free] forget the object whose address is in the
    return-value register.  Where that is not the register of the first argument, as
    on x86, the freed object's descriptor stays in the cache and its wrap stays
    registered, so a new object at the same address starts out with them. *)
Theorem freed_ssl_forgotten (E : Env) ctx w :
  let freed := PT_REGS_PARM1 ctx in
  let w' := run_all E (free_probes ctx) w in
  (PT_REGS_RC ctx = freed -> f_ssl_to_fd (w_tls w') !! freed = None /\ f_node_ssl_to_tlswrap (w_tls w') !! freed = None)
  /\ (PT_REGS_RC ctx <> freed ->
      cached_fd w' freed = cached_fd w freed
      /\ f_node_ssl_to_tlswrap (w_tls w') !! freed = f_node_ssl_to_tlswrap (w_tls w) !! freed).
Proof.
  intros freed w'. assert (T : w_tls w' = (w_tls w) <| f_ssl_to_fd ::= delete (PT_REGS_RC ctx) |>
    <| f_node_ssl_to_tlswrap ::= delete (PT_REGS_RC ctx) |>).
  { unfold w', run_all. cbn [fold_left run_program free_probes].
    enough (runs (openssl_probe_entry_SSL_free ctx) w (fun _ v =>
      w_tls v = (w_tls w) <| f_ssl_to_fd ::= delete (PT_REGS_RC ctx) |>)) as H1.
    { enough (runs (nodetls__probe_entry_SSL_free ctx) (openssl_probe_entry_SSL_free ctx w).2 (fun _ v =>
        w_tls v = (w_tls (openssl_probe_entry_SSL_free ctx w).2) <| f_node_ssl_to_tlswrap ::= delete (PT_REGS_RC ctx) |>))
        as H2 by (unfold runs in H1, H2; by rewrite H2, H1).
      apply runs_trace. intros v (_ & _ & _ & _ & _ & _ & _ & _ & _ & Ht). unfold runs, bind. cbn. by rewrite Ht. }
    apply runs_trace. intros v (_ & _ & _ & _ & _ & _ & _ & _ & _ & Ht). unfold runs, bind. cbn. by rewrite Ht. }
  unfold cached_fd. rewrite T. cbn [f_ssl_to_fd f_node_ssl_to_tlswrap over].
  split; [intros ->; by rewrite !lookup_delete_eq|]. intros Hne. by rewrite !lookup_delete_ne.
Qed.

Lemma freed_ssl_forgotten_witness :
  let w := world_init <| w_tls ::= fun s => s <| f_ssl_to_fd := {[36864 := 5]} |> |> in
  cached_fd (run_all node_env (free_probes (PtRegs 36864 0 0 0 99 0 [] 0)) w) 36864 = 5.
Proof.
  intros w. destruct (freed_ssl_forgotten node_env (PtRegs 36864 0 0 0 99 0 [] 0) w) as [_ H].
  destruct (H ltac:(done)) as [H1 _]. exact H1.
Defined.

(** ** Go *)

(** The running goroutine, as the probes find it. *)
Record goroutine_at {E : Env} (ctx : pt_regs) (sa : go_tls_symaddr) (goid : Z) (w : world) : Prop := {
  ga_symaddrs : f_go_symaddrs (w_tls w) !! pid_of bpf_get_current_pid_tgid = Some sa;
  ga_offset : 0 <= goid_offset sa <= 1024;
  ga_g : g_reg ctx <> 0;
  ga_goid : le_load (bpf_probe_read (u64 (g_reg ctx + goid_offset sa)) 8).2 = goid;
  ga_nonzero : goid <> 0 }.

(** The objects behind a [tls.Conn]: the [net.TCPConn] it wraps, its [netFD], the
    descriptor. *)
Record tls_conn_at {E : Env} (sa : go_tls_symaddr) (conn tcp netfd fd : Z) : Prop := {
  tc_sysfd : fd_sysfd_offset sa <> -1;
  tc_offset : tls_conn_offset sa <> -1;
  tc_types : tls_conn sa <> internal_syscall_conn sa;
  tc_tcp : read_interface (u64 (conn + tls_conn_offset sa)) = GoInterface (net_tcp_conn sa) tcp;
  tc_netfd : le_load (bpf_probe_read tcp 8).2 = netfd;
  tc_fd : s32 (le_load (bpf_probe_read (u64 (netfd + fd_sysfd_offset sa)) 8).2) = fd;
  tc_valid : fd <> INVALID_FD }.

(** The register file holds 64-bit words. *)
Definition words (regs : list Z) : Prop := Forall (fun r => 0 <= r < 2 ^ 64) regs.

Definition go_enter (read : bool) (ctx : pt_regs) : program := if read then Enter_go_read ctx else Enter_go_write ctx.
Definition go_exit (read : bool) (ctx : pt_regs) : program := if read then Exit_go_read ctx else Exit_go_write ctx.
Definition go_dir (read : bool) : Z := if read then D_INGRESS else D_EGRESS.

Section go.
Context {E : Env}.

Lemma get_goid_run ctx sa goid w : goroutine_at ctx sa goid w -> get_goid ctx w = (goid, w).
Proof.
  intros [Hs Ho Hg Hid _]. unfold get_goid, bpf_map_lookup_elem, gets, bind. cbn [fst snd].
  change (bm_get go_tls_symaddrs_map w) with (f_go_symaddrs (w_tls w)). rewrite Hs.
  replace (_ || _) with false by lia. rewrite (proj2 (Z.eqb_neq _ _) Hg). by rewrite Hid.
Qed.

Lemma reg_bytes (k n i : nat) r ctx : k = (8 + n)%nat -> go_regs ctx !! i = Some r -> (i < 9)%nat ->
  assign_arg (zeros k) (GoLocation GO_REGISTERS (Z.of_nat i)) (PT_REGS_SP ctx) (go_regs ctx)
  = le_store 8 r ++ take n (flat_map (le_store 8) (drop (S i) (go_regs ctx))).
Proof.
  intros -> Hr Hi. unfold assign_arg, zeros. cbn [location gl_offset].
  replace (_ && _) with true by lia. rewrite Nat2Z.id, length_replicate, (drop_S _ r) by done.
  cbn [flat_map]. by rewrite take_app_add' by (by rewrite length_le_store).
Qed.

Lemma arg_word_reg (i : nat) r ctx : words (go_regs ctx) -> go_regs ctx !! i = Some r -> (i < 9)%nat ->
  arg_word (GoLocation GO_REGISTERS (Z.of_nat i)) ctx = r.
Proof.
  intros Hw Hr Hi. unfold arg_word. rewrite (reg_bytes 8 0 i r) by done.
  rewrite take_0, app_nil_r, le_load_store. apply Z.mod_small. exact (Forall_lookup_1 _ _ _ _ Hw Hr).
Qed.

Lemma arg_interface_reg (i : nat) r r' ctx : words (go_regs ctx) ->
  go_regs ctx !! i = Some r -> go_regs ctx !! S i = Some r' -> (i < 9)%nat ->
  gi_ptr (arg_interface (GoLocation GO_REGISTERS (Z.of_nat i)) ctx) = r'.
Proof.
  intros Hw Hr Hr' Hi. unfold arg_interface. rewrite (reg_bytes 16 8 i r) by done. cbn [gi_ptr].
  rewrite drop_app_length' by (by rewrite length_le_store). rewrite (drop_S _ r') by done. cbn [flat_map].
  rewrite take_app_length' by (by rewrite length_le_store). rewrite le_load_store.
  apply Z.mod_small. exact (Forall_lookup_1 _ _ _ _ Hw Hr').
Qed.

Lemma go_fd_run sa conn tcp netfd fd :
  tls_conn_at sa conn tcp netfd fd -> get_fd_from_conn_intf_core (GoInterface (tls_conn sa) conn) sa = fd.
Proof.
  intros [H1%Z.eqb_neq H2%Z.eqb_neq H3%Z.eqb_neq H4 H5 H6 _]. unfold get_fd_from_conn_intf_core. cbn [gi_type gi_ptr].
  rewrite H1, H3, Z.eqb_refl, H2, H4. cbn [gi_type gi_ptr]. rewrite Z.eqb_refl. cbn [negb]. by rewrite H5, H6.
Qed.

(** What the entry probes save for the goroutine. *)
Lemma go_enter_run read ctx sa goid conn buf w :
  goroutine_at ctx sa goid w -> words (go_regs ctx) ->
  go_regs ctx !! 0%nat = Some conn -> go_regs ctx !! 1%nat = Some buf ->
  has_room 1024 (goroutine goid) (f_go_conn_op (w_tls w)) ->
  run_program (go_enter read ctx) w
  = w <| w_tls ::= fun s => s <| f_go_conn_op ::= insert (goroutine goid) (GoConnArgs conn buf) |> |>.
Proof.
  intros Hg Hw H0 H1 Hr.
  assert (Hrun : forall save : M world Z, save = bpf_map_update_elem active_tls_conn_op_map (goroutine goid) (GoConnArgs conn buf) ->
    ((let* _ := save in ret 0) w).2
    = w <| w_tls ::= fun s => s <| f_go_conn_op ::= insert (goroutine goid) (GoConnArgs conn buf) |> |>).
  { intros save ->. unfold bind. by rewrite update_elem_room. }
  pose proof (arg_word_reg 0 conn ctx Hw H0 ltac:(lia)) as W0. pose proof (arg_word_reg 1 buf ctx Hw H1 ltac:(lia)) as W1.
  change (Z.of_nat 0) with 0 in W0. change (Z.of_nat 1) with 1 in W1.
  pose proof (get_goid_run ctx sa goid w Hg) as Hid. destruct Hg as [Hs _ _ _ Hnz%Z.eqb_neq].
  destruct read; cbn [go_enter run_program];
    unfold gotls__probe_entry_tls_conn_read, gotls__probe_entry_tls_conn_write, bind at 1; rewrite Hid; cbn [fst snd];
    rewrite Hnz; unfold bpf_map_lookup_elem, gets, bind at 1; cbn [fst snd];
    change (bm_get go_tls_symaddrs_map w) with (f_go_symaddrs (w_tls w)); rewrite Hs; apply Hrun;
    unfold read_c_loc, read_b_loc, write_c_loc, write_b_loc; by rewrite W0, W1.
Qed.

(** The return probes with saved arguments: what [process_go] does, then the entry goes. *)
Lemma go_exit_run (read : bool) ctx sa goid args w :
  goroutine_at ctx sa goid w -> f_go_conn_op (w_tls w) !! goroutine goid = Some args ->
  let m := (if read then process_read else process_write) ctx bpf_get_current_pid_tgid
             (pid_of bpf_get_current_pid_tgid) args in
  run_program (go_exit read ctx) w
  = (m w).2 <| w_tls ::= fun s => s <| f_go_conn_op ::= delete (goroutine goid) |> |>.
Proof.
  intros Hg Ha m. pose proof (get_goid_run ctx sa goid w Hg) as Hid. destruct Hg as [_ _ _ _ Hnz%Z.eqb_neq].
  destruct read; cbn [go_exit run_program]; unfold gotls__probe_ret_tls_conn_read, gotls__probe_ret_tls_conn_write,
    go_ret, bind at 1; rewrite Hid; cbn [fst snd]; rewrite Hnz;
    unfold bpf_map_lookup_elem, gets, bind at 1; cbn [fst snd];
    change (bm_get active_tls_conn_op_map w) with (f_go_conn_op (w_tls w)); by rewrite Ha.
Qed.

Lemma process_go_run name direction ctx sa conn buf n ety err tcp netfd fd w :
  f_go_symaddrs (w_tls w) !! pid_of bpf_get_current_pid_tgid = Some sa -> words (go_regs ctx) ->
  go_regs ctx !! 0%nat = Some n -> go_regs ctx !! 1%nat = Some ety -> go_regs ctx !! 2%nat = Some err ->
  tls_conn_at sa conn tcp netfd fd ->
  let tgid := pid_of bpf_get_current_pid_tgid in
  let m := process_go name direction write_retval0_loc write_retval1_loc ctx bpf_get_current_pid_tgid tgid
             (GoConnArgs conn buf) in
  (err <> 0 -> (m w).2 = w)
  /\ (err = 0 -> 0 < n < 2 ^ 63 -> exists w1, same_but_trace w w1
      /\ (m w).2 = (process_data (SocketCtx (PidFd tgid fd) bpf_get_current_pid_tgid name QTAP_GOTLS) direction
                      (DataArgs 0 buf 0 0 0) n true w1).2).
Proof.
  intros Hs Hw H0 H1 H2 Ht tgid m.
  pose proof (arg_word_reg 0 n ctx Hw H0 ltac:(lia)) as W0.
  pose proof (arg_interface_reg 1 ety err ctx Hw H1 H2 ltac:(lia)) as W1.
  change (Z.of_nat 0) with 0 in W0. change (Z.of_nat 1) with 1 in W1.
  assert (Hm : (m w).2 = if negb (err =? 0) then w else
    ((if s64 n >? 0 then
        TRACE_GOTLS tgid name [TRACE_INT "pid" tgid; TRACE_INT "fd" fd; TRACE_INT "bytes" (s64 n)] ;;
        process_data (SocketCtx (PidFd tgid fd) bpf_get_current_pid_tgid name QTAP_GOTLS) direction
          (DataArgs 0 buf 0 0 0) (s64 n) true
      else ret tt) w).2).
  { unfold m, process_go, bpf_map_lookup_elem, gets, bind at 1. cbn [fst snd].
    change (bm_get go_tls_symaddrs_map w) with (f_go_symaddrs (w_tls w)). fold tgid in Hs. rewrite Hs.
    unfold write_retval0_loc, write_retval1_loc. cbn [ga_conn_ptr ga_plaintext_ptr].
    rewrite W0, W1, (go_fd_run sa conn tcp netfd fd Ht). destruct (err =? 0); cbn [negb]; [|done].
    destruct Ht as [_ _ _ _ _ _ Hv%Z.eqb_neq]. by rewrite Hv. }
  rewrite Hm. split; [by intros ->%Z.eqb_neq|]. intros -> Hn. cbn [negb Z.eqb]. rewrite s64_small by lia.
  rewrite (proj2 (Z.gtb_lt n 0)) by lia. eexists. split; [|done]. by apply trace_if_enabled_same.
Qed.

End go.

(** C21: what a goroutine writes or reads through [crypto/tls] is reported as the
    plaintext of the TCP connection under its [tls.Conn].  The Go scheduler may
    have moved the goroutine to another thread of the process between entry and
    return ([E'] and [E] only share the process), and other goroutines may have
    entered and left as long as they did not touch this one's entry: if the call
    returns no error and moved [bs], user space gets exactly these bytes, cut at 4 * 30720, under the identity of
    the connection whose descriptor the interface values lead to; if it returns an
    error, nothing is reported.  Either way the saved arguments are gone. *)
Theorem go_plaintext_attributed (E' E : Env) (read : bool) ctx ctx' sa goid conn buf n ety err tcp netfd fd bs ci w w1 :
  let tgid := pid_of (@bpf_get_current_pid_tgid E) in
  let key := TgidGoid tgid (s64 goid) in
  pid_of (@bpf_get_current_pid_tgid E') = tgid ->
  @goroutine_at E ctx sa goid w -> words (go_regs ctx) ->
  go_regs ctx !! 0%nat = Some conn -> go_regs ctx !! 1%nat = Some buf ->
  has_room 1024 key (f_go_conn_op (w_tls w)) ->
  let w0 := @run_program E (go_enter read ctx) w in
  f_go_conn_op (w_tls w1) !! key = f_go_conn_op (w_tls w0) !! key ->
  @goroutine_at E' ctx' sa goid w1 -> words (go_regs ctx') ->
  go_regs ctx' !! 0%nat = Some n -> go_regs ctx' !! 1%nat = Some ety -> go_regs ctx' !! 2%nat = Some err ->
  @tls_conn_at E' sa conn tcp netfd fd ->
  n = Z.of_nat (length bs) -> @plaintext_at E' buf bs -> @tls_reported E' (PidFd tgid fd) ci w1 ->
  let w' := @run_program E' (go_exit read ctx') w1 in
  f_go_conn_op (w_tls w') !! key = None
  /\ (err <> 0 -> w_sock w' = w_sock w1)
  /\ (err = 0 -> f_conn_info (w_sock w') !! PidFd tgid fd = Some ci
      /\ exists evs, socket_events (w_sock w') = socket_events (w_sock w1) ++ map Ev_data evs
                     /\ plaintext_of ci (go_dir read) bs evs).
Proof.
  intros tgid key He Hg Hw H0 H1 Hr w0 Hsame Hg' Hw' H0' H1' H2' Hc Hn Hbs Hrep w'.
  assert (Hk : @goroutine E' goid = key) by (unfold key, goroutine; by rewrite He).
  assert (Ha : f_go_conn_op (w_tls w1) !! @goroutine E' goid = Some (GoConnArgs conn buf)).
  { rewrite Hk, Hsame. unfold w0.
    rewrite (@go_enter_run E read ctx sa goid conn buf) by done. apply lookup_insert_eq. }
  unfold w'. rewrite (@go_exit_run E' read ctx' sa goid _ w1 Hg' Ha).
  rewrite Hk.
  split; [apply lookup_delete_eq|]. destruct Hg' as [Hs' _ _ _ _].
  destruct (@process_go_run E' (if read then "gotls/read" else "gotls/write") (go_dir read) ctx' sa conn buf n ety err
    tcp netfd fd w1 Hs' Hw' H0' H1' H2' Hc) as [Herr Hok]. cbv zeta in Herr, Hok.
  set (m := (if read then @process_read E' else @process_write E') _ _ _ _).
  assert (Hm : m = @process_go E' (if read then "gotls/read" else "gotls/write") (go_dir read) write_retval0_loc
    write_retval1_loc ctx' (@bpf_get_current_pid_tgid E') (pid_of (@bpf_get_current_pid_tgid E')) (GoConnArgs conn buf)).
  { unfold m. by destruct read. }
  rewrite Hm. split; [intros H; by rewrite (Herr H)|].
  intros H. pose proof Hbs as (_ & _ & _ & Hlen). destruct (Hok H ltac:(lia)) as (v & Hv & ->).
  subst n. rewrite He. fold tgid.
  pose proof (reported_aside w1 v _ _ (same_aside _ _ Hv) Hrep) as Hrep'.
  destruct Hv as (_ & _ & _ & _ & Hvs & _). rewrite <- Hvs.
  apply (@process_data_plaintext E' (SocketCtx (PidFd tgid fd) _ _ QTAP_GOTLS) (go_dir read) (DataArgs 0 buf 0 0 0) bs ci v);
    [done|done|by destruct read; auto|done].
Qed.

(** Goroutine 9 on one thread of process 1000, with its [g] at 4096, its
    [tls.Conn] at 4104 and the request at 4136. *)
Definition go_env (tid : Z) : Env :=
  flat_env (1000 * 2 ^ 32 + tid) 4096
    (le_store 8 9 ++ le_store 8 3 ++ le_store 8 4120 ++ le_store 8 4128 ++ le_store 8 5 ++ demo_request).
Definition go_symaddr : go_tls_symaddr := GoSymaddr 1 2 3 0 0 0 0.
Definition go_world (ci : conn_info) : world :=
  (demo_state ci) <| w_tls ::= fun s => s <| f_go_symaddrs := {[1000 := go_symaddr]} |> |>.

Lemma go_plaintext_attributed_witness :
  let ci := demo_open <| ci_is_ssl := true |> <| ci_protocol := P_HTTP1 |> in
  let ctx := PtRegs 0 0 0 0 0 0 [4104; 4136; 14; 0; 0; 0; 0; 0; 0] 4096 in
  let ctx' := PtRegs 0 0 0 0 0 0 [14; 0; 0; 0; 0; 0; 0; 0; 0] 4096 in
  let w1 := @run_program (go_env 1000) (Enter_go_write ctx) (go_world ci) in
  let w' := @run_program (go_env 1001) (Exit_go_write ctx') w1 in
  exists evs, socket_events (w_sock w') = map Ev_data evs /\ concat (map de_msg evs) = demo_request.
Proof.
  intros ci ctx ctx' w1 w'.
  assert (Hb : @plaintext_at (go_env 1001) 4136 demo_request).
  { split_and!; [done|done|by apply flat_env_holds_at|done..]. }
  assert (Hc : @tls_conn_at (go_env 1001) go_symaddr 4104 4120 4128 5) by (by split).
  assert (Hg : @goroutine_at (go_env 1000) ctx go_symaddr 9 (go_world ci)) by (by split).
  assert (Hg' : @goroutine_at (go_env 1001) ctx' go_symaddr 9 w1) by (by split).
  assert (Hw : words (go_regs ctx)) by (by repeat constructor).
  assert (Hw' : words (go_regs ctx')) by (by repeat constructor).
  assert (Hr : has_room 1024 (TgidGoid 1000 9) (f_go_conn_op (w_tls (go_world ci)))) by (by right).
  assert (Ht : @tls_reported (go_env 1001) (PidFd 1000 5) ci w1).
  { split; first [done | by intros s [-> |[-> | ->]]]. }
  destruct (go_plaintext_attributed (go_env 1001) (go_env 1000) false ctx ctx' go_symaddr 9 4104 4136 14 0 0 4120 4128 5
    demo_request ci (go_world ci) w1 eq_refl Hg Hw eq_refl eq_refl Hr eq_refl Hg' Hw' eq_refl eq_refl eq_refl Hc
    eq_refl Hb Ht) as (_ & _ & H).
  destruct (H eq_refl) as (_ & evs & H1 & H2 & _). exists evs.
  split; [exact H1|etrans; [exact H2|vm_compute; reflexivity]].
Defined.
