(* ===== verification/LibQtap.v ===== *)
(** * The JVM agent's native library

    [jvm/c/libqtap.c]: the JNI functions the Java agent calls.  Each turns Java arrays
    into addresses, calls an empty function on which a probe of
    [bpf/tap/javassl.bpf.c] sits, and gives the arrays back.  A function is the list
    of the JNI and bridge calls it makes. *)

From stdpp Require Import base numbers list.
From S2P Require Import Prelude.

(** The empty functions the probes attach to. *)
Inductive bridge :=
| ssl_read_entry (buffer offset length : Z)
| ssl_read_exit (result : Z)
| ssl_write_entry (buffer offset length : Z)
| ssl_write_exit
| ssl_engine_wrap_exit (plaintext p_len encrypted e_len session_id id_len : Z)
| ssl_engine_unwrap_exit (encrypted e_len plaintext p_len session_id id_len : Z).

Inductive jni_step :=
| Get (array bytes : Z)
| Bridge (b : bridge)
| Release (array bytes : Z).

Section libqtap.

(** The address [GetPrimitiveArrayCritical] returns for an array, 0 for [NULL]. *)
Context (critical : Z -> Z).

(** The body of [readEntry] and [writeEntry]. *)
Definition java_entry (hook : Z -> Z -> Z -> bridge) (buffer offset length : Z) : list jni_step :=
  if (buffer =? 0) || (length <=? 0) then []
  else
    let bytes := critical buffer in
    [Get buffer bytes; Bridge (hook bytes offset length); Release buffer bytes].

Definition Java_io_qpoint_qtap_JavaSsl_readEntry := java_entry ssl_read_entry.
Definition Java_io_qpoint_qtap_JavaSsl_readExit (result : Z) : list jni_step := [Bridge (ssl_read_exit result)].
Definition Java_io_qpoint_qtap_JavaSsl_writeEntry := java_entry ssl_write_entry.
Definition Java_io_qpoint_qtap_JavaSsl_writeExit : list jni_step := [Bridge ssl_write_exit].

(** An optional array: absent, refused by the JVM, or held at an address. *)
Definition wanted (array len : Z) : bool := negb (array =? 0) && (len >? 0).
Definition held (array len : Z) : Z := if wanted array len then critical array else 0.
Definition get (array len : Z) : list jni_step := if wanted array len then [Get array (critical array)] else [].
Definition release (array bytes : Z) : list jni_step := if negb (bytes =? 0) then [Release array bytes] else [].
Definition pointer (bytes offset : Z) : Z := if negb (bytes =? 0) then bytes + offset else 0.

(** The two engine functions take the arrays in the order of their parameters:
    [first], then [second]; [hook] gets the two pointers. *)
Definition engine_exit (hook : Z -> Z -> Z -> bridge) (first first_offset first_len second second_offset second_len
    sessionId sessionIdLen : Z) : list jni_step :=
  if (sessionId =? 0) || (sessionIdLen <=? 0) then []
  else if ((first =? 0) || (first_len <=? 0)) && ((second =? 0) || (second_len <=? 0)) then []
  else
    let sessionIdBytes := critical sessionId in
    if sessionIdBytes =? 0 then [Get sessionId sessionIdBytes]
    else
      let firstBytes := held first first_len in
      let cleanup_session := [Release sessionId sessionIdBytes] in
      let cleanup_first := release first firstBytes ++ cleanup_session in
      Get sessionId sessionIdBytes :: get first first_len ++
        if wanted first first_len && (firstBytes =? 0) then cleanup_session
        else
          let secondBytes := held second second_len in
          get second second_len ++
            if wanted second second_len && (secondBytes =? 0) then cleanup_first
            else Bridge (hook (pointer firstBytes first_offset) (pointer secondBytes second_offset) sessionIdBytes)
                 :: release second secondBytes ++ cleanup_first.

Definition Java_io_qpoint_qtap_JavaSsl_engineWrapExit (plaintextArray plaintextOffset plaintextLen encryptedArray
    encryptedOffset encryptedLen sessionId sessionIdLen : Z) : list jni_step :=
  engine_exit (fun plaintextPtr encryptedPtr sessionIdBytes =>
      ssl_engine_wrap_exit plaintextPtr plaintextLen encryptedPtr encryptedLen sessionIdBytes sessionIdLen)
    plaintextArray plaintextOffset plaintextLen encryptedArray encryptedOffset encryptedLen sessionId sessionIdLen.

Definition Java_io_qpoint_qtap_JavaSsl_engineUnwrapExit (encryptedArray encryptedOffset encryptedLen plaintextArray
    plaintextOffset plaintextLen sessionId sessionIdLen : Z) : list jni_step :=
  engine_exit (fun encryptedPtr plaintextPtr sessionIdBytes =>
      ssl_engine_unwrap_exit encryptedPtr encryptedLen plaintextPtr plaintextLen sessionIdBytes sessionIdLen)
    encryptedArray encryptedOffset encryptedLen plaintextArray plaintextOffset plaintextLen sessionId sessionIdLen.

End libqtap.

(** ** Critical sections *)

(** The arrays held after a step, innermost first; [None] when the JVM's rules are
    broken: a release of an array that is not the innermost one, or with another
    address. *)
Definition jni_after (step : jni_step) (stack : list (Z * Z)) : option (list (Z * Z)) :=
  match step with
  | Get array bytes => Some (if bytes =? 0 then stack else (array, bytes) :: stack)
  | Bridge _ => Some stack
  | Release array bytes =>
      match stack with
      | (a, p) :: rest => if (a =? array) && (p =? bytes) then Some rest else None
      | [] => None
      end
  end.

Fixpoint jni_run (steps : list jni_step) (stack : list (Z * Z)) : option (list (Z * Z)) :=
  match steps with
  | [] => Some stack
  | s :: rest => match jni_after s stack with Some stack' => jni_run rest stack' | None => None end
  end.

(** The bridge calls of a list of steps. *)
Definition bridges (steps : list jni_step) : list bridge :=
  omap (fun s => match s with Bridge b => Some b | _ => None end) steps.

Lemma jni_run_app s1 s2 stack :
  jni_run (s1 ++ s2) stack = match jni_run s1 stack with Some st => jni_run s2 st | None => None end.
Proof. revert stack. induction s1 as [|s s1 IH]; intros stack; cbn; [done|]. by destruct (jni_after s stack). Qed.

Lemma jni_release a p st : jni_run [Release a p] ((a, p) :: st) = Some st.
Proof. cbn. by rewrite !Z.eqb_refl. Qed.

Section critical.
Context (critical : Z -> Z).

(** Taking an optional array and giving it back. *)
Lemma jni_get array len st :
  jni_run (get critical array len) st
  = Some (if held critical array len =? 0 then st else (array, held critical array len) :: st).
Proof. unfold get, held. destruct (wanted array len); [|done]. cbn. by destruct (critical array =? 0). Qed.

Lemma jni_held array len st :
  jni_run (release array (held critical array len))
    (if held critical array len =? 0 then st else (array, held critical array len) :: st) = Some st.
Proof. unfold release. destruct (_ =? 0); [done|]. apply jni_release. Qed.

Lemma engine_exit_balanced hook f fo fl s so sl id idl st :
  jni_run (engine_exit critical hook f fo fl s so sl id idl) st = Some st.
Proof.
  unfold engine_exit. destruct (_ || _); [done|]. destruct (_ && _); [done|].
  destruct (critical id =? 0) eqn:Hid; cbn [jni_run jni_after]; rewrite Hid; [done|].
  rewrite jni_run_app, jni_get. destruct (wanted f fl && _) eqn:Hf.
  - apply andb_true_iff in Hf as [_ ->]. apply jni_release.
  - rewrite jni_run_app, jni_get. destruct (wanted s sl && _) eqn:Hs.
    + apply andb_true_iff in Hs as [_ ->]. rewrite jni_run_app, jni_held. apply jni_release.
    + cbn [jni_run jni_after]. rewrite jni_run_app, jni_held, jni_run_app, jni_held. apply jni_release.
Qed.

(** The one bridge call: all wanted arrays were obtained. *)
Lemma engine_exit_bridges hook f fo fl s so sl id idl :
  let firstBytes := held critical f fl in
  let secondBytes := held critical s sl in
  bridges (engine_exit critical hook f fo fl s so sl id idl)
  = if wanted id idl && (wanted f fl || wanted s sl) && negb (critical id =? 0)
       && negb (wanted f fl && (firstBytes =? 0)) && negb (wanted s sl && (secondBytes =? 0))
    then [hook (pointer firstBytes fo) (pointer secondBytes so) (critical id)] else [].
Proof.
  intros firstBytes secondBytes. unfold engine_exit. fold firstBytes secondBytes.
  assert (Hw : forall a l, (a =? 0) || (l <=? 0) = negb (wanted a l)) by (intros; unfold wanted; lia).
  rewrite !Hw. destruct (wanted id idl); [|done]. cbn [negb andb].
  assert (Hg : forall a l, bridges (get critical a l) = []) by (intros; unfold get; by destruct (wanted a l)).
  assert (Hr : forall a b, bridges (release a b) = []) by (intros a b; unfold release; by destruct (b =? 0)).
  assert (Ha : forall x y, bridges (x ++ y) = bridges x ++ bridges y) by (intros; apply omap_app).
  rewrite <- negb_orb. destruct (wanted f fl || wanted s sl); [|done]. cbn [negb andb].
  destruct (critical id =? 0); [done|]. cbn [negb andb].
  change (bridges (Get id (critical id) :: ?l)) with (bridges l). rewrite Ha, Hg.
  destruct (wanted f fl && _); [done|]. cbn [negb andb app]. rewrite Ha, Hg.
  destruct (wanted s sl && _); cbn [negb app]; [by rewrite Ha, Hr|].
  change (bridges (Bridge ?b :: ?l)) with (b :: bridges l). by rewrite !Ha, !Hr.
Qed.

Lemma pointer_wanted array len offset : pointer (held critical array len) offset <> 0 -> 0 < len.
Proof. unfold pointer, held, wanted. destruct (_ && _) eqn:Hw; [lia|done]. Qed.

End critical.

(** What the probes may rely on: a session has an address and a positive length,
    and a buffer that is present has a positive length. *)
Definition safe_bridge (b : bridge) : Prop :=
  match b with
  | ssl_read_entry _ _ len | ssl_write_entry _ _ len => 0 < len
  | ssl_engine_wrap_exit p pl e el s sl | ssl_engine_unwrap_exit e el p pl s sl =>
      s <> 0 /\ 0 < sl /\ (p <> 0 -> 0 < pl) /\ (e <> 0 -> 0 < el)
  | ssl_read_exit _ | ssl_write_exit => True
  end.

(** Every array is given back, and the bridge is called at most once. *)
Definition well_behaved (steps : list jni_step) : Prop :=
  jni_run steps [] = Some [] /\ (length (bridges steps) <= 1)%nat /\ Forall safe_bridge (bridges steps).

Lemma engine_exit_behaved critical hook f fo fl s so sl id idl :
  (forall p q sid, (p <> 0 -> 0 < fl) -> (q <> 0 -> 0 < sl) -> sid <> 0 -> 0 < idl -> safe_bridge (hook p q sid)) ->
  well_behaved (engine_exit critical hook f fo fl s so sl id idl).
Proof.
  intros Hh. split; [apply engine_exit_balanced|]. rewrite engine_exit_bridges.
  destruct (_ && _) eqn:Hc; [|by split; [cbn; lia|]]. split; [done|]. constructor; [|done].
  unfold wanted in Hc. apply Hh; [apply pointer_wanted..|lia|lia].
Qed.

Lemma java_entry_run critical hook b off len :
  bridges (java_entry critical hook b off len) = (if wanted b len then [hook (critical b) off len] else [])
  /\ jni_run (java_entry critical hook b off len) [] = (if wanted b len && (critical b =? 0) then None else Some []).
Proof.
  unfold java_entry, wanted. replace ((b =? 0) || (len <=? 0)) with (negb (negb (b =? 0) && (len >? 0))) by lia.
  destruct (negb (b =? 0) && (len >? 0)); [|done]. cbn. destruct (critical b =? 0); [done|]. by rewrite !Z.eqb_refl.
Qed.

Lemma java_entry_behaved critical hook b off len :
  (forall p, 0 < len -> safe_bridge (hook p off len)) ->
  well_behaved (java_entry critical hook b off len) <-> (wanted b len = true -> critical b <> 0).
Proof.
  intros Hh. unfold well_behaved. destruct (java_entry_run critical hook b off len) as [-> ->].
  destruct (wanted b len) eqn:Hw; cbn [andb]; [|split; [done|]; intros _; split_and!; [done|cbn; lia|done]].
  destruct (Z.eqb_spec (critical b) 0) as [H0|H0].
  - split; [by intros [? _]|]. intros Hc. by destruct Hc.
  - split; [done|]. intros _. split_and!; [done|done|]. constructor; [|done]. apply Hh. unfold wanted in Hw. lia.
Qed.

(** The native library keeps the JVM's rules for critical sections and the
    probes' expectations.  Whatever the JVM answers, the engine functions give back
    every array they hold, innermost first, call the bridge at most once, and pass a
    length that is positive wherever the pointer is not null.  The entry functions do
    so exactly when the JVM does not refuse the buffer: they do not test for that, and
    then release an array they do not hold. *)
Theorem jni_sections_balanced (critical : Z -> Z) (b off len f fo fl s so sl id idl : Z) :
  well_behaved (Java_io_qpoint_qtap_JavaSsl_engineWrapExit critical f fo fl s so sl id idl)
  /\ well_behaved (Java_io_qpoint_qtap_JavaSsl_engineUnwrapExit critical f fo fl s so sl id idl)
  /\ (well_behaved (Java_io_qpoint_qtap_JavaSsl_readEntry critical b off len)
      <-> (wanted b len = true -> critical b <> 0))
  /\ (well_behaved (Java_io_qpoint_qtap_JavaSsl_writeEntry critical b off len)
      <-> (wanted b len = true -> critical b <> 0)).
Proof.
  split_and!; [apply engine_exit_behaved|apply engine_exit_behaved|apply java_entry_behaved|apply java_entry_behaved];
    by intros.
Qed.
