(* ===== verification/JavaSpec.v ===== *)
(** * What the Java probes promise

    From the JNI functions of the agent's library through the probes to the events:
    [SSLSocket] plaintext reaches the connection whose system call carried the
    ciphertext, and the two halves of the [SSLEngine] correlation report what they
    see. *)

From stdpp Require Import base numbers list gmap strings.
From S2P Require Import Prelude Tap Net Bpf Trace Common Settings Process Buffers Protocol.
From S2P Require Import Socket SocketProbes NodeTls JavaSsl SocketInv SocketSpec SocketTotals System SocketCalls TlsSpec.
From S2P Require Import LibQtap.

(** The program attached to each function of the library. *)
Definition uprobe (b : bridge) : program :=
  match b with
  | ssl_read_entry buf off len => Java_read_entry buf off len
  | ssl_read_exit r => Java_read_exit r
  | ssl_write_entry buf off len => Java_write_entry buf off len
  | ssl_write_exit => Java_write_exit
  | ssl_engine_wrap_exit p pl e el s sl => Java_wrap_exit p pl e el s sl
  | ssl_engine_unwrap_exit e el p pl s sl => Java_unwrap_exit e el p pl s sl
  end.

(** A JNI function called by the process. *)
Definition run_jni (E : Env) (steps : list jni_step) (w : world) : world := run_all E (map uprobe (bridges steps)) w.

(** ** SSLSocket *)

Definition java_args_map (read : bool) : bpf_map Z java_ssl_args :=
  if read then java_active_ssl_read_args_map else java_active_ssl_write_args_map.
Definition java_dir (read : bool) : Z := if read then D_INGRESS else D_EGRESS.

Definition java_enter (critical : Z -> Z) (read : bool) (array off len : Z) : list jni_step :=
  if read then Java_io_qpoint_qtap_JavaSsl_readEntry critical array off len
  else Java_io_qpoint_qtap_JavaSsl_writeEntry critical array off len.

(** [n] is the result of a read; a write has none. *)
Definition java_exit (read : bool) (n : Z) : list jni_step :=
  if read then Java_io_qpoint_qtap_JavaSsl_readExit n else Java_io_qpoint_qtap_JavaSsl_writeExit.

Section socket.
Context {E : Env}.

Lemma java_entry_probe (read : bool) buf off len w :
  0 <= buf + off < 2 ^ 64 -> - 2 ^ 31 <= off < 2 ^ 31 -> 0 < len < 2 ^ 31 ->
  has_room 1024 bpf_get_current_pid_tgid (bm_get (java_args_map read) w) ->
  runs (java_ssl_entry (java_args_map read) buf off len) w (fun _ w' => aside w w' /\ same_args w w'
    /\ f_uprobe_fd_requests (w_sock w') !! bpf_get_current_pid_tgid = Some (FdRequest 0 true)
    /\ bm_get (java_args_map read) w' !! bpf_get_current_pid_tgid = Some (JavaArgs 0 (buf + off) len)).
Proof.
  intros Hb Ho Hl Hr. unfold java_ssl_entry, request_java_fd_from_syscall, runs, bind, ret. cbn [fst snd].
  rewrite !s32_small by lia. rewrite (proj2 (Z.leb_gt _ _)) by lia. rewrite u64_small by lia.
  destruct read; rewrite update_elem_room by done;
    (split_and!; try done; cbn; [apply lru_update_lookup|apply lookup_insert_eq]).
Qed.

Lemma get_java_fd_run pid_tgid w r :
  f_uprobe_fd_requests (w_sock w) !! pid_tgid = Some r ->
  get_java_fd_from_syscall pid_tgid w = (s32 (fr_fd r), forget_request pid_tgid w).
Proof.
  intros Hr. unfold get_java_fd_from_syscall, bpf_map_lookup_elem, gets, bind. cbn [fst snd].
  change (bm_get uprobe_fd_requests w) with (f_uprobe_fd_requests (w_sock w)). by rewrite Hr.
Qed.

Lemma java_data_reports (read : bool) name fd ci bs buf len r w :
  let id := PidFd (pid_of bpf_get_current_pid_tgid) fd in
  f_uprobe_fd_requests (w_sock w) !! bpf_get_current_pid_tgid = Some r -> s32 (fr_fd r) = fd -> fd <> 0 ->
  plaintext_at buf bs -> tls_reported id ci w ->
  runs (java_ssl_data (java_args_map read) name (java_dir read) (JavaArgs 0 buf len) (Z.of_nat (length bs))) w
    (fun _ w' => f_conn_info (w_sock w') !! id = Some ci
      /\ (exists evs, socket_events (w_sock w') = socket_events (w_sock w) ++ map Ev_data evs
                      /\ plaintext_of ci (java_dir read) bs evs)
      /\ f_uprobe_fd_requests (w_sock w') !! bpf_get_current_pid_tgid = None).
Proof.
  intros id Hr Hfr Hfd Hbs Hc. unfold java_ssl_data. apply runs_bind. unfold runs at 1.
  rewrite (get_java_fd_run _ _ r), Hfr by done. cbn [fst snd]. apply runs_bind, runs_modify.
  rewrite (proj2 (Z.eqb_neq _ _) Hfd). cbn [ja_buf]. unfold runs. set (w2 := bm_set _ _ _).
  assert (A2 : aside w w2 /\ f_uprobe_fd_requests (w_sock w2) !! bpf_get_current_pid_tgid = None).
  { split; [by destruct read|]. destruct read; apply lookup_delete_eq. }
  clearbody w2. destruct A2 as [A2 R2]. pose proof (reported_aside w w2 id ci A2 Hc) as Hc2. destruct A2 as [<- _].
  set (ctx := SocketCtx _ _ _ _).
  destruct (process_data_plaintext ctx (java_dir read) (DataArgs fd buf 0 0 0) bs ci w2 Hbs eq_refl
    ltac:(destruct read; auto) Hc2) as [C5 E5].
  destruct (process_data_saved ctx (java_dir read) (DataArgs fd buf 0 0 0) (Z.of_nat (length bs)) true w2) as (_ & R5 & _).
  split_and!; [exact C5|exact E5|by rewrite R5].
Qed.

(** The exit probes with saved arguments: the data, then the entry goes. *)
Lemma java_exit_probe (read : bool) n args bytes w :
  bm_get (java_args_map read) w !! bpf_get_current_pid_tgid = Some args ->
  bytes = (if read then s32 n else ja_len args) -> 0 < bytes ->
  exists name, run_jni E (java_exit read n) w
    = (bpf_map_delete_elem (java_args_map read) bpf_get_current_pid_tgid
        (java_ssl_data (java_args_map read) name (java_dir read) args bytes w).2).2.
Proof.
  intros Ha -> Hb. destruct read; cbn [java_args_map] in Ha; eexists.
  - change (run_jni E (java_exit true n) w) with (java_ssl_read_exit n w).2.
    unfold java_ssl_read_exit, bpf_map_lookup_elem, gets, bind at 1. cbn [fst snd]. rewrite Ha.
    by rewrite (proj2 (Z.leb_gt _ _)) by lia.
  - change (run_jni E (java_exit false n) w) with (java_ssl_write_exit w).2.
    unfold java_ssl_write_exit, bpf_map_lookup_elem, gets, bind at 1. cbn [fst snd]. by rewrite Ha.
Qed.

End socket.

(** C22: what a Java program writes or reads through an [SSLSocket] is reported as
    the plaintext of the connection whose system call carried the ciphertext.  The
    agent announces the call with its array, the thread makes one system call on a
    streamed TLS connection, and the agent announces the return: user space gets
    exactly the bytes of the array part, cut at 4 * 30720, under that connection's
    identity; the ciphertext is only counted, and neither the request nor the saved
    arguments are left behind. *)
Theorem java_plaintext_attributed (E' E : Env) critical (read : bool) d array off len n a0 a1 a2 a3 r bs ci w :
  let fd := s32 a0 in
  let pid_tgid := @bpf_get_current_pid_tgid E in
  @bpf_get_current_pid_tgid E' = pid_tgid -> @qpid E' = @qpid E ->
  fd <> 0 -> @tls_streamed E (@current_id E fd) ci w ->
  wanted array len = true -> 0 <= critical array + off < 2 ^ 64 -> - 2 ^ 31 <= off < 2 ^ 31 -> len < 2 ^ 31 ->
  has_room 1024 pid_tgid (bm_get (java_args_map read) w) -> @call_room E d fd w ->
  peeks d a2 a3 = false -> @call_buf E d a1 <> 0 -> 0 < r ->
  (if read then s32 n else len) = Z.of_nat (length bs) -> @plaintext_at E' (critical array + off) bs ->
  let w' := run_jni E' (java_exit read n)
    (run_all E [Enter_data d a0 a1 a2 a3; Exit_data_init d r; Exit_data d r]
       (run_jni E (java_enter critical read array off len) w)) in
  (exists evs, socket_events (w_sock w') = socket_events (w_sock w) ++ map Ev_data evs
               /\ plaintext_of ci (java_dir read) bs evs)
  /\ f_conn_info (w_sock w') !! @current_id E fd = Some (counted false ci (call_dir d) r)
  /\ f_uprobe_fd_requests (w_sock w') !! pid_tgid = None
  /\ bm_get (java_args_map read) w' !! pid_tgid = None.
Proof.
  intros fd pid_tgid He Hq Hfd Ht Hw Hbuf Hoff Hlen Hr1 Hr2 Hp Hb Hr Hn Hbs w'.
  assert (Hjni : run_jni E (java_enter critical read array off len) w
    = (@java_ssl_entry E (java_args_map read) (critical array) off len w).2).
  { unfold run_jni, java_enter, Java_io_qpoint_qtap_JavaSsl_readEntry, Java_io_qpoint_qtap_JavaSsl_writeEntry.
    destruct read; by rewrite (proj1 (java_entry_run _ _ _ _ _)), Hw. }
  unfold w'. rewrite Hjni. unfold wanted in Hw.
  destruct (@java_entry_probe E read (critical array) off len w Hbuf Hoff ltac:(lia) Hr1)
    as (A1 & (S1 & S2 & S3 & S4) & R1 & G1).
  set (w1 := (java_ssl_entry _ _ _ _ w).2) in *. clearbody w1.
  pose proof (aside_streamed w w1 _ ci A1 Ht) as Ht1.
  assert (Hfr : - 2 ^ 31 <= fd < 2 ^ 31) by (unfold fd, s32; pose proof (Z.mod_pos_bound (a0 + 2 ^ 31) (2 ^ 32)); lia).
  assert (H1 : during w1 fd ci false w1) by (split; try done; [apply Ht1|eexists; split; [exact R1|done]]).
  assert (Hr3 : call_room d fd w1) by (unfold call_room, saved_args; rewrite S1; destruct d; by rewrite ?S3, ?S4).
  pose proof (data_call_during w1 fd ci d a0 a1 a2 a3 r w1 eq_refl Hfr Ht1 Hp Hb Hr Hr3 H1) as H4.
  set (w4 := run_all E _ w1) in *. clearbody w4.
  destruct (during_reported (E' := E') w1 fd ci _ _ _ w4 Hq Ht1 H4) as [Ht4 D4].
  destruct H4 as [E4 _ _ T4 _ (q & Q4 & Hq4)].
  assert (Hg : bm_get (java_args_map read) w4 !! @bpf_get_current_pid_tgid E' = Some (JavaArgs 0 (critical array + off) len)).
  { rewrite He. destruct read; cbn in *; by rewrite T4. }
  pose proof Hbs as (_ & _ & _ & Hl).
  destruct (@java_exit_probe E' read n _ (Z.of_nat (length bs)) w4 Hg ltac:(by destruct read) ltac:(lia)) as [name ->].
  assert (Hid : PidFd (pid_of (@bpf_get_current_pid_tgid E')) fd = @current_id E fd) by (by rewrite He).
  fold pid_tgid in Q4. rewrite <- He in Q4.
  destruct (@java_data_reports E' read name fd (counted false ci (call_dir d) r) bs (critical array + off) len q w4)
    as (C6 & (evs & E6 & P6) & R6); rewrite ?Hid; try done; [by apply Hq4|].
  rewrite Hid in C6. destruct A1 as (A1 & _). rewrite E4, A1 in E6. rewrite <- He.
  destruct read; (split_and!; [exists evs; split; [exact E6|by apply D4]|exact C6|exact R6|apply lookup_delete_eq]).
Qed.

Lemma java_plaintext_attributed_witness :
  let ci := demo_open <| ci_is_ssl := true |> <| ci_protocol := P_HTTP1 |>
              <| ci_rd_bytes := 50 |> <| ci_wr_bytes := 100 |> in
  let w' := run_jni demo_env (java_exit false 0)
    (run_all demo_env [Enter_data WRITE 5 4096 35 0; Exit_data_init WRITE 35; Exit_data WRITE 35]
       (run_jni demo_env (java_enter (fun _ => 4110) false 77 2 14) (demo_state ci))) in
  (exists evs, socket_events (w_sock w') = map Ev_data evs /\ concat (map de_msg evs) = demo_request)
  /\ f_conn_info (w_sock w') !! PidFd 1000 5 = Some (ci <| ci_wr_bytes := 135 |>).
Proof.
  intros ci w'.
  assert (Hb : @plaintext_at demo_env (4110 + 2) demo_request).
  { split_and!; [done|done|by apply flat_env_holds_at|done..]. }
  assert (Ht : @tls_streamed demo_env (PidFd 1000 5) ci (demo_state ci)).
  { split; first [done | by intros s [-> |[-> | ->]]]. }
  assert (Hr : @call_room demo_env WRITE 5 (demo_state ci)) by (by split; right).
  assert (Hs : has_room 1024 (@bpf_get_current_pid_tgid demo_env) (bm_get (java_args_map false) (demo_state ci)))
    by (by right).
  assert (s32 5 <> 0 /\ @call_buf demo_env WRITE 4096 <> 0 /\ 0 < 35) as (H1 & H2 & H3) by done.
  assert (0 <= 4110 + 2 < 2 ^ 64 /\ - 2 ^ 31 <= 2 < 2 ^ 31 /\ 14 < 2 ^ 31) as (H4 & H5 & H6) by done.
  destruct (java_plaintext_attributed demo_env demo_env (fun _ => 4110) false WRITE 77 2 14 0 5 4096 35 0 35 demo_request
    ci (demo_state ci) eq_refl eq_refl H1 Ht eq_refl H4 H5 H6 Hs Hr eq_refl H2 H3 eq_refl Hb)
    as ((evs & E1 & E2 & _) & E3 & _).
  split; [exists evs; split; [exact E1|etrans; [exact E2|vm_compute; reflexivity]]|exact E3].
Defined.

(** ** SSLEngine *)

(** The events on the engine's ring buffer. *)
Definition jevents (w : world) : list java_event := java_events (f_java (w_tls w)).
Definition jheap (w : world) : java_ssl_engine_event := f_java_heap (f_java (w_tls w)).

Section engine.
Context {E : Env} (Hroom : forall k, ringbuf_room k = true).

(** The chunk loop, for a [chunk] that keeps [P] and sends [mk] of its bytes. *)
Lemma engine_chunks_run chunk (P : world -> Prop) (mk : list Z -> java_event) :
  (forall buf cur bs w, P w -> user_holds buf bs -> bs <> [] -> asks_for cur bs ->
     let w' := (chunk buf cur w).2 in P w' /\ jevents w' = jevents w ++ [mk (take (Z.to_nat MAX_MSG_SIZE) bs)]) ->
  forall n bs i buf size sent w, P w ->
  user_holds (buf + sent) bs -> sent + Z.of_nat (length bs) = size -> size < 2 ^ 31 ->
  0 <= sent -> (i + n = BUF_CHUNK_LIMIT)%nat -> bs <> [] ->
  let w' := (engine_chunks chunk n i buf size sent w).2 in
  P w' /\ jevents w' = jevents w ++ map (fun c => mk c.2) (chunks n sent bs).
Proof.
  intros Hchunk. induction n as [|n IH]; intros bs i buf size sent w Hw Hbs Hlen Hmax Hs Hi Hne w';
    [by rewrite app_nil_r|].
  assert (0 < length bs)%nat by (by destruct bs; [|simpl; lia]).
  unfold w'. cbn [engine_chunks]. rewrite s32_small by lia. replace (size - sent) with (Z.of_nat (length bs)) by lia.
  set (cur := u64 _).
  assert (Hcur : cur = if (Z.of_nat (length bs) >? MAX_MSG_SIZE) && negb (Nat.eqb i 3) then MAX_MSG_SIZE
                       else Z.of_nat (length bs)).
  { unfold cur, MAX_MSG_SIZE. rewrite u64_small; [done|]. destruct (_ && _) eqn:Hc; lia. }
  clearbody cur. destruct (Hchunk (buf + sent) cur bs w Hw Hbs Hne) as [Hw2 Hev].
  { rewrite Hcur. destruct (_ && _) eqn:Hc; [right; lia|by left]. }
  assert (0 <= cur <= Z.of_nat (length bs)) as Hcb
    by (rewrite Hcur; unfold MAX_MSG_SIZE in *; destruct (_ && _) eqn:?; lia).
  unfold bind. set (w2 := (chunk _ _ w).2) in *. rewrite (s32_small (sent + cur)), u64_small by lia.
  cbn [chunks map]. set (rest := drop (Z.to_nat MAX_MSG_SIZE) bs).
  assert (Hrest : length rest = (length bs - Z.to_nat MAX_MSG_SIZE)%nat) by apply length_drop.
  unfold MAX_MSG_SIZE in *.
  destruct ((Z.of_nat (length bs) >? 30720) && negb (Nat.eqb i 3)) eqn:Hc.
  - assert (rest <> []) as Hrne by (intros Hn; rewrite Hn in Hrest; cbn [length] in Hrest; lia).
    rewrite (proj2 (Z.eqb_neq size _)), Hcur by lia.
    destruct (IH rest (S i) buf size (sent + 30720) w2) as [H1 H2]; try done; try lia.
    + replace (buf + (sent + 30720)) with (buf + sent + Z.of_nat (Z.to_nat 30720)) by lia.
      apply user_holds_drop; [lia|done].
    + split; [done|]. rewrite H2, Hev, <- app_assoc. destruct rest as [|x rest']; [done|]. done.
  - rewrite (proj2 (Z.eqb_eq size _)) by lia. cbn [snd ret].
    assert (match rest with [] => [] | _ => chunks n (sent + 30720) rest end = []) as ->.
    { destruct rest as [|x rest']; [done|]. destruct n; [done|]. cbn [length] in Hrest.
      unfold BUF_CHUNK_LIMIT in Hi. lia. }
    by rewrite Hev.
Qed.

Lemma java_output_run ev w : jevents (java_events_output ev w).2 = jevents w ++ [ev] /\ jheap (java_events_output ev w).2 = jheap w.
Proof.
  unfold java_events_output, bpf_ringbuf_reserve, tick, bind, ret. cbn [fst snd]. by rewrite Hroom.
Qed.

(** A data buffer is sent under the event prepared on the heap. *)
Lemma submit_engine_data_run buf bs w :
  user_holds buf bs -> 0 < Z.of_nat (length bs) < 2 ^ 31 ->
  let w' := (submit_engine_data buf (Z.of_nat (length bs)) w).2 in
  jheap w' = jheap w
  /\ jevents w' = jevents w
       ++ map (fun c => Je_data (as_data (jheap w) (Z.of_nat (length c.2)) c.2)) (chunks BUF_CHUNK_LIMIT 0 bs).
Proof.
  intros Hbs Hlen w'.
  apply (engine_chunks_run submit_engine_data_chunk (fun v => jheap v = jheap w)
    (fun msg => Je_data (as_data (jheap w) (Z.of_nat (length msg)) msg))); try done; try lia;
    [|by rewrite Z.add_0_r|intros ->; simpl in Hlen; lia].
  intros b cur l v Hv Hl Hne Hcur. destruct (cut_read b cur l Hl Hne Hcur) as (Hrd & Hml & Hpos).
  unfold submit_engine_data_chunk. rewrite Hrd. cbn [fst snd negb Z.eqb]. rewrite (proj2 (Z.gtb_lt _ 0) Hpos).
  unfold bind, gets. cbn [fst snd]. fold (jheap v). rewrite Hv, <- Hml.
  rewrite u32_small by (rewrite length_take; unfold MAX_MSG_SIZE; lia).
  destruct (java_output_run (Je_data (as_data (jheap w) (Z.of_nat (length (take (Z.to_nat MAX_MSG_SIZE) l)))
    (take (Z.to_nat MAX_MSG_SIZE) l))) v) as [H1 H2]. split; [by rewrite H2|exact H1].
Qed.

End engine.

(** The key of a session: its first eight bytes, mixed with its length. *)
Definition session_hash (sid : list Z) : Z := Z.lxor (le_load (take 8 sid)) (Z.of_nat (length sid)).

(** A buffer as it is cut into messages. *)
Definition pieces (bs : list Z) : list (list Z) := match bs with [] => [] | _ => map snd (chunks BUF_CHUNK_LIMIT 0 bs) end.

(** The events for [bs], with these attributes and some time. *)
Definition engine_events (pid session direction data_type : Z) (bs : list Z) (evs : list java_ssl_engine_data_event) :
    Prop :=
  concat (map je_msg evs) = take (4 * Z.to_nat MAX_MSG_SIZE) bs /\ map je_msg evs = pieces bs
  /\ Forall (fun e => exists ts, e = JavaDataEvent J_DATA ts pid session direction data_type
                                   (Z.of_nat (length (je_msg e))) (je_msg e)) evs.

Lemma pieces_chunks bs : (0 < length bs)%nat -> pieces bs = map snd (chunks BUF_CHUNK_LIMIT 0 bs).
Proof. intros L. destruct bs; [cbn in L; lia|done]. Qed.

Lemma engine_events_sent ts pid w20 session direction data_type bs :
  (0 < length bs)%nat ->
  engine_events pid session direction data_type bs
    (map (fun c => as_data (JavaHeap J_DATA ts pid w20 session direction data_type) (Z.of_nat (length c.2)) c.2)
       (chunks BUF_CHUNK_LIMIT 0 bs)).
Proof.
  intros L. split; [rewrite map_map; apply (chunks_concat BUF_CHUNK_LIMIT)|].
  split; [by rewrite map_map, pieces_chunks|].
  apply Forall_fmap, Forall_forall. intros c _. by exists ts.
Qed.

Section engine_data.
Context {E : Env}.

Lemma session_hash_run a sid :
  user_holds a sid -> (0 < length sid)%nat -> compute_session_hash a (Z.of_nat (length sid)) = session_hash sid.
Proof.
  intros Ha Hl. unfold compute_session_hash, session_hash. rewrite (proj2 (Z.leb_gt _ _)) by lia.
  assert (Hc : (if Z.of_nat (length sid) >? 8 then 8 else Z.of_nat (length sid)) = Z.of_nat (8 `min` length sid))
    by (destruct (Z.gtb_spec (Z.of_nat (length sid)) 8); lia).
  rewrite Hc. pose proof (Ha 0%nat (8 `min` length sid)%nat ltac:(lia)) as Hr. rewrite Z.add_0_r, drop_0 in Hr.
  rewrite Hr. cbn [fst snd negb Z.eqb]. by rewrite take_min_length.
Qed.

(** One half of [handle_engine_data]: the event is prepared and the buffer sent. *)
Lemma engine_half (f : Z -> java_ssl_engine_event -> java_ssl_engine_event) buf bs w
    (Hroom : forall k, ringbuf_room k = true) :
  user_holds buf bs -> 0 < Z.of_nat (length bs) < 2 ^ 31 ->
  runs (let* ts := bpf_ktime_get_ns in java_heap (f ts) ;; submit_engine_data buf (Z.of_nat (length bs))) w
    (fun _ w' => exists ts, let h := f ts (jheap w) in
      jheap w' = h /\ jevents w' = jevents w ++ map Je_data
        (map (fun c => as_data h (Z.of_nat (length c.2)) c.2) (chunks BUF_CHUNK_LIMIT 0 bs))).
Proof.
  intros Hbs Hlen. unfold bpf_ktime_get_ns, tick, runs, bind, ret. cbn [fst snd].
  set (ts := u64 _). set (w1 := (java_heap _ _).2). exists ts.
  destruct (submit_engine_data_run Hroom buf bs w1 Hbs Hlen) as [H1 H2].
  split; [exact H1|]. rewrite map_map. exact H2.
Qed.

Lemma handle_engine_data_run dir p e el s sid bs es w :
  (forall k, ringbuf_room k = true) ->
  p <> 0 -> user_holds p bs -> 0 < Z.of_nat (length bs) < 2 ^ 31 ->
  s <> 0 -> user_holds s sid -> (0 < length sid)%nat -> session_hash sid <> 0 ->
  (e = 0 /\ es = [] \/ e <> 0 /\ user_holds e es /\ el = Z.of_nat (length es) /\ 0 < el < 2 ^ 31) ->
  f_java_session_ignore (f_java (w_tls w)) !! session_hash sid = None ->
  let known := bool_decide (is_Some (f_java_uprobe_correlated (f_java (w_tls w)) !! session_hash sid)) in
  let encrypted := if known then [] else es in
  let pid := bpf_get_current_userspace_pid in
  runs (handle_engine_data (JavaEngineData p (Z.of_nat (length bs)) e el s (Z.of_nat (length sid)) dir))
    w (fun _ w' => exists evs_e evs_p,
      jevents w' = jevents w ++ map Je_data (evs_e ++ evs_p)
      /\ engine_events pid (session_hash sid) dir J_ENCRYPTED encrypted evs_e
      /\ engine_events (if bool_decide (encrypted = []) then ju_pid (jheap w) else pid) (session_hash sid) dir J_PLAINTEXT
           bs evs_p).
Proof.
  intros Hroom Hp Hbs Hbl Hs Hsid Hsl Hh He Hig known encrypted pid. unfold handle_engine_data.
  cbn [ed_plaintext_buf ed_plaintext_len ed_encrypted_buf ed_encrypted_len ed_session_id_buf ed_session_id_len
    ed_direction].
  replace (_ || _) with false by lia. rewrite session_hash_run by done. rewrite (proj2 (Z.eqb_neq _ _) Hh).
  apply runs_bind, runs_gets. change (bm_get java_ssl_engine_session_ignore_map w) with (f_java_session_ignore (f_java (w_tls w))).
  rewrite Hig. apply runs_bind, runs_gets.
  change (bm_get java_ssl_engine_uprobe_correlated_map w) with (f_java_uprobe_correlated (f_java (w_tls w))). fold known.
  assert (Hcond : negb known && negb (e =? 0) && (el >? 0) = negb (bool_decide (encrypted = []))).
  { unfold encrypted. destruct known; [done|]. destruct He as [[-> ->]|(He & _ & Hl & Hel)]; [done|].
    rewrite bool_decide_false by (intros ->; simpl in Hl; lia). lia. }
  rewrite Hcond. rewrite (u64_small (Z.of_nat (length bs))) by lia. fold pid. apply runs_bind.
  apply (runs_mono _ _ (fun _ w1 => exists evs_e, jevents w1 = jevents w ++ map Je_data evs_e
    /\ engine_events pid (session_hash sid) dir J_ENCRYPTED encrypted evs_e
    /\ ju_pid (jheap w1) = if bool_decide (encrypted = []) then ju_pid (jheap w) else pid)).
  - destruct (bool_decide_reflect (encrypted = [])) as [-> |Hne]; cbn [negb].
    { apply runs_ret. exists []. by rewrite app_nil_r. }
    assert (encrypted = es) as -> by (unfold encrypted in *; by destruct known).
    destruct He as [[_ ->]|(_ & Hes & -> & Hes')]; [done|]. rewrite u64_small by lia.
    eapply runs_mono; [by apply engine_half|]. intros _ w1 (ts & Hjh & Hev). eexists. split; [exact Hev|].
    split; [apply engine_events_sent; lia|by rewrite Hjh].
  - intros _ w1 (evs_e & Hev1 & He1 & Hpid).
    destruct (engine_half (fun ts u => u <| ju_type := J_DATA |> <| ju_timestamp_ns := ts |>
      <| ju_off24 := session_hash sid |> <| ju_direction := dir |> <| ju_off36 := J_PLAINTEXT |>) p bs w1 Hroom Hbs Hbl)
      as (ts & _ & Hev2).
    eexists evs_e, _. split; [|split; [exact He1|rewrite <- Hpid; apply engine_events_sent; lia]].
    rewrite map_app, app_assoc, <- Hev1. exact Hev2.
Qed.

End engine_data.

(** The JNI function of the agent for either direction. *)
Definition engine_jni (critical : Z -> Z) (ingress : bool) (p po pl e eo el s sl : Z) : list jni_step :=
  if ingress then Java_io_qpoint_qtap_JavaSsl_engineUnwrapExit critical e eo el p po pl s sl
  else Java_io_qpoint_qtap_JavaSsl_engineWrapExit critical p po pl e eo el s sl.

(** An array with part [bs] in memory. *)
Definition array_at {E : Env} (critical : Z -> Z) (array off len : Z) (bs : list Z) : Prop :=
  wanted array len = true /\ critical array <> 0 /\ critical array + off <> 0
  /\ user_holds (critical array + off) bs /\ len = Z.of_nat (length bs) /\ len < 2 ^ 31.

Lemma engine_jni_probe {E : Env} critical ingress p po pl e eo el s sl w :
  wanted p pl = true -> critical p <> 0 -> wanted s sl = true -> critical s <> 0 ->
  (wanted e el = true -> critical e <> 0) ->
  run_jni E (engine_jni critical ingress p po pl e eo el s sl) w
  = (handle_engine_data (JavaEngineData (critical p + po) (s32 pl) (pointer (held critical e el) eo) (s32 el)
      (critical s) (s32 sl) (java_dir ingress)) w).2.
Proof.
  intros Hp Hcp%Z.eqb_neq Hs Hcs%Z.eqb_neq He.
  assert (Hn : wanted e el && (held critical e el =? 0) = false).
  { unfold held. destruct (wanted e el); [|done]. cbn. apply Z.eqb_neq. auto. }
  assert (Hh : held critical p pl = critical p) by (unfold held; by rewrite Hp).
  assert (Hpp : pointer (critical p) po = critical p + po) by (unfold pointer; by rewrite Hcp).
  unfold run_jni, engine_jni, Java_io_qpoint_qtap_JavaSsl_engineUnwrapExit, Java_io_qpoint_qtap_JavaSsl_engineWrapExit.
  destruct ingress; rewrite engine_exit_bridges, Hh, Hp, Hs, Hcs, Hcp, Hn, Hpp; cbn [andb orb negb];
    rewrite ?orb_true_r; done.
Qed.

(** The bytes an [SSLEngine] wraps or unwraps reach user space under their
    session.  Unless the session is ignored, the plaintext is sent in order, up to the
    limit, with the session's key and the direction; before the session is
    correlated, the ciphertext is sent first in the same way.  The process id is that of
    the caller on the ciphertext, and on plaintext that follows it; plaintext sent alone
    carries whatever the previous event left on the heap. *)
Theorem engine_data_reported (E : Env) critical ingress p po pl e eo el s sid bs es w :
  (forall k, ringbuf_room k = true) ->
  array_at critical p po pl bs -> array_at critical s 0 (Z.of_nat (length sid)) sid ->
  (array_at critical e eo el es \/ wanted e el = false /\ es = []) ->
  session_hash sid <> 0 -> f_java_session_ignore (f_java (w_tls w)) !! session_hash sid = None ->
  let known := bool_decide (is_Some (f_java_uprobe_correlated (f_java (w_tls w)) !! session_hash sid)) in
  let encrypted := if known then [] else es in
  let pid := bpf_get_current_userspace_pid in
  let w' := run_jni E (engine_jni critical ingress p po pl e eo el s (Z.of_nat (length sid))) w in
  exists evs_e evs_p,
    jevents w' = jevents w ++ map Je_data (evs_e ++ evs_p)
    /\ engine_events pid (session_hash sid) (java_dir ingress) J_ENCRYPTED encrypted evs_e
    /\ engine_events (if bool_decide (encrypted = []) then ju_pid (jheap w) else pid) (session_hash sid)
         (java_dir ingress) J_PLAINTEXT bs evs_p.
Proof.
  intros Hroom (Wp & Cp & Np & Hbs & -> & Lp) (Ws & Cs & Ns & Hsid & _ & Ls) He Hh Hig known encrypted pid w'.
  unfold w'. rewrite engine_jni_probe; [|done..|by destruct He as [(_ & ? & _)|[-> _]]].
  pose proof Wp as Wp'. pose proof Ws as Ws'. unfold wanted in Wp', Ws'. rewrite !(s32_small (Z.of_nat _)) by lia.
  rewrite Z.add_0_r in Hsid.
  apply (handle_engine_data_run (java_dir ingress) (critical p + po) (pointer (held critical e el) eo) (s32 el)
    (critical s) sid bs es w); try done; try lia.
  destruct He as [(We & Ce & Ne & Hes & Hel & Le)|[We ->]]; [right|left]; unfold pointer, held; rewrite We; [|done].
  rewrite (proj2 (Z.eqb_neq _ _) Ce). cbn [negb]. unfold wanted in We. rewrite s32_small by lia.
  split_and!; [done|done|done|lia|lia].
Qed.

Lemma engine_data_reported_witness :
  exists evs_p,
    jevents (run_jni demo_env (engine_jni (fun a => 4000 + a) false 112 0 14 0 0 0 96 8) world_init)
    = map Je_data evs_p
    /\ engine_events 0 (session_hash [2; 0; 0; 80; 1; 2; 3; 4]) D_EGRESS J_PLAINTEXT demo_request evs_p.
Proof.
  assert (Hp : @array_at demo_env (fun a => 4000 + a) 112 0 14 demo_request).
  { split_and!; [done..|by apply flat_env_holds_at|done|done]. }
  assert (Hs : @array_at demo_env (fun a => 4000 + a) 96 0 8 [2; 0; 0; 80; 1; 2; 3; 4]).
  { split_and!; [done..|by apply flat_env_holds_at|done|done]. }
  assert (session_hash [2; 0; 0; 80; 1; 2; 3; 4] <> 0) as Hh by done.
  assert (He : @array_at demo_env (fun a => 4000 + a) 0 0 0 [] \/ wanted 0 0 = false /\ @nil Z = []) by (by right).
  destruct (engine_data_reported demo_env (fun a => 4000 + a) false 112 0 14 0 0 0 96 [2; 0; 0; 80; 1; 2; 3; 4]
    demo_request [] world_init (fun _ => eq_refl) Hp Hs He Hh eq_refl) as (evs_e & evs_p & H1 & H2 & H3).
  destruct evs_e as [|e evs_e].
  - exists evs_p. split; [exact H1|exact H3].
  - exists evs_p. exfalso. vm_compute in H1. destruct evs_e, evs_p as [|? []]; try discriminate H1.
    all: destruct H3 as [H3 _]; vm_compute in H3; discriminate.
Defined.

(** ** Correlation with the system calls *)

(** The calls with one flat buffer. *)
Definition flat_call (c : engine_call) : bool :=
  match c with ENGINE_WRITEV | ENGINE_READV => false | _ => true end.
Definition engine_dir (c : engine_call) : Z :=
  match c with ENGINE_WRITE | ENGINE_WRITEV | ENGINE_SENDTO => D_EGRESS | _ => D_INGRESS end.

(** The cookie to report the bytes [bs] of descriptor [fd] under, when they are due:
    a Java process, an uncorrelated socket, a record of application data, and a known
    connection. *)
Definition correlates (w : world) (pid fd : Z) (bs : list Z) : option Z :=
  if bool_decide (is_Some (f_java_pids (f_java (w_tls w)) !! pid)) && (2 <? fd)
     && bool_decide (f_java_syscall_correlated (f_java (w_tls w)) !! PidFd pid fd = None)
     && (5 <=? Z.of_nat (length bs)) && (nth 0 bs 0 =? 23)
  then ci_cookie <$> f_conn_info (w_sock w) !! PidFd pid fd else None.

Definition correlate_events (pid fd cookie direction : Z) (bs : list Z) (evs : list java_ssl_engine_correlate_event) :
    Prop :=
  concat (map jc_msg evs) = take (4 * Z.to_nat MAX_MSG_SIZE) bs /\ map jc_msg evs = pieces bs
  /\ Forall (fun e => exists ts, e = JavaCorrelateEvent J_CORRELATE ts pid fd cookie direction
                                   (Z.of_nat (length (jc_msg e))) (jc_msg e)) evs.

Section correlation.
Context {E : Env} (Hroom : forall k, ringbuf_room k = true).

Lemma submit_engine_correlation_run buf bs w :
  user_holds buf bs -> 0 < Z.of_nat (length bs) < 2 ^ 31 ->
  let w' := (submit_engine_correlation buf (Z.of_nat (length bs)) w).2 in
  jevents w' = jevents w ++ map (fun c => Je_correlate (as_correlate ((jheap w) <| ju_off36 := Z.of_nat (length c.2) |>) c.2))
                              (chunks BUF_CHUNK_LIMIT 0 bs).
Proof.
  intros Hbs Hlen w'.
  apply (engine_chunks_run submit_engine_correlation_chunk
    (fun v => forall n, (jheap v) <| ju_off36 := n |> = (jheap w) <| ju_off36 := n |>)
    (fun msg => Je_correlate (as_correlate ((jheap w) <| ju_off36 := Z.of_nat (length msg) |>) msg)));
    try done; try lia; [|by rewrite Z.add_0_r|intros ->; simpl in Hlen; lia].
  intros b cur l v Hv Hl Hne Hcur. destruct (cut_read b cur l Hl Hne Hcur) as (Hrd & Hml & Hpos).
  unfold submit_engine_correlation_chunk. rewrite Hrd. cbn [fst snd negb Z.eqb]. rewrite (proj2 (Z.gtb_lt _ 0) Hpos).
  unfold bind, gets. cbn [fst snd]. rewrite <- Hml, u32_small by (rewrite length_take; unfold MAX_MSG_SIZE; lia).
  set (msg := take _ l). set (v1 := (java_heap _ v).2). fold (jheap v1).
  assert (H1 : jheap v1 = (jheap w) <| ju_off36 := Z.of_nat (length msg) |>) by (rewrite <- Hv; done).
  destruct (java_output_run Hroom (Je_correlate (as_correlate (jheap v1) msg)) v1) as [E1 E2].
  split; [intros n; by rewrite E2, H1|]. rewrite E1, H1. done.
Qed.

Lemma handle_engine_correlation_run fd buf bs dir w :
  user_holds buf bs -> 0 < Z.of_nat (length bs) < 2 ^ 31 ->
  runs (handle_engine_correlation fd (BufInfo buf 0) (Z.of_nat (length bs)) dir) w (fun _ w' =>
    let pid := bpf_get_current_userspace_pid in
    match correlates w pid fd bs with
    | Some cookie => exists evs, jevents w' = jevents w ++ map Je_correlate evs /\ correlate_events pid fd cookie dir bs evs
    | None => jevents w' = jevents w
    end).
Proof.
  intros Hbs Hlen. unfold handle_engine_correlation, correlates. set (pid := bpf_get_current_userspace_pid).
  assert (Hd : detect_tls_app_data (BufInfo buf 0) (Z.of_nat (length bs))
               = (5 <=? Z.of_nat (length bs)) && (nth 0 bs 0 =? 23)).
  { unfold detect_tls_app_data. destruct (Z.ltb_spec (Z.of_nat (length bs)) 5); [by rewrite (proj2 (Z.leb_gt _ _))|].
    rewrite (buf_read_simple_spec 5 _ 0 bs), (proj2 (Z.leb_le _ _)) by (done || lia). cbn [fst snd Z.eqb negb].
    by destruct bs. }
  apply runs_bind, runs_gets. change (bm_get java_process_pid_map w) with (f_java_pids (f_java (w_tls w))).
  destruct (f_java_pids (f_java (w_tls w)) !! pid); [|by apply runs_ret].
  rewrite bool_decide_true by eauto. destruct (Z.leb_spec fd 2); [rewrite (proj2 (Z.ltb_ge _ _)) by lia; by apply runs_ret|].
  rewrite (proj2 (Z.ltb_lt _ _)) by lia. apply runs_bind, runs_gets.
  change (bm_get java_ssl_engine_syscall_correlated_map w) with (f_java_syscall_correlated (f_java (w_tls w))).
  destruct (f_java_syscall_correlated _ !! _); [by apply runs_ret|].
  rewrite bool_decide_true by done. cbn [andb]. rewrite <- Hd. destruct (detect_tls_app_data _ _); [|by apply runs_ret].
  cbn [negb]. apply runs_bind, runs_gets. change (bm_get conn_info_map w) with (f_conn_info (w_sock w)).
  destruct (f_conn_info (w_sock w) !! PidFd pid fd) as [ci|]; [|by apply runs_ret].
  cbn [fmap option_fmap option_map bi_iovcnt bi_buf Z.gtb Z.compare].
  unfold bpf_ktime_get_ns, tick, runs, bind, ret. cbn [fst snd].
  set (ts := u64 _). set (w1 := (java_heap _ _).2). pose proof (submit_engine_correlation_run buf bs w1 Hbs Hlen) as H1.
  eexists. split; [rewrite map_map; exact H1|]. split; [rewrite map_map; apply (chunks_concat BUF_CHUNK_LIMIT)|].
  split; [rewrite map_map, pieces_chunks by lia; done|].
  apply Forall_fmap, Forall_forall. intros c _. by exists ts.
Qed.

Lemma engine_sys_exit_run fd buf bs dir w :
  user_holds buf bs -> 0 < Z.of_nat (length bs) < 2 ^ 31 ->
  f_java_syscall_args (f_java (w_tls w)) !! bpf_get_current_pid_tgid = Some (DataArgs fd buf 0 0 0) ->
  runs (engine_sys_exit dir (Z.of_nat (length bs))) w (fun _ w' =>
    let pid := bpf_get_current_userspace_pid in
    match correlates w pid fd bs with
    | Some cookie => exists evs, jevents w' = jevents w ++ map Je_correlate evs /\ correlate_events pid fd cookie dir bs evs
    | None => jevents w' = jevents w
    end /\ f_java_syscall_args (f_java (w_tls w')) !! bpf_get_current_pid_tgid = None).
Proof.
  intros Hbs Hlen Ha. unfold engine_sys_exit. apply runs_bind, runs_gets.
  change (bm_get java_active_ssl_syscall_args_map w) with (f_java_syscall_args (f_java (w_tls w))). rewrite Ha.
  rewrite (proj2 (Z.gtb_lt _ 0)) by lia. cbn [da_fd]. apply runs_bind.
  eapply runs_mono; [by apply handle_engine_correlation_run|]. intros a v Hv.
  split; [exact Hv|apply lookup_delete_eq].
Qed.

End correlation.

(** A record of application data at 4096. *)
Definition corr_record : list Z := [23; 3; 3; 0; 1; 42].
Definition corr_env : Env := flat_env (1000 * 2 ^ 32 + 1000) 4096 corr_record.

(** The ciphertext of an [SSLEngine] is seen again at the system call that carries
    it.  A read, write, sendto or recvfrom that moved the bytes [bs] on a descriptor
    reports them, in order and up to the limit, under the process, the descriptor and
    the connection's cookie, exactly when the process is a Java one, the descriptor is
    above standard error and not yet correlated, the bytes start a TLS application
    data record, and the connection is known; otherwise nothing is sent.  The call's
    saved arguments are gone either way. *)
Theorem engine_ciphertext_correlated (E' E : Env) c fd buf a2 bs w :
  (forall k, @ringbuf_room E k = true) ->
  @bpf_get_current_pid_tgid E' = @bpf_get_current_pid_tgid E -> flat_call c = true ->
  has_room 1024 (@bpf_get_current_pid_tgid E) (f_java_syscall_args (f_java (w_tls w))) ->
  @user_holds E buf bs -> 0 < Z.of_nat (length bs) < 2 ^ 31 ->
  let pid := @bpf_get_current_userspace_pid E in
  let w' := @run_program E (Exit_engine c (Z.of_nat (length bs))) (@run_program E' (Enter_engine c fd buf a2) w) in
  match correlates w pid (s32 fd) bs with
  | Some cookie =>
      exists evs, jevents w' = jevents w ++ map Je_correlate evs
        /\ correlate_events pid (s32 fd) cookie (engine_dir c) bs evs
  | None => jevents w' = jevents w
  end /\ f_java_syscall_args (f_java (w_tls w')) !! @bpf_get_current_pid_tgid E = None.
Proof.
  intros Hroom Ht Hc Hr Hbs Hlen pid w'.
  assert (He : @run_program E' (Enter_engine c fd buf a2) w
    = bm_set java_active_ssl_syscall_args_map
        (<[@bpf_get_current_pid_tgid E := DataArgs (s32 fd) buf 0 0 0]> (f_java_syscall_args (f_java (w_tls w)))) w).
  { transitivity ((@engine_sys_enter E' fd buf 0 w).2); [by destruct c|].
    unfold engine_sys_enter, bind, ret. rewrite Ht, update_elem_room by done. done. }
  assert (Hx : forall v, @run_program E (Exit_engine c (Z.of_nat (length bs))) v
    = (@engine_sys_exit E (engine_dir c) (Z.of_nat (length bs)) v).2) by (by destruct c).
  unfold w'. rewrite Hx, He. set (w1 := bm_set _ _ w).
  apply (engine_sys_exit_run Hroom (s32 fd) buf bs (engine_dir c) w1 Hbs Hlen). apply lookup_insert_eq.
Qed.

Lemma engine_ciphertext_correlated_witness :
  let w := (demo_state demo_open) <| w_tls ::= fun t => t <| f_java ::= fun j => j <| f_java_pids := {[1000 := true]} |> |> |> in
  let w' := @run_program corr_env (Exit_engine ENGINE_WRITE 6)
              (@run_program corr_env (Enter_engine ENGINE_WRITE 5 4096 6) w) in
  (exists evs, jevents w' = map Je_correlate evs /\ correlate_events 1000 5 7 D_EGRESS corr_record evs)
  /\ f_java_syscall_args (f_java (w_tls w')) !! (1000 * 2 ^ 32 + 1000) = None.
Proof.
  intros w w'.
  assert (Hh : @user_holds corr_env 4096 corr_record) by (by apply flat_env_holds_at).
  assert (Hr : has_room 1024 (@bpf_get_current_pid_tgid corr_env) (f_java_syscall_args (f_java (w_tls w)))) by (by right).
  assert (Hl : 0 < Z.of_nat (length corr_record) < 2 ^ 31) by done.
  exact (engine_ciphertext_correlated corr_env corr_env ENGINE_WRITE 5 4096 6 corr_record w (fun _ => eq_refl) eq_refl
    eq_refl Hr Hh Hl).
Defined.
