(* ===== verification/Certs.v ===== *)
(** * Certificate probes

    Both programs on the opening of certificate files: [bpf/tap/certs.bpf.c], which
    reports that a watched file is opened, and the separate object
    [bpf/certs/certs.bpf.c], which also makes the process open another file by
    overwriting the path it passed to the kernel.  The object shares no state with
    the rest, so it has a state of its own. *)

From stdpp Require Import base numbers list gmap.
From S2P Require Import Prelude Tap.

Definition CERT_READ : Z := 1.
Definition FILE_PATH : nat := 256.

(** [struct cert_read_event] *)
Record cert_read_event := CertReadEvent { cr_type : Z; cr_pid : Z; cr_file_size : Z; cr_file : list Z }.

(** [struct cert_key] *)
Record cert_key := CertKey { ck_pid : Z; ck_file_path : list Z }.
#[export] Instance cert_key_eq_dec : EqDecision cert_key.
Proof. solve_decision. Defined.
#[export] Instance cert_key_countable : Countable cert_key.
Proof.
  by apply (inj_countable' (fun k => (ck_pid k, ck_file_path k)) (fun p => CertKey p.1 p.2)); intros [].
Defined.

(** The helpers: [bpf_probe_read_user_str] and [bpf_probe_read] ([cert_probe_read]) return their result
    and the bytes they leave at the start of the destination; [room] and [fresh] are
    the outcome of a reservation and the contents of the [file] field it returns. *)
Class CertEnv := {
  pid_tgid : Z;
  bpf_probe_read_user_str : Z -> Z -> Z * list Z;
  cert_probe_read : Z -> Z -> Z * list Z;
  room : nat -> bool;
  fresh : nat -> list Z }.

(** [pid_cert_map] has one value type in each object; [user_writes] are the effects
    of [bpf_probe_write_user]: address and bytes. *)
Record cert_state (V : Type) := CertState {
  pid_cert_map : gmap cert_key V;
  reserved : nat;
  cert_events : list cert_read_event;
  user_writes : list (Z * list Z) }.
Arguments CertState {V}.
Arguments pid_cert_map {V}.
Arguments reserved {V}.
Arguments cert_events {V}.
Arguments user_writes {V}.
#[export] Instance cert_state_settable V : Settable (cert_state V) :=
  fun r => CertState (pid_cert_map r) (reserved r) (cert_events r) (user_writes r).

Section certs.
Context {C : CertEnv}.

Definition cert_pid : Z := s32 (Z.shiftr pid_tgid 32).

(** The [file_path] field after the string was copied over zeros and terminated. *)
Definition path_field (copied : list Z) : list Z := <[(FILE_PATH - 1)%nat := 0]> (write_prefix copied (zeros FILE_PATH)).

(** The lines that report the file: whether the reservation succeeded. *)
Definition report_cert {V} (filename : Z) : M (cert_state V) bool :=
  let* k := gets reserved in
  modify (fun s => s <| reserved ::= S |>) ;;
  if negb (room k) then ret false
  else
    let r := bpf_probe_read_user_str filename 256 in
    modify (fun s => s <| cert_events ::= fun l => l ++ [CertReadEvent CERT_READ cert_pid (u32 r.1) (write_prefix r.2 (fresh k))] |>) ;;
    ret true.

(** [bpf_probe_write_user(dst, src, len)] *)
Definition bpf_probe_write_user {V} (dst : Z) (src : list Z) (len : Z) : M (cert_state V) unit :=
  modify (fun s => s <| user_writes ::= fun l => l ++ [(dst, take (Z.to_nat len) src)] |>).

End certs.

Module Tap.
Section tap.
Context {C : CertEnv}.

(** [monitor_cert_open_entry] of [bpf/tap/certs.bpf.c]; [filename] is the second argument. *)
Definition monitor_cert_open_entry (filename : Z) : M (cert_state bool) Z :=
  let r := bpf_probe_read_user_str filename 256 in
  let key := CertKey (u32 cert_pid) (path_field r.2) in
  let* watched := gets (fun s => pid_cert_map s !! key) in
  match watched with
  | None => ret 0
  | Some _ =>
      let* _ := report_cert filename in
      ret 0
  end.

End tap.
End Tap.

Module Redirect.
Section redirect.
Context {C : CertEnv}.

Definition O_WRONLY : Z := 1.
Definition O_RDWR : Z := 2.
Definition O_CREAT : Z := 64.
Definition O_TRUNC : Z := 512.
Definition O_APPEND : Z := 1024.

Definition is_write_op (flags : Z) : bool :=
  negb (Z.land flags O_WRONLY =? 0) || negb (Z.land flags O_RDWR =? 0) || negb (Z.land flags O_TRUNC =? 0)
  || negb (Z.land flags O_APPEND =? 0) || negb (Z.land flags O_CREAT =? 0).

(** The lookup shared by both programs: the replacement path and the size of the
    path it stands in for. *)
Definition custom_cert (filename : Z) : M (cert_state (list Z)) (option (list Z * Z)) :=
  let r := bpf_probe_read_user_str filename 256 in
  let filename_size := r.1 in
  if (filename_size <=? 0) || (filename_size >? 256) then ret None
  else
    let key := CertKey (u32 cert_pid) (path_field r.2) in
    let* custom := gets (fun s => pid_cert_map s !! key) in
    match custom with None => ret None | Some c => ret (Some (c, filename_size)) end.

(** [filename] and [how] are the second and third arguments. *)
Definition monitor_cert_open_entry (filename how : Z) : M (cert_state (list Z)) Z :=
  let flags := le_load (take 8 (cert_probe_read how 24).2) in
  let* found := custom_cert filename in
  match found with
  | None => ret 0
  | Some (custom, filename_size) =>
      if is_write_op flags then ret 0
      else
        let* reported := report_cert filename in
        if negb reported then ret 0
        else
          bpf_probe_write_user filename custom filename_size ;;
          ret 0
  end.

Definition monitor_cert_stat_entry (filename : Z) : M (cert_state (list Z)) Z :=
  let* found := custom_cert filename in
  match found with
  | None => ret 0
  | Some (custom, filename_size) =>
      bpf_probe_write_user filename custom filename_size ;;
      ret 0
  end.

End redirect.
End Redirect.

(** ** The file a process opens *)

(** User memory after writes. *)
Definition poke (mem : Z -> Z) (w : Z * list Z) : Z -> Z := fun x =>
  if w.1 <=? x then match w.2 !! Z.to_nat (x - w.1) with Some b => b | None => mem x end else mem x.

Definition memory_after {V} (mem : Z -> Z) (s s' : cert_state V) : Z -> Z :=
  fold_left poke (drop (length (user_writes s)) (user_writes s')) mem.

(** The C string at an address. *)
Definition path_at (mem : Z -> Z) (a : Z) (p : list Z) : Prop :=
  (forall (i : nat) c, p !! i = Some c -> mem (a + Z.of_nat i) = c /\ c <> 0) /\ mem (a + Z.of_nat (length p)) = 0.

(** The path at [filename] fits the buffer, and the helper does what it documents:
    it copies the string with its terminator and returns the size. *)
Record reads_path {C : CertEnv} (mem : Z -> Z) (filename : Z) (p : list Z) : Prop := {
  rp_path : path_at mem filename p;
  rp_size : (length p < FILE_PATH)%nat;
  rp_read : bpf_probe_read_user_str filename 256 = (Z.of_nat (length p) + 1, p ++ [0]) }.

(** A path in its 256-byte field. *)
Definition padded (p : list Z) : list Z := p ++ zeros (FILE_PATH - length p).

Lemma path_field_padded p : (length p < FILE_PATH)%nat -> path_field (p ++ [0]) = padded p.
Proof.
  unfold FILE_PATH. intros Hp. unfold path_field, padded, write_prefix, zeros, FILE_PATH. rewrite drop_replicate, length_app.
  cbn [length]. change [0] with (replicate 1 0). rewrite <- app_assoc, <- replicate_add.
  replace (1 + (256 - (length p + 1)))%nat with (256 - length p)%nat by lia.
  rewrite insert_app_r_alt by lia. f_equal. apply insert_replicate.
Qed.

(** Overwriting a path in place by one that is not longer. *)
Lemma poke_path mem a (p q : list Z) :
  Forall (fun c => c <> 0) q -> (length q <= length p < FILE_PATH)%nat ->
  let mem' := poke mem (a, take (Z.to_nat (Z.of_nat (length p) + 1)) (padded q)) in
  path_at mem' a q /\ forall x, x < a \/ a + Z.of_nat (length p) < x -> mem' x = mem x.
Proof.
  intros Hq Hl mem'. unfold FILE_PATH in Hl. assert (Hn : Z.to_nat (Z.of_nat (length p) + 1) = S (length p)) by lia.
  assert (Hm : forall (i : nat) c, (i < S (length p))%nat -> padded q !! i = Some c -> mem' (a + Z.of_nat i) = c).
  { intros i c Hi Hc. unfold mem', poke. cbn [fst snd]. rewrite Hn, (proj2 (Z.leb_le _ _)) by lia.
    replace (Z.to_nat (a + Z.of_nat i - a)) with i by lia. by rewrite lookup_take_lt, Hc. }
  split; [split|].
  - intros i c Hc. pose proof (lookup_lt_Some _ _ _ Hc). split; [|by apply (Forall_lookup_1 _ q i c Hq)].
    apply Hm; [lia|]. unfold padded. by rewrite lookup_app_l.
  - apply Hm; [lia|]. unfold padded. rewrite lookup_app_r, Nat.sub_diag by lia. apply lookup_replicate_2.
    unfold FILE_PATH. lia.
  - intros x Hx. unfold mem', poke. cbn [fst snd]. destruct (Z.leb_spec a x); [|done].
    rewrite Hn, lookup_ge_None_2; [done|]. rewrite length_take. lia.
Qed.

Section redirected.
Context {C : CertEnv}.

Lemma custom_cert_run mem filename p s :
  reads_path mem filename p ->
  Redirect.custom_cert filename s
  = (option_map (fun c => (c, Z.of_nat (length p) + 1)) (pid_cert_map s !! CertKey (u32 cert_pid) (padded p)), s).
Proof.
  intros [_ Hs Hr]. unfold Redirect.custom_cert. rewrite Hr. cbn [fst snd]. unfold FILE_PATH in Hs.
  replace (_ || _) with false by lia. unfold bind, gets. cbn [fst snd]. rewrite path_field_padded by done.
  by destruct (pid_cert_map s !! _).
Qed.

(** Both programs, with the replacement found by the lookup. *)
Lemma monitor_open_run mem filename how p s :
  reads_path mem filename p ->
  let flags := le_load (take 8 (cert_probe_read how 24).2) in
  let s' := (Redirect.monitor_cert_open_entry filename how s).2 in
  match pid_cert_map s !! CertKey (u32 cert_pid) (padded p) with
  | None => s' = s
  | Some c => user_writes s' = user_writes s ++
      (if Redirect.is_write_op flags || negb (room (reserved s)) then []
       else [(filename, take (Z.to_nat (Z.of_nat (length p) + 1)) c)])
  end.
Proof.
  intros Hp flags s'. pose proof (custom_cert_run mem filename p s Hp) as Hc. unfold s', Redirect.monitor_cert_open_entry.
  destruct (pid_cert_map s !! _) as [c|]; cbn [option_map] in Hc; unfold bind at 1; rewrite Hc; cbn [fst snd]; [|done].
  fold flags.
  destruct (Redirect.is_write_op flags); cbn [orb]; [by rewrite app_nil_r|].
  unfold report_cert, gets, modify, bind, ret. cbn [fst snd].
  destruct (room (reserved s)); cbn; [done|by rewrite app_nil_r].
Qed.

Lemma monitor_stat_run mem filename p s :
  reads_path mem filename p ->
  let s' := (Redirect.monitor_cert_stat_entry filename s).2 in
  match pid_cert_map s !! CertKey (u32 cert_pid) (padded p) with
  | None => s' = s
  | Some c => user_writes s' = user_writes s ++ [(filename, take (Z.to_nat (Z.of_nat (length p) + 1)) c)]
  end.
Proof.
  intros Hp s'. pose proof (custom_cert_run mem filename p s Hp) as Hc. unfold s', Redirect.monitor_cert_stat_entry.
  by destruct (pid_cert_map s !! _) as [c|]; unfold bind at 1; rewrite Hc.
Qed.

End redirected.

(** A file is opened for writing when one of the bits 0 ([O_WRONLY]), 1 ([O_RDWR]), 6
    ([O_CREAT]), 9 ([O_TRUNC]) and 10 ([O_APPEND]) of the flags is set. *)
Definition for_writing (flags : Z) : bool := existsb (Z.testbit flags) [0; 1; 6; 9; 10].

Lemma land_bit a n k : 0 <= n -> k = 2 ^ n -> negb (Z.land a k =? 0) = Z.testbit a n.
Proof.
  intros Hn ->. destruct (Z.testbit a n) eqn:Hb.
  - apply negb_true_iff, Z.eqb_neq. intros H0. apply (f_equal (fun x => Z.testbit x n)) in H0.
    by rewrite Z.land_spec, Hb, Z.pow2_bits_true, Z.bits_0 in H0.
  - apply negb_false_iff, Z.eqb_eq, Z.bits_inj'. intros m Hm. rewrite Z.land_spec, Z.bits_0, Z.pow2_bits_eqb by done.
    destruct (Z.eqb_spec n m) as [<-|]; [by rewrite Hb|by rewrite andb_false_r].
Qed.

Lemma is_write_op_bits flags : Redirect.is_write_op flags = for_writing flags.
Proof.
  unfold Redirect.is_write_op, for_writing. cbn [existsb].
  rewrite (land_bit flags 0), (land_bit flags 1), (land_bit flags 9), (land_bit flags 10), (land_bit flags 6) by done.
  destruct (Z.testbit flags 0), (Z.testbit flags 1), (Z.testbit flags 6), (Z.testbit flags 9), (Z.testbit flags 10); done.
Qed.


(** Process 7 opens ["/ca.pem"], whose replacement is ["/q.pem"]. *)
Definition demo_cert_env : CertEnv := {|
  pid_tgid := 7 * 2 ^ 32 + 7;
  bpf_probe_read_user_str := fun _ _ => (8, [47; 99; 97; 46; 112; 101; 109] ++ [0]);
  cert_probe_read := fun _ _ => (0, zeros 24);
  room := fun _ => true;
  fresh := fun _ => zeros 256 |}.

