(* ===== verification/Redis.v ===== *)
(** * The Redis stream processor

    [pkg/stream/protocols/redis] of the Go agent: the incremental RESP parser
    ([parser.go], [types.go]), the queue of commands that wait for their response
    ([correlation.go]) and the processor that feeds both from the data events of a
    connection ([stream.go]).  A string is its list of bytes; a slice expression out of
    range and a [make] that cannot succeed are the outcome [Panic].  The nesting of
    values bounds the recursion by the length of the data, which is the fuel [Parse]
    gives it. *)

From stdpp Require Import base numbers list strings.
From S2P Require Import Prelude Tap Common.

(** ** Outcomes *)

Inductive error := ErrIncomplete | ErrInvalidFormat.

Inductive outcome (A : Type) :=
| Ok (a : A)
| Err (e : error)
| Panic
| OutOfFuel.
Arguments Ok {A}. Arguments Err {A}. Arguments Panic {A}. Arguments OutOfFuel {A}.

Definition obind {A B} (m : outcome A) (k : A -> outcome B) : outcome B :=
  match m with Ok a => k a | Err e => Err e | Panic => Panic | OutOfFuel => OutOfFuel end.

Notation "'let?' x := m 'in' k" := (obind m (fun x => k))
  (at level 200, x pattern, right associativity) : bpf_scope.

(** ** What the parser uses of the Go library *)

(** [bytes.Index(data, crlf)] *)
Fixpoint Index_crlf (data : list Z) : option Z :=
  match data with
  | [] => None
  | c :: rest =>
      match rest with
      | [] => None
      | d :: _ => if (c =? 13) && (d =? 10) then Some 0 else (fun i => i + 1) <$> Index_crlf rest
      end
  end.

(** The value of a non-empty string of decimal digits. *)
Fixpoint digits (acc : Z) (s : list Z) : option Z :=
  match s with
  | [] => Some acc
  | c :: s' => if (48 <=? c) && (c <=? 57) then digits (10 * acc + (c - 48)) s' else None
  end.
Definition ParseUint (s : list Z) : option Z := match s with [] => None | _ => digits 0 s end.

(** [strconv.ParseInt(s, 10, 64)], which is also [strconv.Atoi] on the 64-bit
    architectures the agent is built for; both kinds of error are [None]. *)
Definition ParseInt (s : list Z) : option Z :=
  let signed :=
    match s with
    | [] => None
    | c :: s' => if c =? 43 then ParseUint s' else if c =? 45 then Z.opp <$> ParseUint s' else ParseUint s
    end in
  match signed with
  | Some n => if (- 2 ^ 63 <=? n) && (n <? 2 ^ 63) then Some n else None
  | None => None
  end.

(** [data[from:to]] inside the capacity of [data]. *)
Definition slice (data : list Z) (from to : Z) : outcome (list Z) :=
  if (0 <=? from) && (from <=? to) && (to <=? Z.of_nat (length data))
  then Ok (take (Z.to_nat (to - from)) (drop (Z.to_nat from) data))
  else Panic.

(** [make([]Value, 0, count)]: 96 bytes per value, at most [maxAlloc] in all. *)
Definition maxAlloc : Z := 2 ^ 48.
Definition make_values (count : Z) : outcome unit :=
  if (0 <=? count) && (96 * count <=? maxAlloc) then Ok tt else Panic.

(** Floating-point numbers and their parser stay abstract. *)
Class Float64 := {
  float64 : Type;
  float_zero : float64;
  Inf : Z -> float64;
  NaN : float64;
  ParseFloat : list Z -> option float64 }.

(** ** [types.go] *)

Definition TypeSimpleString : Z := 43.
Definition TypeError : Z := 45.
Definition TypeInteger : Z := 58.
Definition TypeBulkString : Z := 36.
Definition TypeArray : Z := 42.
Definition TypeNull : Z := 95.
Definition TypeBoolean : Z := 35.
Definition TypeDouble : Z := 44.
Definition TypeBigNumber : Z := 40.
Definition TypeBulkError : Z := 33.
Definition TypeVerbatim : Z := 61.
Definition TypeMap : Z := 37.
Definition TypeSet : Z := 126.
Definition TypePush : Z := 62.

(** [RESPType.String] *)
Definition RESPType_String (t : Z) : string :=
  if t =? TypeSimpleString then "simple_string"
  else if t =? TypeError then "error"
  else if t =? TypeInteger then "integer"
  else if t =? TypeBulkString then "bulk_string"
  else if t =? TypeArray then "array"
  else if t =? TypeNull then "null"
  else if t =? TypeBoolean then "boolean"
  else if t =? TypeDouble then "double"
  else if t =? TypeBigNumber then "big_number"
  else if t =? TypeBulkError then "bulk_error"
  else if t =? TypeVerbatim then "verbatim"
  else if t =? TypeMap then "map"
  else if t =? TypeSet then "set"
  else if t =? TypePush then "push"
  else "unknown".

Section redis.
Context {Fl : Float64}.

(** A Go map is an association list with one entry per key. *)
Inductive Value := MkValue {
  v_Type : Z; Str : list Z; Int : Z; Bool : bool; Float : float64;
  Array : list Value; Map : list (list Z * Value); IsNull : bool; size : Z }.

(** [&Value{Type: t}] *)
Definition value_of (t : Z) : Value := MkValue t [] 0 false float_zero [] [] false 0.
Definition with_Str (s : list Z) (v : Value) : Value :=
  MkValue (v_Type v) s (Int v) (Bool v) (Float v) (Array v) (Map v) (IsNull v) (size v).
Definition with_Int (n : Z) (v : Value) : Value :=
  MkValue (v_Type v) (Str v) n (Bool v) (Float v) (Array v) (Map v) (IsNull v) (size v).
Definition with_Bool (b : bool) (v : Value) : Value :=
  MkValue (v_Type v) (Str v) (Int v) b (Float v) (Array v) (Map v) (IsNull v) (size v).
Definition with_Float (f : float64) (v : Value) : Value :=
  MkValue (v_Type v) (Str v) (Int v) (Bool v) f (Array v) (Map v) (IsNull v) (size v).
Definition with_Array (a : list Value) (v : Value) : Value :=
  MkValue (v_Type v) (Str v) (Int v) (Bool v) (Float v) a (Map v) (IsNull v) (size v).
Definition with_Map (m : list (list Z * Value)) (v : Value) : Value :=
  MkValue (v_Type v) (Str v) (Int v) (Bool v) (Float v) (Array v) m (IsNull v) (size v).
Definition with_IsNull (v : Value) : Value :=
  MkValue (v_Type v) (Str v) (Int v) (Bool v) (Float v) (Array v) (Map v) true (size v).
Definition with_size (n : Z) (v : Value) : Value :=
  MkValue (v_Type v) (Str v) (Int v) (Bool v) (Float v) (Array v) (Map v) (IsNull v) n.

(** [m[k] = v] *)
Fixpoint map_set (k : list Z) (v : Value) (m : list (list Z * Value)) : list (list Z * Value) :=
  match m with
  | [] => [(k, v)]
  | (k', v') :: m' => if bool_decide (k = k') then (k, v) :: m' else (k', v') :: map_set k v m'
  end.

Record Command := MkCommand { Name : list Z; Args : list (list Z) }.

Fixpoint command_args (i : nat) (elems : list Value) (cmd : Command) : Command :=
  match elems with
  | [] => cmd
  | elem :: elems' =>
      command_args (S i) elems'
        (if negb (v_Type elem =? TypeBulkString) then cmd
         else match i with
              | O => MkCommand (Str elem) (Args cmd)
              | S _ => MkCommand (Name cmd) (Args cmd ++ [Str elem])
              end)
  end.

Definition ToCommand (v : Value) : option Command :=
  if negb (v_Type v =? TypeArray) || bool_decide (Array v = []) then None
  else
    let cmd := command_args 0 (Array v) (MkCommand [] []) in
    if bool_decide (Name cmd = []) then None else Some cmd.

(** ** [parser.go] *)

Definition parsed : Type := outcome (Value * Z).

(** The header line every parser but two starts with: the index of the terminator and
    the text before it. *)
Definition header (data : list Z) : outcome (Z * list Z) :=
  match Index_crlf data with
  | None => Err ErrIncomplete
  | Some idx => let? text := slice data 1 idx in Ok (idx, text)
  end.

(** The same followed by [strconv.Atoi]. *)
Definition header_int (data : list Z) : outcome (Z * Z) :=
  let? (idx, text) := header data in
  match ParseInt text with None => Err ErrInvalidFormat | Some n => Ok (idx, n) end.

Definition parse_text (t : Z) (data : list Z) : parsed :=
  let? (idx, text) := header data in Ok (with_Str text (value_of t), idx + 2).
Definition parseSimpleString : list Z -> parsed := parse_text TypeSimpleString.
Definition parseError : list Z -> parsed := parse_text TypeError.
Definition parseBigNumber : list Z -> parsed := parse_text TypeBigNumber.

Definition parseInteger (data : list Z) : parsed :=
  let? (idx, n) := header_int data in Ok (with_Int n (value_of TypeInteger), idx + 2).

(** The end of the length-prefixed parsers. *)
Definition parse_bulk (t : Z) (data : list Z) (idx length_ : Z) : parsed :=
  let start := idx + 2 in
  let end_ := s64 (start + length_) in
  if s64 (end_ + 2) >? Z.of_nat (length data) then Err ErrIncomplete
  else
    let? text := slice data start end_ in
    Ok (with_Str text (value_of t), end_ + 2).

Definition parseBulkString (data : list Z) : parsed :=
  let? (idx, n) := header_int data in
  if n <? 0 then Ok (with_IsNull (value_of TypeBulkString), idx + 2)
  else parse_bulk TypeBulkString data idx n.

Definition parseBulkError (data : list Z) : parsed :=
  let? (idx, n) := header_int data in parse_bulk TypeBulkError data idx n.
Definition parseVerbatim (data : list Z) : parsed :=
  let? (idx, n) := header_int data in parse_bulk TypeVerbatim data idx n.

Definition parseNull (data : list Z) : parsed :=
  if Z.of_nat (length data) <? 3 then Err ErrIncomplete
  else if negb (byte_at data 1 =? 13) || negb (byte_at data 2 =? 10) then Err ErrInvalidFormat
  else Ok (with_IsNull (value_of TypeNull), 3).

Definition parseBoolean (data : list Z) : parsed :=
  if Z.of_nat (length data) <? 4 then Err ErrIncomplete
  else if negb (byte_at data 2 =? 13) || negb (byte_at data 3 =? 10) then Err ErrInvalidFormat
  else if byte_at data 1 =? 116 then Ok (with_Bool true (value_of TypeBoolean), 4)
  else if byte_at data 1 =? 102 then Ok (with_Bool false (value_of TypeBoolean), 4)
  else Err ErrInvalidFormat.

Definition parseDouble (data : list Z) : parsed :=
  let? (idx, str) := header data in
  let val :=
    if bool_decide (str = bytes_of_string "inf") then Some (Inf 1)
    else if bool_decide (str = bytes_of_string "-inf") then Some (Inf (-1))
    else if bool_decide (str = bytes_of_string "nan") then Some NaN
    else ParseFloat str in
  match val with
  | None => Err ErrInvalidFormat
  | Some f => Ok (with_Float f (value_of TypeDouble), idx + 2)
  end.

Section elements.
Context (parseValue : list Z -> parsed) (data : list Z).

(** The value at [pos]. *)
Definition parse_at (pos : Z) : parsed :=
  if pos >=? Z.of_nat (length data) then Err ErrIncomplete
  else parseValue (drop (Z.to_nat pos) data).

(** The loops over [count] elements and [count] pairs, from number [i]; [n] bounds the
    iterations. *)
Fixpoint parse_elements (n : nat) (i count pos : Z) (elements : list Value) : outcome (list Value * Z) :=
  match n with
  | O => OutOfFuel
  | S n' =>
      if count <=? i then Ok (elements, pos)
      else
        let? (elem, consumed) := parse_at pos in
        parse_elements n' (i + 1) count (pos + consumed) (elements ++ [elem])
  end.

Fixpoint parse_pairs (n : nat) (i count pos : Z) (m : list (list Z * Value)) : outcome (list (list Z * Value) * Z) :=
  match n with
  | O => OutOfFuel
  | S n' =>
      if count <=? i then Ok (m, pos)
      else
        let? (key, keyConsumed) := parse_at pos in
        let pos := pos + keyConsumed in
        let? (val, valConsumed) := parse_at pos in
        parse_pairs n' (i + 1) count (pos + valConsumed) (map_set (Str key) val m)
  end.

(** The end of the parsers of sequences. *)
Definition parse_sequence (t idx count : Z) : parsed :=
  let? _ := make_values count in
  let? (elements, pos) := parse_elements (S (length data)) 0 count (idx + 2) [] in
  Ok (with_Array elements (value_of t), pos).

Definition parseArray : parsed :=
  let? (idx, count) := header_int data in
  if count <? 0 then Ok (with_IsNull (value_of TypeArray), idx + 2)
  else parse_sequence TypeArray idx count.

Definition parseSet : parsed := let? (idx, count) := header_int data in parse_sequence TypeSet idx count.
Definition parsePush : parsed := let? (idx, count) := header_int data in parse_sequence TypePush idx count.

Definition parseMap : parsed :=
  let? (idx, count) := header_int data in
  let? (m, pos) := parse_pairs (S (length data)) 0 count (idx + 2) [] in
  Ok (with_Map m (value_of TypeMap), pos).

End elements.

Fixpoint parseValue (fuel : nat) (data : list Z) : parsed :=
  match fuel with
  | O => OutOfFuel
  | S fuel' =>
      match data with
      | [] => Err ErrIncomplete
      | t :: _ =>
          if t =? TypeSimpleString then parseSimpleString data
          else if t =? TypeError then parseError data
          else if t =? TypeInteger then parseInteger data
          else if t =? TypeBulkString then parseBulkString data
          else if t =? TypeArray then parseArray (parseValue fuel') data
          else if t =? TypeNull then parseNull data
          else if t =? TypeBoolean then parseBoolean data
          else if t =? TypeDouble then parseDouble data
          else if t =? TypeBigNumber then parseBigNumber data
          else if t =? TypeBulkError then parseBulkError data
          else if t =? TypeVerbatim then parseVerbatim data
          else if t =? TypeMap then parseMap (parseValue fuel') data
          else if t =? TypeSet then parseSet (parseValue fuel') data
          else if t =? TypePush then parsePush (parseValue fuel') data
          else Err ErrInvalidFormat
      end
  end.

(** A parser is its buffer. *)
Definition Append (data buffer : list Z) : list Z := buffer ++ data.

(** The value and the buffer after it; an error leaves the buffer. *)
Definition Parse (buffer : list Z) : outcome (Value * list Z) :=
  match buffer with
  | [] => Err ErrIncomplete
  | _ =>
      let? (value, consumed) := parseValue (length buffer) buffer in
      let? rest := slice buffer consumed (Z.of_nat (length buffer)) in
      Ok (with_size consumed value, rest)
  end.

(** ** [correlation.go] and [stream.go] *)

(** What a plugin gets for a value. *)
Inductive any :=
| A_nil
| A_string (s : list Z)
| A_int64 (n : Z)
| A_bool (b : bool)
| A_float64 (f : float64)
| A_slice (l : list any)
| A_map (m : list (list Z * any)).

Fixpoint extractValue (value : Value) : any :=
  match value with
  | MkValue t str int bool float array map_ isnull _ =>
      if (t =? TypeSimpleString) || (t =? TypeError) || (t =? TypeBulkError) || (t =? TypeBulkString)
         || (t =? TypeVerbatim) || (t =? TypeBigNumber)
      then if isnull then A_nil else A_string str
      else if t =? TypeInteger then A_int64 int
      else if t =? TypeBoolean then A_bool bool
      else if t =? TypeDouble then A_float64 float
      else if t =? TypeNull then A_nil
      else if (t =? TypeArray) || (t =? TypeSet) || (t =? TypePush)
      then if isnull then A_nil else A_slice (map extractValue array)
      else if t =? TypeMap then A_map (map (fun kv => (kv.1, extractValue kv.2)) map_)
      else A_nil
  end.

(** The calls on the plugin connections, by the number of the connection. *)
Inductive plugin_call :=
| OnRedisCommand (conn : nat) (name : list Z) (args : list (list Z))
| SetReadBytes (conn : nat) (n : Z)
| OnRedisResult (conn : nat) (type : string) (value : any) (is_error : bool)
| SetWriteBytes (conn : nat) (n : Z)
| Teardown (conn : nat).

Record PendingCommand := MkPending { pc_Command : Command; PluginConn : option nat }.

(** A FIFO queue, oldest first. *)
Definition Enqueue (cmd : PendingCommand) (q : list PendingCommand) : list PendingCommand := q ++ [cmd].
Definition Dequeue (q : list PendingCommand) : option (PendingCommand * list PendingCommand) :=
  match q with [] => None | cmd :: q' => Some (cmd, q') end.

Record Stream := MkStream {
  requestParser : list Z;
  responseParser : list Z;
  pendingCommands : list PendingCommand;
  closed : bool;
  connections : nat;
  plugin_calls : list plugin_call }.
#[export] Instance Stream_settable : Settable Stream :=
  fun r => MkStream (requestParser r) (responseParser r) (pendingCommands r) (closed r) (connections r) (plugin_calls r).

Definition NewStream : Stream := MkStream [] [] [] false 0 [].

(** How a processing loop ends. *)
Inductive loop_end := Returned | Panicked | NoFuel.

Section stream.

(** Whether there is a plugin manager, and whether its [n]th connection succeeds. *)
Context (pluginManager : bool) (new_connection : nat -> bool).

Definition call (cs : list plugin_call) (s : Stream) : Stream := s <| plugin_calls ::= fun l => l ++ cs |>.

(** A parsed command is announced and enqueued. *)
Definition queue_command (value : Value) (cmd : Command) (s : Stream) : Stream :=
  let k := connections s in
  if negb pluginManager then s <| pendingCommands ::= Enqueue (MkPending cmd None) |>
  else
    let s := s <| connections ::= S |> in
    if new_connection k
    then (call [OnRedisCommand k (Name cmd) (Args cmd); SetReadBytes k (size value)] s)
           <| pendingCommands ::= Enqueue (MkPending cmd (Some k)) |>
    else s <| pendingCommands ::= Enqueue (MkPending cmd None) |>.

Fixpoint processRequests (n : nat) (s : Stream) : Stream * loop_end :=
  match n with
  | O => (s, NoFuel)
  | S n' =>
      match Parse (requestParser s) with
      | Err _ => (s, Returned)
      | Panic => (s, Panicked)
      | OutOfFuel => (s, NoFuel)
      | Ok (value, rest) =>
          let s := s <| requestParser := rest |> in
          match ToCommand value with
          | None => processRequests n' s
          | Some cmd => processRequests n' (queue_command value cmd s)
          end
      end
  end.

(** A response goes to the oldest command that waits for one. *)
Definition answer (value : Value) (s : Stream) : Stream :=
  match Dequeue (pendingCommands s) with
  | None => s
  | Some (pending, q) =>
      let s := s <| pendingCommands := q |> in
      match PluginConn pending with
      | None => s
      | Some k =>
          call [OnRedisResult k (RESPType_String (v_Type value)) (extractValue value)
                  ((v_Type value =? TypeError) || (v_Type value =? TypeBulkError));
                SetWriteBytes k (size value); Teardown k] s
      end
  end.

Fixpoint processResponses (n : nat) (s : Stream) : Stream * loop_end :=
  match n with
  | O => (s, NoFuel)
  | S n' =>
      match Parse (responseParser s) with
      | Err _ => (s, Returned)
      | Panic => (s, Panicked)
      | OutOfFuel => (s, NoFuel)
      | Ok (value, rest) => processResponses n' (answer value (s <| responseParser := rest |>))
      end
  end.

(** [ingress] is the direction of the data event. *)
Definition isRequest (source : CONNECTION_TYPE) (ingress : bool) : bool :=
  match source with C_CLIENT => negb ingress | C_SERVER => ingress end.
Definition isResponse (source : CONNECTION_TYPE) (ingress : bool) : bool :=
  match source with C_CLIENT => ingress | C_SERVER => negb ingress end.

Definition Process (source : CONNECTION_TYPE) (ingress : bool) (data : list Z) (s : Stream) : Stream * loop_end :=
  if closed s then (s, Returned)
  else if isRequest source ingress then
    let s := s <| requestParser ::= Append data |> in
    processRequests (S (length (requestParser s))) s
  else if isResponse source ingress then
    let s := s <| responseParser ::= Append data |> in
    processResponses (S (length (responseParser s))) s
  else (s, Returned).

Definition Close (s : Stream) : Stream :=
  let remaining := pendingCommands s in
  let s := s <| pendingCommands := [] |> in
  (call (flat_map (fun pending => match PluginConn pending with Some k => [Teardown k] | None => [] end) remaining) s)
    <| closed := true |>.

End stream.
End redis.
