(* ===== verification/RedisSpec.v ===== *)
(** * What the Redis stream processor promises

    The RESP grammar as a relation between values and bytes, and three facts the
    theorems rest on: parsing consumes between one and all bytes and never runs out of
    fuel, more data never changes an outcome other than [ErrIncomplete], and the
    encoding of a value parses to it. *)

From stdpp Require Import base numbers list strings.
From S2P Require Import Prelude Tap Common Redis.

Section parser.
Context {Fl : Float64}.

(** The outcome of a step that does not run out of fuel, with [Q] of its value. *)
Definition settles {A} (m : outcome A) (Q : A -> Prop) : Prop :=
  match m with Ok a => Q a | OutOfFuel => False | _ => True end.

Lemma settles_bind {A B} (m : outcome A) (k : A -> outcome B) P Q :
  settles m P -> (forall a, P a -> settles (k a) Q) -> settles (obind m k) Q.
Proof. destruct m; cbn; auto. Qed.

Lemma settles_mono {A} (m : outcome A) (P Q : A -> Prop) :
  settles m P -> (forall a, P a -> Q a) -> settles m Q.
Proof. destruct m; cbn; auto. Qed.

Lemma slice_settles data from to :
  settles (slice data from to) (fun _ => 0 <= from <= to /\ to <= Z.of_nat (length data)).
Proof. unfold slice. destruct (_ && _) eqn:?; cbn; lia. Qed.

Lemma Index_bounds data idx : Index_crlf data = Some idx -> 0 <= idx /\ idx + 2 <= Z.of_nat (length data).
Proof.
  revert idx. induction data as [|c data IH]; intros idx; [done|]. cbn [Index_crlf].
  destruct data as [|d data]; [done|]. destruct (_ && _); [intros [= <-]; cbn; lia|].
  destruct (Index_crlf (d :: data)) as [j|] eqn:Hj; [|done]. intros [= <-]. specialize (IH j eq_refl).
  cbn [length] in *. lia.
Qed.

Definition within (data : list Z) (c : Z) : Prop := 1 <= c <= Z.of_nat (length data).

Lemma header_settles data :
  settles (header data) (fun r => 1 <= r.1 /\ r.1 + 2 <= Z.of_nat (length data)).
Proof.
  unfold header. destruct (Index_crlf data) as [idx|] eqn:Hi; [|done]. apply Index_bounds in Hi.
  eapply settles_bind; [apply slice_settles|]. cbn. lia.
Qed.

Lemma header_int_settles data :
  settles (header_int data) (fun r => 1 <= r.1 /\ r.1 + 2 <= Z.of_nat (length data)).
Proof.
  unfold header_int. eapply settles_bind; [apply header_settles|]. intros [idx text] H. cbn in *.
  destruct (ParseInt text); cbn; auto.
Qed.

Lemma parse_bulk_settles t data idx n :
  1 <= idx -> Z.of_nat (length data) < 2 ^ 62 -> settles (parse_bulk t data idx n) (fun r => within data r.2).
Proof.
  intros Hi Hl. unfold parse_bulk. set (e := s64 (idx + 2 + n)).
  destruct (s64 (e + 2) >? _) eqn:He; [done|].
  eapply settles_bind; [apply slice_settles|]. cbn. intros _ H. rewrite s64_small in He by lia.
  unfold within. lia.
Qed.

Section elements.
Context (pv : list Z -> parsed) (data : list Z).
Context (Hpv : forall d, d <> [] -> (length d < length data)%nat -> settles (pv d) (fun r => within d r.2)).

(** At a position past the header. *)
Lemma parse_at_settles pos :
  0 < pos <= Z.of_nat (length data) ->
  settles (parse_at pv data pos) (fun r => 1 <= r.2 /\ pos + r.2 <= Z.of_nat (length data)).
Proof.
  intros Hp. unfold parse_at. destruct (pos >=? _) eqn:He; [done|].
  assert (Hl : length (drop (Z.to_nat pos) data) = (length data - Z.to_nat pos)%nat) by apply length_drop.
  eapply settles_mono; [apply Hpv; [intros Hn; rewrite Hn in Hl; cbn in Hl; lia|lia]|].
  unfold within. cbn. intros [v c]. cbn. lia.
Qed.

Lemma parse_elements_settles n i count pos acc :
  0 < pos <= Z.of_nat (length data) -> Z.of_nat (length data) - pos < Z.of_nat n ->
  settles (parse_elements pv data n i count pos acc) (fun r => pos <= r.2 <= Z.of_nat (length data)).
Proof.
  revert i pos acc. induction n as [|n IH]; intros i pos acc Hp Hn; [lia|]. cbn [parse_elements].
  destruct (_ <=? _); [cbn; lia|]. eapply settles_bind; [by apply parse_at_settles|].
  intros [v c] Hc. cbn in Hc. eapply settles_mono; [apply IH; lia|]. cbn. lia.
Qed.

Lemma parse_pairs_settles n i count pos m :
  0 < pos <= Z.of_nat (length data) -> Z.of_nat (length data) - pos < Z.of_nat n ->
  settles (parse_pairs pv data n i count pos m) (fun r => pos <= r.2 <= Z.of_nat (length data)).
Proof.
  revert i pos m. induction n as [|n IH]; intros i pos m Hp Hn; [lia|]. cbn [parse_pairs].
  destruct (_ <=? _); [cbn; lia|]. eapply settles_bind; [by apply parse_at_settles|].
  intros [k c] Hc. cbn in Hc. eapply settles_bind; [apply parse_at_settles; lia|].
  intros [v c'] Hc'. cbn in Hc'. eapply settles_mono; [apply IH; lia|]. cbn. lia.
Qed.

Lemma parse_sequence_settles t idx count :
  1 <= idx -> idx + 2 <= Z.of_nat (length data) ->
  settles (parse_sequence pv data t idx count) (fun r => within data r.2).
Proof.
  intros Hi Hl. unfold parse_sequence. eapply (settles_bind _ _ (fun _ => True)); [unfold make_values; by destruct (_ && _)|].
  intros _ _. eapply settles_bind; [apply parse_elements_settles; lia|]. intros [vs pos]. unfold within. cbn. lia.
Qed.

End elements.

(** Every parse ends, and an outcome consumes at least one byte and no more than there are. *)
Lemma parseValue_settles fuel data :
  data <> [] -> (length data <= fuel)%nat -> Z.of_nat (length data) < 2 ^ 62 ->
  settles (parseValue fuel data) (fun r => within data r.2).
Proof.
  revert data. induction fuel as [|fuel IH]; intros data Hne Hf Hl.
  { destruct data; [done|cbn in Hf; lia]. }
  assert (Hpv : forall d, d <> [] -> (length d < length data)%nat -> settles (parseValue fuel d) (fun r => within d r.2)).
  { intros d Hd Hdl. apply IH; [done|lia..]. }
  assert (Htext : forall t, settles (parse_text t data) (fun r => within data r.2)).
  { intros t. eapply settles_bind; [apply header_settles|]. intros [idx text]. unfold within. cbn. lia. }
  assert (Hint : forall k, (forall idx n, 1 <= idx -> idx + 2 <= Z.of_nat (length data) ->
      settles (k (idx, n)) (fun r => within data r.2)) ->
      settles (obind (header_int data) k) (fun r : Value * Z => within data r.2)).
  { intros k Hk. eapply settles_bind; [apply header_int_settles|]. intros [idx n] [? ?]. by apply Hk. }
  pose proof (fun t idx count => parse_sequence_settles (parseValue fuel) data Hpv t idx count) as Hseq.
  pose proof (fun t idx n H => parse_bulk_settles t data idx n H Hl) as Hbulk.
  destruct data as [|t data']; [done|]. cbn [parseValue]. repeat case_match; try done; try apply Htext;
    unfold parseInteger, parseBulkString, parseArray, parseNull, parseBoolean, parseDouble, parseBulkError, parseVerbatim,
      parseMap, parseSet, parsePush; try (apply Hint; intros idx n ? ?).
  all: try solve [by apply Hseq | by apply Hbulk | unfold within, settles; cbn [fst snd]; lia].
  - destruct (n <? 0); [unfold within, settles; cbn [fst snd]; lia|by apply Hbulk].
  - destruct (n <? 0); [unfold within, settles; cbn [fst snd]; lia|by apply Hseq].
  - destruct (_ <? 3) eqn:?; [done|]. destruct (_ || _); [done|]. unfold within, settles; cbn [fst snd]; lia.
  - destruct (_ <? 4) eqn:?; [done|]. repeat (case_match; try done); unfold within, settles; cbn [fst snd]; lia.
  - eapply settles_bind; [apply header_settles|]. intros [idx text] [? ?]. cbn [fst snd] in *. repeat (case_match; try done);
      unfold within, settles; cbn [fst snd]; lia.
  - eapply settles_bind; [by apply parse_pairs_settles; [done|lia|lia]|]. intros [m pos] ?. cbn [fst snd] in *. unfold within, settles. cbn [snd]. lia.
Qed.

(** ** More data *)

(** [m'] is the outcome on an extension of the data [m] was computed on. *)
Definition extends {A} (m m' : outcome A) : Prop := m = Err ErrIncomplete \/ m = OutOfFuel \/ m' = m.

Lemma extends_refl {A} (m : outcome A) : extends m m.
Proof. by right; right. Qed.

Lemma extends_bind {A B} (m m' : outcome A) (k k' : A -> outcome B) :
  extends m m' -> (forall a, m = Ok a -> extends (k a) (k' a)) -> extends (obind m k) (obind m' k').
Proof.
  intros [-> |[-> | ->]] Hk; [by left|by right; left|]. destruct m; cbn; [by apply Hk|apply extends_refl..].
Qed.

Lemma slice_app data d from to :
  to <= Z.of_nat (length data) -> slice (data ++ d) from to = slice data from to.
Proof.
  intros Ht. unfold slice. rewrite length_app.
  replace (to <=? Z.of_nat (length data + length d)) with (to <=? Z.of_nat (length data)) by lia.
  destruct (_ && _) eqn:Hc; [|done]. f_equal. rewrite drop_app_le by lia. rewrite take_app_le; [done|].
  rewrite length_drop. lia.
Qed.

Lemma Index_app data d idx : Index_crlf data = Some idx -> Index_crlf (data ++ d) = Some idx.
Proof.
  revert idx. induction data as [|c data IH]; intros idx; [done|]. cbn [Index_crlf app].
  destruct data as [|e data]; [done|]. cbn [app]. destruct (_ && _); [done|].
  destruct (Index_crlf (e :: data)) as [j|]; [|done]. cbn [app] in IH. by rewrite (IH j).
Qed.

Section more.
Context (data d : list Z) (Hl : Z.of_nat (length (data ++ d)) < 2 ^ 62).

Lemma header_ext : extends (header data) (header (data ++ d)).
Proof.
  unfold header. destruct (Index_crlf data) as [idx|] eqn:Hi; [|by left]. rewrite (Index_app _ _ _ Hi).
  apply Index_bounds in Hi. rewrite slice_app by lia. apply extends_refl.
Qed.

Lemma header_int_ext : extends (header_int data) (header_int (data ++ d)).
Proof. apply extends_bind; [apply header_ext|]. intros [idx text] _. apply extends_refl. Qed.

Lemma parse_bulk_ext t idx n : extends (parse_bulk t data idx n) (parse_bulk t (data ++ d) idx n).
Proof.
  rewrite length_app in Hl. unfold parse_bulk. set (e := s64 (idx + 2 + n)).
  destruct (s64 (e + 2) >? Z.of_nat (length data)) eqn:He; [by left|].
  replace (s64 (e + 2) >? Z.of_nat (length (data ++ d))) with false by (rewrite length_app; lia).
  destruct (decide (e <= Z.of_nat (length data))) as [Hle|Hgt]; [rewrite slice_app by done; apply extends_refl|].
  assert (~ (- 2 ^ 63 <= e + 2 < 2 ^ 63)) as Hw by (intros Hw; rewrite s64_small in He by done; lia).
  pose proof (s64_range (idx + 2 + n)). fold e in H.
  assert (forall l, Z.of_nat (length l) < 2 ^ 62 -> slice l (idx + 2) e = Panic) as Hp.
  { intros l Hll. unfold slice. by replace (_ && _) with false by lia. }
  rewrite !Hp by (rewrite ?length_app; lia). apply extends_refl.
Qed.

Lemma byte_app i : Z.of_nat i < Z.of_nat (length data) -> byte_at (data ++ d) i = byte_at data i.
Proof. intros Hi. unfold byte_at. apply app_nth1. lia. Qed.

Section elements_more.
Context (pv pv' : list Z -> parsed) (Hpv : forall l, (length l <= length data)%nat -> extends (pv l) (pv' (l ++ d))).

Lemma parse_at_ext pos : extends (parse_at pv data pos) (parse_at pv' (data ++ d) pos).
Proof.
  unfold parse_at. destruct (pos >=? Z.of_nat (length data)) eqn:He; [by left|].
  rewrite length_app. replace (pos >=? _) with false by lia. rewrite drop_app_le by lia. apply Hpv.
  rewrite length_drop. lia.
Qed.

Lemma parse_elements_ext n n' i count pos acc :
  (n <= n')%nat -> extends (parse_elements pv data n i count pos acc) (parse_elements pv' (data ++ d) n' i count pos acc).
Proof.
  revert n' i pos acc. induction n as [|n IH]; intros n' i pos acc Hn; [by right; left|].
  destruct n' as [|n']; [lia|]. cbn [parse_elements]. destruct (_ <=? _); [apply extends_refl|].
  apply extends_bind; [apply parse_at_ext|]. intros [v c] _. apply IH. lia.
Qed.

Lemma parse_pairs_ext n n' i count pos m :
  (n <= n')%nat -> extends (parse_pairs pv data n i count pos m) (parse_pairs pv' (data ++ d) n' i count pos m).
Proof.
  revert n' i pos m. induction n as [|n IH]; intros n' i pos m Hn; [by right; left|].
  destruct n' as [|n']; [lia|]. cbn [parse_pairs]. destruct (_ <=? _); [apply extends_refl|].
  apply extends_bind; [apply parse_at_ext|]. intros [k c] _. apply extends_bind; [apply parse_at_ext|].
  intros [v c'] _. apply IH. lia.
Qed.

Lemma parse_sequence_ext t idx count :
  extends (parse_sequence pv data t idx count) (parse_sequence pv' (data ++ d) t idx count).
Proof.
  apply extends_bind; [apply extends_refl|]. intros _ _.
  apply extends_bind; [apply parse_elements_ext; rewrite length_app; lia|]. intros [vs pos] _. apply extends_refl.
Qed.

End elements_more.
End more.

(** More data does not change an outcome, unless it is that data are missing. *)
Lemma parseValue_ext fuel fuel' data d :
  (fuel <= fuel')%nat -> Z.of_nat (length (data ++ d)) < 2 ^ 62 ->
  extends (parseValue fuel data) (parseValue fuel' (data ++ d)).
Proof.
  revert fuel' data. induction fuel as [|fuel IH]; intros fuel' data Hf Hl; [by right; left|].
  destruct fuel' as [|fuel']; [lia|]. destruct data as [|t data']; [by left|].
  set (data := t :: data') in *.
  assert (Hpv : forall l, (length l <= length data)%nat -> extends (parseValue fuel l) (parseValue fuel' (l ++ d))).
  { intros l Hll. apply IH; [lia|]. rewrite length_app in *. lia. }
  assert (Hint : forall k k' : Z * Z -> parsed, (forall r, extends (k r) (k' r)) ->
      extends (obind (header_int data) k) (obind (header_int (data ++ d)) k')).
  { intros k k' Hk. apply extends_bind; [apply header_int_ext|]. intros r _. apply Hk. }
  pose proof (fun t idx n => parse_sequence_ext data d _ _ Hpv t idx n) as Hseq.
  pose proof (fun t idx n => parse_bulk_ext data d Hl t idx n) as Hbulk.
  assert (Hsmall : forall n (m m' : parsed), ((Z.of_nat (length data) <? n) = false -> m' = m) ->
    extends (if Z.of_nat (length data) <? n then Err ErrIncomplete else m)
      (if Z.of_nat (length (data ++ d)) <? n then Err ErrIncomplete else m')).
  { intros n m m' Hm. destruct (_ <? n) eqn:Hn; [by left|]. rewrite length_app.
    replace (_ <? n) with false by lia. rewrite Hm by done. apply extends_refl. }
  assert (Hb : forall i, Z.of_nat i < Z.of_nat (length data) -> byte_at (data ++ d) i = byte_at data i) by apply byte_app.
  assert (Htext : forall t, extends (parse_text t data) (parse_text t (data ++ d))).
  { intros t0. apply extends_bind; [apply header_ext|]. intros [idx text] _. apply extends_refl. }
  unfold data at 1 2. cbn [parseValue app]. change (t :: data' ++ d) with (data ++ d). change (t :: data') with data.
  repeat match goal with |- extends (if ?b then _ else _) (if ?b then _ else _) => destruct b end;
    try apply extends_refl; try apply Htext;
    unfold parseInteger, parseBulkString, parseArray, parseNull, parseBoolean, parseDouble, parseBulkError, parseVerbatim,
      parseMap, parseSet, parsePush; try (apply Hint; intros [idx n]).
  all: try solve [apply Hseq | apply Hbulk | apply extends_refl].
  - destruct (n <? 0); [apply extends_refl|apply Hbulk].
  - destruct (n <? 0); [apply extends_refl|apply Hseq].
  - apply Hsmall. intros Hn. by rewrite !Hb by lia.
  - apply Hsmall. intros Hn. by rewrite !Hb by lia.
  - apply extends_bind; [apply header_ext|]. intros [idx text] _. apply extends_refl.
  - apply extends_bind; [apply parse_pairs_ext; [done|rewrite length_app; lia]|]. intros [m pos] _. apply extends_refl.
Qed.

Lemma Parse_run b v c :
  b <> [] -> parseValue (length b) b = Ok (v, c) -> Z.of_nat (length b) < 2 ^ 62 ->
  Parse b = Ok (with_size c v, drop (Z.to_nat c) b).
Proof.
  intros Hb Hp Hl. pose proof (parseValue_settles (length b) b Hb ltac:(lia) Hl) as Hs. rewrite Hp in Hs. cbn in Hs.
  unfold Parse. destruct b as [|t b']; [done|]. set (b := t :: b') in *. rewrite Hp. cbn [obind]. unfold slice, within in *.
  replace (_ && _) with true by lia. cbn [obind]. rewrite take_ge; [done|]. rewrite length_drop. lia.
Qed.

(** What the parser answers on [b], it answers when more data follow. *)
Lemma Parse_app b d :
  Z.of_nat (length (b ++ d)) < 2 ^ 62 ->
  match Parse b with
  | Ok (v, rest) => Parse (b ++ d) = Ok (v, rest ++ d) /\ (length rest < length b)%nat
  | Err ErrIncomplete => True
  | Err ErrInvalidFormat => Parse (b ++ d) = Err ErrInvalidFormat
  | Panic => Parse (b ++ d) = Panic
  | OutOfFuel => False
  end.
Proof.
  intros Hl. destruct b as [|t b']; [done|]. set (b := t :: b') in *.
  assert (Hbd : b ++ d <> []) by done. assert (Hlb : Z.of_nat (length b) < 2 ^ 62) by (rewrite length_app in Hl; lia).
  pose proof (parseValue_settles (length b) b ltac:(done) ltac:(lia) Hlb) as Hs.
  pose proof (parseValue_ext (length b) (length (b ++ d)) b d ltac:(rewrite length_app; lia) Hl) as He.
  assert (Hbind : forall l, l <> [] -> forall e : outcome (Value * Z), parseValue (length l) l = e ->
    (forall a, e <> Ok a) -> Parse l = match e with Err x => Err x | Panic => Panic | _ => OutOfFuel end).
  { intros l Hne e <-. unfold Parse. destruct l as [|c l]; [done|].
    destruct (parseValue (length (c :: l)) (c :: l)) as [a|x| |]; intros Hno; [by destruct (Hno a)|done..]. }
  destruct (parseValue (length b) b) as [[v c]|e| |] eqn:Hp; [|rewrite (Hbind b ltac:(done) _ Hp) by done..|done].
  - destruct He as [He|[He|He]]; [done..|]. rewrite (Parse_run b v c) by done. cbn in Hs. unfold within in Hs.
    rewrite (Parse_run (b ++ d) v c) by done. rewrite drop_app_le by lia. split; [done|]. rewrite length_drop. lia.
  - destruct e; [done|]. destruct He as [He|[He|He]]; [done..|]. by rewrite (Hbind (b ++ d) Hbd _ He).
  - destruct He as [He|[He|He]]; [done..|]. by rewrite (Hbind (b ++ d) Hbd _ He).
Qed.

(** ** The grammar *)

Definition crlf : list Z := [13; 10].

(** No line terminator inside. *)
Definition clean (s : list Z) : Prop := forall p q, s <> p ++ 13 :: 10 :: q.

(** A decimal numeral with an optional sign, in the range of [int64]. *)
Definition decimal (ds : list Z) : Z := fold_left (fun acc d => 10 * acc + d) ds 0.
Definition numeral (text : list Z) (n : Z) : Prop :=
  exists sign ds, ds <> [] /\ Forall (fun d => 0 <= d <= 9) ds /\ text = sign ++ map (Z.add 48) ds
    /\ ((sign = [] \/ sign = [43]) /\ n = decimal ds \/ sign = [45] /\ n = - decimal ds)
    /\ - 2 ^ 63 <= n < 2 ^ 63.

Definition double (s : list Z) (f : float64) : Prop :=
  s = bytes_of_string "inf" /\ f = Inf 1 \/ s = bytes_of_string "-inf" /\ f = Inf (-1)
  \/ s = bytes_of_string "nan" /\ f = NaN
  \/ s <> bytes_of_string "inf" /\ s <> bytes_of_string "-inf" /\ s <> bytes_of_string "nan" /\ ParseFloat s = Some f.

Definition count_of {A} (l : list A) : Z := Z.of_nat (length l).

(** The keys the parser can tell apart: strings of some type. *)
Definition string_key (k : Value) : Prop :=
  v_Type k ∈ [TypeSimpleString; TypeBulkString; TypeVerbatim; TypeBigNumber; TypeError; TypeBulkError]
  /\ IsNull k = false.

Definition key_name (kv : Value * Value) : list Z := Str kv.1.

(** A map whose keys are distinct strings. *)
Definition proper_map (kvs : list (Value * Value)) : Prop :=
  Forall (fun kv => string_key kv.1) kvs /\ NoDup (map key_name kvs).

Definition entries (kvs : list (Value * Value)) : list (list Z * Value) := map (fun kv => (key_name kv, kv.2)) kvs.

(** What is left of any other map: the parser names an entry by the text of its
    key, which is empty for a key that is not a string, and of the pairs with one
    name only the value of the last stays. *)
Fixpoint distinct (names : list (list Z)) : list (list Z) :=
  match names with
  | [] => []
  | k :: ks => k :: filter (fun k' => k' <> k) (distinct ks)
  end.

Definition value_for (name : list Z) (kvs : list (Value * Value)) : option Value :=
  last (map snd (filter (fun kv => key_name kv = name) kvs)).

Definition merged (kvs : list (Value * Value)) (m : list (list Z * Value)) : Prop :=
  map fst m = distinct (map key_name kvs) /\ Forall (fun e => value_for e.1 kvs = Some e.2) m.

Inductive encodes : Value -> list Z -> Prop :=
| enc_text t s : t ∈ [TypeSimpleString; TypeError; TypeBigNumber] -> clean s ->
    encodes (with_Str s (value_of t)) (t :: s ++ crlf)
| enc_int text n : numeral text n -> encodes (with_Int n (value_of TypeInteger)) (TypeInteger :: text ++ crlf)
| enc_bulk t text s : t ∈ [TypeBulkString; TypeBulkError; TypeVerbatim] -> numeral text (count_of s) ->
    encodes (with_Str s (value_of t)) (t :: text ++ crlf ++ s ++ crlf)
| enc_nil t text n : t ∈ [TypeBulkString; TypeArray] -> numeral text n -> n < 0 ->
    encodes (with_IsNull (value_of t)) (t :: text ++ crlf)
| enc_null : encodes (with_IsNull (value_of TypeNull)) (TypeNull :: crlf)
| enc_bool b : encodes (with_Bool b (value_of TypeBoolean)) (TypeBoolean :: (if b : bool then 116 else 102) :: crlf)
| enc_double s f : clean s -> double s f -> encodes (with_Float f (value_of TypeDouble)) (TypeDouble :: s ++ crlf)
| enc_seq t text vs body : t ∈ [TypeArray; TypeSet; TypePush] -> numeral text (count_of vs) ->
    96 * count_of vs <= maxAlloc -> encodes_all vs body ->
    encodes (with_Array vs (value_of t)) (t :: text ++ crlf ++ body)
| enc_map text kvs body : numeral text (count_of kvs) -> encodes_pairs kvs body -> proper_map kvs ->
    encodes (with_Map (entries kvs) (value_of TypeMap)) (TypeMap :: text ++ crlf ++ body)
| enc_map_merged text kvs m body : numeral text (count_of kvs) -> encodes_pairs kvs body -> merged kvs m ->
    encodes (with_Map m (value_of TypeMap)) (TypeMap :: text ++ crlf ++ body)
with encodes_all : list Value -> list Z -> Prop :=
| all_nil : encodes_all [] []
| all_cons v vs b bs : encodes v b -> encodes_all vs bs -> encodes_all (v :: vs) (b ++ bs)
with encodes_pairs : list (Value * Value) -> list Z -> Prop :=
| pairs_nil : encodes_pairs [] []
| pairs_cons k v kvs bk bv bs : encodes k bk -> encodes v bv -> encodes_pairs kvs bs ->
    encodes_pairs ((k, v) :: kvs) (bk ++ bv ++ bs).

Scheme encodes_mut := Induction for encodes Sort Prop
  with encodes_all_mut := Induction for encodes_all Sort Prop
  with encodes_pairs_mut := Induction for encodes_pairs Sort Prop.
Combined Scheme encodes_ind3 from encodes_mut, encodes_all_mut, encodes_pairs_mut.

(** The assignments of [parseMap], in the order of the pairs. *)
Definition assigned (kvs : list (Value * Value)) : list (list Z * Value) :=
  fold_left (fun m kv => map_set (Str kv.1) kv.2 m) kvs [].

Lemma assigned_snoc kvs kv : assigned (kvs ++ [kv]) = map_set (key_name kv) kv.2 (assigned kvs).
Proof. unfold assigned. by rewrite fold_left_app. Qed.

Lemma map_set_names k v m :
  map fst (map_set k v m) = if bool_decide (k ∈ map fst m) then map fst m else map fst m ++ [k].
Proof.
  induction m as [|[k' v'] m IH]; [done|]. cbn [map_set map fst]. destruct (decide (k = k')) as [->|Hne].
  - rewrite !bool_decide_true; [done|by left|done].
  - rewrite (bool_decide_false (k = k')) by done. cbn [map fst]. rewrite IH.
    rewrite (bool_decide_ext (k ∈ k' :: map fst m) (k ∈ map fst m)) by (rewrite elem_of_cons; tauto).
    by destruct (bool_decide _).
Qed.

Lemma map_set_entries k v m e : NoDup (map fst m) -> e ∈ map_set k v m -> e = (k, v) \/ (e.1 <> k /\ e ∈ m).
Proof.
  induction m as [|[k' v'] m IH]; cbn [map_set map fst]; intros Hnd He.
  { apply list_elem_of_singleton in He. by left. }
  apply NoDup_cons in Hnd as [Hk Hnd]. destruct (decide (k = k')) as [->|Hne].
  - rewrite bool_decide_true in He by done. apply elem_of_cons in He as [->|He]; [by left|].
    right. split; [|by right]. intros <-. by apply Hk, list_elem_of_fmap_2.
  - rewrite bool_decide_false in He by done. apply elem_of_cons in He as [->|He]; [right; split; [done|by left]|].
    destruct (IH Hnd He) as [|[]]; [by left|right; split; [done|by right]].
Qed.

Lemma elem_of_distinct k ks : k ∈ distinct ks <-> k ∈ ks.
Proof.
  induction ks as [|k' ks IH]; [done|]. cbn [distinct]. rewrite !elem_of_cons, list_elem_of_filter, IH.
  destruct (decide (k = k')); tauto.
Qed.

Lemma NoDup_distinct ks : NoDup (distinct ks).
Proof.
  induction ks as [|k ks IH]; cbn [distinct]; constructor; [|by apply NoDup_filter].
  rewrite list_elem_of_filter. tauto.
Qed.

Lemma distinct_snoc ks k : distinct (ks ++ [k]) = if bool_decide (k ∈ ks) then distinct ks else distinct ks ++ [k].
Proof.
  induction ks as [|k' ks IH]; [done|]. cbn [distinct app]. rewrite IH. destruct (decide (k = k')) as [->|Hne].
  - rewrite (bool_decide_true (k' ∈ k' :: ks)) by (by left). case_bool_decide; [done|].
    rewrite filter_app, (filter_cons_False _ k') by tauto. by rewrite filter_nil, app_nil_r.
  - rewrite (bool_decide_ext (k ∈ k' :: ks) (k ∈ ks)) by (rewrite elem_of_cons; tauto). case_bool_decide; [done|].
    rewrite filter_app, (filter_cons_True _ k) by done. done.
Qed.

Lemma distinct_NoDup ks : NoDup ks -> distinct ks = ks.
Proof.
  induction ks as [|k ks IH] using rev_ind; [done|]. intros (H1 & H2 & _)%NoDup_app. rewrite distinct_snoc, IH by done.
  case_bool_decide as Hk; [|done]. destruct (H2 k Hk). by left.
Qed.

Lemma value_for_snoc name kvs kv :
  value_for name (kvs ++ [kv]) = if bool_decide (key_name kv = name) then Some kv.2 else value_for name kvs.
Proof.
  unfold value_for. rewrite filter_app, map_app. case_bool_decide.
  - rewrite filter_cons_True, filter_nil by done. cbn [map]. by rewrite last_snoc.
  - rewrite filter_cons_False by done. by rewrite filter_nil, app_nil_r.
Qed.

Lemma assigned_merged kvs : merged kvs (assigned kvs).
Proof.
  induction kvs as [|kv kvs [Hn Hv]] using rev_ind; [by split|]. rewrite assigned_snoc. split.
  - rewrite map_set_names, map_app. cbn [map]. rewrite distinct_snoc, Hn. by rewrite (bool_decide_ext _ _ (elem_of_distinct _ _)).
  - apply Forall_forall. intros e He. rewrite value_for_snoc.
    apply map_set_entries in He as [->|[Hne He]]; [by rewrite bool_decide_true| |rewrite Hn; apply NoDup_distinct].
    rewrite bool_decide_false by congruence. rewrite Forall_forall in Hv. by apply Hv.
Qed.

(** [merged] determines the map. *)
Lemma merged_unique kvs m : merged kvs m -> m = assigned kvs.
Proof.
  destruct (assigned_merged kvs) as [Hn' Hv']. intros [Hn Hv]. rewrite <- Hn' in Hn. clear Hn'.
  revert m Hn Hv Hv'. generalize (assigned kvs). intros m'.
  induction m' as [|[k' v'] m' IH]; intros [|[k v] m]; try done. cbn [map fst]. intros [= -> Hn] Hv Hv'.
  apply Forall_cons in Hv as [H1 Hv], Hv' as [H2 Hv']. cbn in H1, H2. rewrite H1 in H2. injection H2 as ->.
  f_equal. by apply IH.
Qed.

Lemma names_in kvs : Forall (fun e => e.1 ∈ map key_name kvs) (entries kvs).
Proof.
  apply Forall_forall. intros e (kv & -> & Hin)%list_elem_of_fmap. by apply (list_elem_of_fmap_2 key_name).
Qed.

Lemma proper_map_merged kvs : proper_map kvs -> merged kvs (entries kvs).
Proof.
  intros [_ Hnd]. split.
  - rewrite distinct_NoDup by done. unfold entries. by rewrite map_map.
  - induction kvs as [|kv kvs IH] using rev_ind; [constructor|]. unfold entries. rewrite map_app in *.
    apply NoDup_app in Hnd as (H1 & H2 & _). apply Forall_app. split.
    + specialize (IH H1). eapply Forall_impl; [exact (proj2 (Forall_and _ _) (conj IH (names_in kvs)))|].
      intros e [He Hin]. rewrite value_for_snoc, bool_decide_false; [done|]. intros Hk. destruct (H2 _ Hin). cbn. rewrite Hk. by left.
    + constructor; [|done]. rewrite value_for_snoc. by rewrite bool_decide_true.
Qed.

Lemma digits_decimal ds acc :
  Forall (fun d => 0 <= d <= 9) ds -> digits acc (map (Z.add 48) ds) = Some (fold_left (fun acc d => 10 * acc + d) ds acc).
Proof.
  intros H. revert acc. induction H as [|d ds Hd _ IH]; intros acc; [done|]. cbn [map digits fold_left].
  replace ((48 <=? 48 + d) && (48 + d <=? 57)) with true by lia. by replace (48 + d - 48) with d by lia.
Qed.

Lemma numeral_parse text n : numeral text n -> ParseInt text = Some n.
Proof.
  intros (sign & ds & Hne & Hds & -> & Hs & Hr).
  assert (Hu : ParseUint (map (Z.add 48) ds) = Some (decimal ds)).
  { unfold ParseUint. destruct ds as [|d ds]; [done|]. by apply digits_decimal. }
  assert (Hp : (- 2 ^ 63 <=? n) && (n <? 2 ^ 63) = true) by lia. unfold ParseInt.
  destruct Hs as [[[-> | ->] ->]|[-> ->]]; cbn [app Z.eqb Pos.eqb];
    [|rewrite Hu; cbn [fmap option_fmap option_map]; by rewrite Hp..].
  destruct ds as [|d ds]; [done|]. inversion Hds as [|? ? Hd ?]; subst. cbn [map] in *.
  replace (48 + d =? 43) with false by lia. replace (48 + d =? 45) with false by lia. by rewrite Hu, Hp.
Qed.

Lemma Index_clean s rest : clean s -> Index_crlf (s ++ 13 :: 10 :: rest) = Some (count_of s).
Proof.
  unfold count_of. induction s as [|c s IH]; intros Hc; [done|].
  assert (Hc' : clean s) by (intros p q ->; by apply (Hc (c :: p) q)).
  destruct s as [|e s]; cbn [app Index_crlf] in *; [by rewrite andb_false_r|].
  replace ((c =? 13) && (e =? 10)) with false; [|symmetry; apply not_true_iff_false; intros Ht].
  - rewrite (IH Hc'). cbn [fmap option_fmap option_map length]. f_equal. lia.
  - apply (Hc [] s). cbn. f_equal; [lia|]. f_equal. lia.
Qed.

Lemma header_clean t s rest : t <> 13 -> clean s -> header (t :: s ++ 13 :: 10 :: rest) = Ok (count_of s + 1, s).
Proof.
  intros Ht Hs. unfold header.
  assert (Hc : clean (t :: s)) by (intros [|c p] q [= ? ?]; [done|by apply (Hs p q)]).
  pose proof (Index_clean (t :: s) rest Hc) as Hi. cbn [app] in Hi. rewrite Hi. unfold slice, count_of. cbn [length].
  rewrite length_app. replace (_ && _) with true by (cbn [length]; lia). cbn [obind].
  replace (Z.to_nat 1) with 1%nat by done. cbn [skipn]. replace (Z.to_nat (_ - 1)) with (length s) by lia.
  rewrite drop_0, take_app_length. do 2 f_equal. lia.
Qed.

Lemma numeral_clean text n : numeral text n -> clean text.
Proof.
  intros (sign & ds & _ & Hds & -> & Hs & _) p q Heq.
  assert (Hno : Forall (fun c => c <> 13) (sign ++ map (Z.add 48) ds)).
  { apply Forall_app. split; [destruct Hs as [[[-> | ->] _]|[-> _]]; by repeat constructor|].
    apply Forall_fmap. eapply Forall_impl; [exact Hds|]. cbn. lia. }
  rewrite Heq, Forall_app in Hno. destruct Hno as [_ Hno]. by inversion Hno.
Qed.

Lemma header_numeral t text n rest :
  t <> 13 -> numeral text n -> header_int (t :: text ++ 13 :: 10 :: rest) = Ok (count_of text + 1, n).
Proof.
  intros Ht Hn. unfold header_int. rewrite header_clean by (done || by eapply numeral_clean). cbn [obind].
  by rewrite (numeral_parse _ _ Hn).
Qed.

(** The bytes [bs] parse to [v] wherever they occur. *)
Definition reads (v : Value) (bs : list Z) : Prop :=
  bs <> [] /\ forall fuel rest, (length (bs ++ rest) <= fuel)%nat -> Z.of_nat (length (bs ++ rest)) < 2 ^ 62 ->
  parseValue fuel (bs ++ rest) = Ok (v, count_of bs).

(** [bs] lies at [pos]. *)
Definition lies (data : list Z) (pos : Z) (bs : list Z) : Prop := 0 <= pos /\ drop (Z.to_nat pos) data = bs.

Lemma parse_at_reads v bs fuel data pos rest :
  reads v bs -> lies data pos (bs ++ rest) -> (length (bs ++ rest) <= fuel)%nat -> Z.of_nat (length data) < 2 ^ 62 ->
  parse_at (parseValue fuel) data pos = Ok (v, count_of bs) /\ lies data (pos + count_of bs) rest.
Proof.
  intros [Hne Hr] [Hp Hd] Hf Hl. assert (Hlen := f_equal length Hd). rewrite length_drop in Hlen.
  assert (0 < length bs)%nat by (destruct bs; [done|cbn; lia]). pose proof (length_app bs rest). split.
  - unfold parse_at. replace (pos >=? _) with false by lia. rewrite Hd. apply Hr; [done|lia].
  - split; [unfold count_of; lia|]. unfold count_of. replace (Z.to_nat _) with (Z.to_nat pos + length bs)%nat by lia.
    by rewrite <- drop_drop, Hd, drop_app_length.
Qed.

Definition reads_all (vs : list Value) (bs : list Z) : Prop :=
  forall fuel data pos n i acc rest, lies data pos (bs ++ rest) -> (length (bs ++ rest) <= fuel)%nat ->
  Z.of_nat (length data) < 2 ^ 62 -> (length bs < n)%nat ->
  parse_elements (parseValue fuel) data n i (i + count_of vs) pos acc = Ok (acc ++ vs, pos + count_of bs).

Definition reads_pairs (kvs : list (Value * Value)) (bs : list Z) : Prop :=
  forall fuel data pos n i m rest, lies data pos (bs ++ rest) -> (length (bs ++ rest) <= fuel)%nat ->
  Z.of_nat (length data) < 2 ^ 62 -> (length bs < n)%nat ->
  parse_pairs (parseValue fuel) data n i (i + count_of kvs) pos m
  = Ok (fold_left (fun m kv => map_set (Str kv.1) kv.2 m) kvs m, pos + count_of bs).

Lemma reads_all_nil : reads_all [] [].
Proof.
  intros fuel data pos [|n] i acc rest Hd Hf Hl Hn; [cbn in Hn; lia|]. cbn [parse_elements]. unfold count_of. cbn [length].
  replace (i + Z.of_nat 0 <=? i) with true by lia. rewrite app_nil_r. do 2 f_equal. lia.
Qed.

Lemma reads_all_cons v vs b bs : reads v b -> reads_all vs bs -> reads_all (v :: vs) (b ++ bs).
Proof.
  intros Hv Hvs fuel data pos n i acc rest Hd Hf Hl Hn. destruct n as [|n]; [lia|]. cbn [parse_elements].
  rewrite <- app_assoc in Hd, Hf. rewrite length_app in Hn.
  assert (0 < length b)%nat by (destruct Hv as [Hne _]; destruct b; [done|cbn; lia]).
  destruct (parse_at_reads v b fuel data pos (bs ++ rest) Hv Hd Hf Hl) as [-> Hd'].
  replace (i + count_of (v :: vs) <=? i) with false by (unfold count_of; cbn [length]; lia). cbn [obind].
  replace (i + count_of (v :: vs)) with (i + 1 + count_of vs) by (unfold count_of; cbn [length]; lia).
  rewrite (Hvs fuel data _ n (i + 1) (acc ++ [v]) rest Hd'); [|rewrite !length_app in *; lia|done|lia].
  rewrite <- app_assoc. do 2 f_equal. unfold count_of. rewrite length_app. lia.
Qed.

Lemma reads_pairs_nil : reads_pairs [] [].
Proof.
  intros fuel data pos [|n] i m rest Hd Hf Hl Hn; [cbn in Hn; lia|]. cbn [parse_pairs]. unfold count_of. cbn [length].
  replace (i + Z.of_nat 0 <=? i) with true by lia. cbn [fold_left]. do 2 f_equal. lia.
Qed.

Lemma reads_pairs_cons k v kvs bk bv bs :
  reads k bk -> reads v bv -> reads_pairs kvs bs -> reads_pairs ((k, v) :: kvs) (bk ++ bv ++ bs).
Proof.
  intros Hk Hv Hs fuel data pos n i m rest Hd Hf Hl Hn. destruct n as [|n]; [lia|]. cbn [parse_pairs].
  rewrite <- !app_assoc in Hd, Hf. rewrite !length_app in Hn.
  assert (0 < length bk)%nat by (destruct Hk as [Hne _]; destruct bk; [done|cbn; lia]).
  destruct (parse_at_reads k bk fuel data pos (bv ++ bs ++ rest) Hk Hd Hf Hl) as [-> Hd1].
  replace (i + count_of ((k, v) :: kvs) <=? i) with false by (unfold count_of; cbn [length]; lia). cbn [obind].
  destruct (parse_at_reads v bv fuel data _ (bs ++ rest) Hv Hd1 ltac:(rewrite !length_app in *; lia) Hl) as [-> Hd2].
  cbn [obind]. replace (i + count_of ((k, v) :: kvs)) with (i + 1 + count_of kvs) by (unfold count_of; cbn [length]; lia).
  rewrite (Hs fuel data _ n (i + 1) _ rest Hd2); [|rewrite !length_app in *; lia|done|lia].
  cbn [fold_left fst snd]. do 2 f_equal. unfold count_of. rewrite !length_app. lia.
Qed.

(** The body of a container starts after its header. *)
Lemma lies_body t text body rest : lies (t :: text ++ 13 :: 10 :: body ++ rest) (count_of text + 1 + 2) (body ++ rest).
Proof.
  split; [unfold count_of; lia|]. unfold count_of. replace (Z.to_nat _) with (S (length text + 2)) by lia.
  cbn [skipn]. by rewrite <- drop_drop, drop_app_length.
Qed.

Ltac by_type H := repeat (apply elem_of_cons in H as [->|H]); [..|by apply not_elem_of_nil in H].

Lemma reads_text t s : t ∈ [TypeSimpleString; TypeError; TypeBigNumber] -> clean s ->
  reads (with_Str s (value_of t)) (t :: s ++ crlf).
Proof.
  intros Ht Hs. split; [done|]. intros [|fuel] rest Hf Hl; [cbn in Hf; lia|]. unfold crlf. cbn [app]. rewrite <- app_assoc.
  cbn [app]. transitivity (parse_text t (t :: s ++ 13 :: 10 :: rest)); [by by_type Ht|].
  unfold parse_text. rewrite header_clean; [|by by_type Ht|done]. cbn [obind]. do 2 f_equal.
  unfold count_of. cbn [length]. rewrite length_app. cbn [length]. lia.
Qed.

Lemma reads_int text n : numeral text n -> reads (with_Int n (value_of TypeInteger)) (TypeInteger :: text ++ crlf).
Proof.
  intros Hn. split; [done|]. intros [|fuel] rest Hf Hl; [cbn in Hf; lia|]. unfold crlf. cbn [app]. rewrite <- app_assoc.
  cbn [app]. change (parseInteger (TypeInteger :: text ++ 13 :: 10 :: rest)
    = Ok (with_Int n (value_of TypeInteger), count_of (TypeInteger :: text ++ [13; 10]))).
  unfold parseInteger. rewrite (header_numeral _ _ n) by done. cbn [obind]. do 2 f_equal.
  unfold count_of. cbn [length]. rewrite length_app. cbn [length]. lia.
Qed.

Lemma reads_nil t text n : t ∈ [TypeBulkString; TypeArray] -> numeral text n -> n < 0 ->
  reads (with_IsNull (value_of t)) (t :: text ++ crlf).
Proof.
  intros Ht Hn Hneg. split; [done|]. intros [|fuel] rest Hf Hl; [cbn in Hf; lia|]. unfold crlf. cbn [app].
  rewrite <- app_assoc. cbn [app].
  transitivity (let? (idx, n) := header_int (t :: text ++ 13 :: 10 :: rest) in
    if n <? 0 then Ok (with_IsNull (value_of t), idx + 2)
    else if t =? TypeArray then parse_sequence (parseValue fuel) (t :: text ++ 13 :: 10 :: rest) t idx n
    else parse_bulk t (t :: text ++ 13 :: 10 :: rest) idx n); [by by_type Ht|].
  rewrite (header_numeral _ _ n) by (done || by by_type Ht). cbn [obind]. rewrite (proj2 (Z.ltb_lt _ _) Hneg).
  do 2 f_equal. unfold count_of. cbn [length]. rewrite length_app. cbn [length]. lia.
Qed.

Lemma reads_bulk t text s : t ∈ [TypeBulkString; TypeBulkError; TypeVerbatim] -> numeral text (count_of s) ->
  reads (with_Str s (value_of t)) (t :: text ++ crlf ++ s ++ crlf).
Proof.
  intros Ht Hn. split; [done|]. intros [|fuel] rest Hf Hl; [cbn in Hf; lia|]. unfold crlf in *. cbn [app] in *.
  rewrite <- !app_assoc in *. cbn [app] in *. rewrite <- !app_assoc in *. cbn [app] in *.
  set (data := t :: text ++ 13 :: 10 :: s ++ 13 :: 10 :: rest) in *.
  assert (Hlen : Z.of_nat (length data) = count_of text + count_of s + count_of rest + 5).
  { unfold data, count_of. cbn [length]. rewrite length_app. cbn [length]. rewrite length_app. cbn [length]. lia. }
  assert (0 <= count_of s /\ 0 <= count_of text /\ 0 <= count_of rest) as (? & ? & ?) by (unfold count_of; lia).
  transitivity (let? (idx, n) := header_int data in
    if (t =? TypeBulkString) && (n <? 0) then Ok (with_IsNull (value_of t), idx + 2)
    else parse_bulk t data idx n); [by by_type Ht|].
  unfold data at 1. rewrite (header_numeral _ _ (count_of s)) by (done || by by_type Ht). cbn [obind].
  replace (count_of s <? 0) with false by lia. rewrite andb_false_r. unfold parse_bulk.
  rewrite !s64_small by (rewrite ?s64_small; lia). replace (_ >? _) with false by lia.
  unfold slice. replace (_ && _) with true by lia. cbn [obind].
  assert (Hd : drop (Z.to_nat (count_of text + 1 + 2)) data = s ++ 13 :: 10 :: rest) by apply lies_body.
  rewrite Hd. replace (Z.to_nat (_ - _)) with (length s) by (unfold count_of; lia). rewrite take_app_length.
  do 2 f_equal. unfold count_of. cbn [length]. rewrite length_app. cbn [length]. rewrite length_app. cbn [length]. lia.
Qed.

Lemma reads_double s f : clean s -> double s f -> reads (with_Float f (value_of TypeDouble)) (TypeDouble :: s ++ crlf).
Proof.
  intros Hs Hd. split; [done|]. intros [|fuel] rest Hf Hl; [cbn in Hf; lia|]. unfold crlf. cbn [app].
  rewrite <- app_assoc. cbn [app]. change (parseDouble (TypeDouble :: s ++ 13 :: 10 :: rest)
    = Ok (with_Float f (value_of TypeDouble), count_of (TypeDouble :: s ++ [13; 10]))).
  unfold parseDouble. rewrite header_clean by done. cbn [obind].
  assert (Hc : count_of s + 1 + 2 = count_of (TypeDouble :: s ++ [13; 10])).
  { unfold count_of. cbn [length]. rewrite length_app. cbn [length]. lia. }
  rewrite Hc. destruct Hd as [[-> ->]|[[-> ->]|[[-> ->]|(H1 & H2 & H3 & H4)]]]; [done..|].
  by rewrite !bool_decide_false, H4 by done.
Qed.

Lemma reads_seq t text vs body : t ∈ [TypeArray; TypeSet; TypePush] -> numeral text (count_of vs) ->
  96 * count_of vs <= maxAlloc -> reads_all vs body -> reads (with_Array vs (value_of t)) (t :: text ++ crlf ++ body).
Proof.
  intros Ht Hn Hm Hb. split; [done|]. intros [|fuel] rest Hf Hl; [cbn in Hf; lia|]. unfold crlf in *. cbn [app] in *.
  rewrite <- !app_assoc in *. cbn [app] in *. set (data := t :: text ++ 13 :: 10 :: body ++ rest) in *.
  assert (0 <= count_of vs) by (unfold count_of; lia).
  assert (Hlen : (length (body ++ rest) <= fuel)%nat /\ (length body < S (length data))%nat).
  { unfold data in *. cbn [length] in *. rewrite !length_app in *. cbn [length] in *. rewrite !length_app in *. lia. }
  transitivity (let? (idx, n) := header_int data in
    if (t =? TypeArray) && (n <? 0) then Ok (with_IsNull (value_of t), idx + 2)
    else parse_sequence (parseValue fuel) data t idx n); [by by_type Ht|].
  unfold data at 1. rewrite (header_numeral _ _ (count_of vs)) by (done || by by_type Ht). cbn [obind].
  replace (count_of vs <? 0) with false by lia. rewrite andb_false_r. unfold parse_sequence, make_values.
  replace (_ && _) with true by lia. cbn [obind].
  replace (count_of vs) with (0 + count_of vs) by lia.
  rewrite (Hb fuel data (count_of text + 1 + 2) _ 0 [] rest) by (apply lies_body || lia). cbn [obind app]. do 2 f_equal.
  unfold count_of. cbn [length]. rewrite !length_app. cbn [length]. lia.
Qed.

Lemma reads_map text kvs m body : numeral text (count_of kvs) -> reads_pairs kvs body -> merged kvs m ->
  reads (with_Map m (value_of TypeMap)) (TypeMap :: text ++ crlf ++ body).
Proof.
  intros Hn Hb ->%merged_unique. unfold assigned. split; [done|]. intros [|fuel] rest Hf Hl; [cbn in Hf; lia|]. unfold crlf in *. cbn [app] in *.
  rewrite <- !app_assoc in *. cbn [app] in *. set (data := TypeMap :: text ++ 13 :: 10 :: body ++ rest) in *.
  assert (Hlen : (length (body ++ rest) <= fuel)%nat /\ (length body < S (length data))%nat).
  { unfold data in *. cbn [length] in *. rewrite !length_app in *. cbn [length] in *. rewrite !length_app in *. lia. }
  transitivity (parseMap (parseValue fuel) data); [done|].
  unfold parseMap. unfold data at 1. rewrite (header_numeral _ _ (count_of kvs)) by done. cbn [obind].
  replace (count_of kvs) with (0 + count_of kvs) by lia.
  rewrite (Hb fuel data (count_of text + 1 + 2) _ 0 [] rest) by (apply lies_body || lia). cbn [obind app]. do 2 f_equal.
  unfold count_of. cbn [length]. rewrite !length_app. cbn [length]. lia.
Qed.

Lemma reads_fixed : reads (with_IsNull (value_of TypeNull)) (TypeNull :: crlf)
  /\ forall b : bool, reads (with_Bool b (value_of TypeBoolean)) (TypeBoolean :: (if b then 116 else 102) :: crlf).
Proof.
  split; [|intros b]; (split; [done|]); intros [|fuel] rest Hf Hl; try (cbn in Hf; lia).
  - change (parseNull (TypeNull :: 13 :: 10 :: rest) = Ok (with_IsNull (value_of TypeNull), 3)). unfold parseNull.
    cbn [length]. replace (_ <? 3) with false by lia. done.
  - transitivity (parseBoolean (TypeBoolean :: (if b then 116 else 102) :: 13 :: 10 :: rest)); [by destruct b|].
    unfold parseBoolean. cbn [length]. replace (_ <? 4) with false by lia. by destruct b.
Qed.

Lemma encodes_reads v bs : encodes v bs -> reads v bs.
Proof.
  assert ((forall v bs, encodes v bs -> reads v bs) /\ (forall vs bs, encodes_all vs bs -> reads_all vs bs)
    /\ (forall kvs bs, encodes_pairs kvs bs -> reads_pairs kvs bs)) as [H _]; [|apply H].
  apply (encodes_ind3 (fun v bs _ => reads v bs) (fun vs bs _ => reads_all vs bs) (fun kvs bs _ => reads_pairs kvs bs));
    intros; eauto using reads_text, reads_int, reads_bulk, reads_double, reads_seq, reads_map, proper_map_merged,
      reads_all_nil, reads_all_cons, reads_pairs_nil, reads_pairs_cons; [by eapply reads_nil|apply reads_fixed..].
Qed.

Lemma Parse_encoded v bs rest :
  encodes v bs -> Z.of_nat (length (bs ++ rest)) < 2 ^ 62 -> Parse (bs ++ rest) = Ok (with_size (count_of bs) v, rest).
Proof.
  intros [Hne Hr]%encodes_reads Hl. rewrite (Parse_run _ v (count_of bs)); [|by destruct bs|by apply Hr|done].
  unfold count_of. by rewrite Nat2Z.id, drop_app_length.
Qed.

Lemma Parse_prefix v p q :
  encodes v (p ++ q) -> q <> [] -> Z.of_nat (length (p ++ q)) < 2 ^ 62 -> Parse p = Err ErrIncomplete.
Proof.
  intros He Hq Hl. pose proof (Parse_app p q Hl) as Hp.
  pose proof (Parse_encoded v (p ++ q) [] He) as Hw. rewrite app_nil_r in Hw. specialize (Hw Hl).
  destruct (Parse p) as [[v' rest]|[]| |]; [|done|congruence..|done].
  destruct Hp as [Hp _]. rewrite Hp in Hw. injection Hw as _ Hn. by destruct rest, q.
Qed.

(** C23: the RESP parser inverts the grammar.  On the encoding of a value, whatever
    follows it, [Parse] returns the value with its size and leaves what follows; on any
    proper prefix it asks for more data.  A map whose keys are distinct strings comes
    back with all its entries; the exception is a map with other keys
    ([enc_map_merged]): integers, booleans, doubles and aggregates are all named by the
    empty string, and of the entries with one name only the last is kept. *)
Theorem resp_roundtrip v bs rest :
  encodes v bs -> Z.of_nat (length (bs ++ rest)) < 2 ^ 62 ->
  Parse (bs ++ rest) = Ok (with_size (count_of bs) v, rest)
  /\ forall p q, bs = p ++ q -> q <> [] -> Parse p = Err ErrIncomplete.
Proof.
  intros He Hl. split; [by apply Parse_encoded|]. intros p q -> Hq. eapply Parse_prefix; [done..|].
  rewrite length_app in Hl. lia.
Qed.

(** ** The stream *)

Section stream.
Context (pm : bool) (nc : nat -> bool).

(** The effect of one request. *)
Definition serve (s : Stream) (vb : Value * list Z) : Stream :=
  let value := with_size (count_of vb.2) vb.1 in
  match ToCommand value with None => s | Some cmd => queue_command pm nc value cmd s end.

Definition reply (s : Stream) (vb : Value * list Z) : Stream := answer (with_size (count_of vb.2) vb.1) s.

Lemma serve_parser s vb left : serve (s <| requestParser := left |>) vb = (serve s vb) <| requestParser := left |>.
Proof. unfold serve, queue_command, call. destruct s; cbn. by repeat case_match; simplify_eq. Qed.

Lemma reply_parser s vb left : reply (s <| responseParser := left |>) vb = (reply s vb) <| responseParser := left |>.
Proof. unfold reply, answer, call. destruct s; cbn. repeat case_match; by simplify_eq. Qed.

Lemma fold_request vbs s left :
  fold_left serve vbs (s <| requestParser := left |>) = (fold_left serve vbs s) <| requestParser := left |>.
Proof. revert s. induction vbs as [|vb vbs IH]; intros s; [done|]. cbn [fold_left]. by rewrite serve_parser, IH. Qed.

Lemma fold_response vbs s left :
  fold_left reply vbs (s <| responseParser := left |>) = (fold_left reply vbs s) <| responseParser := left |>.
Proof. revert s. induction vbs as [|vb vbs IH]; intros s; [done|]. cbn [fold_left]. by rewrite reply_parser, IH. Qed.

(** A buffer that holds the values [vbs] and an incomplete rest. *)
Lemma processRequests_run n vbs left s :
  Forall (fun vb => encodes vb.1 vb.2) vbs -> Parse left = Err ErrIncomplete ->
  requestParser s = concat (map snd vbs) ++ left -> (length (requestParser s) < n)%nat ->
  Z.of_nat (length (requestParser s)) < 2 ^ 62 ->
  processRequests pm nc n s = ((fold_left serve vbs s) <| requestParser := left |>, Returned).
Proof.
  intros Hvs Hleft. revert n s. induction Hvs as [|[v bs] vbs Hv _ IH]; intros n s Hb Hn Hl.
  - destruct n as [|n]; [lia|]. cbn in *. rewrite Hb, Hleft. destruct s. cbn in *. by subst.
  - destruct n as [|n]; [lia|]. cbn [processRequests map concat fold_left snd] in *. rewrite <- app_assoc in Hb.
    rewrite Hb in *. rewrite (Parse_encoded v bs) by done. set (rest := concat (map snd vbs) ++ left) in *.
    assert (Hr : (length rest < n)%nat /\ Z.of_nat (length rest) < 2 ^ 62).
    { destruct (encodes_reads _ _ Hv) as [Hne _]. rewrite length_app in *.
      assert (0 < length bs)%nat by (destruct bs; [done|cbn; lia]). lia. }
    transitivity (processRequests pm nc n ((serve s (v, bs)) <| requestParser := rest |>)).
    { rewrite <- serve_parser. unfold serve. cbn [fst snd]. by destruct (ToCommand _). }
    rewrite IH; [|done|cbn; lia|cbn; lia]. rewrite fold_request. by destruct (fold_left serve vbs (serve s (v, bs))).
Qed.

Lemma processResponses_run n vbs left s :
  Forall (fun vb => encodes vb.1 vb.2) vbs -> Parse left = Err ErrIncomplete ->
  responseParser s = concat (map snd vbs) ++ left -> (length (responseParser s) < n)%nat ->
  Z.of_nat (length (responseParser s)) < 2 ^ 62 ->
  processResponses n s = ((fold_left reply vbs s) <| responseParser := left |>, Returned).
Proof.
  intros Hvs Hleft. revert n s. induction Hvs as [|[v bs] vbs Hv _ IH]; intros n s Hb Hn Hl.
  - destruct n as [|n]; [lia|]. cbn in *. rewrite Hb, Hleft. destruct s. cbn in *. by subst.
  - destruct n as [|n]; [lia|]. cbn [processResponses map concat fold_left snd] in *. rewrite <- app_assoc in Hb.
    rewrite Hb in *. rewrite (Parse_encoded v bs) by done. set (rest := concat (map snd vbs) ++ left) in *.
    assert (Hr : (length rest < n)%nat /\ Z.of_nat (length rest) < 2 ^ 62).
    { destruct (encodes_reads _ _ Hv) as [Hne _]. rewrite length_app in *.
      assert (0 < length bs)%nat by (destruct bs; [done|cbn; lia]). lia. }
    transitivity (processResponses n ((reply s (v, bs)) <| responseParser := rest |>)).
    { by rewrite <- reply_parser. }
    rewrite IH; [|done|cbn; lia|cbn; lia]. rewrite fold_response. by destruct (fold_left reply vbs (reply s (v, bs))).
Qed.

End stream.

(** ** Cutting a stream of encodings *)

(** How many of the encodings [bss] are complete in [P], and what is left of [P]. *)
Fixpoint complete (bss : list (list Z)) (P : list Z) : nat :=
  match bss with
  | [] => 0
  | b :: bss' => if (length b <=? length P)%nat then S (complete bss' (drop (length b) P)) else 0
  end.
Fixpoint left_over (bss : list (list Z)) (P : list Z) : list Z :=
  match bss with
  | [] => P
  | b :: bss' => if (length b <=? length P)%nat then left_over bss' (drop (length b) P) else P
  end.

Lemma prefix_cut (b P : list Z) R : P `prefix_of` b ++ R -> (length b <= length P)%nat ->
  P = b ++ drop (length b) P /\ drop (length b) P `prefix_of` R.
Proof.
  intros [k Hk] Hl. assert (Ht : take (length b) P = b).
  { rewrite <- (take_app_le P k) by done. by rewrite <- Hk, take_app_length. }
  assert (Hd : P = b ++ drop (length b) P) by (rewrite <- Ht at 1; symmetry; apply take_drop).
  split; [done|]. exists k. rewrite Hd, <- app_assoc in Hk. by apply app_inv_head in Hk.
Qed.

Lemma complete_spec bss P : P `prefix_of` concat bss ->
  P = concat (take (complete bss P) bss) ++ left_over bss P /\ (complete bss P <= length bss)%nat
  /\ (left_over bss P = [] \/ exists b q, b ∈ bss /\ b = left_over bss P ++ q /\ q <> []).
Proof.
  revert P. induction bss as [|b bss IH]; intros P Hp; cbn [complete left_over concat length] in *.
  { apply prefix_nil_inv in Hp. subst. by split_and!; [..|left]. }
  destruct (Nat.leb_spec (length b) (length P)) as [Hl|Hl].
  - destruct (prefix_cut b P _ Hp Hl) as [Hd Hp']. destruct (IH _ Hp') as (E1 & E2 & E3).
    cbn [take concat]. rewrite <- app_assoc, <- E1, <- Hd. split_and!; [done|lia|].
    destruct E3 as [?|(b' & q & ? & ?)]; [by left|]. right. exists b', q. split; [by apply elem_of_cons; right|done].
  - cbn [take concat app]. split_and!; [done|lia|]. right.
    destruct Hp as [k Hk]. exists b, (drop (length P) b). split; [by apply elem_of_cons; left|].
    assert (Ht : take (length P) b = P).
    { rewrite <- (take_app_le b (concat bss)) by lia. by rewrite Hk, take_app_length. }
    split; [symmetry; rewrite <- Ht at 1; apply take_drop|]. intros Hn. apply (f_equal length) in Hn. rewrite length_drop in Hn.
    cbn in Hn. lia.
Qed.

Lemma complete_more bss P d : P ++ d `prefix_of` concat bss ->
  (complete bss P <= complete bss (P ++ d))%nat
  /\ left_over bss P ++ d = concat (drop (complete bss P) (take (complete bss (P ++ d)) bss)) ++ left_over bss (P ++ d).
Proof.
  revert P. induction bss as [|b bss IH]; intros P Hp.
  { cbn in *. apply prefix_nil_inv in Hp. by apply app_nil in Hp as [-> ->]. }
  cbn [complete left_over]. destruct (Nat.leb_spec (length b) (length P)) as [Hl|Hl].
  - replace (length b <=? length (P ++ d))%nat with true by (rewrite length_app; symmetry; apply Nat.leb_le; lia).
    destruct (prefix_cut b (P ++ d) _ Hp ltac:(rewrite length_app; lia)) as [_ Hp'].
    rewrite drop_app_le in * by lia. destruct (IH _ Hp') as [H1 H2]. split; [lia|]. exact H2.
  - split; [lia|]. rewrite drop_0. exact (proj1 (complete_spec (b :: bss) (P ++ d) Hp)).
Qed.

Lemma left_over_incomplete (vbs : list (Value * list Z)) P :
  Forall (fun vb => encodes vb.1 vb.2) vbs -> P `prefix_of` concat (map snd vbs) ->
  Z.of_nat (length (concat (map snd vbs))) < 2 ^ 62 -> Parse (left_over (map snd vbs) P) = Err ErrIncomplete.
Proof.
  intros Hvs Hp Hl. destruct (complete_spec _ _ Hp) as (_ & _ & [-> |(b & q & Hb & Heq & Hq)]); [done|].
  apply list_elem_of_fmap in Hb as ([v b'] & -> & Hin). rewrite Forall_forall in Hvs. specialize (Hvs _ Hin).
  cbn in *. rewrite Heq in Hvs. apply (Parse_prefix v _ q Hvs Hq). rewrite <- Heq.
  assert (length b' <= length (concat (map snd vbs)))%nat; [|lia].
  apply list_elem_of_split in Hin as (l1 & l2 & ->). rewrite map_app, concat_app. cbn. rewrite !length_app. lia.
Qed.

(** ** Commands and their responses *)

Definition numbered {A} (k : nat) (l : list A) : list (nat * A) := zip (seq k (length l)) l.

Lemma numbered_app {A} k (l1 l2 : list A) : numbered k (l1 ++ l2) = numbered k l1 ++ numbered (k + length l1) l2.
Proof.
  unfold numbered. rewrite length_app, seq_app. apply zip_with_app. by rewrite length_seq.
Qed.

Definition announced (cs : list plugin_call) : list (nat * Command) :=
  omap (fun c => match c with OnRedisCommand k n a => Some (k, MkCommand n a) | _ => None end) cs.

Definition is_error (v : Value) : bool := (v_Type v =? TypeError) || (v_Type v =? TypeBulkError).
Definition result_of (v : Value) : string * any * bool := (RESPType_String (v_Type v), extractValue v, is_error v).
Definition results (cs : list plugin_call) : list (nat * (string * any * bool)) :=
  omap (fun c => match c with OnRedisResult k t v e => Some (k, (t, v, e)) | _ => None end) cs.

(** The command of a request. *)
Definition the_command (vb : Value * list Z) : Command := default (MkCommand [] []) (ToCommand vb.1).
Definition is_command (vb : Value * list Z) : Prop := is_Some (ToCommand vb.1).
Definition waiting (kc : nat * Command) : PendingCommand := MkPending kc.2 (Some kc.1).

Definition always (n : nat) : bool := true.

Lemma serve_all vbs s : Forall is_command vbs ->
  let s' := fold_left (serve true always) vbs s in
  let new := numbered (connections s) (map the_command vbs) in
  pendingCommands s' = pendingCommands s ++ map waiting new /\ connections s' = (connections s + length vbs)%nat
  /\ announced (plugin_calls s') = announced (plugin_calls s) ++ new
  /\ results (plugin_calls s') = results (plugin_calls s)
  /\ responseParser s' = responseParser s /\ closed s' = closed s.
Proof.
  intros H. revert s. induction H as [|vb vbs [cmd Hc] _ IH]; intros s; cbv zeta; cbn [fold_left].
  { cbn. rewrite !app_nil_r. split_and!; [done|lia|done..]. }
  set (s1 := serve true always s vb). change (map the_command (vb :: vbs)) with ([the_command vb] ++ map the_command vbs).
  assert (Hv : the_command vb = cmd) by (unfold the_command; by rewrite Hc).
  assert (H1 : pendingCommands s1 = pendingCommands s ++ [waiting (connections s, cmd)]
    /\ connections s1 = S (connections s) /\ announced (plugin_calls s1) = announced (plugin_calls s) ++ [(connections s, cmd)]
    /\ results (plugin_calls s1) = results (plugin_calls s)
    /\ responseParser s1 = responseParser s /\ closed s1 = closed s).
  { unfold s1, serve. change (ToCommand (with_size _ vb.1)) with (ToCommand vb.1). rewrite Hc.
    unfold announced, results. cbn. rewrite !omap_app. cbn. rewrite app_nil_r. destruct cmd. by split_and!. }
  destruct H1 as (P1 & P2 & P3 & P4 & P5 & P6). destruct (IH s1) as (Q1 & Q2 & Q3 & Q4 & Q5 & Q6).
  rewrite numbered_app, map_app, !app_assoc, Hv. rewrite P1, P2, P3, P4, P5, P6 in *.
  replace (connections s + length [cmd])%nat with (S (connections s)) by (cbn; lia).
  split_and!; [done|cbn [length]; lia|done..].
Qed.

Lemma reply_all vbs s k cmds :
  pendingCommands s = map waiting (numbered k cmds) -> (length vbs <= length cmds)%nat ->
  let s' := fold_left reply vbs s in
  pendingCommands s' = map waiting (numbered (k + length vbs) (drop (length vbs) cmds)) /\ connections s' = connections s
  /\ announced (plugin_calls s') = announced (plugin_calls s)
  /\ results (plugin_calls s') = results (plugin_calls s) ++ numbered k (map (fun vb => result_of vb.1) vbs)
  /\ requestParser s' = requestParser s /\ closed s' = closed s.
Proof.
  revert s k cmds. induction vbs as [|vb vbs IH]; intros s k cmds Hp Hl; cbv zeta; cbn [fold_left map].
  { cbn. rewrite app_nil_r, Nat.add_0_r. by split_and!. }
  destruct cmds as [|cmd cmds]; [cbn in Hl; lia|]. set (s1 := reply s vb). cbn [length] in Hl.
  change (numbered k (cmd :: cmds)) with ((k, cmd) :: numbered (S k) cmds) in Hp. cbn [map] in Hp.
  assert (H1 : pendingCommands s1 = map waiting (numbered (S k) cmds) /\ connections s1 = connections s
    /\ announced (plugin_calls s1) = announced (plugin_calls s)
    /\ results (plugin_calls s1) = results (plugin_calls s) ++ [(k, result_of vb.1)]
    /\ requestParser s1 = requestParser s /\ closed s1 = closed s).
  { unfold s1, reply, answer. rewrite Hp. cbn. unfold announced, results. rewrite !omap_app. cbn. rewrite app_nil_r.
    by destruct vb as [[] ?]. }
  destruct H1 as (P1 & P2 & P3 & P4 & P5 & P6). destruct (IH s1 (S k) cmds P1 ltac:(lia)) as (Q1 & Q2 & Q3 & Q4 & Q5 & Q6).
  rewrite P2, P3, P4, P5, P6 in *. cbn [length skipn]. replace (k + S (length vbs))%nat with (S k + length vbs)%nat by lia.
  split_and!; [done..| |done|done]. rewrite Q4, <- app_assoc. done.
Qed.

Lemma complete_start (vbs : list (Value * list Z)) : Forall (fun vb => encodes vb.1 vb.2) vbs ->
  complete (map snd vbs) [] = 0%nat /\ left_over (map snd vbs) [] = [].
Proof.
  intros H. destruct H as [|[v bs] vbs Hv _]; [done|]. apply encodes_reads in Hv as [Hne _]. cbn in *. by destruct bs.
Qed.

Section pairs.
Context (source : CONNECTION_TYPE) (cs rs : list (Value * list Z)).
Context (Hcs : Forall (fun vb => encodes vb.1 vb.2) cs) (Hcmd : Forall is_command cs).
Context (Hrs : Forall (fun vb => encodes vb.1 vb.2) rs).
Context (Hlc : Z.of_nat (length (concat (map snd cs))) < 2 ^ 62) (Hlr : Z.of_nat (length (concat (map snd rs))) < 2 ^ 62).

Definition commands_in (P : list Z) : nat := complete (map snd cs) P.
Definition responses_in (P : list Z) : nat := complete (map snd rs) P.

(** The stream after the request bytes [Pq] and the response bytes [Pr]. *)
Record in_step (Pq Pr : list Z) (s : Stream) : Prop := {
  is_req : requestParser s = left_over (map snd cs) Pq;
  is_rsp : responseParser s = left_over (map snd rs) Pr;
  is_conn : connections s = commands_in Pq;
  is_ann : announced (plugin_calls s) = numbered 0 (map the_command (take (commands_in Pq) cs));
  is_res : results (plugin_calls s) = numbered 0 (map (fun vb => result_of vb.1) (take (responses_in Pr) rs));
  is_pend : pendingCommands s
    = map waiting (numbered (responses_in Pr) (drop (responses_in Pr) (map the_command (take (commands_in Pq) cs))));
  is_open : closed s = false }.

Lemma take_more {A} n n' (l : list A) : (n <= n')%nat -> take n' l = take n l ++ drop n (take n' l).
Proof. intros H. rewrite <- (take_drop n (take n' l)) at 1. by rewrite take_take, Nat.min_l. Qed.

Lemma left_length bss P : P `prefix_of` concat bss -> (length (left_over bss P) <= length (concat bss))%nat.
Proof.
  intros Hp. destruct (complete_spec _ _ Hp) as [He _]. apply prefix_length in Hp. rewrite He, length_app in Hp. lia.
Qed.

Lemma request_step Pq Pr s d ingress :
  in_step Pq Pr s -> isRequest source ingress = true -> Pq ++ d `prefix_of` concat (map snd cs) ->
  (responses_in Pr <= commands_in Pq)%nat ->
  in_step (Pq ++ d) Pr (Process true always source ingress d s).1.
Proof.
  intros [R1 R2 R3 R4 R5 R6 R7] Hq Hp Hcausal. unfold Process. rewrite R7, Hq.
  destruct (complete_more _ _ _ Hp) as [Hn Hl]. fold (commands_in Pq) (commands_in (Pq ++ d)) in Hn, Hl.
  set (n := commands_in Pq) in *. set (n' := commands_in (Pq ++ d)) in *. set (vbs := drop n (take n' cs)).
  assert (Hv : Forall (fun vb => encodes vb.1 vb.2) vbs /\ Forall is_command vbs)
    by (split; apply Forall_drop, Forall_take; done).
  assert (Hb : left_over (map snd cs) Pq ++ d = concat (map snd vbs) ++ left_over (map snd cs) (Pq ++ d)).
  { rewrite Hl. unfold vbs. by rewrite <- skipn_map, <- firstn_map. }
  assert (Hlen : (n' <= length cs)%nat).
  { destruct (complete_spec _ _ Hp) as (_ & H & _). by rewrite length_map in H. }
  assert (Hsmall : Z.of_nat (length (left_over (map snd cs) Pq ++ d)) < 2 ^ 62).
  { destruct (complete_spec (map snd cs) Pq) as [E _]; [by eapply prefix_app_l|]. apply prefix_length in Hp.
    rewrite E in Hp. rewrite !length_app in *. lia. }
  set (s1 := s <| requestParser ::= Append d |>).
  assert (Hr : requestParser s1 = left_over (map snd cs) Pq ++ d) by (unfold s1; cbn; by rewrite R1).
  rewrite (processRequests_run true always _ vbs (left_over (map snd cs) (Pq ++ d)) s1);
    [|apply Hv|by apply left_over_incomplete|by rewrite Hr|lia|by rewrite Hr].
  destruct (serve_all vbs s1 (proj2 Hv)) as (Q1 & Q2 & Q3 & Q4 & Q5 & Q6). change (connections s1) with (connections s) in *.
  change (plugin_calls s1) with (plugin_calls s) in *. change (pendingCommands s1) with (pendingCommands s) in *.
  rewrite R3 in *.
  assert (Ht : map the_command (take n' cs) = map the_command (take n cs) ++ map the_command vbs).
  { rewrite <- map_app. f_equal. by apply take_more. }
  assert (Hlt : length (map the_command (take n cs)) = n) by (rewrite length_map, length_take; lia).
  split; [done|exact (eq_trans Q5 R2)| | |exact (eq_trans Q4 R5)| |exact (eq_trans Q6 R7)].
  - etrans; [exact Q2|]. unfold vbs. rewrite length_drop, length_take. fold n'. lia.
  - etrans; [exact Q3|]. fold n'. rewrite R4, Ht, numbered_app, Hlt. done.
  - etrans; [exact Q1|]. fold n'. rewrite R6, Ht, <- map_app, drop_app_le by lia. f_equal. rewrite numbered_app.
    do 2 f_equal. rewrite length_drop, Hlt. lia.
Qed.

Lemma response_step Pq Pr s d ingress :
  in_step Pq Pr s -> isRequest source ingress = false -> Pr ++ d `prefix_of` concat (map snd rs) ->
  Pq `prefix_of` concat (map snd cs) -> (responses_in (Pr ++ d) <= commands_in Pq)%nat ->
  in_step Pq (Pr ++ d) (Process true always source ingress d s).1.
Proof.
  intros [R1 R2 R3 R4 R5 R6 R7] Hq Hp Hpq Hcausal. unfold Process. rewrite R7, Hq.
  replace (isResponse source ingress) with true by (unfold isRequest, isResponse in *; by destruct source, ingress).
  destruct (complete_more _ _ _ Hp) as [Hn Hl]. fold (responses_in Pr) (responses_in (Pr ++ d)) in Hn, Hl.
  set (n := responses_in Pr) in *. set (n' := responses_in (Pr ++ d)) in *. set (vbs := drop n (take n' rs)).
  assert (Hv : Forall (fun vb => encodes vb.1 vb.2) vbs) by (apply Forall_drop, Forall_take; done).
  assert (Hb : left_over (map snd rs) Pr ++ d = concat (map snd vbs) ++ left_over (map snd rs) (Pr ++ d)).
  { rewrite Hl. unfold vbs. by rewrite <- skipn_map, <- firstn_map. }
  assert (Hlen : (n' <= length rs)%nat /\ (commands_in Pq <= length cs)%nat).
  { destruct (complete_spec _ _ Hp) as (_ & H & _). destruct (complete_spec _ _ Hpq) as (_ & H' & _).
    rewrite length_map in H, H'. done. }
  assert (Hsmall : Z.of_nat (length (left_over (map snd rs) Pr ++ d)) < 2 ^ 62).
  { destruct (complete_spec (map snd rs) Pr) as [E _]; [by eapply prefix_app_l|]. apply prefix_length in Hp.
    rewrite E in Hp. rewrite !length_app in *. lia. }
  set (s1 := s <| responseParser ::= Append d |>).
  assert (Hr : responseParser s1 = left_over (map snd rs) Pr ++ d) by (unfold s1; cbn; by rewrite R2).
  rewrite (processResponses_run _ vbs (left_over (map snd rs) (Pr ++ d)) s1);
    [|apply Hv|by apply left_over_incomplete|by rewrite Hr|lia|by rewrite Hr].
  set (cmds := map the_command (take (commands_in Pq) cs)) in *.
  assert (Hlv : length vbs = (n' - n)%nat) by (unfold vbs; rewrite length_drop, length_take; lia).
  assert (Hlcm : length cmds = commands_in Pq) by (unfold cmds; rewrite length_map, length_take; lia).
  destruct (reply_all vbs s1 n (drop n cmds) R6) as (Q1 & Q2 & Q3 & Q4 & Q5 & Q6); [rewrite length_drop; lia|].
  split; [exact (eq_trans Q5 R1)|done|exact (eq_trans Q2 R3)|exact (eq_trans Q3 R4)| | |exact (eq_trans Q6 R7)].
  - etrans; [exact Q4|]. fold n'. change (plugin_calls s1) with (plugin_calls s). rewrite R5, (take_more n n'), map_app by done.
    rewrite numbered_app. do 2 f_equal. rewrite length_map, length_take. lia.
  - etrans; [exact Q1|]. fold n'. rewrite drop_drop, Hlv. by replace (n + (n' - n))%nat with n' by lia.
Qed.

End pairs.

(** The data events of one connection, direction and bytes, in order. *)
Definition feed (pm : bool) (nc : nat -> bool) (source : CONNECTION_TYPE) (evs : list (bool * list Z)) (s : Stream) : Stream :=
  fold_left (fun s ev => (Process pm nc source ev.1 ev.2 s).1) evs s.

(** The bytes of either side. *)
Definition requests (source : CONNECTION_TYPE) (evs : list (bool * list Z)) : list Z :=
  concat (map (fun ev : bool * list Z => if isRequest source ev.1 then ev.2 else []) evs).
Definition responses (source : CONNECTION_TYPE) (evs : list (bool * list Z)) : list Z :=
  concat (map (fun ev : bool * list Z => if isRequest source ev.1 then [] else ev.2) evs).

Lemma requests_snoc source evs ev :
  requests source (evs ++ [ev]) = requests source evs ++ (if isRequest source ev.1 then ev.2 else [])
  /\ responses source (evs ++ [ev]) = responses source evs ++ (if isRequest source ev.1 then [] else ev.2).
Proof. unfold requests, responses. rewrite !map_app, !concat_app. cbn. by rewrite !app_nil_r. Qed.

(** C24: commands and responses are paired in order, however the bytes arrive.  The
    client sends the commands [cs], the server the responses [rs]; the events cut both
    byte streams anywhere and interleave them in any way, as long as no response is
    complete before its command.  Then, at every moment, the complete commands have
    been announced in order, each on its own plugin connection, the complete responses
    have been handed in order to the connections of the commands they answer, and the
    commands that wait are those without a response. *)
Theorem redis_pairs source cs rs evs :
  Forall (fun vb => encodes vb.1 vb.2) cs -> Forall is_command cs -> Forall (fun vb => encodes vb.1 vb.2) rs ->
  Z.of_nat (length (concat (map snd cs))) < 2 ^ 62 -> Z.of_nat (length (concat (map snd rs))) < 2 ^ 62 ->
  requests source evs `prefix_of` concat (map snd cs) -> responses source evs `prefix_of` concat (map snd rs) ->
  (forall evs1 evs2, evs = evs1 ++ evs2 ->
     (responses_in rs (responses source evs1) <= commands_in cs (requests source evs1))%nat) ->
  let s := feed true always source evs NewStream in
  let nc := commands_in cs (requests source evs) in
  let nr := responses_in rs (responses source evs) in
  announced (plugin_calls s) = numbered 0 (map the_command (take nc cs))
  /\ results (plugin_calls s) = numbered 0 (map (fun vb => result_of vb.1) (take nr rs))
  /\ pendingCommands s = map waiting (numbered nr (drop nr (map the_command (take nc cs)))).
Proof.
  intros Hcs Hcmd Hrs Hlc Hlr Hpq Hpr Hcausal s nc nr.
  assert (in_step cs rs (requests source evs) (responses source evs) s) as [? ? ? ? ? ? ?]; [|done].
  subst s nc nr. revert Hpq Hpr Hcausal. induction evs as [|[ingress d] evs IH] using rev_ind; intros Hpq Hpr Hcausal.
  { destruct (complete_start cs Hcs) as [C1 C2]. destruct (complete_start rs Hrs) as [D1 D2].
    by split; unfold commands_in, responses_in, requests, responses; cbn; rewrite ?C1, ?C2, ?D1, ?D2. }
  destruct (requests_snoc source evs (ingress, d)) as [Eq Er]. cbn [fst snd] in Eq, Er.
  unfold feed. rewrite fold_left_app. cbn [fold_left fst snd]. fold (feed true always source evs NewStream).
  rewrite Eq in Hpq |- *. rewrite Er in Hpr |- *. assert (Hin : in_step cs rs (requests source evs) (responses source evs)
    (feed true always source evs NewStream)).
  { apply IH; [by eapply prefix_app_l|by eapply prefix_app_l|]. intros evs1 evs2 ->. apply (Hcausal evs1 (evs2 ++ [(ingress, d)])).
    by rewrite app_assoc. }
  pose proof (Hcausal evs [(ingress, d)] eq_refl) as H1.
  pose proof (Hcausal (evs ++ [(ingress, d)]) [] ltac:(by rewrite app_nil_r)) as H2. rewrite Eq, Er in H2.
  destruct (isRequest source ingress) eqn:Hq; rewrite app_nil_r in *; [by apply request_step|by apply response_step].
Qed.

(** ** Termination and errors *)

Section ends.
Context (pm : bool) (nc : nat -> bool).

Lemma Parse_shrinks b v rest : Z.of_nat (length b) < 2 ^ 62 -> Parse b = Ok (v, rest) -> (length rest < length b)%nat.
Proof.
  intros Hl Hp. pose proof (Parse_app b [] ltac:(by rewrite app_nil_r)) as H. rewrite Hp in H. apply H.
Qed.

Lemma Parse_fuel b : Z.of_nat (length b) < 2 ^ 62 -> Parse b <> OutOfFuel.
Proof. intros Hl Hp. pose proof (Parse_app b [] ltac:(by rewrite app_nil_r)) as H. by rewrite Hp in H. Qed.

(** What a loop over one side leaves of the other. *)
Lemma processRequests_other n s :
  let s' := (processRequests pm nc n s).1 in
  responseParser s' = responseParser s /\ results (plugin_calls s') = results (plugin_calls s) /\ closed s' = closed s.
Proof.
  revert s. induction n as [|n IH]; intros s; [done|]. cbn [processRequests].
  destruct (Parse (requestParser s)) as [[v rest]| | |]; try done.
  destruct (ToCommand v) as [cmd|]; [|by destruct (IH (s <| requestParser := rest |>)) as (-> & -> & ->)].
  destruct (IH (queue_command pm nc v cmd (s <| requestParser := rest |>))) as (-> & -> & ->).
  unfold queue_command, call, results. destruct pm; [|done]. cbn. destruct (nc _); [|done]. cbn.
  rewrite omap_app. cbn. by rewrite app_nil_r.
Qed.

Lemma processResponses_other n s :
  let s' := (processResponses n s).1 in
  requestParser s' = requestParser s /\ announced (plugin_calls s') = announced (plugin_calls s) /\ closed s' = closed s.
Proof.
  revert s. induction n as [|n IH]; intros s; [done|]. cbn [processResponses].
  destruct (Parse (responseParser s)) as [[v rest]| | |]; try done.
  destruct (IH (answer v (s <| responseParser := rest |>))) as (-> & -> & ->).
  unfold answer, call, announced. cbn. destruct (Dequeue _) as [[p q]|]; [|done]. cbn. destruct (PluginConn p); [|done].
  cbn. rewrite omap_app. cbn. by rewrite app_nil_r.
Qed.

Lemma processRequests_ends n s :
  Z.of_nat (length (requestParser s)) < 2 ^ 62 -> (length (requestParser s) < n)%nat ->
  (processRequests pm nc n s).2 <> NoFuel.
Proof.
  revert s. induction n as [|n IH]; intros s Hl Hn; [lia|]. cbn [processRequests].
  destruct (Parse (requestParser s)) as [[v rest]| | |] eqn:Hp; [|done..|by apply Parse_fuel in Hp].
  apply Parse_shrinks in Hp; [|done]. destruct (ToCommand v) as [cmd|]; apply IH; try (cbn; lia);
    unfold queue_command, call; repeat case_match; cbn; lia.
Qed.

Lemma processResponses_ends n s :
  Z.of_nat (length (responseParser s)) < 2 ^ 62 -> (length (responseParser s) < n)%nat ->
  (processResponses n s).2 <> NoFuel.
Proof.
  revert s. induction n as [|n IH]; intros s Hl Hn; [lia|]. cbn [processResponses].
  destruct (Parse (responseParser s)) as [[v rest]| | |] eqn:Hp; [|done..|by apply Parse_fuel in Hp].
  apply Parse_shrinks in Hp; [|done]. apply IH; unfold answer, call; repeat case_match; cbn; lia.
Qed.

End ends.

(** C25: processing a data event ends.  Whatever bytes arrive, in whatever state, the
    loops of [Process] return or panic; each round consumes at least one byte of its
    buffer, and the nesting of a value is bounded by its length. *)
Theorem process_ends pm nc source ingress data s :
  Z.of_nat (length (requestParser s ++ data)) < 2 ^ 62 -> Z.of_nat (length (responseParser s ++ data)) < 2 ^ 62 ->
  (Process pm nc source ingress data s).2 = Returned \/ (Process pm nc source ingress data s).2 = Panicked.
Proof.
  intros Hq Hr. assert ((Process pm nc source ingress data s).2 <> NoFuel) as Hne; [|by destruct (Process _ _ _ _ _ _).2; auto].
  unfold Process. repeat case_match; try done; [apply processRequests_ends|apply processResponses_ends]; cbn; done || lia.
Qed.

(** A buffer the parser refuses or crashes on: an unknown type byte, such as that of an
    inline command; a number that is none; a negative length where the parser expects
    none; a count that cannot be allocated. *)
Inductive malformed : list Z -> Prop :=
| bad_type t rest :
    t ∉ [TypeSimpleString; TypeError; TypeInteger; TypeBulkString; TypeArray; TypeNull; TypeBoolean; TypeDouble;
         TypeBigNumber; TypeBulkError; TypeVerbatim; TypeMap; TypeSet; TypePush] -> malformed (t :: rest)
| bad_number t text rest :
    t ∈ [TypeInteger; TypeBulkString; TypeArray; TypeBulkError; TypeVerbatim; TypeMap; TypeSet; TypePush] ->
    clean text -> ParseInt text = None -> malformed (t :: text ++ 13 :: 10 :: rest)
| negative_length t text n rest :
    t ∈ [TypeBulkError; TypeVerbatim] -> numeral text n -> n < 0 -> rest <> [] ->
    malformed (t :: text ++ 13 :: 10 :: rest)
| bad_count t text n rest :
    t ∈ [TypeArray; TypeSet; TypePush] -> numeral text n -> n < 0 /\ t <> TypeArray \/ 96 * n > maxAlloc ->
    malformed (t :: text ++ 13 :: 10 :: rest).

Definition poisoned (b : list Z) : Prop := Parse b = Err ErrInvalidFormat \/ Parse b = Panic.

Lemma poisoned_value b : b <> [] ->
  parseValue (length b) b = Err ErrInvalidFormat \/ parseValue (length b) b = Panic -> poisoned b.
Proof. intros Hb H. unfold poisoned, Parse. destruct b; [done|]. destruct H as [-> | ->]; auto. Qed.

Lemma malformed_poisoned b : malformed b -> Z.of_nat (length b) < 2 ^ 62 -> poisoned b.
Proof.
  intros Hm Hl. destruct Hm as [t rest Ht|t text rest Ht Hc Hn|t text n rest Ht Hn Hneg Hne|t text n rest Ht Hn Hbad];
    apply poisoned_value; try done; cbn [length].
  - left. cbn [parseValue]. rewrite !not_elem_of_cons in Ht. destruct_and!. by rewrite !(proj2 (Z.eqb_neq t _)) by done.
  - left. assert (header_int (t :: text ++ 13 :: 10 :: rest) = Err ErrInvalidFormat) as Hh.
    { unfold header_int. rewrite header_clean by (done || by by_type Ht). cbn [obind]. by rewrite Hn. }
    by_type Ht; cbn [parseValue]; cbn [Z.eqb Pos.eqb]; unfold parseInteger, parseBulkString, parseArray, parseBulkError,
      parseVerbatim, parseMap, parseSet, parsePush; by rewrite Hh.
  - right. set (data := t :: text ++ 13 :: 10 :: rest) in *.
    transitivity (let? (idx, n) := header_int data in parse_bulk t data idx n); [by by_type Ht|].
    unfold data at 1. rewrite (header_numeral _ _ n) by (done || by by_type Ht). cbn [obind]. unfold parse_bulk.
    assert (Hlen : Z.of_nat (length data) = count_of text + count_of rest + 3).
    { unfold data, count_of. cbn [length]. rewrite length_app. cbn [length]. lia. }
    destruct Hn as (_ & _ & _ & _ & _ & _ & Hr).
    assert (0 < count_of rest /\ 0 <= count_of text) as [? ?] by (unfold count_of; destruct rest; [done|cbn; lia]).
    rewrite !s64_small by (rewrite ?s64_small; lia). replace (_ >? _) with false by lia.
    unfold slice. by replace (_ && _) with false by lia.
  - right. set (data := t :: text ++ 13 :: 10 :: rest) in *.
    assert (n < 0 -> t <> TypeArray) as Hna by (destruct Hbad as [[_ ?]|?]; [done|unfold maxAlloc in *; lia]).
    transitivity (let? (idx, n) := header_int data in
      if (t =? TypeArray) && (n <? 0) then Ok (with_IsNull (value_of t), idx + 2)
      else parse_sequence (parseValue (length (text ++ 13 :: 10 :: rest))) data t idx n); [by by_type Ht|].
    unfold data at 1. rewrite (header_numeral _ _ n) by (done || by by_type Ht). cbn [obind].
    replace ((t =? TypeArray) && (n <? 0)) with false by lia. unfold parse_sequence, make_values.
    by replace (_ && _) with false by (unfold maxAlloc in *; lia).
Qed.

Lemma poisoned_app b d : poisoned b -> Z.of_nat (length (b ++ d)) < 2 ^ 62 -> poisoned (b ++ d).
Proof. intros Hp Hl. pose proof (Parse_app b d Hl) as H. destruct Hp as [Hp|Hp]; rewrite Hp in H; [by left|by right]. Qed.

Lemma poisoned_loops pm nc n s :
  (poisoned (requestParser s) -> (processRequests pm nc n s).1 = s)
  /\ (poisoned (responseParser s) -> (processResponses n s).1 = s).
Proof. split; intros [Hp|Hp]; destruct n; cbn; by rewrite ?Hp. Qed.

(** One side is dead: nothing is recognised on it any more and its buffer grows. *)
Lemma poisoned_requests pm nc source evs s :
  closed s = false -> poisoned (requestParser s) -> Z.of_nat (length (requestParser s ++ requests source evs)) < 2 ^ 62 ->
  let s' := feed pm nc source evs s in
  announced (plugin_calls s') = announced (plugin_calls s) /\ requestParser s' = requestParser s ++ requests source evs
  /\ closed s' = false.
Proof.
  intros Ho Hp Hl s'. subst s'. revert Hl. induction evs as [|[ingress d] evs IH] using rev_ind; intros Hl.
  { unfold requests. cbn. by rewrite app_nil_r. }
  rewrite (proj1 (requests_snoc source evs (ingress, d))) in *. cbn [fst snd] in *. rewrite app_assoc in *.
  destruct IH as (I1 & I2 & I3); [rewrite length_app in Hl; lia|].
  unfold feed. rewrite fold_left_app. cbn [fold_left fst snd]. fold (feed pm nc source evs s). set (u := feed _ _ _ _ s) in *.
  unfold Process. rewrite I3. destruct (isRequest source ingress).
  - set (u1 := u <| requestParser ::= Append d |>). rewrite (proj1 (poisoned_loops pm nc _ u1)); [by unfold u1; cbn; rewrite I2|].
    unfold u1. cbn. rewrite I2. unfold Append. rewrite <- app_assoc. apply poisoned_app; [done|by rewrite app_assoc].
  - rewrite app_nil_r. destruct (isResponse source ingress); [|done].
    by destruct (processResponses_other (S (length (responseParser (u <| responseParser ::= Append d |>))))
      (u <| responseParser ::= Append d |>)) as (-> & -> & ->).
Qed.

Lemma poisoned_responses pm nc source evs s :
  closed s = false -> poisoned (responseParser s) -> Z.of_nat (length (responseParser s ++ responses source evs)) < 2 ^ 62 ->
  let s' := feed pm nc source evs s in
  results (plugin_calls s') = results (plugin_calls s) /\ responseParser s' = responseParser s ++ responses source evs
  /\ closed s' = false.
Proof.
  intros Ho Hp Hl s'. subst s'. revert Hl. induction evs as [|[ingress d] evs IH] using rev_ind; intros Hl.
  { unfold responses. cbn. by rewrite app_nil_r. }
  rewrite (proj2 (requests_snoc source evs (ingress, d))) in *. cbn [fst snd] in *. rewrite app_assoc in *.
  destruct IH as (I1 & I2 & I3); [rewrite length_app in Hl; lia|].
  unfold feed. rewrite fold_left_app. cbn [fold_left fst snd]. fold (feed pm nc source evs s). set (u := feed _ _ _ _ s) in *.
  unfold Process. rewrite I3. destruct (isRequest source ingress) eqn:Hq.
  - rewrite app_nil_r. by destruct (processRequests_other pm nc (S (length (requestParser (u <| requestParser ::= Append d |>))))
      (u <| requestParser ::= Append d |>)) as (-> & -> & ->).
  - replace (isResponse source ingress) with true by (unfold isRequest, isResponse in *; by destruct source, ingress).
    set (u1 := u <| responseParser ::= Append d |>). rewrite (proj2 (poisoned_loops pm nc _ u1)); [by unfold u1; cbn; rewrite I2|].
    unfold u1. cbn. rewrite I2. unfold Append. rewrite <- app_assoc. apply poisoned_app; [done|by rewrite app_assoc].
Qed.

(** A malformed value ends the observation of its side for good.  When the bytes
    at the head of a buffer are malformed, which an inline command is, the parser fails
    or panics on them, nothing removes them, and whatever arrives later no command of
    that side is announced, or no response handed over, any more; the buffer keeps
    growing by everything that arrives. *)
Theorem malformed_is_final pm nc source evs s :
  closed s = false -> Z.of_nat (length (requestParser s ++ requests source evs)) < 2 ^ 62 ->
  Z.of_nat (length (responseParser s ++ responses source evs)) < 2 ^ 62 ->
  let s' := feed pm nc source evs s in
  (malformed (requestParser s) ->
     announced (plugin_calls s') = announced (plugin_calls s) /\ requestParser s' = requestParser s ++ requests source evs)
  /\ (malformed (responseParser s) ->
     results (plugin_calls s') = results (plugin_calls s) /\ responseParser s' = responseParser s ++ responses source evs).
Proof.
  intros Ho Hq Hr s'. rewrite !length_app in *. split; intros Hm.
  - destruct (poisoned_requests pm nc source evs s) as (? & ? & _); [done|apply malformed_poisoned; [done|lia]
      |rewrite length_app; lia|done].
  - destruct (poisoned_responses pm nc source evs s) as (? & ? & _); [done|apply malformed_poisoned; [done|lia]
      |rewrite length_app; lia|done].
Qed.

End parser.

(** ** Examples *)

Definition demo_float : Float64 :=
  {| float64 := Z; float_zero := 0; Inf := fun s => s; NaN := -1; ParseFloat := ParseInt |}.

(** A number of one digit. *)
Lemma numeral_digit d : 0 <= d <= 9 -> numeral [48 + d] d.
Proof. intros H. exists [], [d]. split_and!; [done|by apply Forall_singleton|done|left; split; [by left|done]|lia|lia]. Qed.

Definition PING : list Z := bytes_of_string "PING".
Definition ping_bytes : list Z := TypeArray :: [49] ++ crlf ++ (TypeBulkString :: [52] ++ crlf ++ PING ++ crlf) ++ [].
Definition ping : @Value demo_float := with_Array [with_Str PING (value_of TypeBulkString)] (value_of TypeArray).
Definition pong_bytes : list Z := TypeSimpleString :: bytes_of_string "PONG" ++ crlf.
Definition pong : @Value demo_float := with_Str (bytes_of_string "PONG") (value_of TypeSimpleString).

Lemma ping_encodes : @encodes demo_float ping ping_bytes.
Proof.
  apply enc_seq; [by left|apply (numeral_digit 1); lia|done|]. apply all_cons; [|constructor].
  apply enc_bulk; [by left|apply (numeral_digit 4); lia].
Qed.

Lemma pong_encodes : @encodes demo_float pong pong_bytes.
Proof.
  apply enc_text; [by left|]. intros p q H. assert (13 ∈ bytes_of_string "PONG") as Hin.
  { rewrite H. apply elem_of_app. right. by left. }
  by repeat (apply elem_of_cons in Hin as [?|Hin]; [done|]); apply not_elem_of_nil in Hin.
Qed.

Lemma resp_roundtrip_witness :
  @Parse demo_float (ping_bytes ++ [36]) = Ok (with_size 14 ping, [36]) /\ @Parse demo_float (take 9 ping_bytes) = Err ErrIncomplete.
Proof.
  assert (Hl : Z.of_nat (length (ping_bytes ++ [36])) < 2 ^ 62) by done.
  destruct (@resp_roundtrip demo_float ping ping_bytes [36] ping_encodes Hl) as [H1 H2].
  split; [exact H1|]. apply (H2 _ (drop 9 ping_bytes)); [symmetry; apply take_drop|done].
Defined.

Lemma redis_pairs_witness :
  let s := @feed demo_float true always C_CLIENT
    [(false, take 5 ping_bytes); (false, drop 5 ping_bytes); (true, pong_bytes)] NewStream in
  announced (plugin_calls s) = [(0%nat, MkCommand PING [])] /\ results (plugin_calls s) = [(0%nat, result_of pong)]
  /\ pendingCommands s = [].
Proof.
  intros s. apply (@redis_pairs demo_float C_CLIENT [(ping, ping_bytes)] [(pong, pong_bytes)]
    [(false, take 5 ping_bytes); (false, drop 5 ping_bytes); (true, pong_bytes)]).
  - apply Forall_singleton, ping_encodes.
  - apply Forall_singleton. by eexists.
  - apply Forall_singleton, pong_encodes.
  - done.
  - done.
  - by exists [].
  - by exists [].
  - intros evs1 evs2 H. assert (He : evs1 = take (length evs1) (evs1 ++ evs2)) by (symmetry; apply take_app_length).
    rewrite He, <- H. generalize (length evs1). intros [|[|[|n]]]; vm_compute; lia.
Defined.

Lemma process_ends_witness :
  (@Process demo_float true always C_CLIENT true (bytes_of_string "~-1" ++ crlf) NewStream).2 = Returned
  \/ (@Process demo_float true always C_CLIENT true (bytes_of_string "~-1" ++ crlf) NewStream).2 = Panicked.
Proof. apply (@process_ends demo_float true always C_CLIENT true (bytes_of_string "~-1" ++ crlf) NewStream); done. Defined.

(** An inline command, then a proper one. *)
Lemma malformed_is_final_witness :
  let s := (@Process demo_float true always C_CLIENT false (PING ++ crlf) NewStream).1 in
  announced (plugin_calls (feed true always C_CLIENT [(false, ping_bytes)] s)) = [].
Proof.
  intros s. assert (Hm : malformed (requestParser s)).
  { apply bad_type. intros Hin. by repeat (apply elem_of_cons in Hin as [?|Hin]; [done|]); apply not_elem_of_nil in Hin. }
  destruct (@malformed_is_final demo_float true always C_CLIENT [(false, ping_bytes)] s) as [H _]; [done..|].
  destruct (H Hm) as [H1 _]. exact H1.
Defined.
