(* ===== verification/AgentEvents.v ===== *)
(** * Events of the agent: [pkg/connection/types.go], [pkg/connection/events.go]

    What the agent knows of a connection is carried by events; each has the cookie of
    the connection it is for and, most of them, a priority in the connection's queue.
    The parsed TLS hellos are those of [pkg/tlsutils], an interface here that TlsHello
    implements. *)

From stdpp Require Import base numbers list strings.
From S2P Require Import Prelude.

(** [pkg/tlsutils]: the parsers of the two hello messages, and the server name. *)
Class TlsUtils := {
  ClientHello : Type;
  ServerHello : Type;
  ParseClientHello : list Z -> option ClientHello;
  ParseServerHello : list Z -> option ServerHello;
  SNI : ClientHello -> string }.

(** [qnet.NetAddr]; the families are "unknown", "ipv4" and "ipv6". *)
Module qnet.
Record NetAddr := MkNetAddr { Family : string; IP : list Z; Port : Z }.
End qnet.

Module connection.

(** [Source] *)
Definition Client : Z := 1.
Definition Server : Z := 2.

(** [Direction] *)
Definition Ingress : string := "ingress".
Definition Egress : string := "egress".

(** [SocketType] *)
Definition SocketType_UNKNOWN : string := "".
Definition SocketType_TCP : string := "tcp".
Definition SocketType_UDP : string := "udp".
Definition SocketType_RAW : string := "raw".
Definition SocketType_ICMP : string := "icmp".

(** [Protocol] *)
Definition Protocol_UNKNOWN : string := "unknown".
Definition Protocol_HTTP1 : string := "http1".
Definition Protocol_HTTP2 : string := "http2".
Definition Protocol_DNS : string := "dns".
Definition Protocol_MONGODB : string := "mongodb".
Definition Protocol_REDIS : string := "redis".
Definition Protocol_MYSQL : string := "mysql".
Definition Protocol_KAFKA : string := "kafka".
Definition Protocol_GRPC : string := "grpc".

(** [HandlerType] *)
Definition HandlerType_RAW : string := "raw".
Definition HandlerType_REDIRECTED : string := "redirected".
Definition HandlerType_FORWARDING : string := "forwarding".

(** [ErrorEventType] *)
Definition ErrType_ClientTLSHandshake : string := "client_tls_handshake".
Definition ErrType_ClientTLSHandshakeTimeout : string := "client_tls_handshake_timeout".

Record ConnPIDKey := MkConnPIDKey { PID : Z; TGID : Z; FD : Z; FUNCTION : Z; TSID : Z }.

Record OpenEvent := MkOpen {
  o_Cookie : Z; o_ConnPIDKey : ConnPIDKey; o_TimestampNS : Z; o_PID : Z; o_TGID : Z;
  o_Local : qnet.NetAddr; o_Remote : qnet.NetAddr; o_Source : Z; o_SocketType : string; o_IsRedirected : bool }.

Record CloseEvent := MkClose { c_Cookie : Z; c_TimestampNS : Z; c_WrBytes : Z; c_RdBytes : Z }.

Record DataEvent := MkData { d_Cookie : Z; d_Direction : string; d_Size : Z; d_Position : Z; d_Data : list Z }.

Record ProtocolEvent := MkProtocol { p_Cookie : Z; p_TimestampNS : Z; p_Protocol : string; p_IsTLS : bool }.

Section event.
Context {T : TlsUtils}.

(** The types with a [Key]. *)
Inductive Event :=
| Open (e : OpenEvent)
| Close (e : CloseEvent)
| Data (e : DataEvent)
| Protocol (e : ProtocolEvent)
| Hostname (cookie : Z) (name : string)
| OriginalDestination (cookie : Z) (destination : qnet.NetAddr)
| Error (cookie : Z) (type : string) (message : string)
| HandlerType (cookie : Z) (type : string)
| Done (cookie : Z)
| TLSClientHello (cookie : Z) (msg : ClientHello)
| TLSServerHello (cookie : Z) (msg : ServerHello).

Definition Key (e : Event) : Z :=
  match e with
  | Open e => o_Cookie e
  | Close e => c_Cookie e
  | Data e => d_Cookie e
  | Protocol e => p_Cookie e
  | Hostname c _ | OriginalDestination c _ | Error c _ _ | HandlerType c _ | Done c
  | TLSClientHello c _ | TLSServerHello c _ => c
  end.

(** The types with a [QueuePriority]; [OpenEvent] and [DoneEvent] have none. *)
Definition QueuePriority (e : Event) : option Z :=
  match e with
  | Open _ | Done _ => None
  | Close _ => Some 10
  | Data _ => Some 5
  | Hostname _ _ | OriginalDestination _ _ => Some 3
  | Protocol _ | Error _ _ _ | HandlerType _ _ | TLSClientHello _ _ | TLSServerHello _ _ => Some 1
  end.

End event.
End connection.
