(* ===== verification/Queue.v ===== *)
(** * The event queue of a connection: [pkg/synq/queue.go]

    A linked list of nodes ordered by priority, at most one pending notification for
    those who wait, and the two flags that end its life.  The nodes live in a heap;
    [None] as the outcome of an operation is a nil dereference.  The section [spec]
    gives the abstract queue it implements; the last part is the protocol between a
    producer, the consumer that calls [Next] and a goroutine that calls [Drain]. *)

From stdpp Require Import base numbers list gmap.
From S2P Require Import Prelude.

Inductive Op := Pushed | Popped.
Inductive queue_error := ErrQueueClosed | ErrQueueDraining.

Definition MaxInt : Z := 2 ^ 63 - 1.

Record node (V : Type) := MkNode { n_value : V; n_next : option nat }.
Arguments MkNode {V}.
Arguments n_value {V}.
Arguments n_next {V}.

(** [q_allocated] nodes exist; [q_notify] is the channel of capacity one and
    [q_cancelled] whether the queue's context is cancelled. *)
Record Queue (V : Type) := MkQueue {
  q_nodes : gmap nat (node V);
  q_allocated : nat;
  q_head : option nat;
  q_tail : option nat;
  q_closed : bool;
  q_draining : bool;
  q_count : Z;
  q_notify : option Op;
  q_cancelled : bool }.
Arguments MkQueue {V}.
Arguments q_nodes {V}.
Arguments q_allocated {V}.
Arguments q_head {V}.
Arguments q_tail {V}.
Arguments q_closed {V}.
Arguments q_draining {V}.
Arguments q_count {V}.
Arguments q_notify {V}.
Arguments q_cancelled {V}.

#[export] Instance Queue_settable V : Settable (Queue V) :=
  fun r => MkQueue (q_nodes r) (q_allocated r) (q_head r) (q_tail r) (q_closed r) (q_draining r) (q_count r) (q_notify r) (q_cancelled r).

Section queue.

(** Values, with their priority when they are [Prioritized]. *)
Context {V : Type} (QueuePriority : V -> option Z).

Definition NewQueue : Queue V := MkQueue ∅ 0 None None false false 0 None false.

Definition getPriority (value : V) : Z := default MaxInt (QueuePriority value).

(** A send on [notify] that is dropped when the channel is full. *)
Definition signal (op : Op) (q : Queue V) : Queue V :=
  match q_notify q with None => q <| q_notify := Some op |> | Some _ => q end.

(** A new node. *)
Definition alloc (n : node V) (q : Queue V) : Queue V :=
  q <| q_nodes ::= insert (q_allocated q) n |> <| q_allocated ::= S |>.

(** The walk to the node to insert after. *)
Fixpoint advance (fuel : nat) (priority : Z) (nodes : gmap nat (node V)) (current : nat) : option nat :=
  match fuel with
  | O => None
  | S fuel' =>
      c ← nodes !! current;
      match n_next c with
      | None => Some current
      | Some m =>
          n ← nodes !! m;
          if getPriority (n_value n) <=? priority then advance fuel' priority nodes m else Some current
      end
  end.

Definition insertWithPriority (p : V) (priority : Z) (q : Queue V) : option (Queue V) :=
  let newNode := q_allocated q in
  q' ← match q_head q with
       | None => Some ((alloc (MkNode p None) q) <| q_head := Some newNode |> <| q_tail := Some newNode |>)
       | Some h =>
           hd ← q_nodes q !! h;
           if priority <? getPriority (n_value hd)
           then Some ((alloc (MkNode p (Some h)) q) <| q_head := Some newNode |>)
           else
             current ← advance (q_allocated q) priority (q_nodes q) h;
             c ← q_nodes q !! current;
             let q := (alloc (MkNode p (n_next c)) q) <| q_nodes ::= insert current (MkNode (n_value c) (Some newNode)) |> in
             Some (match n_next c with None => q <| q_tail := Some newNode |> | Some _ => q end)
       end;
  Some (q' <| q_count ::= Z.add 1 |>).

Definition append (value : V) (q : Queue V) : option (Queue V) :=
  let newNode := q_allocated q in
  q' ← match q_tail q with
       | None => Some ((alloc (MkNode value None) q) <| q_head := Some newNode |> <| q_tail := Some newNode |>)
       | Some t =>
           c ← q_nodes q !! t;
           Some ((alloc (MkNode value None) q) <| q_nodes ::= insert t (MkNode (n_value c) (Some newNode)) |>
                   <| q_tail := Some newNode |>)
       end;
  Some (q' <| q_count ::= Z.add 1 |>).

Definition push (value : V) (q : Queue V) : option (Queue V) :=
  match QueuePriority value with
  | Some priority => insertWithPriority value priority q
  | None => append value q
  end.

Fixpoint push_all (values : list V) (q : Queue V) : option (Queue V) :=
  match values with [] => Some q | v :: values' => q' ← push v q; push_all values' q' end.

Definition Push (values : list V) (q : Queue V) : option (option queue_error * Queue V) :=
  if q_draining q then Some (Some ErrQueueDraining, q)
  else if q_closed q then Some (Some ErrQueueClosed, q)
  else q' ← push_all values q; Some (None, signal Pushed q').

Definition pop (q : Queue V) : option (option V * Queue V) :=
  match q_head q with
  | None => Some (None, q)
  | Some h =>
      c ← q_nodes q !! h;
      let q := q <| q_head := n_next c |> in
      let q := match n_next c with None => q <| q_tail := None |> | Some _ => q end in
      let q := q <| q_count ::= fun n => n - 1 |> in
      Some (Some (n_value c), if q_draining q then signal Popped q else q)
  end.

Definition Pop : Queue V -> option (option V * Queue V) := pop.

Fixpoint pop_n (n : nat) (q : Queue V) : option (list (option V) * Queue V) :=
  match n with
  | O => Some ([], q)
  | S n' => '(v, q) ← pop q; '(vs, q) ← pop_n n' q; Some (v :: vs, q)
  end.

(** A negative [n] makes the allocation of the result panic. *)
Definition PopN (n : Z) (q : Queue V) : option (list (option V) * Queue V) :=
  let n := if q_count q <? n then q_count q else n in
  if n <? 0 then None else pop_n (Z.to_nat n) q.

(** One round of the loop of [Next]: a value, the end, or the wait for [notify] or
    for the context. *)
Inductive next_round := Got (v : V) | NoMore | Await.

Definition Next_round (q : Queue V) : option (next_round * Queue V) :=
  match q_head q with
  | Some _ => '(v, q) ← pop q; v ← v; Some (Got v, q)
  | None => Some (if q_closed q then NoMore else Await, q)
  end.

(** The error carries the number of values that were dropped. *)
Definition Close (q : Queue V) : option Z * Queue V :=
  let remainingCount := q_count q in
  let q := q <| q_closed := true |> <| q_head := None |> <| q_tail := None |> <| q_count := 0 |> <| q_cancelled := true |> in
  (if 0 <? remainingCount then Some remainingCount else None, q).

(** [Drain] sets the flag; each round of its loop tests whether it is over. *)
Definition Drain_start (q : Queue V) : Queue V := q <| q_draining := true |>.
Definition Drain_over (q : Queue V) : bool := bool_decide (q_head q = None) || q_closed q.

End queue.
