(* ===== verification/QueueSpec.v ===== *)
(** * What the event queue promises

    The linked list of Queue implements an abstract queue that keeps its values in
    order of arrival and always hands out the oldest of the most urgent.  The proof
    goes through the list the nodes spell, which is the stable sort of the abstract
    queue.  The second part is the waiting protocol. *)

From Stdlib Require Import Sorting.Sorted.
From stdpp Require Import base numbers list gmap.
From S2P Require Import Prelude Queue.

Section spec.
Context {V : Type} (QueuePriority : V -> option Z).
Abbreviation prio := (getPriority QueuePriority).

(** ** The abstract queue *)

Record arrivals := MkArrivals { items : list V; a_closed : bool; a_draining : bool }.

(** The oldest of the most urgent values, and the others. *)
Fixpoint take_best (l : list V) : option (V * list V) :=
  match l with
  | [] => None
  | v :: l' =>
      match take_best l' with
      | Some (w, r) => if prio v <=? prio w then Some (v, l') else Some (w, v :: r)
      | None => Some (v, l')
      end
  end.

Fixpoint take_best_n (n : nat) (l : list V) : list V * list V :=
  match n, take_best l with
  | S n', Some (v, l') => let r := take_best_n n' l' in (v :: r.1, r.2)
  | _, _ => ([], l)
  end.

Inductive queue_op := QPush (vs : list V) | QPop | QPopN (n : nat) | QNext | QClose | QDrain.
Inductive queue_answer :=
| APush (e : option queue_error) | APop (v : option V) | APopN (vs : list (option V))
| ANext (r : @next_round V) | AClose (dropped : option Z) | ADrain (over : bool).

Definition spec_op (op : queue_op) (a : arrivals) : queue_answer * arrivals :=
  let '(MkArrivals l c d) := a in
  match op with
  | QPush vs =>
      if d then (APush (Some ErrQueueDraining), a)
      else if c then (APush (Some ErrQueueClosed), a)
      else (APush None, MkArrivals (l ++ vs) c d)
  | QPop => match take_best l with Some (v, l') => (APop (Some v), MkArrivals l' c d) | None => (APop None, a) end
  | QPopN n => let r := take_best_n n l in (APopN (map Some r.1), MkArrivals r.2 c d)
  | QNext =>
      match take_best l with
      | Some (v, l') => (ANext (Got v), MkArrivals l' c d)
      | None => (ANext (if c then NoMore else Await), a)
      end
  | QClose => (AClose (if l is [] then None else Some (Z.of_nat (length l))), MkArrivals [] true d)
  | QDrain => (ADrain (if l is [] then true else c), MkArrivals l c true)
  end.

(** The operations of the code. *)
Definition code_op (op : queue_op) (q : Queue V) : option (queue_answer * Queue V) :=
  match op with
  | QPush vs => '(e, q) ← Push QueuePriority vs q; Some (APush e, q)
  | QPop => '(v, q) ← Pop q; Some (APop v, q)
  | QPopN n => '(vs, q) ← PopN (Z.of_nat n) q; Some (APopN vs, q)
  | QNext => '(r, q) ← Next_round q; Some (ANext r, q)
  | QClose => let '(e, q) := Close q in Some (AClose e, q)
  | QDrain => let q := Drain_start q in Some (ADrain (Drain_over q), q)
  end.

Fixpoint spec_run (ops : list queue_op) (a : arrivals) : list queue_answer :=
  match ops with [] => [] | op :: ops' => let r := spec_op op a in r.1 :: spec_run ops' r.2 end.

Fixpoint code_run (ops : list queue_op) (q : Queue V) : option (list queue_answer) :=
  match ops with
  | [] => Some []
  | op :: ops' => '(r, q) ← code_op op q; rs ← code_run ops' q; Some (r :: rs)
  end.

(** ** Stable sorting *)

Fixpoint insert_after (priority : Z) (v : V) (l : list V) : list V :=
  match l with
  | [] => [v]
  | w :: l' => if priority <? prio w then v :: l else w :: insert_after priority v l'
  end.

Definition enqueue (l : list V) (v : V) : list V := insert_after (prio v) v l.
Definition sort (l : list V) : list V := foldl enqueue [] l.

Definition class (p : Z) (l : list V) : list V := filter (fun v => prio v = p) l.
Definition sorted (l : list V) : Prop := StronglySorted (fun v w => prio v <= prio w) l.

Lemma class_cons p v l : class p (v :: l) = if decide (prio v = p) then v :: class p l else class p l.
Proof. unfold class. by rewrite filter_cons. Qed.

Lemma class_app p l1 l2 : class p (l1 ++ l2) = class p l1 ++ class p l2.
Proof. apply filter_app. Qed.

Lemma class_nil p l : Forall (fun v => prio v <> p) l -> class p l = [].
Proof. induction 1; [done|]. by rewrite class_cons, decide_False. Qed.

Lemma insert_after_elem priority v w l : w ∈ insert_after priority v l <-> w = v \/ w ∈ l.
Proof.
  induction l as [|x l IH]; cbn; [set_solver|].
  destruct (_ <? _); set_solver.
Qed.

Lemma enqueue_sorted l v : sorted l -> sorted (enqueue l v).
Proof.
  unfold sorted, enqueue. induction 1 as [|w l S IH F]; cbn; [repeat constructor|].
  case_match eqn:E; (constructor; [by (constructor || idtac)|]).
  - constructor; [lia|]. eapply Forall_impl; [exact F|]. cbn. lia.
  - apply Forall_forall. intros x [->|I]%insert_after_elem; [lia|]. rewrite Forall_forall in F. auto.
Qed.

Lemma enqueue_class p l v : sorted l -> class p (enqueue l v) = class p l ++ class p [v].
Proof.
  unfold sorted, enqueue. induction 1 as [|w l S IH F]; cbn [insert_after]; [done|].
  case_match eqn:E.
  - rewrite !(class_cons _ v). change (class p []) with (@nil V). case_decide as D; [|by rewrite app_nil_r].
    assert (class p (w :: l) = []) as ->; [|done].
    apply class_nil, Forall_cons. split; [lia|]. eapply Forall_impl; [exact F|]. cbn. lia.
  - rewrite !(class_cons _ w), IH. by case_decide.
Qed.

Lemma sort_snoc l v : sort (l ++ [v]) = enqueue (sort l) v.
Proof. unfold sort. by rewrite foldl_app. Qed.

Lemma sort_spec l : sorted (sort l) /\ forall p, class p (sort l) = class p l.
Proof.
  induction l as [|v l [S C]] using rev_ind; [split; [constructor|done]|].
  rewrite sort_snoc. split; [by apply enqueue_sorted|].
  intros. by rewrite enqueue_class, C, class_app.
Qed.

Lemma insert_after_length priority v l : length (insert_after priority v l) = S (length l).
Proof. induction l as [|w l IH]; cbn; [done|]. destruct (_ <? _); cbn; by rewrite ?IH. Qed.

Lemma sort_length l : length (sort l) = length l.
Proof.
  induction l as [|v l IH] using rev_ind; [done|].
  rewrite sort_snoc. unfold enqueue. rewrite insert_after_length, IH, length_app. cbn. lia.
Qed.

Lemma class_elem v l : v ∈ l <-> v ∈ class (prio v) l.
Proof. unfold class. rewrite list_elem_of_filter. tauto. Qed.

Lemma sorted_unique l1 l2 : sorted l1 -> sorted l2 -> (forall p, class p l1 = class p l2) -> l1 = l2.
Proof.
  intros S1. revert l2. induction S1 as [|v l1 S1 IH F1]; intros l2 S2 C.
  - destruct l2 as [|w l2]; [done|]. specialize (C (prio w)). by rewrite class_cons, decide_True in C.
  - destruct S2 as [|w l2 S2 F2].
    { specialize (C (prio v)). by rewrite class_cons, decide_True in C. }
    assert (forall x, x ∈ v :: l1 <-> x ∈ w :: l2) as E by (intros; by rewrite class_elem, C, <- class_elem).
    assert (prio v = prio w) as D.
    { rewrite Forall_forall in F1, F2.
      assert (v ∈ w :: l2) as [->|I]%elem_of_cons by (apply E; set_solver); [done|].
      assert (w ∈ v :: l1) as [->|J]%elem_of_cons by (apply E; set_solver); [done|].
      specialize (F1 w J). specialize (F2 v I). cbn in *. lia. }
    pose proof (C (prio v)) as Cv. rewrite !class_cons, !decide_True in Cv by done. simplify_eq.
    f_equal. apply IH; [done|]. intros p. specialize (C p). rewrite !class_cons in C. case_decide; by simplify_eq.
Qed.

Lemma take_best_spec l :
  match take_best l with
  | None => l = []
  | Some (v, r) =>
      v ∈ l /\ (forall x, x ∈ l -> prio v <= prio x)
      /\ forall p, class p l = if decide (prio v = p) then v :: class p r else class p r
  end.
Proof.
  induction l as [|v l IH]; cbn [take_best]; [done|].
  destruct (take_best l) as [[w r]|] eqn:E.
  - destruct IH as (I & M & C). destruct (prio v <=? prio w) eqn:L.
    + split; [set_solver|]. split; [|intros; apply class_cons].
      intros x [->|J]%elem_of_cons; [lia|]. specialize (M x J). lia.
    + split; [set_solver|]. split.
      * intros x [->|J]%elem_of_cons; [lia|]. auto.
      * intros p. rewrite !class_cons, C. repeat case_decide; congruence || lia.
  - subst. split; [set_solver|]. split; [|intros; apply class_cons]. set_solver by lia.
Qed.

Lemma take_best_length l v r : take_best l = Some (v, r) -> length l = S (length r).
Proof.
  revert v r. induction l as [|x l IH]; intros v r; cbn; [done|].
  destruct (take_best l) as [[w r']|] eqn:E; [destruct (_ <=? _)|]; intros; simplify_eq; cbn; [done| |done].
  by erewrite IH.
Qed.

(** Taking the head of the sorted list is taking the best value. *)
Lemma take_best_sort l :
  match take_best l with
  | None => sort l = []
  | Some (v, r) => sort l = v :: sort r
  end.
Proof.
  pose proof (take_best_spec l) as T. destruct (take_best l) as [[v r]|]; [|by subst].
  destruct T as (I & M & C). destruct (sort_spec l) as [S CS]. destruct (sort_spec r) as [S' CS'].
  apply sorted_unique; [done| |].
  - constructor; [done|]. apply Forall_forall. intros x J. apply M.
    apply class_elem. apply class_elem in J. rewrite CS' in J. rewrite C. case_decide; [|done]. by right.
  - intros p. by rewrite CS, C, class_cons, CS'.
Qed.

(** ** The linked list *)

(** The nodes from [l] up to [r] are [kvs], with their addresses. *)
Fixpoint seg (h : gmap nat (node V)) (l : option nat) (kvs : list (nat * V)) (r : option nat) : Prop :=
  match kvs with
  | [] => l = r
  | (k, v) :: kvs' => l = Some k /\ exists nx, h !! k = Some (MkNode v nx) /\ seg h nx kvs' r
  end.

Lemma seg_app h l kvs1 kvs2 r : seg h l (kvs1 ++ kvs2) r <-> exists m, seg h l kvs1 m /\ seg h m kvs2 r.
Proof.
  revert l. induction kvs1 as [|[k v] kvs1 IH]; intros l; cbn.
  - naive_solver.
  - setoid_rewrite IH. naive_solver.
Qed.

Lemma seg_insert h l kvs r k n : k ∉ kvs.*1 -> seg h l kvs r -> seg (<[k := n]> h) l kvs r.
Proof.
  revert l. induction kvs as [|[k' v] kvs IH]; intros l N; cbn in *; [done|].
  intros (-> & nx & L & S). split; [done|]. exists nx. rewrite lookup_insert_ne by set_solver. split; [done|].
  apply IH; set_solver.
Qed.

(** The queue spells the values [vs]. *)
Definition spells (q : Queue V) (vs : list V) : Prop :=
  exists kvs, kvs.*2 = vs /\ NoDup kvs.*1 /\ Forall (fun k => k < q_allocated q)%nat kvs.*1
    /\ seg (q_nodes q) (q_head q) kvs None /\ q_tail q = fst <$> last kvs /\ q_count q = Z.of_nat (length vs).

Lemma spells_length (ks : list nat) n : NoDup ks -> Forall (fun k => k < n)%nat ks -> (length ks <= n)%nat.
Proof.
  intros N F. rewrite <- (length_seq n 0). apply submseteq_length, NoDup_submseteq; [done|].
  intros k I. rewrite Forall_forall in F. apply elem_of_seq. specialize (F k I). lia.
Qed.

Lemma advance_spec fuel priority h c v t :
  (length t < fuel)%nat -> seg h (Some c) ((c, v) :: t) None ->
  exists t1 c' v' t2, (c, v) :: t = t1 ++ (c', v') :: t2 /\ advance QueuePriority fuel priority h c = Some c'
    /\ forall x, insert_after priority x t.*2 = tail (t1 ++ [(c', v')]).*2 ++ x :: t2.*2.
Proof.
  revert c v t. induction fuel as [|fuel IH]; intros c v t; [lia|]. intros L (_ & nx & Lc & S).
  cbn [advance]. rewrite Lc. cbn [mbind option_bind n_next]. destruct t as [|[m w] t]; cbn in S.
  { subst nx. by exists [], c, v, []. }
  destruct S as (-> & nm & Lm & S). rewrite Lm. cbn. destruct (priority <? prio w) eqn:P.
  - replace (prio w <=? priority) with false by lia. by exists [], c, v, ((m, w) :: t).
  - replace (prio w <=? priority) with true by lia.
    destruct (IH m w t) as (t1 & c' & v' & t2 & E & A & I); [cbn in L; lia|by split; eauto|].
    exists ((c, v) :: t1), c', v', t2. split; [by rewrite E|]. split; [done|]. intros x. rewrite I.
    destruct t1 as [|y t1]; cbn in E |- *; simplify_eq; [done|]. done.
Qed.


(** Linking a new node [k] after the node [c]. *)
Lemma seg_link h l t1 c v t2 nx k p :
  NoDup (t1 ++ (c, v) :: t2).*1 -> k ∉ (t1 ++ (c, v) :: t2).*1 ->
  seg h l (t1 ++ (c, v) :: t2) None -> h !! c = Some (MkNode v nx) ->
  seg (<[c := MkNode v (Some k)]> (<[k := MkNode p nx]> h)) l (t1 ++ (c, v) :: (k, p) :: t2) None.
Proof.
  rewrite fmap_app, fmap_cons. intros (N1 & N2 & [N3 _]%NoDup_cons)%NoDup_app F.
  intros (m & S1 & -> & nx' & Lc & S2)%seg_app Lc'. simplify_eq. cbn in F, N2, N3.
  apply seg_app. exists (Some c). split.
  { apply seg_insert; [set_solver|]. apply seg_insert; [set_solver|done]. }
  split; [done|]. exists (Some k). rewrite lookup_insert_eq. split; [done|]. split; [done|].
  exists nx'. rewrite lookup_insert_ne, lookup_insert_eq by set_solver. split; [done|].
  apply seg_insert; [done|]. apply seg_insert; [set_solver|done].
Qed.

Definition flags (q : Queue V) : bool * bool * bool := (q_closed q, q_draining q, q_cancelled q).
Definition same_flags (q q' : Queue V) : Prop := flags q' = flags q.

(** A queue whose list is [kvs] with a new node in it. *)
Lemma spells_linked (q q' : Queue V) t1 k p t2 :
  NoDup (t1 ++ t2).*1 -> Forall (fun k => k < q_allocated q)%nat (t1 ++ t2).*1 -> k = q_allocated q ->
  q_allocated q' = S (q_allocated q) -> q_count q' = 1 + Z.of_nat (length (t1 ++ t2).*2) ->
  seg (q_nodes q') (q_head q') (t1 ++ (k, p) :: t2) None -> q_tail q' = fst <$> last (t1 ++ (k, p) :: t2) ->
  spells q' (t1.*2 ++ p :: t2.*2).
Proof.
  intros N F -> A C S T. exists (t1 ++ (q_allocated q, p) :: t2). rewrite !fmap_app, !fmap_cons in *.
  assert (q_allocated q ∉ t1.*1 ++ t2.*1) as NI.
  { intros I. rewrite Forall_forall in F. specialize (F _ I). lia. }
  repeat split; try done.
  - rewrite <- Permutation_middle. by constructor.
  - rewrite A. rewrite <- Permutation_middle. constructor; [cbn; lia|]. eapply Forall_impl; [exact F|]. cbn. lia.
  - rewrite C, !length_app. cbn. lia.
Qed.

Lemma spells_after (q q' : Queue V) t1 c x t2 nx v :
  NoDup (t1 ++ (c, x) :: t2).*1 -> Forall (fun k => k < q_allocated q)%nat (t1 ++ (c, x) :: t2).*1 ->
  seg (q_nodes q) (q_head q) (t1 ++ (c, x) :: t2) None -> q_tail q = fst <$> last (t1 ++ (c, x) :: t2) ->
  q_count q = Z.of_nat (length (t1 ++ (c, x) :: t2).*2) -> q_nodes q !! c = Some (MkNode x nx) ->
  q_nodes q' = <[c := MkNode x (Some (q_allocated q))]> (<[q_allocated q := MkNode v nx]> (q_nodes q)) ->
  q_allocated q' = S (q_allocated q) -> q_head q' = q_head q -> q_count q' = 1 + q_count q ->
  q_tail q' = (if t2 is [] then Some (q_allocated q) else q_tail q) ->
  spells q' ((t1 ++ [(c, x)]).*2 ++ v :: t2.*2).
Proof.
  intros N F S T C L En Ea Eh Ec Et.
  apply (spells_linked q _ (t1 ++ [(c, x)]) (q_allocated q) v t2); rewrite <- ?(assoc_L app); cbn [app]; try done.
  - by rewrite Ec, C.
  - rewrite En, Eh. apply seg_link; [done| |done|done].
    intros I. rewrite Forall_forall in F. specialize (F _ I). lia.
  - rewrite Et, T. destruct t2 as [|y t2]; [by rewrite last_app|].
    by rewrite !last_app, !last_cons_cons.
Qed.

Lemma insertWithPriority_spells q vs v priority :
  spells q vs -> exists q', insertWithPriority QueuePriority v priority q = Some q'
    /\ spells q' (insert_after priority v vs) /\ same_flags q q'.
Proof.
  intros (kvs & <- & N & F & S & T & C). unfold insertWithPriority.
  destruct kvs as [|[h w] kvs].
  { cbn in S. rewrite S. cbn [mbind option_bind]. eexists. split; [done|]. split; [|done].
    apply (spells_linked q _ [] (q_allocated q) v []); try done; cbn; [by rewrite C|].
    split; [done|]. exists None. by rewrite lookup_insert_eq. }
  assert (q_allocated q ∉ ((h, w) :: kvs).*1) as NI.
  { intros I. rewrite Forall_forall in F. specialize (F _ I). lia. }
  pose proof S as (-> & nx & Lh & S'). rewrite Lh. cbn [mbind option_bind n_value]. cbn [fmap list_fmap snd insert_after].
  destruct (priority <? prio w) eqn:P.
  { eexists. split; [done|]. split; [|done].
    apply (spells_linked q _ [] (q_allocated q) v ((h, w) :: kvs)); [done|done|done|done|by cbn; rewrite C| |done].
    split; [done|]. exists (Some h). cbn -[seg]. rewrite lookup_insert_eq. split; [done|].
    apply seg_insert; [done|]. by split; eauto. }
  destruct (advance_spec (q_allocated q) priority (q_nodes q) h w kvs) as (t1 & c & x & t2 & E & -> & I).
  { pose proof (spells_length _ _ N F) as L. rewrite length_fmap in L. cbn in L. lia. }
  { by split; eauto. }
  rewrite E in N, F, NI, S, T, C.
  assert (exists nx', q_nodes q !! c = Some (MkNode x nx') /\ seg (q_nodes q) nx' t2 None) as (nx' & Lc & Sc).
  { apply seg_app in S as (m & _ & -> & nx' & Lc & Sc). eauto. }
  cbn [mbind option_bind]. rewrite Lc. cbn [n_next n_value]. eexists. split; [done|]. split; [|by destruct nx'].
  rewrite I.
  assert (w :: tail (t1 ++ [(c, x)]).*2 ++ v :: t2.*2 = (t1 ++ [(c, x)]).*2 ++ v :: t2.*2) as ->.
  { destruct t1; cbn in E |- *; by simplify_eq. }
  eapply (spells_after q _ t1 c x t2 nx'); try done; try (destruct nx'; reflexivity).
  destruct t2 as [|[k y] t2]; cbn in Sc; [by subst|]. by destruct Sc as [-> _].
Qed.

Lemma enqueue_last (vs : list V) v :
  (forall w p, QueuePriority w = Some p -> p <= MaxInt) -> QueuePriority v = None -> enqueue vs v = vs ++ [v].
Proof.
  intros B N. unfold enqueue. assert (prio v = MaxInt) as -> by (unfold getPriority; by rewrite N).
  induction vs as [|w vs IH]; cbn; [done|].
  assert (prio w <= MaxInt) by (unfold getPriority; destruct (QueuePriority w) eqn:E; cbn; [eauto|lia]).
  replace (MaxInt <? prio w) with false by lia. by rewrite IH.
Qed.

Lemma append_spells q vs v :
  spells q vs -> exists q', append v q = Some q' /\ spells q' (vs ++ [v]) /\ same_flags q q'.
Proof.
  intros (kvs & <- & N & F & S & T & C). unfold append.
  destruct kvs as [|[c x] t1 _] using rev_ind.
  - cbn in T, S. rewrite T. eexists. split; [done|]. split; [|done].
    apply (spells_linked q _ [] (q_allocated q) v []); try done; cbn; [by rewrite C|].
    split; [done|]. exists None. by rewrite lookup_insert_eq.
  - rewrite last_snoc in T. cbn in T. rewrite T.
    assert (q_nodes q !! c = Some (MkNode x None)) as L.
    { apply seg_app in S as (m & _ & -> & nx & L & S). cbn in S. by subst. }
    cbn [mbind option_bind]. rewrite L. eexists. split; [done|]. split; [|done].
    apply (spells_after q _ t1 c x [] None); try done. rewrite T. by rewrite last_snoc.
Qed.


Lemma spells_same (q q' : Queue V) vs :
  q_nodes q' = q_nodes q -> q_allocated q' = q_allocated q -> q_head q' = q_head q -> q_tail q' = q_tail q ->
  q_count q' = q_count q -> spells q vs -> spells q' vs.
Proof. intros E1 E2 E3 E4 E5 (kvs & H). exists kvs. by rewrite E1, E2, E3, E4, E5. Qed.

Lemma signal_spells op (q : Queue V) vs : spells q vs -> spells (signal op q) vs.
Proof. unfold signal. destruct (q_notify q); [done|]. by apply spells_same. Qed.

Lemma signal_flags op (q : Queue V) : same_flags q (signal op q).
Proof. unfold signal. by destruct (q_notify q). Qed.

Lemma spells_head (q : Queue V) vs : spells q vs -> q_head q = None <-> vs = [].
Proof. intros (kvs & <- & _ & _ & S & _). destruct kvs as [|[k v] kvs]; cbn in *; [done|]. by destruct S as [-> _]. Qed.

Lemma pop_spells (q : Queue V) vs :
  spells q vs -> exists q', pop q = Some (head vs, q') /\ spells q' (tail vs) /\ same_flags q q'.
Proof.
  intros (kvs & <- & N & F & S & T & C). unfold pop. destruct kvs as [|[k v] kvs].
  { cbn in S. rewrite S. exists q. split; [done|]. split; [|done]. by exists []. }
  destruct S as (-> & nx & L & S). rewrite L. cbn [mbind option_bind n_next n_value].
  cbv zeta. match goal with |- context [if q_draining ?x then _ else _] => set (q1 := x) end.
  assert (spells q1 kvs.*2) as S1.
  { exists kvs. rewrite fmap_cons in N, F. apply NoDup_cons in N as [_ N]. apply Forall_cons in F as [_ F].
    unfold q1. destruct kvs as [|[k' v'] kvs]; cbn in S.
    - subst nx. cbn. repeat split; try done. rewrite C. cbn. lia.
    - destruct S as (-> & nx' & L' & S). cbn in C |- *. repeat split; try done; [by eauto|]. rewrite C. lia. }
  assert (same_flags q q1) as FL by (unfold q1; by destruct nx).
  eexists. split; [done|]. destruct (q_draining q1); [|done].
  split; [by apply signal_spells|]. etrans; [apply signal_flags|done].
Qed.

Section run.
Context (int_priority : forall v p, QueuePriority v = Some p -> p <= MaxInt).

Lemma push_spells q l v :
  spells q (sort l) -> exists q', push QueuePriority v q = Some q' /\ spells q' (sort (l ++ [v])) /\ same_flags q q'.
Proof.
  intros S. rewrite sort_snoc. unfold push. destruct (QueuePriority v) as [p|] eqn:E.
  - unfold enqueue, getPriority at 1. rewrite E. by apply insertWithPriority_spells.
  - rewrite enqueue_last by done. by apply append_spells.
Qed.

Lemma push_all_spells vs q l :
  spells q (sort l) -> exists q', push_all QueuePriority vs q = Some q' /\ spells q' (sort (l ++ vs)) /\ same_flags q q'.
Proof.
  revert q l. induction vs as [|v vs IH]; intros q l S; cbn [push_all]; [exists q; by rewrite app_nil_r|].
  destruct (push_spells q l v S) as (q1 & -> & S1 & F1). destruct (IH q1 _ S1) as (q2 & E2 & S2 & F2).
  exists q2. rewrite <- (assoc_L app) in S2. split; [done|]. split; [done|]. by etrans.
Qed.

Definition implements (q : Queue V) (a : arrivals) : Prop :=
  spells q (sort (items a)) /\ flags q = (a_closed a, a_draining a, a_closed a).

Lemma pop_implements q a :
  implements q a ->
  match take_best (items a) with
  | Some (v, l) => exists q', pop q = Some (Some v, q') /\ implements q' (MkArrivals l (a_closed a) (a_draining a))
  | None => pop q = Some (None, q) /\ q_head q = None
  end.
Proof.
  intros (S & C). destruct (pop_spells q _ S) as (q' & P & S' & FC). pose proof (take_best_sort (items a)) as T.
  destruct (take_best (items a)) as [[v l]|].
  - rewrite T in P, S'. exists q'. split; [done|]. split; [done|]. by etrans.
  - assert (q_head q = None) as H by (rewrite T in S; by apply (spells_head q [])).
    split; [|done]. unfold pop. by rewrite H.
Qed.

Lemma pop_n_implements n q a :
  implements q a -> (n <= length (items a))%nat ->
  let r := take_best_n n (items a) in
  exists q', pop_n n q = Some (map Some r.1, q') /\ implements q' (MkArrivals r.2 (a_closed a) (a_draining a)).
Proof.
  revert q a. induction n as [|n IH]; intros q [l c d] I L; cbn [pop_n take_best_n items].
  { exists q. by destruct l. }
  pose proof (pop_implements q _ I) as P. cbn in P, L. pose proof (take_best_spec l) as T.
  destruct (take_best l) as [[v l']|] eqn:E; [|subst; cbn in L; lia].
  apply take_best_length in E. destruct P as (q1 & -> & I1).
  destruct (IH q1 _ I1) as (q2 & E2 & I2); [cbn; lia|]. exists q2. cbn in *. by rewrite E2.
Qed.

Lemma spells_nil (q : Queue V) : q_head q = None -> q_tail q = None -> q_count q = 0 -> spells q [].
Proof. intros H T C. exists []. repeat split; try done; constructor. Qed.

Lemma count_of_arrivals q l : spells q (sort l) -> q_count q = Z.of_nat (length l).
Proof. intros (kvs & E & _ & _ & _ & _ & C). by rewrite C, sort_length. Qed.

Lemma take_best_n_min n l : take_best_n (n `min` length l) l = take_best_n n l.
Proof.
  revert l. induction n as [|n IH]; intros l; [done|]. pose proof (take_best_spec l) as T.
  destruct l as [|x l]; [done|]. cbn [length Nat.min take_best_n].
  destruct (take_best (x :: l)) as [[v r]|] eqn:E; [|done].
  apply take_best_length in E. cbn in E. injection E as ->. by rewrite IH.
Qed.

Lemma code_op_implements op q a :
  implements q a -> exists q', code_op op q = Some ((spec_op op a).1, q') /\ implements q' (spec_op op a).2.
Proof.
  intros I. pose proof (pop_implements q a I) as P. pose proof I as (S & CD). destruct a as [l c d]; cbn in P, CD, S.
  injection CD as C D X.
  destruct op as [vs| |n| | |]; cbn [code_op spec_op].
  - unfold Push. rewrite C, D. destruct d; [by exists q|]. destruct c; [by exists q|].
    destruct (push_all_spells vs q l S) as (q' & -> & S' & FC). eexists. split; [done|].
    split; [by apply signal_spells|]. etrans; [apply signal_flags|]. etrans; [exact FC|]. unfold flags; cbn; congruence.
  - unfold Pop. destruct (take_best l) as [[v l']|]; [|by destruct P as [-> _]; exists q].
    destruct P as (q' & -> & I'). by exists q'.
  - unfold PopN. rewrite (count_of_arrivals q l S).
    destruct (pop_n_implements (n `min` length l) q (MkArrivals l c d) I) as (q' & P' & I'); [cbn; lia|].
    cbn in P', I'. rewrite take_best_n_min in P', I'. exists q'. split; [|done].
    match goal with |- context [if ?b <? 0 then _ else _] => replace b with (Z.of_nat (n `min` length l)) by (destruct (_ <? Z.of_nat n) eqn:?; lia) end.
    replace (_ <? 0) with false by lia. by rewrite Nat2Z.id, P'.
  - unfold Next_round. destruct (take_best l) as [[v l']|].
    + destruct P as (q' & P & I'). exists q'. split; [|done].
      destruct (q_head q) eqn:H; [by rewrite P|]. unfold pop in P. by rewrite H in P.
    + destruct P as [_ ->]. rewrite C. by exists q.
  - exists (Close q).2. unfold Close. rewrite (count_of_arrivals q l S). split; [|split; [by apply spells_nil|by unfold flags; cbn; rewrite D]].
    destruct l; [done|]. cbn [length]. by replace (_ <? _) with true by lia.
  - exists (Drain_start q). split; [|split; [by apply (spells_same q)|by unfold flags; cbn; rewrite C, X]].
    unfold Drain_over. cbn. f_equal. f_equal. f_equal. rewrite C. pose proof (spells_head q _ S) as H.
    destruct l as [|x l]; [by rewrite bool_decide_true by (by apply H)|]. rewrite bool_decide_false; [done|].
    rewrite H. intros N%(f_equal length). by rewrite sort_length in N.
Qed.

Lemma NewQueue_implements : implements NewQueue (MkArrivals [] false false).
Proof. split; [by apply spells_nil|done]. Qed.

Lemma code_run_spec ops q a : implements q a -> code_run ops q = Some (spec_run ops a).
Proof.
  revert q a. induction ops as [|op ops IH]; intros q a I; cbn; [done|].
  destruct (code_op_implements op q a I) as (q' & -> & I'). cbn. by rewrite (IH q' _ I').
Qed.

(** ** Waiting *)

(** A party inside [Next] or [Drain] looks at the queue, waits for [notify], or is done. *)
Inductive phase := Looking | Waiting | Ended.

Record parties := MkParties {
  p_queue : Queue V;
  p_consumer : phase;
  p_drainer : option phase;
  delivered : list V }.

(** The loop of the consumer: one round of [Next], and its select. *)
Inductive consumer_step : parties -> parties -> Prop :=
| round_got q q' v d out : Next_round q = Some (Got v, q') ->
    consumer_step (MkParties q Looking d out) (MkParties q' Looking d (out ++ [v]))
| round_over q q' d out : Next_round q = Some (NoMore, q') ->
    consumer_step (MkParties q Looking d out) (MkParties q' Ended d out)
| round_wait q q' d out : Next_round q = Some (Await, q') ->
    consumer_step (MkParties q Looking d out) (MkParties q' Waiting d out)
| consumer_wakes q op d out : q_notify q = Some op ->
    consumer_step (MkParties q Waiting d out) (MkParties (q <| q_notify := None |>) Looking d out)
| consumer_cancelled q d out : q_cancelled q = true ->
    consumer_step (MkParties q Waiting d out) (MkParties q Ended d out).

(** The goroutine that drains, apart from its timeout. *)
Inductive drainer_step : parties -> parties -> Prop :=
| drain_starts q c out : drainer_step (MkParties q c None out) (MkParties (Drain_start q) c (Some Looking) out)
| drain_round q c out :
    drainer_step (MkParties q c (Some Looking) out) (MkParties q c (Some (if Drain_over q then Ended else Waiting)) out)
| drainer_wakes q op c out : q_notify q = Some op ->
    drainer_step (MkParties q c (Some Waiting) out) (MkParties (q <| q_notify := None |>) c (Some Looking) out).

Inductive party_step : parties -> parties -> Prop :=
| producer q e q' vs c d out : Push QueuePriority vs q = Some (e, q') ->
    party_step (MkParties q c d out) (MkParties q' c d out)
| closer q c d out : party_step (MkParties q c d out) (MkParties (Close q).2 c d out)
| consuming s s' : consumer_step s s' -> party_step s s'
| draining s s' : drainer_step s s' -> party_step s s'.

Definition parties_start : parties := MkParties NewQueue Looking None [].

(** What holds between the parties; a closed queue is empty, and as long as nobody
    drains, a consumer that waits while there is something to take has been notified. *)
Definition awake (s : parties) : Prop :=
  exists a, implements (p_queue s) a /\ (a_closed a = true -> items a = [])
    /\ (p_consumer s = Ended -> a_closed a = true)
    /\ (p_drainer s = None -> p_consumer s = Waiting -> items a <> [] -> q_notify (p_queue s) <> None).

Lemma spec_op_closed op a : (a_closed a = true -> items a = []) -> a_closed (spec_op op a).2 = true -> items (spec_op op a).2 = [].
Proof.
  destruct a as [l c d]; cbn. intros H. destruct op as [vs| |n| | |]; cbn.
  - by destruct d, c.
  - destruct (take_best l) as [[v l']|] eqn:E; cbn; [|done]. intros C. by rewrite H in E.
  - intros C. rewrite H by done. by destruct n.
  - destruct (take_best l) as [[v l']|] eqn:E; cbn; [|done]. intros C. by rewrite H in E.
  - done.
  - done.
Qed.

(** An operation of the code, seen from the abstract queue. *)
Lemma code_op_inv op q a r q' : implements q a -> code_op op q = Some (r, q') -> r = (spec_op op a).1 /\ implements q' (spec_op op a).2.
Proof. intros I E. destruct (code_op_implements op q a I) as (q1 & E1 & I1). rewrite E1 in E. by simplify_eq. Qed.

Lemma awake_consumer s s' : consumer_step s s' -> awake s -> awake s'.
Proof.
  intros St (a & I & Cl & En & Aw).
  assert (forall q q' r, q = p_queue s -> Next_round q = Some (r, q') ->
    ANext r = (spec_op QNext a).1 /\ implements q' (spec_op QNext a).2) as Nx.
  { intros q q' r -> E. apply (code_op_inv QNext (p_queue s)); [done|]. cbn. by rewrite E. }
  pose proof (spec_op_closed QNext a Cl) as Cl'.
  destruct St as [q q' v d out E|q q' d out E|q q' d out E|q op d out E|q d out E]; cbn in *.
  1-3: destruct (Nx q _ _ eq_refl E) as [R I']; exists (spec_op QNext a).2; split; [done|]; split; [done|]; cbn.
  - done.
  - split; [intros _|done]. destruct a as [l c d']; cbn in *.
    destruct (take_best l) as [[v l']|]; cbn in *; [done|]. by destruct c.
  - split; [done|]. intros _ _ N. exfalso. apply N. pose proof (take_best_spec (items a)) as T.
    destruct a as [l c d']; cbn in *. by destruct (take_best l) as [[v l']|].
  - exists a. split; [|done]. destruct I as [S F]. split; [by apply (spells_same q)|done].
  - exists a. split; [done|]. split; [done|]. split; [intros _|done]. destruct I as [_ F]. injection F. congruence.
Qed.

Lemma awake_step s s' : party_step s s' -> awake s -> awake s'.
Proof.
  intros [q e q' vs c d out E|q c d out|s1 s2 St|s1 s2 St]; [| |by apply awake_consumer|]; intros (a & I & Cl & En & Aw); cbn in *.
  - destruct (code_op_inv (QPush vs) q a (APush e) q' I) as [R I']; [by cbn; rewrite E|].
    exists (spec_op (QPush vs) a).2. split; [done|]. split; [by apply spec_op_closed|]. cbn.
    destruct a as [l cl dr]; cbn in *. unfold Push in E. destruct I as [_ [= C D X]]. rewrite C, D in E.
    destruct dr; [by simplify_eq|]. destruct cl; [by simplify_eq|]. split; [done|]. intros _ _ _.
    destruct (push_all QueuePriority vs q) as [q1|]; cbn in E; [|done]. simplify_eq. unfold signal. by destruct (q_notify q1) eqn:N; [rewrite N|].
  - destruct (code_op_inv QClose q a (AClose (Close q).1) (Close q).2 I) as [R I']; [done|].
    exists (spec_op QClose a).2. destruct a as [l cl dr]. by cbn in *.
  - destruct St as [q c out|q c out|q op c out E]; cbn in *.
    + destruct (code_op_inv QDrain q a (ADrain (Drain_over (Drain_start q))) (Drain_start q) I) as [R I']; [done|].
      exists (spec_op QDrain a).2. destruct a as [l cl dr]. by cbn in *.
    + by exists a.
    + exists a. split; [|done]. destruct I as [S F]. split; [by apply (spells_same q)|done].
Qed.

Lemma awake_reachable s : rtc party_step parties_start s -> awake s.
Proof.
  intros R. assert (awake parties_start) as A by (exists (MkArrivals [] false false); split; [apply NewQueue_implements|done]).
  revert A. induction R; eauto using awake_step.
Qed.

End run.
End spec.

(** ** Properties *)

(** C9: the linked list implements the abstract queue.  Any sequence of operations on
    a new queue runs without a nil dereference and answers what the abstract queue
    answers: each value goes out once, the most urgent first and values of one priority
    in the order they came; [Push] is refused while draining and after [Close], which
    drops and counts what is left. *)
Theorem queue_refines {V} (QueuePriority : V -> option Z) ops :
  (forall v p, QueuePriority v = Some p -> p <= MaxInt) ->
  code_run QueuePriority ops NewQueue = Some (spec_run QueuePriority ops (MkArrivals [] false false)).
Proof. intros B. apply code_run_spec; [done|]. by apply NewQueue_implements. Qed.

(** A close and two data events with a done event, as a connection prioritises them. *)
Definition demo_priority (v : Z * Z) : option Z := if v.1 =? 0 then None else Some (v.1 `mod` 16).
Definition demo_ops : list queue_op :=
  [QPush [(10, 1); (5, 1)]; QPush [(0, 1)]; QPush [(5, 2); (1, 1)]; QNext; QNext; QPopN 2; QDrain; QPush [(1, 2)]; QClose; QNext].

Lemma demo_priority_int v p : demo_priority v = Some p -> p <= MaxInt.
Proof.
  unfold demo_priority, MaxInt. destruct (_ =? _); [done|]. intros [= <-].
  pose proof (Z.mod_pos_bound v.1 16). lia.
Qed.

Lemma queue_refines_witness :
  code_run demo_priority demo_ops NewQueue =
  Some [APush None; APush None; APush None; ANext (Got (1, 1)); ANext (Got (5, 1)); APopN [Some (5, 2); Some (10, 1)];
        ADrain false; APush (Some ErrQueueDraining); AClose (Some 1); ANext NoMore].
Proof.
  etrans; [apply (queue_refines demo_priority demo_ops demo_priority_int)|vm_compute; reflexivity].
Defined.

(** C37: nothing in the queue is forgotten.  In every state the producer, the consumer
    and closing can reach, as long as nobody drains, when the queue is not empty the
    consumer's own next steps hand out the oldest of the most urgent values, even if it
    was waiting. *)
Theorem consumer_progress {V} (QueuePriority : V -> option Z) s :
  (forall v p, QueuePriority v = Some p -> p <= MaxInt) ->
  rtc (party_step QueuePriority) parties_start s -> p_drainer s = None -> q_head (p_queue s) <> None ->
  exists a v l s', implements QueuePriority (p_queue s) a /\ take_best QueuePriority (items a) = Some (v, l)
    /\ rtc consumer_step s s' /\ delivered s' = delivered s ++ [v].
Proof.
  intros B R D H. destruct (awake_reachable QueuePriority B s R) as (a & I & Cl & En & Aw).
  destruct s as [q c d out]; cbn in *. pose proof (pop_implements QueuePriority q a I) as P.
  destruct (take_best QueuePriority (items a)) as [[v l]|] eqn:T; [|by destruct P as [_ ?]].
  destruct (q_head q) as [h|] eqn:Hq; [|done]. assert (items a <> []) as N by (intros X; by rewrite X in T).
  destruct P as (q' & P & I'). exists a, v, l.
  assert (forall q1, q_head q1 = Some h -> q_nodes q1 = q_nodes q -> exists q2, Next_round q1 = Some (Got v, q2)) as G.
  { intros q1 E1 E2. unfold Next_round, pop. rewrite E1, E2. unfold pop in P. rewrite Hq in P.
    destruct (q_nodes q !! h) as [n|]; cbn in *; [|done]. simplify_eq. eauto. }
  destruct c; cbn in *.
  - destruct (G q Hq eq_refl) as [q2 E]. eexists. split; [done|]. split; [done|].
    split; [apply rtc_once, round_got; exact E|done].
  - destruct (q_notify q) as [op|] eqn:W; [|by destruct Aw].
    set (q1 := q <| q_notify := None |>). destruct (G q1 Hq eq_refl) as [q2 E]. eexists. split; [done|]. split; [done|].
    split; [eapply rtc_l; [eapply consumer_wakes; exact W|]; apply rtc_once, round_got; exact E|done].
  - by destruct N; auto.
Qed.

(** The consumer waits on an empty queue when a data event comes. *)
Definition demo_parties : parties :=
  MkParties (MkQueue {[0%nat := MkNode (5, 1) None]} 1 (Some 0%nat) (Some 0%nat) false false 1 (Some Pushed) false) Waiting None [].

Lemma consumer_progress_witness :
  exists a v l s', implements demo_priority (p_queue demo_parties) a /\ take_best demo_priority (items a) = Some (v, l)
    /\ rtc consumer_step demo_parties s' /\ delivered s' = delivered demo_parties ++ [v].
Proof.
  apply (consumer_progress demo_priority demo_parties demo_priority_int); [|done|done].
  eapply rtc_l; [by eapply consuming, round_wait|]. apply rtc_once.
  by apply (producer demo_priority NewQueue None _ [(5, 1)]).
Defined.

(** [Drain] can sleep through the end of its work.  A notification wakes one
    waiter, and the consumer takes those meant for [Drain]: there is a state in which
    the queue is empty, the consumer waits, [Drain] waits, and no notification is
    pending, so that neither can move and [Drain] fails by its timeout. *)
Theorem drain_misses {V} (QueuePriority : V -> option Z) (v : V) :
  exists s, rtc (party_step QueuePriority) parties_start s /\ p_drainer s = Some Waiting /\ delivered s = [v]
    /\ Drain_over (p_queue s) = true /\ (forall s', ~ consumer_step s s') /\ forall s', ~ drainer_step s s'.
Proof.
  set (q1 := MkQueue {[0%nat := MkNode v None]} 1 (Some 0%nat) (Some 0%nat) false false 1 (Some Pushed) false).
  set (q2 := MkQueue {[0%nat := MkNode v None]} 1 None None false true 0 (@None Op) false).
  assert (Push QueuePriority [v] NewQueue = Some (None, q1)) as P.
  { unfold Push, push_all, push. cbn [q_draining q_closed NewQueue]. by destruct (QueuePriority v). }
  exists (MkParties q2 Waiting (Some Waiting) [v]). split; [|split; [done|]; split; [done|]; split; [done|]].
  - eapply rtc_l; [by eapply producer|]. do 2 (eapply rtc_l; [by apply draining; constructor|]).
    eapply rtc_l; [by eapply consuming, round_got|]. eapply rtc_l; [by eapply consuming, round_wait|].
    eapply rtc_l; [by eapply consuming, consumer_wakes|]. apply rtc_once. by eapply consuming, round_wait.
  - split; intros s' St; inversion St; subst; done.
Qed.
