(* ===== verification/Reader.v ===== *)
(** * Reading the ring buffer: [pkg/ebpf/socket/reader.go], [pkg/ebpf/socket/socket.go]

    The agent decodes the bytes of a record field by field, as [binary.Read] does for a
    Go struct: no padding, the byte order of the machine, which is little-endian for
    both targets of the objects.  [readEvent] is the event it hands to the connection
    manager, or [None] when it logs an error and drops the record. *)

From stdpp Require Import base numbers list strings.
From S2P Require Import Prelude Tap AgentEvents.

(** ** [encoding/binary] and [bytes.Reader] *)

(** The next [n] bytes as an unsigned integer. *)
Definition uint (n : nat) (bs : list Z) : Z * list Z := (le_load (take n bs), drop n bs).

Definition int32_ (bs : list Z) : Z * list Z := let '(x, bs) := uint 4 bs in (s32 x, bs).
Definition int64_ (bs : list Z) : Z * list Z := let '(x, bs) := uint 8 bs in (s64 x, bs).
Definition array_ (n : nat) (bs : list Z) : list Z * list Z := (take n bs, drop n bs).
Definition bool_ (bs : list Z) : bool * list Z := let '(x, bs) := uint 1 bs in (negb (x =? 0), bs).

(** [binary.Read] of a struct of [size] bytes: an error when they are not all there. *)
Definition binary_Read {A} (size : nat) (fields : list Z -> A) (r : list Z) : option (A * list Z) :=
  if decide (length r < size)%nat then None else Some (fields (take size r), drop size r).

(** [r.Read(msg)] for a new [msg] of [size] bytes: an error at the end of the record,
    otherwise what there is, followed by zeros. *)
Definition reader_Read (size : nat) (r : list Z) : option (list Z) :=
  match r with [] => None | _ => Some (take size (r ++ zeros size)) end.

(** ** Structures *)

Record connPIDID := MkConnPIDID { PID : Z; TGID : Z; FD : Z; FUNCTION : Z; TSID : Z }.
Record netAddr := MknetAddr { SaFamily : Z; Addr : list Z; Port : Z }.

Definition read_connPIDID (bs : list Z) : connPIDID * list Z :=
  let '(pid, bs) := uint 4 bs in
  let '(tgid, bs) := uint 4 bs in
  let '(fd, bs) := int32_ bs in
  let '(function, bs) := uint 4 bs in
  let '(tsid, bs) := uint 8 bs in
  (MkConnPIDID pid tgid fd function tsid, bs).

Definition read_netAddr (bs : list Z) : netAddr * list Z :=
  let '(family, bs) := uint 2 bs in
  let '(addr, bs) := array_ 16 bs in
  let '(port, bs) := uint 2 bs in
  (MknetAddr family addr port, bs).

Record socketOpenEvent := MkSocketOpen {
  so_TimestampNS : Z; so_ConnID : connPIDID; so_Cookie : Z; so_Local : netAddr; so_Remote : netAddr;
  so_Pid : Z; so_Tgid : Z; so_SocketType : Z; so_IsRedirected : bool }.

Definition socketOpenEvent_size : nat := 93.
Definition read_socketOpenEvent (bs : list Z) : socketOpenEvent :=
  let '(ts, bs) := uint 8 bs in
  let '(conn, bs) := read_connPIDID bs in
  let '(cookie, bs) := uint 8 bs in
  let '(local, bs) := read_netAddr bs in
  let '(remote, bs) := read_netAddr bs in
  let '(pid, bs) := uint 4 bs in
  let '(tgid, bs) := uint 4 bs in
  let '(socket_type, bs) := uint 4 bs in
  let '(redirected, bs) := bool_ bs in
  MkSocketOpen ts conn cookie local remote pid tgid socket_type redirected.

Record socketCloseEvent := MkSocketClose {
  sc_TimestampNS : Z; sc_ConnID : connPIDID; sc_Cookie : Z; sc_WrBytes : Z; sc_RdBytes : Z; sc_Pid : Z; sc_Tgid : Z }.

Definition socketCloseEvent_size : nat := 64.
Definition read_socketCloseEvent (bs : list Z) : socketCloseEvent :=
  let '(ts, bs) := uint 8 bs in
  let '(conn, bs) := read_connPIDID bs in
  let '(cookie, bs) := uint 8 bs in
  let '(wr, bs) := int64_ bs in
  let '(rd, bs) := int64_ bs in
  let '(pid, bs) := uint 4 bs in
  let '(tgid, bs) := uint 4 bs in
  MkSocketClose ts conn cookie wr rd pid tgid.

Record attr := MkAttr {
  a_TimestampNS : Z; a_ConnID : connPIDID; a_Cookie : Z; a_Direction : Z; a_MsgSize : Z; a_Pos : Z; a_Pid : Z; a_Tgid : Z }.

Definition attr_size : nat := 64.
Definition read_attr (bs : list Z) : attr :=
  let '(ts, bs) := uint 8 bs in
  let '(conn, bs) := read_connPIDID bs in
  let '(cookie, bs) := uint 8 bs in
  let '(direction, bs) := uint 4 bs in
  let '(msg_size, bs) := uint 4 bs in
  let '(pos, bs) := uint 8 bs in
  let '(pid, bs) := uint 4 bs in
  let '(tgid, bs) := uint 4 bs in
  MkAttr ts conn cookie direction msg_size pos pid tgid.

Record socketProtoEvent := MkSocketProto {
  sp_TimestampNS : Z; sp_ConnID : connPIDID; sp_Cookie : Z; sp_Protocol : Z; sp_IsTLS : bool }.

Definition socketProtoEvent_size : nat := 45.
Definition read_socketProtoEvent (bs : list Z) : socketProtoEvent :=
  let '(ts, bs) := uint 8 bs in
  let '(conn, bs) := read_connPIDID bs in
  let '(cookie, bs) := uint 8 bs in
  let '(protocol, bs) := uint 4 bs in
  let '(tls, bs) := bool_ bs in
  MkSocketProto ts conn cookie protocol tls.

Record socketHostnameAttr := MkHostnameAttr { hn_Cookie : Z; hn_HostnameLen : Z }.

Definition socketHostnameAttr_size : nat := 48.
Definition read_socketHostnameAttr (bs : list Z) : socketHostnameAttr :=
  let '(_, bs) := uint 8 bs in
  let '(_, bs) := read_connPIDID bs in
  let '(cookie, bs) := uint 8 bs in
  let '(len, bs) := uint 1 bs in
  MkHostnameAttr cookie len.

(** [socketTLSClientHelloAttr] and [socketTLSServerHelloAttr] *)
Record helloAttr := MkHelloAttr { ha_Cookie : Z; ha_Size : Z }.

Definition helloAttr_size : nat := 16.
Definition read_helloAttr (bs : list Z) : helloAttr :=
  let '(cookie, bs) := uint 8 bs in
  let '(size, bs) := uint 4 bs in
  MkHelloAttr cookie size.

(** ** From the structures to the events of the agent *)

Definition buildConnPIDKey (c : connPIDID) : connection.ConnPIDKey :=
  connection.MkConnPIDKey (PID c) (TGID c) (FD c) (FUNCTION c) (TSID c).

Definition AddrSize (a : netAddr) : nat :=
  if SaFamily a =? AF_INET then 4 else if SaFamily a =? AF_INET6 then 16 else 0.

Definition FamilyString (a : netAddr) : string :=
  if SaFamily a =? AF_INET then "ipv4" else if SaFamily a =? AF_INET6 then "ipv6" else "unknown".

Definition buildConnectionNetAddr (a : netAddr) : qnet.NetAddr :=
  qnet.MkNetAddr (FamilyString a) (take (AddrSize a) (Addr a)) (Port a).

(** Put big-endian, get in the machine's order. *)
Definition fixPortEndianness (val : Z) : Z := le_load [val / 256; val `mod` 256].

Definition socketType (e : socketOpenEvent) : string :=
  if so_SocketType e =? 4 then connection.SocketType_ICMP
  else if so_SocketType e =? 3 then connection.SocketType_RAW
  else if so_SocketType e =? 1 then connection.SocketType_TCP
  else if so_SocketType e =? 2 then connection.SocketType_UDP
  else connection.SocketType_UNKNOWN.

Definition buildConnOpenEvent (e : socketOpenEvent) : connection.OpenEvent :=
  connection.MkOpen (so_Cookie e) (buildConnPIDKey (so_ConnID e)) (so_TimestampNS e) (PID (so_ConnID e)) (TGID (so_ConnID e))
    (buildConnectionNetAddr (so_Local e)) (buildConnectionNetAddr (so_Remote e))
    (if FUNCTION (so_ConnID e) =? 1 then connection.Client
     else if FUNCTION (so_ConnID e) =? 2 then connection.Server else 0)
    (socketType e) (so_IsRedirected e).

Definition buildConnCloseEvent (e : socketCloseEvent) : connection.CloseEvent :=
  connection.MkClose (sc_Cookie e) (sc_TimestampNS e) (sc_WrBytes e) (sc_RdBytes e).

(** A number that is not listed leaves the zero string. *)
Definition buildConnectionProtocolEvent (e : socketProtoEvent) : connection.ProtocolEvent :=
  connection.MkProtocol (sp_Cookie e) (sp_TimestampNS e)
    (default "" ([connection.Protocol_UNKNOWN; connection.Protocol_HTTP1; connection.Protocol_HTTP2; connection.Protocol_DNS;
                  connection.Protocol_MONGODB; connection.Protocol_REDIS; connection.Protocol_MYSQL; connection.Protocol_KAFKA;
                  connection.Protocol_GRPC] !! Z.to_nat (sp_Protocol e)))
    (sp_IsTLS e).

(** ** Handlers *)

Section reader.
Context {T : TlsUtils}.

Definition handleSocketOpenEvent (r : list Z) : option connection.Event :=
  '(e, r) ← binary_Read socketOpenEvent_size read_socketOpenEvent r;
  let fix_port a := MknetAddr (SaFamily a) (Addr a) (fixPortEndianness (Port a)) in
  let e := MkSocketOpen (so_TimestampNS e) (so_ConnID e) (so_Cookie e) (fix_port (so_Local e)) (fix_port (so_Remote e))
             (so_Pid e) (so_Tgid e) (so_SocketType e) (so_IsRedirected e) in
  Some (connection.Open (buildConnOpenEvent e)).

Definition handleSocketCloseEvent (r : list Z) : option connection.Event :=
  '(e, r) ← binary_Read socketCloseEvent_size read_socketCloseEvent r;
  Some (connection.Close (buildConnCloseEvent e)).

Definition handleSocketDataEvent (r : list Z) : option connection.Event :=
  '(attr, r) ← binary_Read attr_size read_attr r;
  msg ← reader_Read (Z.to_nat (a_MsgSize attr)) r;
  let direction := if a_Direction attr =? 0 then connection.Ingress
                   else if a_Direction attr =? 1 then connection.Egress else "" in
  Some (connection.Data (connection.MkData (a_Cookie attr) direction (a_MsgSize attr) (s64 (a_Pos attr)) msg)).

Definition handleSocketProtoEvent (r : list Z) : option connection.Event :=
  '(e, r) ← binary_Read socketProtoEvent_size read_socketProtoEvent r;
  Some (connection.Protocol (buildConnectionProtocolEvent e)).

Fixpoint string_of_bytes (bs : list Z) : string :=
  match bs with [] => "" | b :: bs' => String (Ascii.ascii_of_N (Z.to_N b)) (string_of_bytes bs') end.

Definition handleSocketHostnameEvent (r : list Z) : option connection.Event :=
  '(attr, r) ← binary_Read socketHostnameAttr_size read_socketHostnameAttr r;
  msg ← reader_Read (Z.to_nat (hn_HostnameLen attr)) r;
  Some (connection.Hostname (hn_Cookie attr) (string_of_bytes msg)).

Definition handleSocketTLSClientHelloEvent (r : list Z) : option connection.Event :=
  '(attr, r) ← binary_Read helloAttr_size read_helloAttr r;
  msg ← reader_Read (Z.to_nat (ha_Size attr)) r;
  h ← ParseClientHello msg;
  Some (connection.TLSClientHello (ha_Cookie attr) h).

Definition handleSocketTLSServerHelloEvent (r : list Z) : option connection.Event :=
  '(attr, r) ← binary_Read helloAttr_size read_helloAttr r;
  msg ← reader_Read (Z.to_nat (ha_Size attr)) r;
  h ← ParseServerHello msg;
  Some (connection.TLSServerHello (ha_Cookie attr) h).

Definition readEvent (RawSample : list Z) : option connection.Event :=
  '(type, r) ← binary_Read 8 (fun bs => (uint 8 bs).1) RawSample;
  if type =? S_OPEN then handleSocketOpenEvent r
  else if type =? S_CLOSE then handleSocketCloseEvent r
  else if type =? S_DATA then handleSocketDataEvent r
  else if type =? S_PROTO then handleSocketProtoEvent r
  else if type =? S_HOSTNAME then handleSocketHostnameEvent r
  else if type =? S_TLS_CLIENT_HELLO then handleSocketTLSClientHelloEvent r
  else if type =? S_TLS_SERVER_HELLO then handleSocketTLSServerHelloEvent r
  else None.

End reader.
