(* ===== verification/Wire.v ===== *)
(** * The ring buffer between the kernel and the agent

    The bytes of a socket event as the compiler lays out the structures of
    [bpf/tap/tap.bpf.h] (natural alignment, little-endian), and what the agent makes of
    them with the reader of Reader. *)

From stdpp Require Import base numbers list strings.
From S2P Require Import Prelude Tap AgentEvents Reader.

(** ** Layout *)

(** [enum CONNECTION_TYPE], [enum SOCKET_TYPE] *)
Definition connection_type_num (c : CONNECTION_TYPE) : Z := match c with C_CLIENT => 1 | C_SERVER => 2 end.
Definition socket_type_num (t : SOCKET_TYPE) : Z :=
  match t with S_UNKNOWN => 0 | S_TCP => 1 | S_UDP => 2 | S_RAW => 3 | S_ICMP => 4 end.

Definition wire_conn_pid_id (c : conn_pid_id) : list Z :=
  le_store 4 (cp_pid c) ++ le_store 4 (cp_tgid c) ++ le_store 4 (cp_fd c)
  ++ le_store 4 (connection_type_num (cp_function c)) ++ le_store 8 (cp_tsid c).

Definition wire_net_addr (a : net_addr) : list Z :=
  le_store 2 (sa_family a) ++ na_addr a ++ le_store 2 (na_port a).

(** The record of an event; [pad] is what its padding bytes hold. *)
Definition wire (pad : list Z) (ev : socket_event) : list Z :=
  match ev with
  | Ev_open e =>
      le_store 8 (oe_type e) ++ le_store 8 (oe_timestamp_ns e) ++ wire_conn_pid_id (oe_conn_pid_id e)
      ++ le_store 8 (oe_cookie e) ++ wire_net_addr (oe_local e) ++ wire_net_addr (oe_remote e)
      ++ le_store 4 (oe_pid e) ++ le_store 4 (oe_tgid e) ++ le_store 4 (socket_type_num (oe_socket_type e))
      ++ [Z.b2z (oe_is_redirected e)] ++ take 3 (pad ++ zeros 3)
  | Ev_close e =>
      le_store 8 (ce_type e) ++ le_store 8 (ce_timestamp_ns e) ++ wire_conn_pid_id (ce_conn_pid_id e)
      ++ le_store 8 (ce_cookie e) ++ le_store 8 (ce_wr_bytes e) ++ le_store 8 (ce_rd_bytes e)
      ++ le_store 4 (ce_pid e) ++ le_store 4 (ce_tgid e)
  | Ev_data e =>
      le_store 8 (de_type e) ++ le_store 8 (de_timestamp_ns e) ++ wire_conn_pid_id (de_conn_pid_id e)
      ++ le_store 8 (de_cookie e) ++ le_store 4 (de_direction e) ++ le_store 4 (de_msg_size e)
      ++ le_store 8 (de_pos e) ++ le_store 4 (de_pid e) ++ le_store 4 (de_tgid e) ++ de_msg e
  | Ev_proto e =>
      le_store 8 (pe_type e) ++ le_store 8 (pe_timestamp_ns e) ++ wire_conn_pid_id (pe_conn_pid_id e)
      ++ le_store 8 (pe_cookie e) ++ le_store 4 (protocol_num (pe_protocol e)) ++ [Z.b2z (pe_is_ssl e)]
      ++ take 3 (pad ++ zeros 3)
  | Ev_tls_hello e =>
      le_store 8 (he_type e) ++ le_store 8 (he_cookie e) ++ le_store 4 (he_size e) ++ take 4 (pad ++ zeros 4) ++ he_data e
  end.

(** ** Events as they fit their structures *)

Definition fits (bits x : Z) : Prop := 0 <= x < 2 ^ bits.
Definition conn_fits (c : conn_pid_id) : Prop :=
  fits 32 (cp_pid c) /\ fits 32 (cp_tgid c) /\ - 2 ^ 31 <= cp_fd c < 2 ^ 31 /\ fits 64 (cp_tsid c).
Definition addr_fits (a : net_addr) : Prop :=
  fits 16 (sa_family a) /\ length (na_addr a) = 16%nat /\ fits 16 (na_port a).

(** The kind of the event is that of its structure, every field has a value of its
    type, a message is as long as its size says and not empty. *)
Definition event_fits (ev : socket_event) : Prop :=
  match ev with
  | Ev_open e =>
      oe_type e = S_OPEN /\ fits 64 (oe_timestamp_ns e) /\ conn_fits (oe_conn_pid_id e) /\ fits 64 (oe_cookie e)
      /\ addr_fits (oe_local e) /\ addr_fits (oe_remote e)
  | Ev_close e =>
      ce_type e = S_CLOSE /\ fits 64 (ce_timestamp_ns e) /\ conn_fits (ce_conn_pid_id e) /\ fits 64 (ce_cookie e)
      /\ - 2 ^ 63 <= ce_wr_bytes e < 2 ^ 63 /\ - 2 ^ 63 <= ce_rd_bytes e < 2 ^ 63
  | Ev_data e =>
      de_type e = S_DATA /\ conn_fits (de_conn_pid_id e) /\ fits 64 (de_cookie e) /\ fits 32 (de_direction e) /\ fits 63 (de_pos e)
      /\ 0 < de_msg_size e <= MAX_MSG_SIZE /\ Z.of_nat (length (de_msg e)) = de_msg_size e
  | Ev_proto e => pe_type e = S_PROTO /\ fits 64 (pe_timestamp_ns e) /\ conn_fits (pe_conn_pid_id e) /\ fits 64 (pe_cookie e)
  | Ev_tls_hello e =>
      (he_type e = S_TLS_CLIENT_HELLO \/ he_type e = S_TLS_SERVER_HELLO) /\ fits 64 (he_cookie e)
      /\ 0 < he_size e < MAX_MSG_SIZE /\ Z.of_nat (length (he_data e)) = MAX_MSG_SIZE
  end.

(** ** What the agent should see *)

Section events.
Context {T : TlsUtils}.

Definition seen_addr (a : net_addr) : qnet.NetAddr :=
  if sa_family a =? AF_INET then qnet.MkNetAddr "ipv4" (take 4 (na_addr a)) (bswap16 (na_port a))
  else if sa_family a =? AF_INET6 then qnet.MkNetAddr "ipv6" (na_addr a) (bswap16 (na_port a))
  else qnet.MkNetAddr "unknown" [] (bswap16 (na_port a)).

Definition seen_protocol (p : PROTOCOL) : string :=
  match p with
  | P_UNKNOWN => "unknown" | P_HTTP1 => "http1" | P_HTTP2 => "http2" | P_DNS => "dns" | P_MONGODB => "mongodb"
  | P_REDIS => "redis" | P_MYSQL => "mysql" | P_KAFKA => "kafka"
  end.

Definition seen_socket_type (t : SOCKET_TYPE) : string :=
  match t with S_UNKNOWN => "" | S_TCP => "tcp" | S_UDP => "udp" | S_RAW => "raw" | S_ICMP => "icmp" end.

Definition seen_direction (d : Z) : string :=
  if d =? D_INGRESS then "ingress" else if d =? D_EGRESS then "egress" else "".

Definition seen_open (e : socket_open_event) : connection.OpenEvent :=
  let c := oe_conn_pid_id e in
  connection.MkOpen (oe_cookie e)
    (connection.MkConnPIDKey (cp_pid c) (cp_tgid c) (cp_fd c) (connection_type_num (cp_function c)) (cp_tsid c))
    (oe_timestamp_ns e) (cp_pid c) (cp_tgid c) (seen_addr (oe_local e)) (seen_addr (oe_remote e))
    (connection_type_num (cp_function c)) (seen_socket_type (oe_socket_type e)) (oe_is_redirected e).

Definition seen_close (e : socket_close_event) : connection.CloseEvent :=
  connection.MkClose (ce_cookie e) (ce_timestamp_ns e) (ce_wr_bytes e) (ce_rd_bytes e).

Definition seen_data (e : socket_data_event) : connection.DataEvent :=
  connection.MkData (de_cookie e) (seen_direction (de_direction e)) (de_msg_size e) (de_pos e) (de_msg e).

Definition seen_proto (e : socket_proto_event) : connection.ProtocolEvent :=
  connection.MkProtocol (pe_cookie e) (pe_timestamp_ns e) (seen_protocol (pe_protocol e)) (pe_is_ssl e).

Definition seen (ev : socket_event) : option connection.Event :=
  match ev with
  | Ev_open e => Some (connection.Open (seen_open e))
  | Ev_close e => Some (connection.Close (seen_close e))
  | Ev_data e => Some (connection.Data (seen_data e))
  | Ev_proto e => Some (connection.Protocol (seen_proto e))
  | Ev_tls_hello e =>
      let msg := take (Z.to_nat (he_size e)) (he_data e) in
      if he_type e =? S_TLS_CLIENT_HELLO then connection.TLSClientHello (he_cookie e) <$> ParseClientHello msg
      else connection.TLSServerHello (he_cookie e) <$> ParseServerHello msg
  end.

(** ** Decoding what was laid out *)

Lemma uint_store n x bs : uint n (le_store n x ++ bs) = (x `mod` 256 ^ Z.of_nat n, bs).
Proof.
  unfold uint. rewrite take_app_length', drop_app_length' by (by rewrite length_le_store). by rewrite le_load_store.
Qed.

Lemma uint_fits n bits x bs : 8 * Z.of_nat n = bits -> fits bits x -> uint n (le_store n x ++ bs) = (x, bs).
Proof.
  intros <- F. rewrite uint_store, Z.mod_small; [done|]. unfold fits in F.
  replace (256 ^ Z.of_nat n) with (2 ^ (8 * Z.of_nat n)); [done|]. by rewrite Z.pow_mul_r by lia.
Qed.

Lemma int32_store x bs : - 2 ^ 31 <= x < 2 ^ 31 -> int32_ (le_store 4 x ++ bs) = (x, bs).
Proof.
  intros R. unfold int32_. rewrite uint_store. f_equal. unfold s32. change (256 ^ Z.of_nat 4) with (2 ^ 32).
  rewrite Zplus_mod_idemp_l, Z.mod_small; lia.
Qed.

Lemma int64_store x bs : - 2 ^ 63 <= x < 2 ^ 63 -> int64_ (le_store 8 x ++ bs) = (x, bs).
Proof.
  intros R. unfold int64_. rewrite uint_store. f_equal. unfold s64. change (256 ^ Z.of_nat 8) with (2 ^ 64).
  rewrite Zplus_mod_idemp_l, Z.mod_small; lia.
Qed.

Lemma bool_store b bs : bool_ ([Z.b2z b] ++ bs) = (b, bs).
Proof. by destruct b. Qed.

Lemma array_store n a bs : length a = n -> array_ n (a ++ bs) = (a, bs).
Proof. intros <-. unfold array_. by rewrite take_app_length, drop_app_length. Qed.

Lemma conn_store c bs : conn_fits c ->
  read_connPIDID (wire_conn_pid_id c ++ bs)
  = (MkConnPIDID (cp_pid c) (cp_tgid c) (cp_fd c) (connection_type_num (cp_function c)) (cp_tsid c), bs).
Proof.
  intros (F1 & F2 & F3 & F4). unfold read_connPIDID, wire_conn_pid_id. rewrite <- !app_assoc.
  assert (fits 32 (connection_type_num (cp_function c))) by (unfold fits; destruct (cp_function c); cbn; lia).
  rewrite !(uint_fits 4 32) by done. rewrite int32_store by done. rewrite !(uint_fits 4 32) by done.
  by rewrite !(uint_fits 8 64).
Qed.

Lemma addr_store a bs : addr_fits a -> read_netAddr (wire_net_addr a ++ bs) = (MknetAddr (sa_family a) (na_addr a) (na_port a), bs).
Proof.
  intros (F1 & F2 & F3). unfold read_netAddr, wire_net_addr. rewrite <- !app_assoc.
  rewrite !(uint_fits 2 16) by done. rewrite array_store by done. by rewrite !(uint_fits 2 16).
Qed.

(** A struct whose bytes are [xs] is read as the value its decoder finds in them. *)
Lemma binary_Read_fields {A} n (f : list Z -> A) xs bs a :
  length xs = n -> (forall r, f (xs ++ r) = a) -> binary_Read n f (xs ++ bs) = Some (a, bs).
Proof.
  intros <- F. unfold binary_Read. rewrite decide_False by (rewrite length_app; lia).
  rewrite take_app_length, drop_app_length. specialize (F []). rewrite app_nil_r in F. by rewrite F.
Qed.

Lemma length_conn c : length (wire_conn_pid_id c) = 24%nat.
Proof. unfold wire_conn_pid_id. by rewrite !length_app, !length_le_store. Qed.

Lemma length_addr a : addr_fits a -> length (wire_net_addr a) = 20%nat.
Proof. intros (_ & L & _). unfold wire_net_addr. by rewrite !length_app, !length_le_store, L. Qed.

Lemma seen_addr_read a : addr_fits a ->
  buildConnectionNetAddr (MknetAddr (sa_family a) (na_addr a) (fixPortEndianness (na_port a))) = seen_addr a.
Proof.
  intros (_ & L & P). unfold buildConnectionNetAddr, FamilyString, AddrSize, seen_addr. cbn [SaFamily Addr Port].
  assert (fixPortEndianness (na_port a) = bswap16 (na_port a)) as ->.
  { rewrite bswap16_spec by done. unfold fixPortEndianness. cbn [le_load]. lia. }
  destruct (_ =? AF_INET); [done|]. destruct (_ =? AF_INET6); [|done]. by rewrite take_ge by lia.
Qed.

Lemma readEvent_type t r :
  fits 64 t ->
  readEvent (le_store 8 t ++ r)
  = if t =? S_OPEN then handleSocketOpenEvent r
    else if t =? S_CLOSE then handleSocketCloseEvent r
    else if t =? S_DATA then handleSocketDataEvent r
    else if t =? S_PROTO then handleSocketProtoEvent r
    else if t =? S_HOSTNAME then handleSocketHostnameEvent r
    else if t =? S_TLS_CLIENT_HELLO then handleSocketTLSClientHelloEvent r
    else if t =? S_TLS_SERVER_HELLO then handleSocketTLSServerHelloEvent r else None.
Proof.
  intros F. unfold readEvent. rewrite (binary_Read_fields 8 _ _ _ t); [done|apply length_le_store|].
  intros r'. by rewrite (uint_fits 8 64).
Qed.

Lemma enum_fits : (forall p, fits 32 (protocol_num p)) /\ (forall t, fits 32 (socket_type_num t)) /\ forall c, fits 32 (connection_type_num c).
Proof. unfold fits. split_and!; intros []; cbn; lia. Qed.

(** The decoders on the fields of a record, whatever follows. *)
Ltac read_fields :=
  intros r; rewrite <- !app_assoc;
  repeat first [rewrite conn_store by done | rewrite addr_store by done | rewrite bool_store | rewrite int64_store by done
               | rewrite (uint_fits 8 64) by done | rewrite (uint_fits 4 32) by done | rewrite uint_store];
  reflexivity.

Ltac dispatch := cbn [Z.eqb Pos.eqb S_OPEN S_CLOSE S_DATA S_PROTO S_HOSTNAME S_TLS_CLIENT_HELLO S_TLS_SERVER_HELLO].

Ltac length_fields := rewrite ?length_app, ?length_le_store, ?length_conn, ?length_addr by done; reflexivity.

Lemma open_seen pad e : event_fits (Ev_open e) -> readEvent (wire pad (Ev_open e)) = seen (Ev_open e).
Proof.
  intros (Ty & F1 & F2 & F3 & F4 & F5). destruct enum_fits as (_ & Ft & _). cbn [wire].
  rewrite Ty, readEvent_type by done. dispatch. unfold handleSocketOpenEvent. rewrite !app_assoc.
  erewrite (binary_Read_fields socketOpenEvent_size); [|length_fields|unfold read_socketOpenEvent; read_fields].
  cbn. do 2 f_equal. unfold buildConnOpenEvent, socketType, seen_open. cbn [so_Local so_Remote so_ConnID FUNCTION PID TGID so_SocketType].
  rewrite !seen_addr_read by done. f_equal; [by destruct (cp_function _)|by destruct (oe_socket_type e)].
Qed.

Lemma close_seen pad e : event_fits (Ev_close e) -> readEvent (wire pad (Ev_close e)) = seen (Ev_close e).
Proof.
  intros (Ty & F1 & F2 & F3 & F4 & F5). cbn [wire].
  rewrite Ty, readEvent_type by done. dispatch. unfold handleSocketCloseEvent.
  rewrite <- (app_nil_r (le_store 4 (ce_tgid e))), !app_assoc.
  erewrite (binary_Read_fields socketCloseEvent_size); [|length_fields|unfold read_socketCloseEvent; read_fields]. done.
Qed.

Lemma proto_seen pad e : event_fits (Ev_proto e) -> readEvent (wire pad (Ev_proto e)) = seen (Ev_proto e).
Proof.
  intros (Ty & F1 & F2 & F3). destruct enum_fits as (Fp & _). cbn [wire].
  rewrite Ty, readEvent_type by done. dispatch. unfold handleSocketProtoEvent. rewrite !app_assoc.
  erewrite (binary_Read_fields socketProtoEvent_size); [|length_fields|unfold read_socketProtoEvent; read_fields].
  cbn [seen]. unfold seen_proto. by destruct (pe_protocol e).
Qed.

Lemma reader_Read_exact n bs : (0 < n <= length bs)%nat -> reader_Read n bs = Some (take n bs).
Proof. intros L. unfold reader_Read. destruct bs; [cbn in L; lia|]. by rewrite take_app_le by lia. Qed.

Lemma data_seen pad e : event_fits (Ev_data e) -> readEvent (wire pad (Ev_data e)) = seen (Ev_data e).
Proof.
  intros (Ty & F1 & F2 & F3 & F4 & S & L). cbn [wire]. assert (fits 32 (de_msg_size e)) by (unfold fits, MAX_MSG_SIZE in *; lia).
  assert (fits 64 (de_pos e)) by (unfold fits in *; lia).
  rewrite Ty, readEvent_type by done. dispatch. unfold handleSocketDataEvent. rewrite !app_assoc.
  erewrite (binary_Read_fields attr_size); [|length_fields|unfold read_attr; read_fields].
  cbn [mbind option_bind a_MsgSize]. rewrite reader_Read_exact by lia. cbn.
  rewrite take_ge by lia. by rewrite s64_small by (unfold fits in *; lia).
Qed.

Lemma hello_seen pad e : event_fits (Ev_tls_hello e) -> readEvent (wire pad (Ev_tls_hello e)) = seen (Ev_tls_hello e).
Proof.
  intros (Ty & F1 & S & L). cbn [wire]. assert (fits 32 (he_size e)) by (unfold fits, MAX_MSG_SIZE in *; lia).
  rewrite readEvent_type by (by destruct Ty as [-> | ->]).
  assert (forall A (k : helloAttr -> list Z -> option A),
    ('(attr, r) ← binary_Read helloAttr_size read_helloAttr (le_store 8 (he_cookie e) ++ le_store 4 (he_size e) ++ take 4 (pad ++ zeros 4) ++ he_data e);
     msg ← reader_Read (Z.to_nat (ha_Size attr)) r; k attr msg)
    = k (MkHelloAttr (he_cookie e) (he_size e)) (take (Z.to_nat (he_size e)) (he_data e))) as R.
  { intros A k. rewrite !app_assoc. rewrite (binary_Read_fields helloAttr_size _ _ _ (MkHelloAttr (he_cookie e) (he_size e))).
    - cbn [mbind option_bind ha_Size]. by rewrite reader_Read_exact by lia.
    - rewrite !length_app, !length_le_store, length_take, length_app. unfold zeros, helloAttr_size. rewrite length_replicate. lia.
    - unfold read_helloAttr. read_fields. }
  unfold handleSocketTLSClientHelloEvent, handleSocketTLSServerHelloEvent.
  destruct Ty as [Ty|Ty]; rewrite Ty; dispatch; cbn [seen]; rewrite Ty.
  - rewrite (R _ (fun attr msg => h ← ParseClientHello msg; Some (connection.TLSClientHello (ha_Cookie attr) h))).
    cbn. by destruct (ParseClientHello _).
  - rewrite (R _ (fun attr msg => h ← ParseServerHello msg; Some (connection.TLSServerHello (ha_Cookie attr) h))).
    cbn. by destruct (ParseServerHello _).
Qed.

Lemma readEvent_wire pad ev : event_fits ev -> readEvent (wire pad ev) = seen ev.
Proof. destruct ev; auto using open_seen, close_seen, data_seen, proto_seen, hello_seen. Qed.

End events.

(** ** Properties *)

(** C26: the agent reads what the kernel wrote.  The bytes of any event that fits its
    structure, whatever the padding holds, are decoded to the event of the agent with
    the same kind, cookie, identifiers, byte counts and message; ports arrive in host
    order, addresses with the length of their family; a hello is parsed from its first
    [size] bytes. *)
Theorem wire_roundtrip {T : TlsUtils} pad ev : event_fits ev -> readEvent (wire pad ev) = seen ev.
Proof. apply readEvent_wire. Qed.

(** Hellos whose first bytes are kept. *)
Definition demo_tls : TlsUtils :=
  {| ClientHello := list Z; ServerHello := list Z; ParseClientHello h := Some (take 2 h); ParseServerHello h := None; SNI h := "" |}.

(** A redirected client of port 6379 on 10.0.0.7 with a file descriptor of -1. *)
Definition demo_open : socket_open_event :=
  OpenEvent S_OPEN 5 (ConnPidId 7 8 (-1) C_CLIENT 4) 99 (NetAddr AF_INET ([10; 0; 0; 7] ++ zeros 12) 14)
    (NetAddr AF_INET6 (zeros 15 ++ [1]) (bswap16 6379)) 7 8 S_TCP true.

Lemma wire_roundtrip_witness :
  @readEvent demo_tls (wire [255; 254; 253] (Ev_open demo_open)) =
  Some (@connection.Open demo_tls (connection.MkOpen 99 (connection.MkConnPIDKey 7 8 (-1) 1 4) 5 7 8
    (qnet.MkNetAddr "ipv4" [10; 0; 0; 7] 3584) (qnet.MkNetAddr "ipv6" (zeros 15 ++ [1]) 6379) 1 "tcp" true)).
Proof.
  etrans; [apply (@wire_roundtrip demo_tls [255; 254; 253] (Ev_open demo_open))|reflexivity].
  cbn. unfold conn_fits, addr_fits, fits. cbn. split_and!; (done || lia).
Defined.
