(* ===== verification/TlsHello.v ===== *)
(** * The TLS hello parsers

    [pkg/tlsutils/tlsutils.go] of the Go agent: what is read from the two hello
    messages the kernel captures.  The record of a client hello is taken apart by
    [gopacket], which is a parameter ([Gopacket]); its extensions, and the whole of a
    server hello, are parsed here.  An index or a slice expression out of range is the
    outcome [Panic]; a loop that is out of fuel is [OutOfFuel].  The module [tlsutils]
    discharges the interface [TlsUtils] the reader of events is written against. *)

From stdpp Require Import base numbers list strings pretty.
From S2P Require Import Prelude Tap Net Bpf Buffers Protocol AgentEvents Reader Wire.

Module tlsutils.

(** ** Outcomes *)

Inductive outcome (A : Type) :=
| Ok (a : A)
| Err (msg : string)
| Panic
| OutOfFuel.
Arguments Ok {A}. Arguments Err {A}. Arguments Panic {A}. Arguments OutOfFuel {A}.

Definition obind {A B} (m : outcome A) (k : A -> outcome B) : outcome B :=
  match m with Ok a => k a | Err e => Err e | Panic => Panic | OutOfFuel => OutOfFuel end.

Notation "'let!' x := m 'in' k" := (obind m (fun x => k))
  (at level 10, x pattern, k at level 200) : bpf_scope.

Definition len (bs : list Z) : Z := Z.of_nat (length bs).

(** [bs[i]] *)
Definition index (bs : list Z) (i : Z) : outcome Z :=
  if (0 <=? i) && (i <? len bs) then Ok (byte_at bs (Z.to_nat i)) else Panic.

(** [bs[i:j]] *)
Definition slice (bs : list Z) (i j : Z) : outcome (list Z) :=
  if (0 <=? i) && (i <=? j) && (j <=? len bs) then Ok (field bs (Z.to_nat i) (Z.to_nat (j - i))) else Panic.

(** [uint16(bs[i])<<8 | uint16(bs[i+1])], and the same at type [int]. *)
Definition uint16_at (bs : list Z) (i : Z) : outcome Z :=
  let! hi := index bs i in let! lo := index bs (i + 1) in Ok (Z.lor (u16 (Z.shiftl hi 8)) lo).

Definition int16_at (bs : list Z) (i : Z) : outcome Z :=
  let! hi := index bs i in let! lo := index bs (i + 1) in Ok (Z.lor (Z.shiftl hi 8) lo).

(** ** Data *)

Record ClientHello := MkClientHello { SNI : string; Version : Z; ALPNs : list string }.

Record ServerHello := MkServerHello { sVersion : Z; CipherSuite : Z; ALPN : string }.
#[export] Instance ServerHello_settable : Settable ServerHello :=
  fun r => MkServerHello (sVersion r) (CipherSuite r) (ALPN r).

(** ** Extensions of a client hello *)

(** The protocol names of the list in [alpnData]. *)
Fixpoint alpn_names (fuel : nat) (alpnData : list Z) (protoListLen alpnOffset : Z) (protocols : list string)
  : outcome (list string) :=
  match fuel with
  | O => OutOfFuel
  | S fuel =>
      if negb ((alpnOffset <? 2 + protoListLen) && (alpnOffset <? len alpnData)) then Ok protocols
      else if alpnOffset + 1 >? len alpnData then Ok protocols
      else
        let! protoLen := index alpnData alpnOffset in
        let alpnOffset := alpnOffset + 1 in
        if (protoLen <? 0) || (alpnOffset + protoLen >? len alpnData) then Ok protocols
        else
          let! protocols :=
            (if protoLen >? 0 then
               let! protocol := slice alpnData alpnOffset (alpnOffset + protoLen) in
               Ok (protocols ++ [string_of_bytes protocol])
             else Ok protocols) in
          alpn_names fuel alpnData protoListLen (alpnOffset + protoLen) protocols
  end.

Fixpoint alpn_loop (fuel : nat) (extensions : list Z) (offset : Z) : outcome (list string) :=
  match fuel with
  | O => OutOfFuel
  | S fuel =>
      if negb (offset <? len extensions) then Ok []
      else if offset + 4 >? len extensions then Ok []
      else
        let! extType := uint16_at extensions offset in
        let! extLen := int16_at extensions (offset + 2) in
        let offset := offset + 4 in
        if (extLen <? 0) || (offset + extLen >? len extensions) then Ok []
        else if extType =? 16 then
          let! alpnData := slice extensions offset (offset + extLen) in
          if len alpnData >=? 2 then
            let! protoListLen := int16_at alpnData 0 in
            if (protoListLen <? 0) || (protoListLen + 2 >? len alpnData) then Ok []
            else alpn_names (S (length alpnData)) alpnData protoListLen 2 []
          else Ok []
        else alpn_loop fuel extensions (offset + extLen)
  end.

Definition parseALPNFromExtensions (extensions : list Z) : outcome (list string) :=
  if len extensions <? 4 then Ok [] else alpn_loop (S (length extensions)) extensions 0.

(** [n] more versions of the list in [verData], from [verOffset]. *)
Fixpoint highest_version (n : nat) (verData : list Z) (verOffset highestVersion : Z) : outcome Z :=
  match n with
  | O => Ok highestVersion
  | S n =>
      if verOffset + 2 >? len verData then Ok highestVersion
      else
        let! version := uint16_at verData verOffset in
        let highestVersion :=
          if (version >=? 0x0301) && (version <=? 0x0304) && (version >? highestVersion) then version else highestVersion in
        highest_version n verData (verOffset + 2) highestVersion
  end.

Fixpoint versions_loop (fuel : nat) (extensions : list Z) (offset : Z) : outcome Z :=
  match fuel with
  | O => OutOfFuel
  | S fuel =>
      if negb (offset <? len extensions) then Ok 0
      else if offset + 4 >? len extensions then Ok 0
      else
        let! extType := uint16_at extensions offset in
        let! extLen := int16_at extensions (offset + 2) in
        let offset := offset + 4 in
        if (extLen <? 0) || (offset + extLen >? len extensions) then Ok 0
        else if extType =? 43 then
          let! verData := slice extensions offset (offset + extLen) in
          if len verData >=? 1 then
            let! versionsLen := index verData 0 in
            if (versionsLen <? 2) || negb (versionsLen `rem` 2 =? 0) || (1 + versionsLen >? len verData) then Ok 0
            else highest_version (Z.to_nat (versionsLen ÷ 2)) verData 1 0
          else Ok 0
        else versions_loop fuel extensions (offset + extLen)
  end.

Definition parseSupportedVersionsFromExtensions (extensions : list Z) : outcome Z :=
  if len extensions <? 4 then Ok 0 else versions_loop (S (length extensions)) extensions 0.

(** ** The record of a client hello, taken apart by [gopacket] *)

(** [layers.TLSHandshakeRecord.ClientHello] *)
Record TLSHandshakeRecordClientHello := MkHandshake {
  HandshakeType : Z; ProtocolVersion : Z; ch_SNI : list Z; Extensions : list Z }.

(** The layer of type [LayerTypeTLS]: a [*layers.TLS], which may be nil, or not. *)
Inductive Layer :=
| TLS (handshake : option (list TLSHandshakeRecordClientHello))
| OtherLayer.

Record Packet := MkPacket { ErrorLayer : option string; LayerTLS : option Layer }.

Class Gopacket := { NewPacket : list Z -> Packet }.

Section client.
Context {G : Gopacket}.

Fixpoint find_client_hello (handshakes : list TLSHandshakeRecordClientHello) : outcome ClientHello :=
  match handshakes with
  | [] => Err "no ClientHello found in TLS handshake"
  | handshake :: rest =>
      if HandshakeType handshake =? 1 then
        let sni := string_of_bytes (ch_SNI handshake) in
        if len (Extensions handshake) >? 0 then
          let! alpns := parseALPNFromExtensions (Extensions handshake) in
          let! version := parseSupportedVersionsFromExtensions (Extensions handshake) in
          Ok (MkClientHello sni (if negb (version =? 0) then version else ProtocolVersion handshake) alpns)
        else Ok (MkClientHello sni (ProtocolVersion handshake) [])
      else find_client_hello rest
  end.

Definition ParseClientHello (record : list Z) : outcome ClientHello :=
  if len record =? 0 then Err "empty record"
  else
    let packet := NewPacket record in
    match ErrorLayer packet with
    | Some e => Err ("packet decoding error: " +:+ e)
    | None =>
        match LayerTLS packet with
        | None => Err "no TLS layer found"
        | Some (TLS (Some handshakes)) => find_client_hello handshakes
        | Some _ => Err "invalid TLS layer type"
        end
    end.
End client.

(** ** The server hello *)

(** The body of the loop for an extension of type [extType]. *)
Definition server_extension (extType : Z) (extData : list Z) (s : ServerHello) : outcome ServerHello :=
  if extType =? 43 then
    if len extData >=? 2 then let! v := uint16_at extData 0 in Ok (s <| sVersion := v |>) else Ok s
  else if extType =? 16 then
    if len extData >=? 4 then
      let! protoLen := index extData 2 in
      if len extData >=? 3 + protoLen then
        let! proto := slice extData 3 (3 + protoLen) in Ok (s <| ALPN := string_of_bytes proto |>)
      else Ok s
    else Ok s
  else Ok s.

Fixpoint server_extensions_loop (fuel : nat) (extensions : list Z) (offset : Z) (s : ServerHello) : outcome ServerHello :=
  match fuel with
  | O => OutOfFuel
  | S fuel =>
      if negb (offset + 4 <=? len extensions) then Ok s
      else
        let! extType := uint16_at extensions offset in
        let! extLen := int16_at extensions (offset + 2) in
        let offset := offset + 4 in
        if offset + extLen >? len extensions then Ok s
        else
          let! extData := slice extensions offset (offset + extLen) in
          let! s := server_extension extType extData s in
          server_extensions_loop fuel extensions (offset + extLen) s
  end.

Definition parseServerHelloExtensions (s : ServerHello) (extensions : list Z) : outcome ServerHello :=
  server_extensions_loop (S (length extensions)) extensions 0 s.

(** From the body of the message on. *)
Definition parse_server_body (body : list Z) : outcome ServerHello :=
  if len body <? 35 then Err "ServerHello body too short"
  else
    let! version := uint16_at body 0 in
    let offset := 34 in
    if offset >=? len body then Err "unexpected end of ServerHello"
    else
      let! sessionIDLen := index body offset in
      let offset := offset + 1 + sessionIDLen in
      if offset + 2 >? len body then Err "unexpected end of ServerHello at cipher suite"
      else
        let! suite := uint16_at body offset in
        let s := MkServerHello version suite "" in
        let offset := offset + 2 in
        if offset >=? len body then Err "unexpected end of ServerHello at compression"
        else
          let offset := offset + 1 in
          if offset + 2 <=? len body then
            let! extLen := int16_at body offset in
            let offset := offset + 2 in
            if offset + extLen <=? len body then
              let! extensions := slice body offset (offset + extLen) in
              parseServerHelloExtensions s extensions
            else Ok s
          else Ok s.

(** From the header of the handshake message on. *)
Definition parse_server_handshake (handshake : list Z) : outcome ServerHello :=
  let! type := index handshake 0 in
  if negb (type =? 0x02) then Err ("not a ServerHello (type=" +:+ pretty type +:+ ")")
  else
    let! b1 := index handshake 1 in
    let! b2 := index handshake 2 in
    let! b3 := index handshake 3 in
    let handshakeLen := Z.lor (Z.lor (Z.shiftl b1 16) (Z.shiftl b2 8)) b3 in
    if len handshake <? 4 + handshakeLen then Err "incomplete ServerHello handshake"
    else
      let! body := slice handshake 4 (4 + handshakeLen) in
      parse_server_body body.

Definition ParseServerHello (record : list Z) : outcome ServerHello :=
  if len record <? 44 then Err "record too short for ServerHello"
  else
    let! content_type := index record 0 in
    if negb (content_type =? 0x16) then Err "not a TLS handshake record"
    else
      let! recordLen := int16_at record 3 in
      if len record <? 5 + recordLen then Err "incomplete TLS record"
      else
        let! handshake := slice record 5 (len record) in
        parse_server_handshake handshake.

(** ** The interface *)

Definition result {A} (m : outcome A) : option A := match m with Ok a => Some a | _ => None end.

#[export] Instance impl {G : Gopacket} : TlsUtils :=
  {| AgentEvents.ClientHello := ClientHello;
     AgentEvents.ServerHello := ServerHello;
     AgentEvents.ParseClientHello record := result (ParseClientHello record);
     AgentEvents.ParseServerHello record := result (ParseServerHello record);
     AgentEvents.SNI := SNI |}.

End tlsutils.
