(* ===== verification/TlsHelloSpec.v ===== *)
(** * What the hello parsers promise

    The wire format of the two hello messages as encoders, and the theorems on the
    parsers of [TlsHello]: no input makes them panic or loop, a server hello the kernel
    captured reaches the agent with the parameters the server chose (or not at all when
    its record lost its end), and the extensions of a client hello give the protocols it
    offers and the highest version it supports. *)

From stdpp Require Import base numbers list strings pretty.
From S2P Require Import Prelude Tap Net Bpf Common Buffers Protocol AgentEvents Reader Wire TlsHello.
Import tlsutils.

(** ** No panic *)

(** The outcome is an error or a value with [P]. *)
Definition fine {A} (P : A -> Prop) (m : outcome A) : Prop :=
  match m with Ok a => P a | Err _ => True | Panic | OutOfFuel => False end.

Lemma fine_bind {A B} (P : A -> Prop) (Q : B -> Prop) m k :
  fine P m -> (forall a, P a -> fine Q (k a)) -> fine Q (obind m k).
Proof. destruct m; cbn; auto. Qed.

Lemma fine_weaken {A} (P Q : A -> Prop) m : fine P m -> (forall a, P a -> Q a) -> fine Q m.
Proof. destruct m; cbn; auto. Qed.

Lemma len_nonneg bs : 0 <= len bs.
Proof. unfold len. lia. Qed.

Lemma byte_at_is_byte bs i : Forall is_byte bs -> (i < length bs)%nat -> is_byte (byte_at bs i).
Proof.
  intros Hb Hi. unfold byte_at. rewrite nth_lookup. destruct (lookup_lt_is_Some_2 bs i Hi) as [x Hx].
  rewrite Hx. by eapply Forall_lookup_1.
Qed.

Lemma index_fine bs i : Forall is_byte bs -> 0 <= i < len bs -> fine (fun b => 0 <= b < 256) (index bs i).
Proof.
  intros Hb Hi. unfold index. rewrite (proj2 (Z.leb_le 0 i)), (proj2 (Z.ltb_lt i _)) by lia.
  apply byte_at_is_byte; [done|]. unfold len in Hi. lia.
Qed.

Lemma slice_fine bs i j :
  Forall is_byte bs -> 0 <= i <= j -> j <= len bs -> fine (fun l => Forall is_byte l /\ len l = j - i) (slice bs i j).
Proof.
  intros Hb Hi Hj. unfold slice. rewrite (proj2 (Z.leb_le 0 i)), (proj2 (Z.leb_le i j)), (proj2 (Z.leb_le j _)) by lia.
  cbn. unfold field, len in *. split; [by apply Forall_take, Forall_drop|]. rewrite length_take, length_drop. lia.
Qed.

Lemma lor_be a b : is_byte a -> is_byte b -> Z.lor (Z.shiftl a 8) b = 256 * a + b.
Proof. unfold is_byte. intros. rewrite Z.lor_comm, lor_shiftl_add by lia. lia. Qed.

Lemma u16_byte a : is_byte a -> u16 (Z.shiftl a 8) = Z.shiftl a 8.
Proof. unfold is_byte, u16. intros. rewrite Z.shiftl_mul_pow2 by lia. apply Z.mod_small. lia. Qed.

Lemma int16_fine bs i : Forall is_byte bs -> 0 <= i -> i + 1 < len bs -> fine (fun v => 0 <= v < 65536) (int16_at bs i).
Proof.
  intros Hb Hi Hl. eapply fine_bind; [apply index_fine; [done|lia]|]. intros hi Hhi.
  eapply fine_bind; [apply index_fine; [done|lia]|]. intros lo Hlo. cbn. rewrite lor_be by done.
  unfold is_byte in *. lia.
Qed.

Lemma uint16_fine bs i : Forall is_byte bs -> 0 <= i -> i + 1 < len bs -> fine (fun v => 0 <= v < 65536) (uint16_at bs i).
Proof.
  intros Hb Hi Hl. eapply fine_bind; [apply index_fine; [done|lia]|]. intros hi Hhi.
  eapply fine_bind; [apply index_fine; [done|lia]|]. intros lo Hlo. cbn. rewrite u16_byte, lor_be by done.
  unfold is_byte in *. lia.
Qed.

Lemma obind_assoc {A B C} (m : outcome A) (k : A -> outcome B) (k' : B -> outcome C) :
  obind (obind m k) k' = obind m (fun a => obind (k a) k').
Proof. by destruct m. Qed.

(** One step of a parser: a test, or an access that is in range. *)
Ltac fine_step :=
  lazymatch goal with
  | |- fine _ (if ?b then _ else _) => destruct b eqn:?
  | |- fine _ (obind (if ?b then _ else _) _) => destruct b eqn:?; cbn [obind]
  | |- fine _ (obind (Ok _) _) => cbn [obind]
  | |- fine _ (obind (obind _ _) _) => rewrite obind_assoc
  | |- fine _ (obind _ _) =>
      eapply fine_bind; [first [apply index_fine | apply slice_fine | apply int16_fine | apply uint16_fine];
        first [assumption | lia] | cbv beta; intros ? ?; destruct_and?]
  | |- fine _ (Ok _) => cbn
  | |- fine _ (Err _) => exact I
  end.
Ltac fine := repeat fine_step.

Section total.
Context (bs : list Z) (Hb : Forall is_byte bs).

Lemma alpn_names_fine fuel n i ps :
  0 <= i <= len bs -> len bs - i < Z.of_nat fuel -> fine (fun _ => True) (alpn_names fuel bs n i ps).
Proof.
  revert i ps. induction fuel as [|fuel IH]; intros i ps Hi Hf; [lia|]. cbn [alpn_names].
  fine; [done..| |]; apply IH; lia.
Qed.

Lemma highest_version_fine n i v : 0 <= i -> fine (fun _ => True) (highest_version n bs i v).
Proof.
  revert i v. induction n as [|n IH]; intros i v Hi; cbn [highest_version]; fine; [done..|]. apply IH. lia.
Qed.

End total.

Lemma alpn_loop_fine fuel bs i :
  Forall is_byte bs -> 0 <= i <= len bs -> len bs - i < Z.of_nat fuel -> fine (fun _ => True) (alpn_loop fuel bs i).
Proof.
  intros Hb. revert i. induction fuel as [|fuel IH]; intros i Hi Hf; [lia|]. cbn [alpn_loop].
  fine; try done; [|apply IH; lia]. apply alpn_names_fine; [done|lia|]. unfold len. lia.
Qed.

Lemma versions_loop_fine fuel bs i :
  Forall is_byte bs -> 0 <= i <= len bs -> len bs - i < Z.of_nat fuel -> fine (fun _ => True) (versions_loop fuel bs i).
Proof.
  intros Hb. revert i. induction fuel as [|fuel IH]; intros i Hi Hf; [lia|]. cbn [versions_loop].
  fine; try done; [|apply IH; lia]. apply highest_version_fine; [done|lia].
Qed.

Lemma server_extension_fine t d s : Forall is_byte d -> fine (fun _ => True) (server_extension t d s).
Proof. intros. unfold server_extension. fine; done. Qed.

Lemma server_extensions_loop_fine fuel bs i s :
  Forall is_byte bs -> 0 <= i <= len bs -> len bs - i < Z.of_nat fuel ->
  fine (fun _ => True) (server_extensions_loop fuel bs i s).
Proof.
  intros Hb. revert i s. induction fuel as [|fuel IH]; intros i s Hi Hf; [lia|]. cbn [server_extensions_loop].
  fine; [done..|]. eapply fine_bind; [by apply server_extension_fine|]. intros s' _. apply IH; lia.
Qed.

Lemma parse_server_body_fine body : Forall is_byte body -> fine (fun _ => True) (parse_server_body body).
Proof.
  intros Hb. unfold parse_server_body. cbv zeta. fine; try done.
  apply server_extensions_loop_fine; [done| |]; unfold len; lia.
Qed.

Lemma ParseServerHello_fine record : Forall is_byte record -> fine (fun _ => True) (ParseServerHello record).
Proof.
  intros Hb. unfold ParseServerHello, parse_server_handshake. cbv zeta. fine.
  match goal with |- context [slice _ 4 (4 + ?n)] => assert (0 <= n) by
    (rewrite !Z.lor_nonneg, !Z.shiftl_nonneg; lia) end.
  eapply fine_bind; [apply slice_fine; (assumption || lia)|]. intros body [Hbody _]. by apply parse_server_body_fine.
Qed.

Lemma parseALPN_fine bs : Forall is_byte bs -> fine (fun _ => True) (parseALPNFromExtensions bs).
Proof. intros. unfold parseALPNFromExtensions. fine; [done|]. apply alpn_loop_fine; [done| |]; unfold len; lia. Qed.

Lemma parseSupportedVersions_fine bs : Forall is_byte bs -> fine (fun _ => True) (parseSupportedVersionsFromExtensions bs).
Proof. intros. unfold parseSupportedVersionsFromExtensions. fine; [done|]. apply versions_loop_fine; [done| |]; unfold len; lia. Qed.

Lemma find_client_hello_fine hs :
  Forall (fun h => Forall is_byte (Extensions h)) hs -> fine (fun _ => True) (find_client_hello hs).
Proof.
  induction 1 as [|h hs Hb _ IH]; cbn [find_client_hello]; [done|]. fine; [|done..].
  eapply fine_bind; [by apply parseALPN_fine|]. intros ? _. by eapply fine_bind; [apply parseSupportedVersions_fine|].
Qed.

(** ** The wire format *)

Definition be16 (x : Z) : list Z := [x / 256; x `mod` 256].

(** An extension is a type and its data. *)
Definition encode_ext (e : Z * list Z) : list Z := be16 e.1 ++ be16 (len e.2) ++ e.2.
Definition encode_exts (es : list (Z * list Z)) : list Z := concat (map encode_ext es).

(** A name of a protocol is prefixed by its length. *)
Definition encode_name (p : list Z) : list Z := len p :: p.
Definition encode_names (ps : list (list Z)) : list Z := concat (map encode_name ps).

Definition uint16_ok (x : Z) : Prop := 0 <= x < 65536.
Definition name_ok (p : list Z) : Prop := 0 < len p < 256.

Lemma len_app a b : len (a ++ b) = len a + len b.
Proof. unfold len. rewrite length_app. lia. Qed.
Lemma len_cons x a : len (x :: a) = 1 + len a.
Proof. unfold len. cbn. lia. Qed.
Lemma len_nil : len [] = 0.
Proof. done. Qed.
Lemma len_be16 x : len (be16 x) = 2.
Proof. done. Qed.

Create Rewrite HintDb len.
#[export] Hint Rewrite len_app len_cons len_nil len_be16 : len.

(** Lengths of concatenations, and none is negative. *)
Ltac lens :=
  autorewrite with len in *;
  repeat match goal with
  | |- context [len ?l] => lazymatch goal with _ : 0 <= len l |- _ => fail | _ => pose proof (len_nonneg l) end
  end;
  lia.

Lemma index_at pre x suf i : i = len pre -> index (pre ++ x :: suf) i = Ok x.
Proof.
  intros ->. unfold index. pose proof (len_nonneg suf). rewrite (proj2 (Z.leb_le 0 _)), (proj2 (Z.ltb_lt _ _)) by lens.
  cbn. f_equal. unfold byte_at, len. rewrite Nat2Z.id, nth_lookup, lookup_app_r, Nat.sub_diag by lia. done.
Qed.

Lemma slice_at pre d suf i j : i = len pre -> j = i + len d -> slice (pre ++ d ++ suf) i j = Ok d.
Proof.
  intros -> ->. unfold slice. pose proof (len_nonneg suf).
  rewrite (proj2 (Z.leb_le 0 _)), (proj2 (Z.leb_le (len pre) _)), (proj2 (Z.leb_le (len pre + len d) _)) by lens.
  cbn. f_equal. unfold field, len. rewrite Nat2Z.id, drop_app_length. replace (Z.to_nat _) with (length d) by lia.
  by rewrite take_app_length.
Qed.

Lemma slice_end pre d i j : i = len pre -> j = i + len d -> slice (pre ++ d) i j = Ok d.
Proof. intros. rewrite <- (app_nil_r d) at 1. by apply slice_at. Qed.

Lemma be16_bytes x : uint16_ok x -> is_byte (x / 256) /\ is_byte (x `mod` 256).
Proof.
  unfold uint16_ok, is_byte. intros. split; [|by apply Z.mod_pos_bound].
  split; [apply Z.div_pos; lia|apply Z.div_lt_upper_bound; lia].
Qed.

Lemma index_be16 pre x suf i :
  i = len pre -> index (pre ++ be16 x ++ suf) i = Ok (x / 256) /\ index (pre ++ be16 x ++ suf) (i + 1) = Ok (x `mod` 256).
Proof.
  intros ->. unfold be16. cbn [app]. split; [by apply index_at|].
  rewrite cons_middle, app_assoc. apply index_at. lens.
Qed.

Lemma int16_here pre x suf i : uint16_ok x -> i = len pre -> int16_at (pre ++ be16 x ++ suf) i = Ok x.
Proof.
  intros Hx Hi. unfold int16_at. destruct (index_be16 pre x suf i Hi) as [-> ->]. cbn [obind].
  destruct (be16_bytes x Hx). rewrite lor_be by done. f_equal. symmetry. apply Z.div_mod. lia.
Qed.

Lemma uint16_here pre x suf i : uint16_ok x -> i = len pre -> uint16_at (pre ++ be16 x ++ suf) i = Ok x.
Proof.
  intros Hx Hi. unfold uint16_at. destruct (index_be16 pre x suf i Hi) as [-> ->]. cbn [obind].
  destruct (be16_bytes x Hx). rewrite u16_byte, lor_be by done. f_equal. symmetry. apply Z.div_mod. lia.
Qed.

(** The length of the name at an offset and its bytes. *)
Lemma name_here pre p suf i (bs := pre ++ encode_name p ++ suf) :
  i = len pre -> index bs i = Ok (len p) /\ slice bs (i + 1) (i + 1 + len p) = Ok p /\ i + 1 + len p <= len bs.
Proof.
  unfold bs, encode_name. intros ->. cbn [app]. split_and!; [by apply index_at| |lens].
  rewrite cons_middle, app_assoc. apply slice_at; [lens|done].
Qed.

Definition ext_ok (e : Z * list Z) : Prop := uint16_ok e.1 /\ uint16_ok (len e.2).

(** The header of the extension at an offset and its data. *)
Lemma ext_here pre e suf i (bs := pre ++ encode_ext e ++ suf) :
  ext_ok e -> i = len pre ->
  uint16_at bs i = Ok e.1 /\ int16_at bs (i + 2) = Ok (len e.2)
  /\ slice bs (i + 4) (i + 4 + len e.2) = Ok e.2 /\ i + 4 + len e.2 <= len bs.
Proof.
  destruct e as [t d]. unfold bs, encode_ext, ext_ok. cbn [fst snd]. intros [Ht Hd] ->. split_and!.
  - rewrite <- !app_assoc. by apply uint16_here.
  - rewrite <- !app_assoc, (app_assoc pre). apply int16_here; [done|lens].
  - rewrite <- !app_assoc, (app_assoc pre), (app_assoc (pre ++ _)). apply slice_at; [lens|done].
  - lens.
Qed.

(** Where the extensions end. *)
Lemma exts_end pre i : i = len pre -> (i + 4 >? len (pre ++ encode_exts [])) = true.
Proof. intros ->. unfold encode_exts. cbn. rewrite app_nil_r. lia. Qed.

(** One extension ahead of the others. *)
Lemma encode_exts_cons pre e es : pre ++ encode_exts (e :: es) = pre ++ encode_ext e ++ encode_exts es.
Proof. done. Qed.

Lemma len_encode_ext e : len (encode_ext e) = 4 + len e.2.
Proof. unfold encode_ext. lens. Qed.

(** ** The extensions of a server hello *)

Inductive server_ext :=
| Supported_version (v : Z)
| Selected_alpn (p : list Z)
| Server_other (t : Z) (d : list Z).

Definition server_raw (e : server_ext) : Z * list Z :=
  match e with
  | Supported_version v => (43, be16 v)
  | Selected_alpn p => (16, be16 (len (encode_name p)) ++ encode_name p)
  | Server_other t d => (t, d)
  end.

Definition server_ext_ok (e : server_ext) : Prop :=
  match e with
  | Supported_version v => uint16_ok v
  | Selected_alpn p => name_ok p
  | Server_other t d => ext_ok (t, d) /\ t <> 43 /\ t <> 16
  end.

Definition ext_version (e : server_ext) : option Z := match e with Supported_version v => Some v | _ => None end.
Definition ext_alpn (e : server_ext) : option string := match e with Selected_alpn p => Some (string_of_bytes p) | _ => None end.

(** The version and the protocol an extension replaces. *)
Definition apply_ext (s : ServerHello) (e : server_ext) : ServerHello :=
  MkServerHello (default (sVersion s) (ext_version e)) (CipherSuite s) (default (ALPN s) (ext_alpn e)).

Lemma server_raw_ok e : server_ext_ok e -> ext_ok (server_raw e).
Proof.
  destruct e; unfold ext_ok; cbn [server_ext_ok server_raw fst snd]; [by intros| |by intros [? _]].
  unfold name_ok, uint16_ok, encode_name. intros. lens.
Qed.

Lemma server_extension_spec e s :
  server_ext_ok e -> server_extension (server_raw e).1 (server_raw e).2 s = Ok (apply_ext s e).
Proof.
  destruct s as [v c a], e as [x|p|t d]; cbn [server_ext_ok server_raw fst snd]; intros He.
  - unfold server_extension. rewrite Z.eqb_refl, len_be16. cbn [Z.geb Z.compare Pos.compare Pos.compare_cont].
    by rewrite (uint16_here [] x [] 0 He eq_refl : uint16_at (be16 x) 0 = Ok x).
  - unfold server_extension, name_ok in *. change (16 =? 43) with false. cbn [Z.eqb Pos.eqb].
    assert (len (be16 (len (encode_name p)) ++ encode_name p) = 3 + len p) as -> by (unfold encode_name; lens).
    destruct (name_here (be16 (len (encode_name p))) p [] 2 eq_refl) as (Hi & Hs & _). rewrite app_nil_r in Hi, Hs.
    rewrite (proj2 (Z.geb_le _ 4)), Hi by lia. cbn [obind]. rewrite (proj2 (Z.geb_le _ _)) by lia.
    by rewrite (Hs : slice _ 3 (3 + len p) = _).
  - unfold server_extension. destruct He as (_ & ? & ?). by rewrite !(proj2 (Z.eqb_neq _ _)).
Qed.

Lemma server_extensions_loop_spec es fuel pre s i :
  Forall server_ext_ok es -> i = len pre -> (length es < fuel)%nat ->
  server_extensions_loop fuel (pre ++ encode_exts (map server_raw es)) i s = Ok (foldl apply_ext s es).
Proof.
  intros Hes. revert fuel pre s i. induction Hes as [|e es He _ IH]; intros [|fuel] pre s i Hi Hf; try (cbn in Hf; lia);
    cbn [server_extensions_loop map foldl].
  { pose proof (exts_end pre i Hi). by replace (i + 4 <=? _) with false by lia. }
  rewrite encode_exts_cons. destruct (ext_here pre (server_raw e) (encode_exts (map server_raw es)) i) as (-> & -> & Hs & Hle);
    [by apply server_raw_ok|done|].
  pose proof (len_nonneg (server_raw e).2). rewrite (proj2 (Z.leb_le _ _)) by lia. cbn [negb obind].
  replace (_ >? _) with false by lia. rewrite Hs. cbn [obind]. rewrite server_extension_spec by done. cbn [obind].
  rewrite app_assoc. apply IH; [rewrite len_app, len_encode_ext; lia|cbn in Hf; lia].
Qed.

Lemma length_encode_exts es : (length es <= length (encode_exts es))%nat.
Proof.
  induction es as [|e es IH]; [done|].
  change (encode_exts (e :: es)) with (encode_ext e ++ encode_exts es). rewrite length_app.
  pose proof (len_encode_ext e). pose proof (len_nonneg e.2). unfold len in *. cbn. lia.
Qed.

Lemma exts_fuel {A} (f : A -> Z * list Z) es : (length es < S (length (encode_exts (map f es))))%nat.
Proof. pose proof (length_encode_exts (map f es)) as Hl. rewrite length_map in Hl. lia. Qed.

Lemma parseServerHelloExtensions_spec s es :
  Forall server_ext_ok es -> parseServerHelloExtensions s (encode_exts (map server_raw es)) = Ok (foldl apply_ext s es).
Proof.
  intros. apply (server_extensions_loop_spec es _ []); [done..|apply exts_fuel].
Qed.

(** The last extension of a kind is the one that counts. *)
Lemma foldl_apply_ext s es :
  foldl apply_ext s es =
  MkServerHello (default (sVersion s) (last (omap ext_version es))) (CipherSuite s) (default (ALPN s) (last (omap ext_alpn es))).
Proof.
  revert s. induction es as [|e es IH]; intros s; [by destruct s|]. cbn [foldl]. rewrite IH. cbn.
  destruct e as [v|p|t d]; cbn; rewrite ?last_cons; by repeat destruct (last _).
Qed.

(** ** The server hello message *)

Record server_message := ServerMessage {
  m_version : Z;
  m_random : list Z;
  m_session : list Z;
  m_suite : Z;
  m_compression : Z;
  m_extensions : option (list server_ext) }.

Definition m_exts (m : server_message) : list server_ext := default [] (m_extensions m).

Definition encode_extensions (es : option (list server_ext)) : list Z :=
  match es with
  | Some es => let d := encode_exts (map server_raw es) in be16 (len d) ++ d
  | None => []
  end.

Definition server_body (m : server_message) : list Z :=
  be16 (m_version m) ++ m_random m ++ encode_name (m_session m) ++ be16 (m_suite m) ++ [m_compression m]
  ++ encode_extensions (m_extensions m).

Definition be24 (x : Z) : list Z := x / 65536 :: be16 (x `mod` 65536).

(** The handshake messages of a record: the server hello, and [more] that share it. *)
Definition server_handshake (m : server_message) (more : list Z) : list Z :=
  [2] ++ be24 (len (server_body m)) ++ server_body m ++ more.

(** The record, of version 3.[minor]. *)
Definition server_record (minor : Z) (m : server_message) (more : list Z) : list Z :=
  [22; 3; minor] ++ be16 (len (server_handshake m more)) ++ server_handshake m more.

Definition message_ok (m : server_message) : Prop :=
  uint16_ok (m_version m) /\ length (m_random m) = 32%nat /\ len (m_session m) < 256 /\ uint16_ok (m_suite m)
  /\ uint16_ok (len (encode_exts (map server_raw (m_exts m)))) /\ Forall server_ext_ok (m_exts m).

(** What the server chose: an extension takes precedence over the legacy version. *)
Definition negotiated (m : server_message) : ServerHello :=
  MkServerHello (default (m_version m) (last (omap ext_version (m_exts m)))) (m_suite m)
    (default "" (last (omap ext_alpn (m_exts m)))).

(** The offset of the cipher suite, and of what follows the compression method. *)
Lemma server_body_at m (bs := server_body m) (o := 35 + len (m_session m)) :
  message_ok m ->
  len bs = o + 3 + len (encode_extensions (m_extensions m))
  /\ uint16_at bs 0 = Ok (m_version m) /\ index bs 34 = Ok (len (m_session m)) /\ uint16_at bs o = Ok (m_suite m)
  /\ exists pre, bs = pre ++ encode_extensions (m_extensions m) /\ len pre = o + 3.
Proof.
  intros (Hv & Hr & _ & Hc & _). assert (len (m_random m) = 32) as Hr' by (unfold len; lia).
  unfold bs, o, server_body. split_and!.
  - unfold encode_name. lens.
  - by apply (uint16_here []).
  - rewrite app_assoc. apply name_here. lens.
  - rewrite (app_assoc (m_random m)), app_assoc. apply uint16_here; [done|]. unfold encode_name. lens.
  - exists (be16 (m_version m) ++ m_random m ++ encode_name (m_session m) ++ be16 (m_suite m) ++ [m_compression m]).
    split; [by rewrite <- !app_assoc|]. unfold encode_name. lens.
Qed.

Lemma parse_server_body_spec m : message_ok m -> parse_server_body (server_body m) = Ok (negotiated m).
Proof.
  intros Hm. destruct (server_body_at m Hm) as (Hl & Hv & Hs & Hc & pre & Hpre & Hlen).
  destruct Hm as (_ & _ & _ & _ & Hx & Hes).
  pose proof (len_nonneg (m_session m)). pose proof (len_nonneg (encode_extensions (m_extensions m))).
  unfold parse_server_body. cbv zeta. rewrite Hv, Hs.
  replace (len _ <? 35) with false by lia. replace (34 >=? len _) with false by lia. cbn [obind].
  change (34 + 1) with 35. rewrite Hc. replace (_ >? len _) with false by lia. cbn [obind].
  replace (_ >=? len _) with false by lia. replace (35 + _ + 2 + 1) with (len pre) by lia.
  unfold negotiated, m_exts in *. destruct (m_extensions m) as [es|]; cbn [encode_extensions from_option id] in *.
  2:{ replace (len pre + 2 <=? _) with false; [done|]. rewrite Hl, len_nil. lia. }
  rewrite Hpre. set (d := encode_exts _) in *. pose proof (len_nonneg d).
  replace (len pre + 2 <=? _) with true by (symmetry; apply Z.leb_le; lens).
  rewrite int16_here by done. cbn [obind].
  replace (_ <=? _) with true by (symmetry; apply Z.leb_le; lens).
  rewrite app_assoc, slice_end by lens. cbn [obind].
  unfold d. by rewrite parseServerHelloExtensions_spec, foldl_apply_ext.
Qed.

(** ** The record *)

Lemma lor_be24 x : 0 <= x < 16777216 ->
  Z.lor (Z.lor (Z.shiftl (x / 65536) 16) (Z.shiftl ((x `mod` 65536) / 256) 8)) ((x `mod` 65536) `mod` 256) = x.
Proof.
  intros Hx. pose proof (Z.mod_pos_bound x 65536). pose proof (Z.mod_pos_bound (x `mod` 65536) 256).
  rewrite <- Z.lor_assoc, lor_be; [|split; [apply Z.div_pos; lia|apply Z.div_lt_upper_bound; lia]|unfold is_byte; lia].
  rewrite <- Z.div_mod by lia. rewrite Z.lor_comm, lor_shiftl_add by lia.
  rewrite (Z.div_mod x 65536) at 3 by lia. lia.
Qed.

Lemma len_server_body m : message_ok m -> 38 <= len (server_body m) < 16777216.
Proof.
  intros Hm. destruct (server_body_at m Hm) as (-> & _). destruct Hm as (_ & _ & ? & _ & Hx & _).
  unfold uint16_ok, m_exts in Hx. pose proof (len_nonneg (m_session m)).
  pose proof (len_nonneg (encode_extensions (m_extensions m))).
  destruct (m_extensions m); cbn [encode_extensions from_option id] in *; cbv zeta; lens.
Qed.

Lemma parse_server_handshake_spec m more rest :
  message_ok m -> parse_server_handshake (server_handshake m more ++ rest) = Ok (negotiated m).
Proof.
  intros Hm. pose proof (len_server_body m Hm) as Hb. unfold parse_server_handshake, server_handshake, be24, be16.
  set (b := server_body m) in *. rewrite <- !app_assoc. cbn [app].
  set (b1 := len b / 65536). set (b2 := _ / 256). set (b3 := _ `mod` 256). set (tl := b ++ more ++ rest).
  rewrite (index_at [] 2 _ 0 eq_refl : index (2 :: b1 :: b2 :: b3 :: tl) 0 = Ok 2),
    (index_at [2] b1 _ 1 eq_refl : index (2 :: b1 :: b2 :: b3 :: tl) 1 = Ok b1),
    (index_at [2; b1] b2 _ 2 eq_refl : index (2 :: b1 :: b2 :: b3 :: tl) 2 = Ok b2),
    (index_at [2; b1; b2] b3 tl 3 eq_refl : index (2 :: b1 :: b2 :: b3 :: tl) 3 = Ok b3).
  cbn [obind Z.eqb Pos.eqb negb]. unfold b1 at 2 4, b2 at 2 4, b3 at 2 4. cbv zeta. rewrite lor_be24 by lia.
  replace (_ <? _) with false by (symmetry; apply Z.ltb_ge; unfold tl; lens).
  rewrite (slice_at [2; b1; b2; b3] b (more ++ rest) 4 (4 + len b) eq_refl eq_refl
    : slice (2 :: b1 :: b2 :: b3 :: tl) 4 (4 + len b) = Ok b).
  by apply parse_server_body_spec.
Qed.

Lemma ParseServerHello_spec minor m more rest :
  message_ok m -> uint16_ok (len (server_handshake m more)) ->
  ParseServerHello (server_record minor m more ++ rest) = Ok (negotiated m).
Proof.
  intros Hm Hu. pose proof (len_server_body m Hm). pose proof (parse_server_handshake_spec m more rest Hm) as Hp.
  assert (len (server_handshake m more) = 4 + len (server_body m) + len more) as Hhs
    by (unfold server_handshake, be24; lens).
  pose proof (len_nonneg more). pose proof (len_nonneg rest).
  unfold server_record. set (hs := server_handshake m more) in *. rewrite <- !app_assoc.
  unfold ParseServerHello. set (record := [22; 3; minor] ++ _).
  assert (len record = 5 + len hs + len rest) as Hl by (unfold record; lens).
  replace (len record <? 44) with false by lia.
  rewrite (index_at [] 22 _ 0 eq_refl : index record 0 = Ok 22). cbn [obind Z.eqb Pos.eqb negb].
  rewrite (int16_here [22; 3; minor] (len hs) (hs ++ rest) 3 Hu eq_refl : int16_at record 3 = _). cbn [obind].
  replace (_ <? _) with false by lia. rewrite Hl. unfold record.
  rewrite app_assoc, slice_end by lens. done.
Qed.

(** A record that lost its end is refused. *)
Lemma ParseServerHello_cut minor m more n :
  uint16_ok (len (server_handshake m more)) -> (n < length (server_record minor m more))%nat ->
  result (ParseServerHello (take n (server_record minor m more))) = None.
Proof.
  intros Hu Hn. unfold server_record in *. set (hs := server_handshake m more) in *.
  unfold ParseServerHello. destruct (Z.ltb_spec (len (take n ([22; 3; minor] ++ be16 (len hs) ++ hs))) 44) as [|H44]; [done|].
  assert (44 <= n)%nat as Hn' by (unfold len in H44; rewrite length_take in H44; lia).
  rewrite !take_app, !(take_ge (be16 _)), (take_ge [22; 3; minor]) in * by (cbn; lia).
  set (tl := take _ hs) in *.
  rewrite (index_at [] 22 _ 0 eq_refl : index ([22; 3; minor] ++ be16 (len hs) ++ tl) 0 = Ok 22). cbn [obind Z.eqb Pos.eqb negb].
  rewrite int16_here by done. cbn [obind]. replace (_ <? _) with true; [done|]. symmetry. apply Z.ltb_lt.
  rewrite !length_app in Hn. cbn in Hn. autorewrite with len. unfold tl, len. rewrite length_take. cbn. lia.
Qed.

(** ** The extensions of a client hello *)

Inductive client_ext :=
| Offered_alpn (ps : list (list Z))
| Supported_versions (vs : list Z)
| Client_other (t : Z) (d : list Z).

Definition encode_versions (vs : list Z) : list Z := concat (map be16 vs).

Definition client_raw (e : client_ext) : Z * list Z :=
  match e with
  | Offered_alpn ps => (16, be16 (len (encode_names ps)) ++ encode_names ps)
  | Supported_versions vs => (43, 2 * Z.of_nat (length vs) :: encode_versions vs)
  | Client_other t d => (t, d)
  end.

Definition client_ext_ok (e : client_ext) : Prop :=
  match e with
  | Offered_alpn ps => Forall name_ok ps /\ len (encode_names ps) < 65534
  | Supported_versions vs => Forall uint16_ok vs /\ (1 <= length vs <= 127)%nat
  | Client_other t d => ext_ok (t, d) /\ t <> 16 /\ t <> 43
  end.

(** The highest version of TLS 1.0 to 1.3 in a list, 0 without one. *)
Definition known_version (v : Z) : Prop := 0x0301 <= v <= 0x0304.
Definition highest (vs : list Z) : Z := foldr Z.max 0 (filter known_version vs).

Definition offered (e : client_ext) : option (list string) :=
  match e with Offered_alpn ps => Some (map string_of_bytes ps) | _ => None end.
Definition supported (e : client_ext) : option Z :=
  match e with Supported_versions vs => Some (highest vs) | _ => None end.

Lemma len_encode_versions vs : len (encode_versions vs) = 2 * Z.of_nat (length vs).
Proof. induction vs as [|v vs IH]; [done|]. change (encode_versions (v :: vs)) with (be16 v ++ encode_versions vs). cbn [length]. lens. Qed.

Lemma client_raw_ok e : client_ext_ok e -> ext_ok (client_raw e).
Proof.
  destruct e as [ps|vs|t d]; unfold ext_ok, uint16_ok; cbn [client_ext_ok client_raw fst snd]; [intros [_ ?]; lens| |by intros [? _]].
  intros [_ ?]. rewrite len_cons, len_encode_versions. lia.
Qed.

Lemma alpn_names_spec ps fuel pre acc n i :
  Forall name_ok ps -> i = len pre -> 2 + n = len (pre ++ encode_names ps) -> (length ps < fuel)%nat ->
  alpn_names fuel (pre ++ encode_names ps) n i acc = Ok (acc ++ map string_of_bytes ps).
Proof.
  intros Hps. revert fuel pre acc i. induction Hps as [|p ps Hp _ IH]; intros [|fuel] pre acc i Hi Hn Hf; try (cbn in Hf; lia);
    cbn [alpn_names map].
  { unfold encode_names in *. cbn [map concat] in *. rewrite !app_nil_r in *.
    by replace (i <? len pre) with false by lia; rewrite andb_false_r. }
  change (encode_names (p :: ps)) with (encode_name p ++ encode_names ps) in *. unfold name_ok in Hp.
  destruct (name_here pre p (encode_names ps) i Hi) as (-> & Hs & Hle). rewrite <- Hn in *.
  replace ((i <? 2 + n) && (i <? 2 + n)) with true by lia. cbn [negb]. replace (i + 1 >? _) with false by lia. cbn [obind].
  replace ((len p <? 0) || _) with false by lia. replace (len p >? 0) with true by lia. rewrite Hs. cbn [obind].
  rewrite app_assoc, IH.
  - by rewrite <- app_assoc.
  - unfold encode_name. lens.
  - by rewrite <- app_assoc.
  - cbn in Hf. lia.
Qed.

Lemma highest_cons v vs : highest (v :: vs) = if decide (known_version v) then Z.max v (highest vs) else highest vs.
Proof. unfold highest. rewrite filter_cons. by case_decide. Qed.

Lemma highest_version_spec vs pre h i :
  Forall uint16_ok vs -> i = len pre -> 0 <= h ->
  highest_version (length vs) (pre ++ encode_versions vs) i h = Ok (Z.max h (highest vs)).
Proof.
  intros Hvs. revert pre h i. induction Hvs as [|v vs Hv _ IH]; intros pre h i Hi Hh; cbn [length highest_version].
  { cbn. by rewrite Z.max_l. }
  change (encode_versions (v :: vs)) with (be16 v ++ encode_versions vs).
  replace (i + 2 >? _) with false by (symmetry; rewrite Z.gtb_ltb; apply Z.ltb_ge; lens).
  rewrite uint16_here by done. cbn [obind]. rewrite app_assoc, IH; [|lens|destruct (_ && _ && _); unfold uint16_ok in Hv; lia].
  f_equal. rewrite highest_cons. unfold known_version. case_decide; destruct (_ && _ && _) eqn:?; lia.
Qed.

(** An extension ahead: the tests both loops make first. *)
Lemma ext_ahead pre e suf i :
  i = len pre -> (i <? len (pre ++ encode_ext e ++ suf)) = true /\ (i + 4 >? len (pre ++ encode_ext e ++ suf)) = false.
Proof.
  intros ->. pose proof (len_encode_ext e). pose proof (len_nonneg e.2). pose proof (len_nonneg suf).
  split; [apply Z.ltb_lt|rewrite Z.gtb_ltb; apply Z.ltb_ge]; rewrite !len_app; lia.
Qed.

Lemma length_encode_names ps : (length ps <= length (encode_names ps))%nat.
Proof.
  induction ps as [|p ps IH]; [done|]. change (encode_names (p :: ps)) with (encode_name p ++ encode_names ps).
  rewrite length_app. cbn. lia.
Qed.

(** The loop on the extensions of a client hello that looks for one type. *)
Lemma skip_exts {A} (loop : nat -> list Z -> Z -> outcome A) (t : Z) (none : A) (found : list Z -> outcome A)
    (pick : client_ext -> option A) :
  (forall fuel bs i, loop (S fuel) bs i =
     if negb (i <? len bs) then Ok none else if i + 4 >? len bs then Ok none
     else let! extType := uint16_at bs i in let! extLen := int16_at bs (i + 2) in
          if (extLen <? 0) || (i + 4 + extLen >? len bs) then Ok none
          else if extType =? t then let! d := slice bs (i + 4) (i + 4 + extLen) in found d
          else loop fuel bs (i + 4 + extLen)) ->
  (forall e, client_ext_ok e -> (client_raw e).1 = t -> exists a, pick e = Some a /\ found (client_raw e).2 = Ok a) ->
  (forall e, client_ext_ok e -> (client_raw e).1 <> t -> pick e = None) ->
  forall es fuel pre i, Forall client_ext_ok es -> i = len pre -> (length es < fuel)%nat ->
  loop fuel (pre ++ encode_exts (map client_raw es)) i = Ok (default none (head (omap pick es))).
Proof.
  intros Hloop Hfound Hskip es fuel pre i Hes. revert fuel pre i.
  induction Hes as [|e es He _ IH]; intros [|fuel] pre i Hi Hf; try (cbn in Hf; lia); rewrite Hloop; cbn [map].
  { unfold encode_exts. cbn. rewrite app_nil_r. by replace (i <? len pre) with false by lia. }
  rewrite encode_exts_cons. set (suf := encode_exts _). pose proof (client_raw_ok e He) as Hok.
  destruct (ext_ahead pre (client_raw e) suf i Hi) as [-> ->]. cbn [negb].
  destruct (ext_here pre (client_raw e) suf i Hok Hi) as (-> & -> & Hs & Hle). cbn [obind].
  pose proof (len_nonneg (client_raw e).2). replace ((_ <? 0) || _) with false by lia. rewrite Hs. cbn [obind omap list_omap].
  destruct (Z.eqb_spec (client_raw e).1 t) as [Ht|Ht].
  - by destruct (Hfound e He Ht) as (a & -> & ->).
  - rewrite (Hskip e He Ht), app_assoc. apply IH; [rewrite len_app, len_encode_ext; lia|cbn in Hf; lia].
Qed.

Lemma short_exts es : len (encode_exts es) < 4 -> es = [].
Proof.
  destruct es as [|e es]; [done|]. change (encode_exts (e :: es)) with (encode_ext e ++ encode_exts es).
  rewrite len_app, len_encode_ext. pose proof (len_nonneg e.2). pose proof (len_nonneg (encode_exts es)). lia.
Qed.

Lemma parseALPN_spec es :
  Forall client_ext_ok es ->
  parseALPNFromExtensions (encode_exts (map client_raw es)) = Ok (default [] (head (omap offered es))).
Proof.
  intros Hes. unfold parseALPNFromExtensions. case_match eqn:Hl.
  { apply Z.ltb_lt, short_exts, map_eq_nil in Hl. by subst. }
  eapply (skip_exts alpn_loop 16 [] _ offered (fun _ _ _ => eq_refl)) with (pre := []); [| |done..|apply exts_fuel];
    intros [ps|vs|t d]; cbn [client_ext_ok client_raw fst snd offered]; try done; [|tauto].
  intros [Hps Hn] _. eexists; split; [done|]. pose proof (len_nonneg (encode_names ps)).
  rewrite len_app, len_be16, (proj2 (Z.geb_le _ _)) by lia.
  assert (uint16_ok (len (encode_names ps))) as Hu by (unfold uint16_ok; lia).
  rewrite (int16_here [] _ (encode_names ps) 0 Hu eq_refl : int16_at (be16 _ ++ _) 0 = _). cbn [obind].
  replace ((_ <? 0) || _) with false by lia. apply (alpn_names_spec ps _ (be16 _)); [done|done|lens|].
  pose proof (length_encode_names ps). rewrite length_app. lia.
Qed.

Lemma parseSupportedVersions_spec es :
  Forall client_ext_ok es ->
  parseSupportedVersionsFromExtensions (encode_exts (map client_raw es)) = Ok (default 0 (head (omap supported es))).
Proof.
  intros Hes. unfold parseSupportedVersionsFromExtensions. case_match eqn:Hl.
  { apply Z.ltb_lt, short_exts, map_eq_nil in Hl. by subst. }
  eapply (skip_exts versions_loop 43 0 _ supported (fun _ _ _ => eq_refl)) with (pre := []); [| |done..|apply exts_fuel];
    intros [ps|vs|t d]; cbn [client_ext_ok client_raw fst snd supported]; try done; [|tauto].
  intros [Hvs Hn] _. eexists; split; [done|]. rewrite len_cons, len_encode_versions, (proj2 (Z.geb_le _ _)) by lia.
  set (n := 2 * Z.of_nat (length vs)) in *. rewrite (index_at [] n (encode_versions vs) 0 eq_refl : index (n :: _) 0 = _).
  cbn [obind]. assert (n `rem` 2 = 0 /\ n ÷ 2 = Z.of_nat (length vs)) as [-> ->].
  { unfold n. rewrite Z.mul_comm. split; [apply Z.rem_mul|apply Z.quot_mul]; lia. }
  replace (_ || _ || _) with false by lia. rewrite Nat2Z.id, (highest_version_spec vs [n]) by (done || lia).
  f_equal. apply Z.max_r. unfold highest. induction (filter _ vs) as [|v l IH]; cbn; lia.
Qed.

(** ** From the probe to the agent *)

Lemma server_record_hello minor m more rest (record := server_record minor m more) :
  message_ok m -> 1 <= minor -> len record < 5 + 2 ^ 16 ->
  uint16_ok (len (server_handshake m more)) /\ tls_record_size (record ++ rest) = len record
  /\ (tls_hello 2 (record ++ rest) <-> 52 <= len (record ++ rest) /\ len record <= MAX_MSG_SIZE).
Proof.
  intros Hm Hv Hmax. assert (len record = 5 + len (server_handshake m more)) as Hl by (unfold record, server_record; lens).
  pose proof (len_nonneg rest). pose proof (len_nonneg (server_handshake m more)).
  assert (uint16_ok (len (server_handshake m more))) as Hu by (unfold uint16_ok in *; lia).
  assert (tls_record_size (record ++ rest) = len record) as Hs.
  { rewrite Hl. unfold tls_record_size, record, server_record. generalize (len (server_handshake m more)). intros x.
    cbn. pose proof (Z.div_mod x 256). lia. }
  split_and!; [done..|]. unfold tls_hello. rewrite Hs.
  change (Z.of_nat (length (record ++ rest))) with (len (record ++ rest)). rewrite len_app. split; [tauto|].
  intros [H52 Hle]. split_and!; done || lia.
Qed.

(** The bytes kept of a record. *)
Lemma kept_bytes total : 0 <= total <= MAX_MSG_SIZE ->
  let n := Z.land total (MAX_MSG_SIZE - 1) in
  0 <= n < MAX_MSG_SIZE /\ (n = 0 -> total = 0 \/ total = 2048) /\ (if Z.testbit total 11 then n < total else n = total).
Proof.
  intros Ht n. unfold n. rewrite msg_mask by done. destruct (Z.testbit total 11) eqn:Hbit.
  - assert (2048 <= total); [|unfold MAX_MSG_SIZE in *; lia].
    destruct (Z.lt_ge_cases total 2048); [|done]. rewrite Z.testbit_true in Hbit by lia.
    by rewrite Z.div_small in Hbit by (change (2 ^ 11) with 2048; lia).
  - assert (total <> MAX_MSG_SIZE) by (intros ->; by vm_compute in Hbit). lia.
Qed.

Lemma hello_kept total : 5 <= total -> total <= MAX_MSG_SIZE ->
  let n := Z.land total (MAX_MSG_SIZE - 1) in
  0 <= n <= total /\ n < MAX_MSG_SIZE
  /\ if total =? 2048 then n = 0 else n <> 0 /\ if Z.testbit total 11 then n < total else n = total.
Proof.
  intros H5 Hmax n. destruct (kept_bytes total) as (Hn & Hz & Hbit); [lia|]. fold n in Hn, Hz, Hbit.
  split; [destruct (Z.testbit _ 11); lia|]. split; [lia|].
  destruct (Z.eqb_spec total 2048) as [->|Hne]; [done|]. split; [|done]. intros [|]%Hz; lia.
Qed.

Section seen.
Context {G : Gopacket}.

(** The agent's view of a captured server hello of which [n] bytes were kept. *)
Lemma seen_server_hello hs cookie bs n :
  0 <= n -> n <= len bs ->
  seen (Ev_tls_hello (hs <| he_data ::= write_prefix (take (Z.to_nat n) bs) |> <| he_size := n |>
                         <| he_type := S_TLS_SERVER_HELLO |> <| he_cookie := cookie |>))
  = connection.TLSServerHello cookie <$> result (ParseServerHello (take (Z.to_nat n) bs)).
Proof.
  intros Hn Hl. cbn. unfold write_prefix. rewrite take_app_length' by (rewrite length_take; unfold len in Hl; lia). done.
Qed.

Lemma find_client_hello_spec before h after es :
  Forall (fun h => HandshakeType h <> 1) before -> HandshakeType h = 1 ->
  Extensions h = encode_exts (map client_raw es) -> Forall client_ext_ok es ->
  find_client_hello (before ++ h :: after)
  = Ok (MkClientHello (string_of_bytes (ch_SNI h))
      (let v := default 0 (head (omap supported es)) in if v =? 0 then ProtocolVersion h else v)
      (default [] (head (omap offered es)))).
Proof.
  intros Hb Hh Hx Hes. induction Hb as [|b before Hn _ IH]; cbn [app find_client_hello].
  - rewrite Hh, Hx, Z.eqb_refl. case_match eqn:Hl.
    + rewrite parseALPN_spec, parseSupportedVersions_spec by done. cbn [obind]. cbv zeta. by destruct (_ =? 0).
    + assert (map client_raw es = []) as ->%map_eq_nil by (apply short_exts; lia). done.
  - by rewrite (proj2 (Z.eqb_neq _ 1) Hn).
Qed.
End seen.

(** ** Properties *)

(** The parser comes back, with a value or an error. *)
Definition answers {A} (m : outcome A) : Prop := (exists a, m = Ok a) \/ exists e, m = Err e.

Lemma fine_answers {A} (P : A -> Prop) m : fine P m -> answers m.
Proof. unfold answers. destruct m; naive_solver. Qed.

(** C28: no captured bytes make a hello parser panic or loop.  Whatever the bytes,
    [ParseServerHello] answers with a hello or an error, and so does [ParseClientHello]
    whatever handshakes [gopacket] finds in them: no length field, consistent or not,
    takes an index or a slice out of range. *)
Theorem hello_parsers_total {G : Gopacket} record :
  Forall is_byte record ->
  (forall hs, LayerTLS (NewPacket record) = Some (TLS (Some hs)) -> Forall (fun h => Forall is_byte (Extensions h)) hs) ->
  answers (ParseServerHello record) /\ answers (ParseClientHello record).
Proof.
  intros Hb Hx. split; apply (fine_answers (fun _ => True)); [by apply ParseServerHello_fine|].
  unfold ParseClientHello. destruct (len record =? 0); [done|]. destruct (ErrorLayer _); [done|].
  destruct (LayerTLS _) as [[[hs|]|]|]; try done. by apply find_client_hello_fine, Hx.
Qed.

(** C13: the parameters a server chose reach the agent.  A buffer that starts with a
    record whose first message is a server hello is captured when the buffer has at least
    52 bytes and the record at most 30720, except a record of 2048 bytes; what is
    captured and read back from the ring buffer gives the version (that of
    [supported_versions] where the server sent it, the legacy one otherwise), the cipher
    suite and the protocol of its last ALPN extension, whatever other extensions and
    messages the record has, unless the length of the record, header included, has bit
    11 set: then it arrives without its last 2048 bytes and is refused by the parser.
    A server hello without session identifier and extensions is a record of 47 bytes, so
    one that is sent alone is not captured. *)
Theorem server_hello_reported {G : Gopacket} (E : Env) b hs cookie pad minor m more rest :
  let record := server_record minor m more in
  let bs := record ++ rest in
  message_ok m -> 1 <= minor -> plain_buffer b bs -> len record < 5 + 2 ^ 16 ->
  len (he_data hs) = MAX_MSG_SIZE -> 0 <= cookie < 2 ^ 64 ->
  let r := capture_tls_server_hello hs b (len bs) in
  let ev := Ev_tls_hello (r.2 <| he_type := S_TLS_SERVER_HELLO |> <| he_cookie := cookie |>) in
  r.1 = (52 <=? len bs) && (len record <=? 30720) && negb (len record =? 2048)
  /\ (r.1 = true ->
      readEvent (wire pad ev)
      = if Z.testbit (len record) 11 then None else Some (connection.TLSServerHello cookie (negotiated m))).
Proof.
  intros record bs Hm Hv Hb H16 Hd Hc. cbv zeta.
  destruct (server_record_hello minor m more rest Hm Hv H16) as (Hu & Hs & Hh).
  change (tls_record_size bs = len record) in Hs. change (tls_hello 2 bs <-> 52 <= len bs /\ len record <= 30720) in Hh.
  unfold capture_tls_server_hello. rewrite (capture_tls_hello_plain b bs Hb 2 hs : capture_tls_hello 2 hs b (len bs) = _).
  case_decide as Ht; [|split; [|done]; cbn [fst]; destruct (Z.leb_spec 52 (len bs)), (Z.leb_spec (len record) 30720); done || tauto].
  apply Hh in Ht as [H52 Hmax]. rewrite (proj2 (Z.leb_le _ _) H52), (proj2 (Z.leb_le _ _) Hmax). cbn [andb]. cbv zeta.
  rewrite Hs. change 30720 with MAX_MSG_SIZE in Hmax.
  destruct (hello_kept (len record)) as (Hn & Hn' & Hk); [|done|].
  { pose proof (len_nonneg (server_handshake m more)). unfold record, server_record. lens. }
  set (n := Z.land _ _) in *. destruct (Z.eqb_spec (len record) 2048) as [Hr|Hr].
  { by rewrite Hk, Z.eqb_refl. }
  destruct Hk as [Hn0 Hbit]. rewrite (proj2 (Z.eqb_neq _ _) Hn0). split; [done|intros _]. cbn [snd].
  assert (n <= len bs) by (unfold bs; pose proof (len_nonneg rest); lens).
  rewrite readEvent_wire by (cbn; unfold write_prefix, fits; rewrite length_app, length_drop, length_take;
    unfold len in *; split_and!; try lia; by right).
  rewrite seen_server_hello by lia. unfold bs. rewrite take_app_le by (unfold len in *; lia).
  destruct (Z.testbit _ 11).
  - assert (result (ParseServerHello (take (Z.to_nat n) record)) = None) as ->; [|done].
    apply ParseServerHello_cut; [done|]. fold record. unfold len in *. lia.
  - rewrite take_ge by (unfold len in *; lia). rewrite <- (app_nil_r record).
    unfold record. by rewrite ParseServerHello_spec.
Qed.

(** A TLS 1.3 server hello with HTTP/2 selected, and the key share it comes with. *)
Definition demo_message : server_message :=
  ServerMessage 0x0303 (zeros 32) [7; 7] 0x1301 0
    (Some [Server_other 51 [0; 29; 0; 2; 1; 2]; Supported_version 0x0304; Selected_alpn (bytes_of_string "h2")]).

Definition demo_gopacket (hs : list TLSHandshakeRecordClientHello) : Gopacket :=
  {| NewPacket _ := MkPacket None (Some (TLS (Some hs))) |}.

Definition demo_hello_event : socket_tls_hello_event := HelloEvent 0 0 0 (zeros (Z.to_nat MAX_MSG_SIZE)).

(** The bytes of a closed list, by evaluation. *)
Ltac bytes := apply (bool_decide_unpack (Forall (fun b => 0 <= b < 256) _)); vm_compute; exact I.

Lemma demo_message_ok : message_ok demo_message.
Proof.
  unfold message_ok, uint16_ok. cbn. split_and!; try (done || lia).
  change (m_exts demo_message) with [Server_other 51 [0; 29; 0; 2; 1; 2]; Supported_version 0x0304; Selected_alpn [104; 50]].
  rewrite !Forall_cons, Forall_nil. unfold server_ext_ok, ext_ok, uint16_ok, name_ok, len. cbn. lia.
Qed.

Lemma server_hello_reported_witness :
  let record := server_record 3 demo_message [] in
  let r := @capture_tls_server_hello (flat_env 0 4096 (record ++ [])) demo_hello_event (BufInfo 4096 0) (len (record ++ [])) in
  let ev := Ev_tls_hello (r.2 <| he_type := S_TLS_SERVER_HELLO |> <| he_cookie := 9 |>) in
  r.1 = true
  /\ (r.1 = true -> @readEvent (@impl (demo_gopacket [])) (wire [] ev)
      = Some (@connection.TLSServerHello (@impl (demo_gopacket [])) 9 (MkServerHello 0x0304 0x1301 "h2"))).
Proof.
  apply (@server_hello_reported (demo_gopacket []) (flat_env 0 4096 (server_record 3 demo_message [] ++ [])) (BufInfo 4096 0)
    demo_hello_event 9 [] 3 demo_message [] []).
  - exact demo_message_ok.
  - lia.
  - apply flat_plain_buffer; [bytes|done].
  - by vm_compute.
  - by vm_compute.
  - lia.
Defined.

(** C27: what a client offers reaches the agent.  Of a captured client hello in which
    [gopacket] finds a client hello whose extensions are any well-formed list, the event
    has its server name, the protocols of its first ALPN extension in their order, and
    the highest of the TLS 1.0 to 1.3 versions its [supported_versions] extension lists
    (values outside that range, such as GREASE, are passed over), or the legacy version
    when there is none; handshakes of other types before it do not matter. *)
Theorem client_hello_reported {G : Gopacket} pad e before h after es :
  event_fits (Ev_tls_hello e) -> he_type e = S_TLS_CLIENT_HELLO ->
  NewPacket (take (Z.to_nat (he_size e)) (he_data e)) = MkPacket None (Some (TLS (Some (before ++ h :: after)))) ->
  Forall (fun h => HandshakeType h <> 1) before -> HandshakeType h = 1 ->
  Extensions h = encode_exts (map client_raw es) -> Forall client_ext_ok es ->
  readEvent (wire pad (Ev_tls_hello e))
  = Some (connection.TLSClientHello (he_cookie e)
      (MkClientHello (string_of_bytes (ch_SNI h))
         (let v := default 0 (head (omap supported es)) in if v =? 0 then ProtocolVersion h else v)
         (default [] (head (omap offered es))))).
Proof.
  intros Hfit Ht Hp Hb Hh Hx Hes. rewrite readEvent_wire by done. cbn [seen]. rewrite Ht, Z.eqb_refl.
  destruct Hfit as (_ & _ & Hsz & Hd). cbn [AgentEvents.ParseClientHello impl]. unfold ParseClientHello.
  replace (len _ =? 0) with false by (unfold len; rewrite length_take; lia).
  rewrite Hp. cbn [ErrorLayer LayerTLS]. by rewrite (find_client_hello_spec before h after es).
Qed.

(** GREASE, TLS 1.3 and 1.2 offered with "h2" and "http/1.1". *)
Definition demo_exts : list client_ext :=
  [Client_other 0x0A0A [0]; Supported_versions [0x0A0A; 0x0304; 0x0303];
   Offered_alpn [bytes_of_string "h2"; bytes_of_string "http/1.1"]].

Definition demo_handshake : TLSHandshakeRecordClientHello :=
  MkHandshake 1 0x0303 (bytes_of_string "qpoint.io") (encode_exts (map client_raw demo_exts)).

Lemma demo_exts_ok : Forall client_ext_ok demo_exts.
Proof.
  unfold demo_exts. rewrite !Forall_cons, Forall_nil. cbn [client_ext_ok]. rewrite !Forall_cons, !Forall_nil.
  unfold ext_ok, uint16_ok, name_ok, len. cbn. lia.
Qed.

Lemma client_hello_reported_witness :
  let G := demo_gopacket [MkHandshake 2 0 [] []; demo_handshake] in
  @readEvent (@impl G) (wire [] (Ev_tls_hello (demo_hello_event <| he_type := S_TLS_CLIENT_HELLO |> <| he_size := 60 |>)))
  = Some (@connection.TLSClientHello (@impl G) 0 (MkClientHello "qpoint.io" 0x0304 ["h2"; "http/1.1"])).
Proof.
  etrans; [apply (@client_hello_reported (demo_gopacket [MkHandshake 2 0 [] []; demo_handshake]) []
    (demo_hello_event <| he_type := S_TLS_CLIENT_HELLO |> <| he_size := 60 |>) [MkHandshake 2 0 [] []] demo_handshake [] demo_exts)|].
  - split; [left; reflexivity|]. split; [split; [discriminate|reflexivity]|].
    split; [split; reflexivity|]. vm_compute. reflexivity.
  - reflexivity.
  - reflexivity.
  - apply Forall_singleton. discriminate.
  - reflexivity.
  - reflexivity.
  - exact demo_exts_ok.
  - apply (f_equal (fun h => Some (@connection.TLSClientHello (@impl _) 0 h))). vm_compute. reflexivity.
Defined.

Lemma hello_parsers_total_witness :
  let G := demo_gopacket [demo_handshake] in
  answers (ParseServerHello (server_record 3 demo_message [])) /\ answers (@ParseClientHello G [22]).
Proof.
  assert (forall hs, LayerTLS (@NewPacket (demo_gopacket [demo_handshake]) []) = Some (TLS (Some hs)) ->
    Forall (fun h => Forall is_byte (Extensions h)) hs) as Hx.
  { intros hs [= <-]. apply Forall_singleton. bytes. }
  split.
  - refine (proj1 (@hello_parsers_total (demo_gopacket [demo_handshake]) (server_record 3 demo_message []) _ Hx)). bytes.
  - refine (proj2 (@hello_parsers_total (demo_gopacket [demo_handshake]) [22] _ Hx)). bytes.
Defined.
