(* ===== verification/Connection.v ===== *)
(** * Connections of the agent: [pkg/connection]

    The manager keeps a connection for each cookie and pushes events into its queue;
    the connection's goroutine takes them out and hands data to the processor of its
    protocol ([StreamProcessor], the interface of that name).  Connections are objects
    the manager, the goroutine and the map share, so they live in a list and the map
    holds their place in it.  Left out are the process, the tags, the domain and the
    metrics of a connection.  What the stream factory decides from these and from the
    configuration is a parameter: its answer may differ from one call to the next. *)

From stdpp Require Import base numbers list gmap strings.
From S2P Require Import Prelude Tap AgentEvents Queue.

(** How [Process] ends: without error, with one that is logged, with an
    [ErrStreamUnrecoverable], or with a panic. *)
Inductive process_end := Processed | Failed | Unrecoverable | Panicking.

(** A processor knows its connection by the open event and changes only itself. *)
Class StreamProcessor := {
  processor : Type;
  sp_Process : connection.OpenEvent -> connection.DataEvent -> processor -> processor * process_end;
  sp_Close : processor -> processor;
  sp_Closed : processor -> bool }.

(** Where the goroutine of a connection is: in the loop of [watch], in [Close] waiting
    for the queue to drain, or at its end. *)
Inductive goroutine_state := InWatch | InClose | Returned.

Section conn.
Context {T : TlsUtils} {SP : StreamProcessor}.

Record Connection := MkConnection {
  streamProcessor : option processor;
  held : bool;
  cookie : Z;
  Protocol : string;
  IsTLS : bool;
  TLSClientHello : option ClientHello;
  TLSServerHello : option ServerHello;
  eventQueue : Queue connection.Event;
  OpenEvent : connection.OpenEvent;
  CloseEvent : option connection.CloseEvent;
  OriginalDestination : option qnet.NetAddr;
  HandlerType : string;
  skipStreamProcessing : bool;
  routine : goroutine_state }.
#[export] Instance Connection_settable : Settable Connection :=
  fun r => MkConnection (streamProcessor r) (held r) (cookie r) (Protocol r) (IsTLS r) (TLSClientHello r) (TLSServerHello r)
    (eventQueue r) (OpenEvent r) (CloseEvent r) (OriginalDestination r) (HandlerType r) (skipStreamProcessing r) (routine r).

Record Manager := MkManager {
  conns : list Connection;
  connections : gmap Z nat;
  streamers : nat }.
#[export] Instance Manager_settable : Settable Manager := fun r => MkManager (conns r) (connections r) (streamers r).

Definition NewManager : Manager := MkManager [] ∅ 0.

(** The goroutine of the connection starts with [Open], right after it is stored. *)
Definition NewConnection (openEvent : connection.OpenEvent) : Connection :=
  MkConnection None (connection.o_IsRedirected openEvent) (connection.o_Cookie openEvent) "" false None None NewQueue openEvent
    None None
    (if connection.o_IsRedirected openEvent then connection.HandlerType_REDIRECTED else connection.HandlerType_RAW) false InWatch.

(** The answer of [streamFactory.OnConnection] to the [n]th protocol event. *)
Context (createStreamer : nat -> Connection -> option processor).

Definition processOpenEvent (event : connection.OpenEvent) (m : Manager) : Manager :=
  match connections m !! connection.o_Cookie event with
  | Some _ => m
  | None =>
      m <| conns ::= fun l => l ++ [NewConnection event] |>
        <| connections ::= insert (connection.o_Cookie event) (length (conns m)) |>
  end.

(** An event that the queue refuses is logged and dropped. *)
Definition HandleEvent (event : connection.Event) (m : Manager) : option Manager :=
  match event with
  | connection.Open e => Some (processOpenEvent e m)
  | _ =>
      match connections m !! connection.Key event with
      | None => Some m
      | Some k =>
          conn ← conns m !! k;
          '(_, q) ← Push connection.QueuePriority [event] (eventQueue conn);
          Some (m <| conns ::= insert k (conn <| eventQueue := q |>) |>)
      end
  end.

Definition finalizeConnection (conn : Connection) (m : Manager) : Manager :=
  m <| connections ::= delete (cookie conn) |>.

(** [Connection.Close] up to the wait: the connection leaves the map, and its queue
    refuses what is pushed from then on.  Nothing but the map leads to the queue, so
    the two are one step. *)
Definition Close (k : nat) (conn : Connection) (m : Manager) : Manager :=
  let m := finalizeConnection conn m in
  m <| conns ::= insert k (conn <| eventQueue ::= Drain_start |> <| routine := InClose |>) |>.

(** [Connection.Close] after the wait.  [Drain] waits for the queue to become empty, but
    the goroutine that would empty it is the one that waits: when something is left,
    [Drain] gives up after its timeout and [Queue.Close] drops it. *)
Definition Close_end (conn : Connection) : Connection :=
  conn <| eventQueue ::= fun q => (Queue.Close q).2 |> <| streamProcessor ::= fmap sp_Close |> <| routine := InWatch |>.

Definition processProtocolEvent (n : nat) (event : connection.ProtocolEvent) (c : Connection) : Connection :=
  if String.eqb (Protocol c) (connection.p_Protocol event) && negb (String.eqb (Protocol c) connection.Protocol_UNKNOWN)
  then if connection.p_IsTLS event && negb (IsTLS c) then c <| IsTLS := true |> else c
  else
    let c := c <| Protocol := connection.p_Protocol event |> <| IsTLS := connection.p_IsTLS event |> in
    c <| streamProcessor := createStreamer n c |>.

(** A panic of the processor is recovered by [processEvent]. *)
Definition processDataEvent (event : connection.DataEvent) (c : Connection) : Connection :=
  match streamProcessor c with
  | Some p =>
      if negb (sp_Closed p) && negb (skipStreamProcessing c) then
        let '(p, r) := sp_Process (OpenEvent c) event p in
        let c := c <| streamProcessor := Some p |> in
        match r with Unrecoverable => c <| skipStreamProcessing := true |> | _ => c end
      else c
  | None => c
  end.

Definition processEvent (k : nat) (event : connection.Event) (c : Connection) (m : Manager) : Manager :=
  let keep c := m <| conns ::= insert k c |> in
  match event with
  | connection.Protocol e => (keep (processProtocolEvent (streamers m) e c)) <| streamers ::= S |>
  | connection.Data e => keep (processDataEvent e c)
  | connection.OriginalDestination _ d => keep (c <| OriginalDestination := Some d |>)
  | connection.HandlerType _ t => keep (c <| HandlerType := t |>)
  | connection.Close e =>
      let c := c <| CloseEvent := Some e |> in
      if held c then keep c else Close k c m
  | connection.Done _ =>
      let c := c <| held := false |> in
      match CloseEvent c with None => keep c | Some _ => Close k c m end
  | connection.TLSClientHello _ h => keep (c <| TLSClientHello := Some h |>)
  | connection.TLSServerHello _ h => keep (c <| TLSServerHello := Some h |>)
  | connection.Open _ | connection.Hostname _ _ | connection.Error _ _ _ => keep c
  end.

(** One step of the goroutine of connection [k]: a round of [watch], or the end of
    [Close] with the return to [watch]. *)
Definition watch (k : nat) (m : Manager) : option Manager :=
  match conns m !! k with
  | None => Some m
  | Some c =>
      match routine c with
      | Returned => Some m
      | InClose => Some (m <| conns ::= insert k (Close_end c) |>)
      | InWatch =>
          '(r, q) ← Next_round (eventQueue c);
          let c := c <| eventQueue := q |> in
          Some (match r with
                | Got event => processEvent k event c m
                | NoMore => m <| conns ::= insert k (c <| routine := Returned |>) |>
                | Await => m <| conns ::= insert k c |>
                end)
      end
  end.

End conn.
