(* ===== verification/Agent.v ===== *)
(** * The agent from the ring buffer to the protocol processors

    Reader, Connection and the Redis stream put together: records of the ring buffer are
    read one after the other, other parts of the agent write events of their own, and
    the goroutines of the connections run in between, in any order.  The theorems are
    proved against the interface [StreamProcessor]; the Redis stream is an instance. *)

From stdpp Require Import base numbers list gmap strings.
From S2P Require Import Prelude Tap Common Redis RedisSpec AgentEvents Queue QueueSpec Reader Wire Connection.

Section agent.
Context {T : TlsUtils} {SP : StreamProcessor} (createStreamer : nat -> Connection -> option processor).

Inductive agent_op :=
| Record_ (RawSample : list Z)
| Write_ (e : connection.Event)
| Watch_ (k : nat).

Definition agent_step (op : agent_op) (m : Manager) : option Manager :=
  match op with
  | Record_ raw => match readEvent raw with Some e => HandleEvent e m | None => Some m end
  | Write_ e => HandleEvent e m
  | Watch_ k => watch createStreamer k m
  end.

Fixpoint agent_run (ops : list agent_op) (m : Manager) : option Manager :=
  match ops with [] => Some m | op :: ops' => m ← agent_step op m; agent_run ops' m end.

Lemma agent_run_app ops1 ops2 m : agent_run (ops1 ++ ops2) m = (m' ← agent_run ops1 m; agent_run ops2 m').
Proof.
  revert m. induction ops1 as [|op ops1 IH]; intros m; cbn; [done|].
  destruct (agent_step op m); cbn; [apply IH|done].
Qed.

(** ** Consistency of the manager *)

Abbreviation QP := connection.QueuePriority.

Lemma event_priority_int (e : connection.Event) p : QP e = Some p -> p <= MaxInt.
Proof. unfold MaxInt. destruct e; cbn; intros; simplify_eq; lia. Qed.

Lemma connection_Push q a e : implements QP q a -> exists err q', Push QP [e] q = Some (err, q')
  /\ APush err = (spec_op QP (QPush [e]) a).1 /\ implements QP q' (spec_op QP (QPush [e]) a).2.
Proof.
  intros I. destruct (code_op_implements QP event_priority_int (QPush [e]) q a I) as (q' & E & I').
  cbn [code_op] in E. destruct (Push QP [e] q) as [[err q1]|]; cbn in E; [|done]. injection E as E ->. eauto.
Qed.

Lemma connection_Next q a : implements QP q a -> exists r q', Next_round q = Some (r, q')
  /\ ANext r = (spec_op QP QNext a).1 /\ implements QP q' (spec_op QP QNext a).2.
Proof.
  intros I. destruct (code_op_implements QP event_priority_int QNext q a I) as (q' & E & I').
  cbn [code_op] in E. destruct (Next_round q) as [[r q1]|]; cbn in E; [|done]. injection E as E ->. eauto.
Qed.

(** A connection is in the map as long as its queue takes events; between leaving the
    map and closing its queue its goroutine is in [Close]; a closed queue is empty. *)
Definition conn_ok (m : Manager) (k : nat) (c : Connection) (a : arrivals) : Prop :=
  implements QP (eventQueue c) a
  /\ (a_closed a = true -> items a = [] /\ a_draining a = true)
  /\ (a_draining a = false <-> connections m !! cookie c = Some k)
  /\ (routine c = InClose <-> a_draining a = true /\ a_closed a = false)
  /\ (routine c = Returned -> a_closed a = true).

Definition sane (m : Manager) : Prop :=
  (forall k c, conns m !! k = Some c -> exists a, conn_ok m k c a)
  /\ forall ck k, connections m !! ck = Some k -> exists c, conns m !! k = Some c /\ cookie c = ck.

Lemma sane_insert m k c c' a :
  sane m -> conns m !! k = Some c -> cookie c' = cookie c -> conn_ok m k c' a -> sane (m <| conns ::= insert k c' |>).
Proof.
  intros [S1 S2] L E O. split; cbn.
  - intros k1 c1. destruct (decide (k1 = k)) as [->|N].
    + rewrite list_lookup_insert_eq by (by eapply lookup_lt_Some). intros [= <-]. by exists a.
    + rewrite list_lookup_insert_ne by done. apply S1.
  - intros ck k1 L1. destruct (S2 ck k1 L1) as (c1 & L2 & <-). destruct (decide (k1 = k)) as [->|N].
    + rewrite list_lookup_insert_eq by (by eapply lookup_lt_Some). exists c'. split; [done|congruence].
    + rewrite list_lookup_insert_ne by done. eauto.
Qed.

Lemma sane_open e m : sane m -> sane (processOpenEvent e m).
Proof.
  intros [S1 S2]. unfold processOpenEvent. destruct (connections m !! _) as [k|] eqn:L; [done|]. split; cbn.
  - intros k c [Lc|[Lk Lc]]%lookup_app_Some.
    + destruct (S1 k c Lc) as (a & I & Cl & M & D & W). exists a. split; [done|]. split; [done|]. split; [|by split].
      cbn. rewrite M, lookup_insert_Some. split; [|by intros [[_ <-]|[? ?]]; [apply lookup_lt_Some in Lc; lia|]].
      intros M'. right. split; [|done]. intros E. by rewrite E, M' in L.
    + destruct (k - length (conns m))%nat eqn:K; [|done]. cbn in Lc. injection Lc as <-. exists (MkArrivals [] false false).
      split; [apply NewQueue_implements|]. cbn. rewrite lookup_insert_eq. replace k with (length (conns m)) by lia. naive_solver.
  - intros ck k. rewrite lookup_insert_Some. intros [[<- <-]|[N M]].
    + exists (NewConnection e). by rewrite lookup_app_r, Nat.sub_diag by lia.
    + destruct (S2 ck k M) as (c & Lc & E). exists c. by rewrite (lookup_app_l_Some _ _ _ _ Lc).
Qed.
(** An event for a connection in the map goes to the end of what it has received. *)
Lemma HandleEvent_queued e m k c a :
  (forall o, e <> connection.Open o) -> connections m !! connection.Key e = Some k -> conns m !! k = Some c -> conn_ok m k c a ->
  cookie c = connection.Key e ->
  exists q', HandleEvent e m = Some (m <| conns ::= insert k (c <| eventQueue := q' |>) |>)
    /\ conn_ok m k (c <| eventQueue := q' |>) (MkArrivals (items a ++ [e]) false false).
Proof.
  intros N L Lc (I & Cl & M & D & W) Ek. assert (a_draining a = false) as O by (apply M; by rewrite Ek).
  destruct a as [l [|] dr]; cbn in *; [destruct Cl; congruence|]. subst dr.
  destruct (connection_Push _ _ e I) as (err & q' & P & R & I'). cbn in R, I'. exists q'.
  unfold HandleEvent. rewrite L, Lc. cbn. rewrite P. split.
  - destruct e; try done. by destruct (N e).
  - split; [done|]. split; [done|]. split; [cbn; by rewrite Ek|by split].
Qed.

Lemma HandleEvent_unknown e m :
  (forall o, e <> connection.Open o) -> connections m !! connection.Key e = None -> HandleEvent e m = Some m.
Proof. intros N L. unfold HandleEvent. rewrite L. destruct e; try done. by destruct (N e). Qed.

Lemma HandleEvent_sane e m : sane m -> exists m', HandleEvent e m = Some m' /\ sane m'.
Proof.
  intros S. destruct (match e with connection.Open o => Some o | _ => None end) as [o|] eqn:O.
  { destruct e; simplify_eq. exists (processOpenEvent o m). split; [done|]. by apply sane_open. }
  assert (forall o, e <> connection.Open o) as N by (intros o ->; done).
  destruct (connections m !! connection.Key e) as [k|] eqn:L; [|by exists m; rewrite HandleEvent_unknown].
  pose proof S as [S1 S2]. destruct (S2 _ _ L) as (c & Lc & Ek). destruct (S1 k c Lc) as [a Oa].
  destruct (HandleEvent_queued e m k c a N L Lc Oa Ek) as (q' & -> & Oq).
  eexists. split; [done|]. by eapply sane_insert.
Qed.

Lemma in_watch m k c a : conn_ok m k c a -> routine c = InWatch -> a_draining a = a_closed a.
Proof.
  intros (_ & Cl & _ & D & _) W. rewrite W in D. destruct a as [l [|] [|]]; cbn in *; naive_solver.
Qed.

(** What one round of [watch] finds. *)
Lemma watch_round m k c a :
  sane m -> conns m !! k = Some c -> conn_ok m k c a -> routine c = InWatch ->
  match take_best QP (items a) with
  | Some (e, l) =>
      a_closed a = false /\ exists q, watch createStreamer k m = Some (processEvent createStreamer k e (c <| eventQueue := q |>) m)
        /\ implements QP q (MkArrivals l false false)
  | None => exists c' q, watch createStreamer k m = Some (m <| conns ::= insert k c' |>)
      /\ implements QP q a /\ c' = c <| eventQueue := q |> <| routine := if a_closed a then Returned else InWatch |>
  end.
Proof.
  intros S Lc O Wt. pose proof (in_watch m k c a O Wt) as Dr. destruct O as (I & Cl & _). unfold watch. rewrite Lc, Wt.
  destruct (connection_Next _ _ I) as (r & q & -> & R & I'). destruct a as [l cl dr]; cbn in *. subst dr.
  destruct (take_best QP l) as [[e l']|] eqn:E; cbn in *; simplify_eq.
  - assert (cl = false) as -> by (destruct cl; [by destruct Cl as [-> _]|done]). split; [done|]. by exists q.
  - eexists _, q. split; [|split; [done|reflexivity]]. destruct cl; cbn; [done|]. do 3 f_equal. destruct c; cbn in *; by subst.
Qed.

Lemma conn_ok_queue m k c c' a a' :
  conn_ok m k c a -> implements QP (eventQueue c') a' -> cookie c' = cookie c -> a_closed a' = a_closed a ->
  a_draining a' = a_draining a -> (a_closed a' = true -> items a' = []) -> (routine c' = InClose <-> routine c = InClose) ->
  (routine c' = Returned -> a_closed a = true) -> conn_ok m k c' a'.
Proof. intros (I & Cl & M & D & W) I' E C Dr It R1 R2. split; [done|]. rewrite E, C, Dr, R1. rewrite C in It. naive_solver. Qed.

(** [Connection.Close] takes the connection out of the map and closes its queue to
    events; after the wait it closes the queue. *)
Lemma sane_close m k c c' :
  sane m -> conns m !! k = Some c -> cookie c' = cookie c -> connections m !! cookie c = Some k ->
  (exists l, implements QP (eventQueue c') (MkArrivals l false false)) -> sane (Close k c' m).
Proof.
  intros [S1 S2] L E Mk [l I]. unfold Close, finalizeConnection. split; cbn.
  - intros k1 c1. destruct (decide (k1 = k)) as [->|N].
    + rewrite list_lookup_insert_eq by (by eapply lookup_lt_Some). intros [= <-]. exists (MkArrivals l false true).
      destruct (code_op_inv QP event_priority_int QDrain _ _ _ (Drain_start (eventQueue c')) I eq_refl) as [_ I1].
      split; [exact I1|]. cbn. rewrite lookup_delete_eq. naive_solver.
    + rewrite list_lookup_insert_ne by done. intros Lc. destruct (S1 k1 c1 Lc) as (a1 & I1 & Cl & M & D & W). exists a1.
      split; [done|]. split; [done|]. split; [|by split]. cbn. rewrite M, lookup_delete_Some, E. split; [|by intros []].
      intros M1. split; [|done]. intros Ec. rewrite <- Ec, Mk in M1. by simplify_eq.
  - intros ck k1. rewrite lookup_delete_Some, E. intros [N M]. destruct (S2 ck k1 M) as (c1 & L1 & E1). exists c1. split; [|done].
    rewrite list_lookup_insert_ne; [done|]. intros <-. by simplify_eq.
Qed.

Lemma Close_end_ok m k c a : conn_ok m k c a -> routine c = InClose -> conn_ok m k (Close_end c) (MkArrivals [] true true).
Proof.
  intros (I & Cl & M & D & W) Rc. destruct (proj1 D Rc) as [Dr Nc]. destruct a as [l cl dr]; cbn in *. subst.
  destruct (code_op_inv QP event_priority_int QClose _ _ _ (Queue.Close (eventQueue c)).2 I eq_refl) as [_ I2].
  split; [exact I2|]. cbn. split; [done|]. split; [done|]. naive_solver.
Qed.

(** What the handlers leave of a connection. *)
Definition same_shell (c c' : Connection) : Prop :=
  cookie c' = cookie c /\ eventQueue c' = eventQueue c /\ routine c' = routine c.

Lemma protocol_shell n e c : same_shell c (processProtocolEvent createStreamer n e c).
Proof. unfold processProtocolEvent. repeat case_match; done. Qed.

Lemma data_shell e c : same_shell c (processDataEvent e c).
Proof. unfold processDataEvent. repeat case_match; done. Qed.

Lemma sane_keep m k c c' a q l :
  sane m -> conns m !! k = Some c -> conn_ok m k c a -> a_closed a = false -> routine c = InWatch -> implements QP q (MkArrivals l false false) ->
  same_shell (c <| eventQueue := q |>) c' -> sane (m <| conns ::= insert k c' |>).
Proof.
  intros S L O Cl W I (E1 & E2 & E3). eapply sane_insert; [done|done|done|]. cbn in *. pose proof (in_watch _ _ _ _ O W) as Dr.
  eapply (conn_ok_queue m k c c' a (MkArrivals l false false)); cbn; try done; [by rewrite E2|congruence|by rewrite E3|congruence].
Qed.

Lemma processEvent_sane m k c a q l e :
  sane m -> conns m !! k = Some c -> conn_ok m k c a -> a_closed a = false -> routine c = InWatch -> implements QP q (MkArrivals l false false) ->
  sane (processEvent createStreamer k e (c <| eventQueue := q |>) m).
Proof.
  intros S L O Cl W I. set (c1 := c <| eventQueue := q |>).
  assert (forall c', same_shell c1 c' -> sane (m <| conns ::= insert k c' |>)) as K by (intros; by eapply sane_keep).
  assert (forall c', same_shell c1 c' -> sane (Close k c' m)) as X.
  { intros c' (E1 & E2 & E3). eapply sane_close; [done|done|done| |rewrite E2; by eexists].
    pose proof (in_watch _ _ _ _ O W) as Dr. destruct O as (_ & _ & M & _). apply M. congruence. }
  destruct e; cbn [processEvent]; try (by apply K).
  - destruct (held _); [by apply K|by apply X].
  - apply K, data_shell.
  - destruct (K _ (protocol_shell (streamers m) e c1)) as [S1 S2]. by split.
  - destruct (CloseEvent _); [by apply X|by apply K].
Qed.

Lemma watch_sane k m : sane m -> exists m', watch createStreamer k m = Some m' /\ sane m'.
Proof.
  intros S. destruct (conns m !! k) as [c|] eqn:L; [|exists m; unfold watch; by rewrite L].
  pose proof S as [S1 _]. destruct (S1 k c L) as [a O]. destruct (routine c) eqn:W.
  - pose proof (watch_round m k c a S L O W) as R. destruct (take_best QP (items a)) as [[e l]|].
    + destruct R as (Cl & q & -> & I). eexists. split; [done|]. by eapply processEvent_sane.
    + destruct R as (c' & q & -> & I & ->). eexists. split; [done|]. eapply sane_insert; [done|done|done|].
      pose proof O as (_ & Cl & _). eapply (conn_ok_queue m k c _ a a); try done; [naive_solver|..]; cbn; rewrite ?W;
        by destruct (a_closed a).
  - eexists. unfold watch. rewrite L, W. split; [done|]. eapply sane_insert; [done|done|done|]. by eapply Close_end_ok.
  - exists m. unfold watch. by rewrite L, W.
Qed.

Lemma agent_step_sane op m : sane m -> exists m', agent_step op m = Some m' /\ sane m'.
Proof.
  intros S. destruct op as [raw|e|k]; cbn; [|by apply HandleEvent_sane|by apply watch_sane].
  destruct (readEvent raw); [by apply HandleEvent_sane|by exists m].
Qed.

Lemma agent_run_sane ops m : sane m -> exists m', agent_run ops m = Some m' /\ sane m'.
Proof.
  revert m. induction ops as [|op ops IH]; intros m S; cbn; [by exists m|].
  destruct (agent_step_sane op m S) as (m1 & -> & S1). apply (IH m1 S1).
Qed.

Lemma NewManager_sane : sane NewManager.
Proof. split; [by intros k c|]. cbn. intros ck k. by rewrite lookup_empty. Qed.

(** ** Locality *)

(** At most connection [k] changes; it keeps its cookie, and only its own entry may
    leave the map. *)
Definition local (k : nat) (m m' : Manager) : Prop :=
  m' = m \/ exists c c', conns m !! k = Some c /\ cookie c' = cookie c /\ conns m' = <[k := c']> (conns m)
    /\ (connections m' = connections m \/ connections m' = delete (cookie c) (connections m)).

Lemma processEvent_local k e c c1 m : conns m !! k = Some c -> cookie c1 = cookie c -> local k m (processEvent createStreamer k e c1 m).
Proof.
  intros L E. right.
  assert (forall c' m', conns m' = <[k := c']> (conns m) -> connections m' = connections m -> same_shell c1 c' ->
    exists c c', conns m !! k = Some c /\ cookie c' = cookie c /\ conns m' = <[k := c']> (conns m)
      /\ (connections m' = connections m \/ connections m' = delete (cookie c) (connections m))) as K.
  { intros c' m' Em Ec (E1 & _). exists c, c'. rewrite E1. auto. }
  assert (forall c', same_shell c1 c' -> exists c c2, conns m !! k = Some c /\ cookie c2 = cookie c /\ conns (Close k c' m) = <[k := c2]> (conns m)
      /\ (connections (Close k c' m) = connections m \/ connections (Close k c' m) = delete (cookie c) (connections m))) as X.
  { intros c' (E1 & _). eexists c, _. split; [done|]. cbn. split; [|split; [done|right; by rewrite E1, E]]. cbn. congruence. }
  destruct e; cbn [processEvent]; try (eapply K; [reflexivity|done|done]).
  - destruct (held _); [eapply K; [reflexivity|done|done]|by apply X].
  - eapply K; [reflexivity|done|apply data_shell].
  - eapply K; [reflexivity|done|apply protocol_shell].
  - destruct (CloseEvent _); [by apply X|eapply K; [reflexivity|done|done]].
Qed.

Lemma watch_local k m m' : watch createStreamer k m = Some m' -> local k m m'.
Proof.
  unfold watch. destruct (conns m !! k) as [c|] eqn:L; [|intros [= <-]; by left].
  destruct (routine c); [|intros [= <-]; right; exists c, (Close_end c); auto|intros [= <-]; by left].
  destruct (Next_round (eventQueue c)) as [[r q]|]; cbn; [|done]. destruct r; intros [= <-].
  - by eapply processEvent_local.
  - right. eexists c, _. split; [done|]. split; [|split; [reflexivity|by left]]. done.
  - right. eexists c, _. split; [done|]. split; [|split; [reflexivity|by left]]. done.
Qed.

Lemma HandleEvent_local e m m' :
  (forall o, e <> connection.Open o) -> sane m -> HandleEvent e m = Some m' ->
  m' = m \/ exists k c, conns m !! k = Some c /\ cookie c = connection.Key e /\ local k m m' /\ connections m' = connections m.
Proof.
  intros N [S1 S2] H. destruct (connections m !! connection.Key e) as [k|] eqn:L; [|rewrite HandleEvent_unknown in H by done; by left; simplify_eq].
  destruct (S2 _ _ L) as (c & Lc & Ek). destruct (S1 k c Lc) as [a Oa].
  destruct (HandleEvent_queued e m k c a N L Lc Oa Ek) as (q' & E & _). rewrite E in H. simplify_eq. right.
  exists k, c. split; [done|]. split; [done|]. split; [|done]. right. eexists c, _. split; [done|]. split; [|split; [reflexivity|by left]]. done.
Qed.

(** ** Delivery *)

Definition op_event (op : agent_op) : option connection.Event :=
  match op with Record_ raw => readEvent raw | Write_ e => Some e | Watch_ _ => None end.

(** The events of one cookie that the operations hand to the manager. *)
Definition events_for (ck : Z) (ops : list agent_op) : list connection.Event :=
  filter (fun e => connection.Key e = ck) (omap op_event ops).

(** ** Without a protocol *)

(** A connection that has no processor and no protocol event in its queue. *)
Definition unnamed_event (e : connection.Event) : Prop := forall p, e <> connection.Protocol p.
Definition quiet (ck : Z) (c : Connection) : Prop :=
  cookie c = ck -> streamProcessor c = None /\ exists a, implements QP (eventQueue c) a /\ Forall unnamed_event (items a).

Lemma take_best_elems (l : list connection.Event) e r : take_best QP l = Some (e, r) -> e ∈ l /\ r ⊆ l.
Proof.
  revert e r. induction l as [|x l IH]; intros e r; cbn; [done|].
  destruct (take_best QP l) as [[w r']|] eqn:E; [|intros; simplify_eq; set_solver].
  destruct (IH w r' eq_refl) as [Hw Hr]. destruct (_ <=? _); intros; simplify_eq; set_solver.
Qed.

Lemma HandleEvent_quiet ck e m m' :
  sane m -> (connection.Key e = ck -> unnamed_event e) -> Forall (quiet ck) (conns m) -> HandleEvent e m = Some m' ->
  Forall (quiet ck) (conns m').
Proof.
  intros [S1 S2] He Q H. destruct (match e with connection.Open o => Some o | _ => None end) as [o|] eqn:O.
  { destruct e; simplify_eq. cbn in H. simplify_eq. unfold processOpenEvent. destruct (connections m !! _); [done|]. cbn.
    apply Forall_app. split; [done|]. apply Forall_singleton. intros _. split; [done|].
    exists (MkArrivals [] false false). split; [apply NewQueue_implements|constructor]. }
  assert (forall o, e <> connection.Open o) as N by (intros o ->; done).
  destruct (connections m !! connection.Key e) as [k|] eqn:L; [|rewrite HandleEvent_unknown in H by done; by simplify_eq].
  destruct (S2 _ _ L) as (c & Lc & Ek). destruct (S1 k c Lc) as [a Oa].
  assert (exists q, Push QP [e] (eventQueue c) = Some q /\ m' = m <| conns ::= insert k (c <| eventQueue := q.2 |>) |>) as ([err q] & P & ->).
  { unfold HandleEvent in H. rewrite L, Lc in H. cbn in H. destruct (Push QP [e] (eventQueue c)) as [[err q]|] eqn:P.
    - exists (err, q). split; [done|]. destruct e; first [by injection H as <- | by destruct (N e)].
    - destruct e; first [discriminate H | by destruct (N e)]. }
  cbn. apply Forall_insert; [done|]. intros Hc. cbn in Hc. rewrite Forall_lookup in Q.
  destruct (Q k c Lc Hc) as (Hs & a1 & I & Ha). split; [done|].
  destruct (connection_Push _ _ e I) as (err' & q' & P' & _ & I'). rewrite P in P'. simplify_eq.
  eexists. split; [exact I'|]. destruct a1 as [l cl dr]; cbn in *. destruct dr; [done|]. destruct cl; [done|]. cbn.
  apply Forall_app. split; [done|]. apply Forall_singleton. apply He. congruence.
Qed.

Lemma close_quiet ck k c m : Forall (quiet ck) (conns m) -> quiet ck c -> Forall (quiet ck) (conns (Close k c m)).
Proof.
  intros Q Hc. unfold Close, finalizeConnection. cbn. apply Forall_insert; [done|]. intros Hk. cbn in Hk.
  destruct (Hc Hk) as (Hs & a & I & Ha). split; [done|].
  destruct (code_op_inv QP event_priority_int QDrain _ a _ (Drain_start (eventQueue c)) I eq_refl) as [_ I1].
  destruct a as [l cl dr]. eexists. by split.
Qed.

Lemma Close_end_quiet ck c : quiet ck c -> quiet ck (Close_end c).
Proof.
  intros Hc Hk. destruct (Hc Hk) as (Hs & a & I & Ha). split; [cbn; by rewrite Hs|].
  destruct (code_op_inv QP event_priority_int QClose _ a _ (Queue.Close (eventQueue c)).2 I eq_refl) as [_ I2].
  destruct a as [l cl dr]. eexists. split; [exact I2|constructor].
Qed.

Lemma processEvent_quiet ck k e c m :
  (cookie c = ck -> unnamed_event e) -> quiet ck c -> Forall (quiet ck) (conns m) ->
  Forall (quiet ck) (conns (processEvent createStreamer k e c m)).
Proof.
  intros He Hc Q.
  assert (forall c', cookie c' = cookie c -> streamProcessor c' = streamProcessor c -> eventQueue c' = eventQueue c -> quiet ck c') as K.
  { intros c' E1 E2 E3 Hk. rewrite E2, E3. apply Hc. congruence. }
  destruct e; cbn [processEvent]; try (apply Forall_insert; [done|by apply K]).
  - destruct (held _); [apply Forall_insert; [done|by apply K]|]. apply close_quiet; [done|by apply K].
  - apply Forall_insert; [done|]. intros Hk. pose proof (data_shell e c) as (E1 & E2 & _). rewrite E1 in Hk.
    destruct (Hc Hk) as [Hs Ha]. unfold processDataEvent. rewrite Hs. by split.
  - apply Forall_insert; [done|]. intros Hk. pose proof (protocol_shell (streamers m) e c) as (E1 & _). rewrite E1 in Hk.
    by destruct (He Hk e).
  - destruct (CloseEvent _); [|apply Forall_insert; [done|by apply K]]. apply close_quiet; [done|by apply K].
Qed.

Lemma watch_quiet ck k m m' : Forall (quiet ck) (conns m) -> watch createStreamer k m = Some m' -> Forall (quiet ck) (conns m').
Proof.
  intros Q. unfold watch. destruct (conns m !! k) as [c|] eqn:L; [|by intros [= <-]].
  rewrite Forall_lookup in Q. pose proof (Q k c L) as Hc. rewrite <- Forall_lookup in Q.
  destruct (routine c); [|intros [= <-]; by apply Forall_insert, Close_end_quiet|by intros [= <-]].
  destruct (Next_round (eventQueue c)) as [[r q]|] eqn:E; cbn; [|done].
  assert (quiet ck (c <| eventQueue := q |>) /\ (cookie c = ck -> forall e, r = Got e -> unnamed_event e)) as [Hq Hr].
  { destruct (decide (cookie c = ck)) as [Hk|Hk]; [|split; [by intros Hk'|done]]. destruct (Hc Hk) as (Hs & a & I & Ha).
    destruct (connection_Next _ _ I) as (r' & q' & E' & R & I'). rewrite E in E'. simplify_eq. destruct a as [l cl dr]; cbn in *.
    destruct (take_best QP l) as [[e l']|] eqn:Eb; cbn in *; simplify_eq.
    - destruct (take_best_elems _ _ _ Eb) as [He Hl]. rewrite Forall_forall in Ha. split.
      + intros _. split; [done|]. eexists. split; [exact I'|]. cbn. apply Forall_forall. auto.
      + intros _ e' [= <-]. by apply Ha.
    - split; [|by destruct cl]. intros _. split; [done|]. by eexists. }
  destruct r; intros [= <-].
  - apply processEvent_quiet; auto.
  - apply Forall_insert; [done|]. exact Hq.
  - apply Forall_insert; [done|]. exact Hq.
Qed.

(** A connection that is told no protocol never gets a processor. *)
Lemma unannounced_unprocessed ck ops m' :
  agent_run ops NewManager = Some m' -> Forall unnamed_event (events_for ck ops) ->
  Forall (quiet ck) (conns m').
Proof.
  assert (forall ops m, sane m -> Forall (quiet ck) (conns m) -> agent_run ops m = Some m' ->
    Forall unnamed_event (events_for ck ops) -> Forall (quiet ck) (conns m')) as K.
  { clear ops. intros ops. induction ops as [|op ops IH]; intros m S Q; cbn [agent_run]; [by intros [= ->]|].
    destruct (agent_step_sane op m S) as (m1 & E & S1). rewrite E. cbn [mbind option_bind]. intros R F.
    assert (Forall unnamed_event (events_for ck ops)
      /\ forall e, op_event op = Some e -> connection.Key e = ck -> unnamed_event e) as [F1 F2].
    { unfold events_for in *. cbn [omap list_omap] in F. destruct (op_event op) as [e|]; [|by split]. rewrite filter_cons in F.
      destruct (decide _) as [D|D]; [apply Forall_cons in F as [F1 F2]; split; [exact F2|by intros e' [= <-]]|].
      split; [exact F|]. by intros e' [= <-]. }
    apply (IH m1 S1); [|done|done]. destruct op as [raw|e|k]; cbn in E, F2.
    - destruct (readEvent raw) as [e|]; [|by simplify_eq]. eapply (HandleEvent_quiet ck e m); [exact S|by apply F2|exact Q|exact E].
    - eapply (HandleEvent_quiet ck e m); [exact S|by apply F2|exact Q|exact E].
    - by eapply watch_quiet. }
  intros R F. apply (K ops NewManager); [apply NewManager_sane|constructor|done|done].
Qed.

Section delivery.
(** A connection that is opened, gets its protocol, carries data and is closed. *)
Context (o : connection.OpenEvent) (p : connection.ProtocolEvent) (ds : list connection.DataEvent) (cl : connection.CloseEvent).
Context (not_redirected : connection.o_IsRedirected o = false) (named : connection.p_Protocol p <> "").

(** The processor it gets keeps going. *)
Context (p0 : processor) (answers : forall n c, OpenEvent c = o -> Protocol c = connection.p_Protocol p -> createStreamer n c = Some p0).
Context (good : processor -> Prop) (fresh : good p0)
  (steady : forall e s, good s -> sp_Closed s = false /\ good (sp_Process o e s).1 /\ (sp_Process o e s).2 <> Unrecoverable).

Definition fed (ds1 : list connection.DataEvent) : processor := foldl (fun s e => (sp_Process o e s).1) p0 ds1.

Definition tail_events (ds2 : list connection.DataEvent) : list connection.Event := map connection.Data ds2 ++ [connection.Close cl].
Definition life : list connection.Event := connection.Protocol p :: tail_events ds.
Abbreviation ck := (connection.o_Cookie o).

(** The connection waits for its protocol, has processed the data [ds1], is about to
    close its processor, or has closed it; [future] are the events still to come. *)
Inductive stage (m : Manager) (k : nat) (c : Connection) (future : list connection.Event) : Prop :=
| Unnamed l : l ++ future = life -> conn_ok m k c (MkArrivals l false false) -> streamProcessor c = None -> Protocol c = "" ->
    held c = false -> skipStreamProcessing c = false -> stage m k c future
| Fed l ds1 ds2 : ds = ds1 ++ ds2 -> l ++ future = tail_events ds2 -> conn_ok m k c (MkArrivals l false false) ->
    streamProcessor c = Some (fed ds1) -> held c = false -> skipStreamProcessing c = false -> stage m k c future
| Closing : future = [] -> connections m !! ck = None -> routine c = InClose -> streamProcessor c = Some (fed ds) -> stage m k c future
| Shut : future = [] -> connections m !! ck = None -> routine c <> InClose -> streamProcessor c = Some (sp_Close (fed ds)) -> stage m k c future.

Definition alone (m : Manager) (k : nat) : Prop := forall k' c', conns m !! k' = Some c' -> cookie c' = ck -> k' = k.

Definition tracked (m : Manager) (future : list connection.Event) : Prop :=
  (future = connection.Open o :: life /\ forall k c, conns m !! k = Some c -> cookie c <> ck)
  \/ exists k c, conns m !! k = Some c /\ alone m k /\ cookie c = ck /\ OpenEvent c = o /\ stage m k c future.

Lemma fed_steady ds1 : good (fed ds1).
Proof.
  induction ds1 as [|e ds1 IH] using rev_ind; [done|]. unfold fed. rewrite foldl_app. cbn. by apply steady.
Qed.

Lemma take_best_first (e : connection.Event) l :
  Forall (fun x => getPriority QP e <= getPriority QP x) l -> take_best QP (e :: l) = Some (e, l).
Proof.
  intros F. cbn. pose proof (take_best_spec QP l) as B. destruct (take_best QP l) as [[w r]|]; [|done].
  destruct B as (I & _). rewrite Forall_forall in F. specialize (F w I). by replace (_ <=? _) with true by lia.
Qed.

(** Steps on other connections change nothing of this one. *)
Lemma tracked_other m m' future k' c' :
  tracked m future -> conns m !! k' = Some c' -> cookie c' <> ck -> local k' m m' -> tracked m' future.
Proof.
  intros Tr L N [->|(c1 & c2 & L1 & E & Em & Mm)]; [done|]. simplify_eq.
  assert (connections m' !! ck = connections m !! ck) as Mk.
  { destruct Mm as [-> | ->]; [done|]. by rewrite lookup_delete_ne. }
  assert (forall k c, conns m' !! k = Some c -> cookie c = ck -> k <> k' /\ conns m !! k = Some c) as Back.
  { intros k c Lk Ek. rewrite Em in Lk. destruct (decide (k = k')) as [->|D].
    - rewrite list_lookup_insert_eq in Lk by (by eapply lookup_lt_Some). simplify_eq. congruence.
    - by rewrite list_lookup_insert_ne in Lk. }
  destruct Tr as [[-> A]|(k & c & Lk & A & Ek & Eo & St)]; [left|right].
  - split; [done|]. intros k c Lk Ek. destruct (Back k c Lk Ek) as [_ L']. by destruct (A k c L').
  - assert (k <> k') as D by (intros ->; congruence). exists k, c.
    split; [by rewrite Em, list_lookup_insert_ne|]. split; [intros k1 c3 L3 E3; by apply (A k1 c3); [apply Back|]|].
    split; [done|]. split; [done|].
    assert (forall a, conn_ok m k c a -> conn_ok m' k c a) as Ok by (intros a; unfold conn_ok; by rewrite Ek, Mk).
    destruct St; [eapply Unnamed|eapply Fed|eapply Closing|eapply Shut]; eauto; congruence.
Qed.

Lemma tracked_open_other e m future : tracked m future -> connection.o_Cookie e <> ck -> tracked (processOpenEvent e m) future.
Proof.
  intros Tr N. unfold processOpenEvent. destruct (connections m !! _); [done|].
  set (m' := m <| conns ::= _ |> <| connections ::= _ |>).
  assert (connections m' !! ck = connections m !! ck) as Mk by (cbn; by rewrite lookup_insert_ne).
  assert (forall k c, conns m' !! k = Some c -> cookie c = ck -> conns m !! k = Some c) as Back.
  { intros k c [?|[_ Lc]]%lookup_app_Some Ek; [done|]. destruct (_ - _)%nat; cbn in Lc; by simplify_eq. }
  destruct Tr as [[-> A]|(k & c & Lk & A & Ek & Eo & St)]; [left|right].
  - split; [done|]. intros k c Lk Ek. by apply (A k c); [apply Back|].
  - exists k, c. split; [by apply lookup_app_l_Some|]. split; [intros k1 c1 L1 E1; by apply (A k1 c1); [apply Back|]|].
    split; [done|]. split; [done|].
    assert (forall a, conn_ok m k c a -> conn_ok m' k c a) as Ok by (intros a; unfold conn_ok; by rewrite Ek, Mk).
    destruct St; [eapply Unnamed|eapply Fed|eapply Closing|eapply Shut]; eauto; congruence.
Qed.

Lemma tracked_open e m future : sane m -> tracked m (connection.Open e :: future) -> tracked (processOpenEvent e m) future.
Proof.
  intros [S1 S2] [[E A]|(k & c & Lk & A & Ek & Eo & St)].
  - injection E as -> ->. unfold processOpenEvent. destruct (connections m !! ck) as [k|] eqn:M.
    { destruct (S2 _ _ M) as (c & Lc & Ec). by destruct (A k c Lc). }
    right. exists (length (conns m)), (NewConnection o). split; [by cbn; rewrite lookup_app_r, Nat.sub_diag by lia|].
    split. { intros k' c' [L|[Lt L]]%lookup_app_Some E; [by destruct (A k' c' L)|]. apply lookup_lt_Some in L. cbn in L. lia. }
    split; [done|]. split; [done|]. apply (Unnamed _ _ _ _ []); try done.
    split; [apply NewQueue_implements|]. cbn. rewrite lookup_insert_eq. naive_solver.
  - exfalso. destruct St as [l E|l ds1 ds2 _ E|E|E]; [| |done..].
    + assert (connection.Open e ∈ life) as I by (rewrite <- E; set_solver). apply elem_of_cons in I as [?|I]; [done|].
      by apply elem_of_app in I as [(? & ? & ?)%list_elem_of_fmap|?%list_elem_of_singleton].
    + assert (connection.Open e ∈ tail_events ds2) as I by (rewrite <- E; set_solver).
      by apply elem_of_app in I as [(? & ? & ?)%list_elem_of_fmap|?%list_elem_of_singleton].
Qed.

Lemma tracked_event e m m' future :
  sane m -> (forall o', e <> connection.Open o') -> connection.Key e = ck -> tracked m (e :: future) ->
  HandleEvent e m = Some m' -> tracked m' future.
Proof.
  intros S N K [[E A]|(k & c & Lk & A & Ek & Eo & St)] H; [by injection E as ->; destruct (N o)|].
  assert (forall l, conn_ok m k c (MkArrivals l false false) -> exists q',
    m' = m <| conns ::= insert k (c <| eventQueue := q' |>) |> /\ conn_ok m k (c <| eventQueue := q' |>) (MkArrivals (l ++ [e]) false false)) as Q.
  { intros l O. assert (connections m !! connection.Key e = Some k) as M by (rewrite K, <- Ek; by apply O).
    destruct (HandleEvent_queued e m k c _ N M Lk O) as (q' & E & O'); [congruence|]. rewrite E in H. simplify_eq. by exists q'. }
  right. destruct St as [l E O|l ds1 ds2 Ed E O|E|E]; [| |done..]; destruct (Q l O) as (q' & -> & O'); exists k, (c <| eventQueue := q' |>).
  all: split; [cbn; by rewrite list_lookup_insert_eq by (by eapply lookup_lt_Some)|].
  all: split; [intros k1 c1; cbn; destruct (decide (k1 = k)) as [->|D]; [done|rewrite list_lookup_insert_ne by done; apply A]|].
  all: split; [done|]; split; [done|].
  - eapply (Unnamed _ _ _ _ (l ++ [e])); try done. by rewrite <- app_assoc.
  - eapply (Fed _ _ _ _ (l ++ [e]) ds1 ds2); try done. by rewrite <- app_assoc.
Qed.

Lemma tracked_own m m' k c c' future :
  conns m !! k = Some c -> alone m k -> conns m' = <[k := c']> (conns m) -> cookie c' = ck -> OpenEvent c' = o ->
  stage m' k c' future -> tracked m' future.
Proof.
  intros L A E Ek Eo St. right. exists k, c'. split; [rewrite E; by rewrite list_lookup_insert_eq by (by eapply lookup_lt_Some)|].
  split; [|done]. intros k1 c1. rewrite E. destruct (decide (k1 = k)) as [->|D]; [done|].
  rewrite list_lookup_insert_ne by done. apply A.
Qed.

(** The first event that waits is the next to be processed. *)
Lemma next_event l ds2 future e l' :
  l = e :: l' -> l ++ future = tail_events ds2 ->
  take_best QP l = Some (e, l')
  /\ match ds2 with [] => e = connection.Close cl /\ l' = [] /\ future = [] | d :: ds2' => e = connection.Data d /\ l' ++ future = tail_events ds2' end.
Proof.
  intros -> E. destruct ds2 as [|d ds2]; cbn in E; injection E as -> E.
  - apply app_eq_nil in E as [-> ->]. done.
  - split; [|done]. apply take_best_first, Forall_forall. intros x I.
    assert (x ∈ tail_events ds2) as I' by (unfold tail_events; rewrite <- E; set_solver).
    apply elem_of_app in I' as [(y & -> & _)%list_elem_of_fmap| ->%list_elem_of_singleton]; cbn; lia.
Qed.

Lemma next_protocol l future e l' :
  l = e :: l' -> l ++ future = life -> take_best QP l = Some (e, l') /\ e = connection.Protocol p /\ l' ++ future = tail_events ds.
Proof.
  intros -> E. injection E as -> E. split; [|done]. apply take_best_first, Forall_forall. intros x _.
  destruct x; unfold getPriority, MaxInt; cbn; lia.
Qed.

Lemma open_routine m k c l : conn_ok m k c (MkArrivals l false false) -> routine c = InWatch.
Proof. intros (_ & _ & _ & D & W). cbn in *. destruct (routine c); naive_solver. Qed.

Lemma popped_ok m k c c' l l' :
  conn_ok m k c (MkArrivals l false false) -> implements QP (eventQueue c') (MkArrivals l' false false) ->
  cookie c' = cookie c -> routine c' = routine c -> conn_ok m k c' (MkArrivals l' false false).
Proof. intros (I & Cl & M & D & W) I' E E'. split; [done|]. cbn in *. rewrite E, E'. done. Qed.

Lemma idle_ok m k c l q :
  conn_ok m k c (MkArrivals l false false) -> implements QP q (MkArrivals l false false) ->
  conn_ok m k (c <| eventQueue := q |> <| routine := InWatch |>) (MkArrivals l false false).
Proof. intros O I. eapply popped_ok; [exact O|done|done|]. by rewrite (open_routine _ _ _ _ O). Qed.

Lemma processDataEvent_fed c ds1 d :
  OpenEvent c = o -> streamProcessor c = Some (fed ds1) -> skipStreamProcessing c = false ->
  processDataEvent d c = c <| streamProcessor := Some (fed (ds1 ++ [d])) |>.
Proof.
  intros Eo Es Ek. destruct (steady d (fed ds1) (fed_steady ds1)) as (C & _ & N).
  unfold processDataEvent. rewrite Es, Ek, C, Eo. cbn. unfold fed at 2. rewrite foldl_app. cbn. fold (fed ds1).
  destruct (sp_Process o d (fed ds1)) as [s r]. cbn in *. by destruct r.
Qed.

Lemma processProtocolEvent_first n c :
  OpenEvent c = o -> Protocol c = "" ->
  let c' := processProtocolEvent createStreamer n p c in
  streamProcessor c' = Some (fed []) /\ held c' = held c /\ skipStreamProcessing c' = skipStreamProcessing c /\ OpenEvent c' = OpenEvent c.
Proof.
  intros Eo Ep. unfold processProtocolEvent. rewrite Ep.
  replace (String.eqb "" (connection.p_Protocol p)) with false by (symmetry; apply String.eqb_neq; congruence).
  cbn. split; [|done]. by apply answers.
Qed.

Lemma watch_unnamed m m' k c l future :
  sane m -> conns m !! k = Some c -> alone m k -> cookie c = ck -> OpenEvent c = o ->
  l ++ future = life -> conn_ok m k c (MkArrivals l false false) -> streamProcessor c = None -> Protocol c = "" ->
  held c = false -> skipStreamProcessing c = false -> watch createStreamer k m = Some m' -> tracked m' future.
Proof.
  intros S L A Ek Eo E O Es Ep Eh Esk H. pose proof (open_routine _ _ _ _ O) as W.
  pose proof (watch_round m k c _ S L O W) as R. cbn [items] in R. destruct l as [|e l'].
  - destruct R as (c' & q & R & I & Ec). rewrite R in H. injection H as <-. eapply tracked_own; [done|done|reflexivity|by subst c'|by subst c'|].
    subst c'. apply (Unnamed _ _ _ _ []); try done. by apply idle_ok.
  - destruct (next_protocol _ _ _ _ eq_refl E) as (B & -> & E'). rewrite B in R. destruct R as (_ & q & R & I). rewrite R in H. injection H as <-.
    set (c1 := c <| eventQueue := q |>). destruct (protocol_shell (streamers m) p c1) as (Q1 & Q2 & Q3).
    destruct (processProtocolEvent_first (streamers m) c1 Eo Ep) as (F1 & F2 & F3 & F4).
    eapply tracked_own; [done|done|reflexivity|by rewrite Q1|by rewrite F4|]. apply (Fed _ _ _ _ l' [] ds); try done; [|by rewrite F2|by rewrite F3].
    eapply (popped_ok _ k c); [exact O|by rewrite Q2|done|done].
Qed.

Lemma watch_fed m m' k c l ds1 ds2 future :
  sane m -> conns m !! k = Some c -> alone m k -> cookie c = ck -> OpenEvent c = o -> ds = ds1 ++ ds2 ->
  l ++ future = tail_events ds2 -> conn_ok m k c (MkArrivals l false false) -> streamProcessor c = Some (fed ds1) ->
  held c = false -> skipStreamProcessing c = false -> watch createStreamer k m = Some m' -> tracked m' future.
Proof.
  intros S L A Ek Eo Ed E O Es Eh Esk H. pose proof (open_routine _ _ _ _ O) as W.
  pose proof (watch_round m k c _ S L O W) as R. cbn [items] in R. destruct l as [|e l'].
  - destruct R as (c' & q & R & I & Ec). rewrite R in H. injection H as <-. eapply tracked_own; [done|done|reflexivity|by subst c'|by subst c'|].
    subst c'. apply (Fed _ _ _ _ [] ds1 ds2); try done. by apply idle_ok.
  - destruct (next_event _ _ _ _ _ eq_refl E) as (B & N). rewrite B in R. destruct R as (_ & q & R & I). rewrite R in H. injection H as <-.
    set (c1 := c <| eventQueue := q |>). destruct ds2 as [|d ds2].
    + destruct N as (-> & -> & ->). cbn [processEvent]. assert (held (c1 <| CloseEvent := Some cl |>) = false) as -> by exact Eh.
      eapply tracked_own; [done|done|reflexivity|done|done|]. apply Closing; [done|by cbn; rewrite Ek, lookup_delete_eq|done|].
      cbn. rewrite Es. by rewrite Ed, app_nil_r.
    + destruct N as (-> & E'). cbn [processEvent]. rewrite (processDataEvent_fed c1 ds1 d) by done.
      eapply tracked_own; [done|done|reflexivity|done|done|]. apply (Fed _ _ _ _ l' (ds1 ++ [d]) ds2); try done; [by rewrite <- app_assoc|].
      by eapply (popped_ok _ k c).
Qed.

Lemma watch_closing m m' k c future :
  conns m !! k = Some c -> alone m k -> cookie c = ck -> OpenEvent c = o -> future = [] ->
  connections m !! ck = None -> routine c = InClose -> streamProcessor c = Some (fed ds) ->
  watch createStreamer k m = Some m' -> tracked m' future.
Proof.
  intros L A Ek Eo Ef M W Es H. unfold watch in H. rewrite L, W in H. injection H as <-.
  eapply tracked_own; [done|done|reflexivity|done|done|]. apply Shut; [done|done|done|]. cbn. by rewrite Es.
Qed.

Lemma watch_shut m m' k c future :
  sane m -> conns m !! k = Some c -> alone m k -> cookie c = ck -> OpenEvent c = o -> future = [] ->
  connections m !! ck = None -> routine c <> InClose -> streamProcessor c = Some (sp_Close (fed ds)) ->
  watch createStreamer k m = Some m' -> tracked m' future.
Proof.
  intros S L A Ek Eo Ef M Nc Es H. destruct (routine c) eqn:W; [|done|].
  - pose proof S as [S1 _]. destruct (S1 k c L) as [a O]. pose proof (watch_round m k c a S L O W) as R.
    assert (a_closed a = true) as Cl.
    { rewrite <- (in_watch _ _ _ _ O W). destruct O as (_ & _ & X & _). rewrite Ek, M in X. destruct (a_draining a); naive_solver. }
    assert (items a = []) as It by (by apply O). rewrite It in R. destruct R as (c' & q & R & I & Ec). rewrite R in H. injection H as <-.
    rewrite Cl in Ec. eapply tracked_own; [done|done|reflexivity|by subst c'|by subst c'|]. by apply Shut; subst c'.
  - unfold watch in H. rewrite L, W in H. injection H as <-. right. exists k, c. split; [done|]. split; [done|]. split; [done|]. split; [done|].
    apply Shut; congruence.
Qed.

Lemma tracked_watch k' m m' future : sane m -> tracked m future -> watch createStreamer k' m = Some m' -> tracked m' future.
Proof.
  intros S Tr H. destruct (conns m !! k') as [c'|] eqn:L; [|unfold watch in H; rewrite L in H; by simplify_eq].
  destruct (decide (cookie c' = ck)) as [E|N]; [|by eapply tracked_other; eauto using watch_local].
  destruct Tr as [[_ A]|(k & c & Lk & A & Ek & Eo & St)]; [by destruct (A k' c' L)|].
  pose proof (A k' c' L E) as ->. simplify_eq.
  destruct St; [by eapply watch_unnamed|by eapply watch_fed|by eapply watch_closing|by eapply watch_shut].
Qed.

Lemma tracked_step op m m' future :
  sane m -> tracked m (events_for ck [op] ++ future) -> agent_step op m = Some m' -> tracked m' future.
Proof.
  intros S. unfold events_for. cbn [omap list_omap].
  assert (forall e, tracked m (filter (fun e => connection.Key e = ck) [e] ++ future) -> HandleEvent e m = Some m' -> tracked m' future) as H.
  { intros e Tr H. rewrite filter_cons in Tr. case_decide as K; cbn in Tr.
    - destruct (match e with connection.Open e => Some e | _ => None end) as [e'|] eqn:X.
      + destruct e; simplify_eq. injection H as <-. by apply tracked_open.
      + eapply tracked_event; eauto. by intros ? ->.
    - destruct (match e with connection.Open e => Some e | _ => None end) as [e'|] eqn:X.
      + destruct e; simplify_eq. injection H as <-. by apply tracked_open_other.
      + destruct (HandleEvent_local e m m') as [->|(k & c & L & E & Lo & _)]; [by intros ? ->|done|done|done|].
        eapply tracked_other; eauto. congruence. }
  destruct op as [raw|e|k]; cbn; [|by apply H|by apply tracked_watch].
  destruct (readEvent raw) as [e|]; [by apply H|]. intros Tr [= <-]. done.
Qed.

Lemma events_for_cons op ops : events_for ck (op :: ops) = events_for ck [op] ++ events_for ck ops.
Proof. unfold events_for. by rewrite <- filter_app, <- omap_app. Qed.

Lemma tracked_run ops m m' future :
  sane m -> tracked m (events_for ck ops ++ future) -> agent_run ops m = Some m' -> tracked m' future.
Proof.
  revert m. induction ops as [|op ops IH]; intros m S Tr H; [by injection H as <-|].
  cbn in H. destruct (agent_step_sane op m S) as (m1 & E & S1). rewrite E in H. cbn in H.
  rewrite events_for_cons, <- app_assoc in Tr. apply (IH m1 S1); [|done]. by apply (tracked_step op m).
Qed.

(** From a new manager on. *)
Lemma delivered_in_order ops m future :
  agent_run ops NewManager = Some m -> events_for ck ops ++ future = connection.Open o :: life -> tracked m future.
Proof.
  intros H E. eapply (tracked_run ops); [apply NewManager_sane| |done]. left. split; [done|]. by intros k c.
Qed.

End delivery.

End agent.

(** ** The Redis stream as a processor *)

Section redis.
Context {Fl : Float64} (Others : StreamProcessor) (new_connection : nat -> bool).

(** [Source] and [Direction] as the stream compares them. *)
Definition source_of (s : Z) : option CONNECTION_TYPE :=
  if s =? connection.Client then Some C_CLIENT else if s =? connection.Server then Some C_SERVER else None.
Definition ingress_of (d : string) : option bool :=
  if String.eqb d connection.Ingress then Some true else if String.eqb d connection.Egress then Some false else None.

Definition redis_Process (o : connection.OpenEvent) (e : connection.DataEvent) (s : Stream) : Stream * process_end :=
  match source_of (connection.o_Source o), ingress_of (connection.d_Direction e) with
  | Some source, Some ingress =>
      let '(s, r) := Process true new_connection source ingress (connection.d_Data e) s in
      (s, match r with Panicked => Panicking | _ => Processed end)
  | _, _ => (s, Processed)
  end.

(** The processors of the agent: Redis streams, and those of the other protocols. *)
Definition stream_processor : StreamProcessor := {|
  processor := Stream + @processor Others;
  sp_Process o e s :=
    match s with
    | inl s => let '(s, r) := redis_Process o e s in (inl s, r)
    | inr s => let '(s, r) := sp_Process o e s in (inr s, r)
    end;
  sp_Close s := match s with inl s => inl (Redis.Close s) | inr s => inr (sp_Close s) end;
  sp_Closed s := match s with inl s => closed s | inr s => sp_Closed s end |}.
#[local] Existing Instance stream_processor.

(** [StreamFactory.OnConnection]: whether the domain of the connection has a plugin
    stack is asked of the plugin manager each time; the other protocols are [other]. *)
Definition OnConnection {T : TlsUtils} (GetDomainStack : nat -> bool) (other : nat -> Connection -> option (@processor Others))
    (n : nat) (conn : Connection) : option processor :=
  if String.eqb (Protocol conn) connection.Protocol_MONGODB then None
  else if String.eqb (Protocol conn) connection.Protocol_REDIS
  then if GetDomainStack n then Some (inl Redis.NewStream) else None
  else inr <$> other n conn.

Lemma Process_closed src ing data s : closed (Process true new_connection src ing data s).1 = closed s.
Proof.
  unfold Process. destruct (closed s) eqn:C; [done|]. destruct (isRequest _ _); [|destruct (isResponse _ _); [|done]].
  - destruct (processRequests_other true new_connection (S (length (requestParser (s <| requestParser ::= Append data |>)))) (s <| requestParser ::= Append data |>)) as (_ & _ & ->). done.
  - destruct (processResponses_other (S (length (responseParser (s <| responseParser ::= Append data |>)))) (s <| responseParser ::= Append data |>)) as (_ & _ & ->). done.
Qed.

Lemma redis_steady o e s : closed s = false -> closed (redis_Process o e s).1 = false /\ (redis_Process o e s).2 <> Unrecoverable.
Proof.
  intros C. unfold redis_Process. destruct (source_of _) as [src|]; [|done]. destruct (ingress_of _) as [ing|]; [|done].
  pose proof (Process_closed src ing (connection.d_Data e) s) as F. rewrite C in F. destruct (Process _ _ _ _ _ _) as [s' r]. cbn in *. by destruct r.
Qed.

(** ** From kernel events to the stream *)

Definition event_cookie (ev : socket_event) : Z :=
  match ev with
  | Ev_open e => oe_cookie e | Ev_close e => ce_cookie e | Ev_data e => de_cookie e | Ev_proto e => pe_cookie e
  | Ev_tls_hello e => he_cookie e
  end.

Context {T : TlsUtils}.

Definition records (ops : list agent_op) : list (list Z) :=
  omap (fun op => match op with Record_ raw => Some raw | _ => None end) ops.

(** The ring buffer holds the events [log], and nothing else in the agent writes
    events for the cookie. *)
Definition reads (ck : Z) (ops : list agent_op) (log : list socket_event) : Prop :=
  Forall2 (fun raw ev => event_fits ev /\ exists pad, raw = wire pad ev) (records ops) log
  /\ Forall (fun op => match op with Write_ e => connection.Key e <> ck | _ => True end) ops.

Lemma seen_Key ev e : seen ev = Some e -> connection.Key e = event_cookie ev.
Proof.
  destruct ev as [x|x|x|x|x]; cbn; [by intros [= <-]..|].
  destruct (_ =? _); [destruct (ParseClientHello _)|destruct (ParseServerHello _)]; cbn; intros; by simplify_eq.
Qed.

Lemma events_for_log ck ops log : reads ck ops log -> events_for ck ops = omap seen (filter (fun ev => event_cookie ev = ck) log).
Proof.
  unfold reads, events_for. revert log. induction ops as [|op ops IH]; intros log [R W].
  { inversion R; subst. done. }
  apply Forall_cons in W as [W1 W2]. destruct op as [raw|e|k]; cbn [records omap list_omap op_event] in *.
  - inversion R as [|? ev ? log' [F [pad ->]] R']; subst. rewrite readEvent_wire, filter_cons by done.
    specialize (IH log' (conj R' W2)). destruct (seen ev) as [e|] eqn:S.
    + rewrite filter_cons. rewrite (seen_Key ev e S). case_decide; [|done]. cbn. rewrite S. by rewrite IH.
    + case_decide; [|done]. cbn. by rewrite S.
  - rewrite filter_cons. rewrite decide_False by done. by apply IH.
  - by apply IH.
Qed.

Definition payload (d : socket_data_event) : bool * list Z := (de_direction d =? D_INGRESS, de_msg d).

Lemma fed_feed e ds :
  Forall (fun d => de_direction d = D_INGRESS \/ de_direction d = D_EGRESS) ds ->
  fed (seen_open e) (inl Redis.NewStream) (map seen_data ds)
  = inl (feed true new_connection (cp_function (oe_conn_pid_id e)) (map payload ds) Redis.NewStream).
Proof.
  intros F. induction ds as [|d ds IH] using rev_ind; [done|]. apply Forall_app in F as [F [Fd _]%Forall_cons].
  unfold fed, feed in *. rewrite !map_app, foldl_app, fold_left_app. rewrite IH by done. cbn. unfold redis_Process. cbn.
  assert (source_of (connection_type_num (cp_function (oe_conn_pid_id e))) = Some (cp_function (oe_conn_pid_id e))) as ->
    by (by destruct (cp_function _)).
  assert (ingress_of (seen_direction (de_direction d)) = Some (de_direction d =? D_INGRESS)) as -> by (by destruct Fd as [-> | ->]).
  by destruct (Process _ _ _ _ _ _).
Qed.


(** What a connection has made of its data [ds]: it has fed the part [ds1] to a Redis
    stream, which it has closed once it was itself closed. *)
Definition redis_fed (o : socket_open_event) (c : Connection) (ds1 ds2 : list socket_data_event) : Prop :=
  let s := feed true new_connection (cp_function (oe_conn_pid_id o)) (map payload ds1) Redis.NewStream in
  (streamProcessor c = None /\ ds1 = [])
  \/ streamProcessor c = Some (inl s)
  \/ (streamProcessor c = Some (inl (Redis.Close s)) /\ ds2 = []).

Lemma omap_seen_data ds : omap seen (map Ev_data ds) = map connection.Data (map seen_data ds).
Proof. induction ds as [|d ds IH]; cbn; [done|]. by rewrite <- IH. Qed.

(** C8: what the kernel reports of a Redis connection reaches the plugins.  The ring
    buffer carries the events of a connection that is opened, recognised as Redis,
    carries data and perhaps is closed, among those of others; the agent reads it while
    the goroutines run in any order.  Then the agent never dereferences nil, and at any
    moment the connection has fed the first of the data events, unchanged and in order,
    to a Redis stream, and all of them once its queue is empty; closing loses none. *)
Theorem redis_observed GetDomainStack other ops log o p ds cl :
  let ck := oe_cookie o in
  reads ck ops log ->
  filter (fun ev => event_cookie ev = ck) log = Ev_open o :: Ev_proto p :: map Ev_data ds ++ cl -> (cl = [] \/ exists c, cl = [Ev_close c]) ->
  oe_is_redirected o = false -> pe_protocol p = P_REDIS -> (forall n, GetDomainStack n = true) ->
  Forall (fun d => de_direction d = D_INGRESS \/ de_direction d = D_EGRESS) ds ->
  exists m k c ds1 ds2, agent_run (OnConnection GetDomainStack other) ops NewManager = Some m
    /\ conns m !! k = Some c /\ cookie c = ck /\ ds = ds1 ++ ds2 /\ redis_fed o c ds1 ds2
    /\ (q_head (eventQueue c) = None -> ds2 = [] /\ streamProcessor c <> None).
Proof.
  intros ck R E Hcl Hr Hp Hs Hd.
  destruct (agent_run_sane (OnConnection GetDomainStack other) ops NewManager NewManager_sane) as (m & H & _).
  set (c0 := match cl with [Ev_close c] => seen_close c | _ => connection.MkClose ck 0 0 0 end).
  set (future := match cl with [] => [connection.Close c0] | _ => [] end).
  assert (tracked (seen_open o) (seen_proto p) (map seen_data ds) c0 (inl Redis.NewStream) m future) as Tr.
  { eapply (delivered_in_order (OnConnection GetDomainStack other) (seen_open o) (seen_proto p)) with (ops := ops)
      (good := fun s => match s with inl s => closed s = false | inr _ => False end); try done.
    - cbn. by rewrite Hp.
    - intros n c _ Ep. unfold OnConnection. rewrite Ep. cbn. rewrite Hp. cbn. by rewrite Hs.
    - intros e [s|s] C; [|done]. destruct (redis_steady (seen_open o) e s C) as [C' N]. cbn.
      destruct (redis_Process _ _ _) as [s' r]. by cbn in *.
    - change (connection.o_Cookie (seen_open o)) with ck. rewrite (events_for_log ck ops log R), E. cbn. rewrite omap_app, omap_seen_data, <- app_assoc. unfold life, tail_events.
      destruct Hcl as [->|[c ->]]; subst c0 future; by cbn. }
  destruct Tr as [[Ef _]|(k & c & L & A & Ek & Eo & St)].
  { exfalso. subst future. destruct Hcl as [->|[c ->]]; by cbn in Ef. }
  assert (forall l, conn_ok m k c (MkArrivals l false false) -> q_head (eventQueue c) = None -> l = []) as Q.
  { intros l O Hq. destruct O as [[Sp _] _]. cbn [items] in Sp. apply (spells_head _ _) in Sp. apply Sp in Hq.
    apply length_zero_iff_nil. by rewrite <- (sort_length connection.QueuePriority l), Hq. }
  exists m, k, c. destruct St as [l El O Es Ep|l ds1 ds2 Ed El O Es|Ef M W Es|Ef M W Es].
  - exists [], ds. repeat (split; [done|]). split; [by left|]. intros Hq. rewrite (Q l O Hq) in El. exfalso.
    subst future. apply (f_equal length) in El. unfold life, tail_events in El. cbn in El. rewrite length_app in El. cbn in El.
    destruct Hcl as [->|[c1 ->]]; cbn in El; lia.
  - apply map_eq_app in Ed as (d1 & d2 & -> & <- & <-). apply Forall_app in Hd as [Hd1 Hd2]. exists d1, d2.
    rewrite fed_feed in Es by done. repeat (split; [done|]). split; [by right; left|]. intros Hq. rewrite (Q l O Hq) in El.
    split; [|by rewrite Es]. apply (f_equal length) in El. unfold tail_events in El. cbn [app] in El. rewrite length_app, !length_map in El. cbn in El.
    destruct d2; [done|]. exfalso. subst future. destruct Hcl as [->|[c1 ->]]; cbn in El; lia.
  - exists ds, []. rewrite app_nil_r. rewrite fed_feed in Es by done. repeat (split; [done|]). split; [by right; left|].
    intros _. by rewrite Es.
  - exists ds, []. rewrite app_nil_r. rewrite fed_feed in Es by done. repeat (split; [done|]). split; [by right; right|].
    intros _. by rewrite Es.
Qed.

End redis.

(** A client that sends PING in two system calls, next to another connection. *)
Definition no_others : StreamProcessor :=
  {| processor := unit; sp_Process _ _ s := (s, Processed); sp_Close s := s; sp_Closed _ := false |}.

Definition demo_conn : conn_pid_id := ConnPidId 7 7 3 C_CLIENT 4.
Definition demo_client (ck : Z) : socket_open_event :=
  Tap.OpenEvent S_OPEN 5 demo_conn ck (Tap.NetAddr AF_INET (zeros 16) 14) (Tap.NetAddr AF_INET (zeros 16) (bswap16 6379)) 7 7 S_TCP false.
Definition demo_redis : socket_proto_event := ProtoEvent S_PROTO 6 demo_conn 9 P_REDIS false.
Definition demo_piece (msg : list Z) : socket_data_event :=
  DataEvent S_DATA 7 demo_conn 9 D_EGRESS (Z.of_nat (length msg)) 0 7 7 msg.
Definition ping1 : socket_data_event := demo_piece (bytes_of_string "*1" ++ [13; 10] ++ bytes_of_string "$4" ++ [13; 10]).
Definition ping2 : socket_data_event := demo_piece (bytes_of_string "PING" ++ [13; 10]).
Definition demo_log : list socket_event := [Ev_open (demo_client 9); Ev_open (demo_client 8); Ev_proto demo_redis; Ev_data ping1; Ev_data ping2].
Definition demo_agent : list (@agent_op demo_tls) :=
  [@Record_ demo_tls (wire [] (Ev_open (demo_client 9))); @Record_ demo_tls (wire [] (Ev_open (demo_client 8))); @Watch_ demo_tls 0;
   @Record_ demo_tls (wire [1] (Ev_proto demo_redis)); @Record_ demo_tls (wire [] (Ev_data ping1)); @Watch_ demo_tls 0; @Watch_ demo_tls 1;
   @Record_ demo_tls (wire [] (Ev_data ping2)); @Watch_ demo_tls 0; @Watch_ demo_tls 0].

Lemma redis_observed_witness :
  exists m k c ds1 ds2,
    agent_run (@OnConnection demo_float no_others always demo_tls (fun _ => true) (fun _ _ => None)) demo_agent NewManager = Some m
    /\ conns m !! k = Some c /\ cookie c = 9 /\ [ping1; ping2] = ds1 ++ ds2
    /\ @redis_fed demo_float no_others always demo_tls (demo_client 9) c ds1 ds2
    /\ (q_head (eventQueue c) = None -> ds2 = [] /\ streamProcessor c <> None).
Proof.
  assert (reads 9 demo_agent demo_log) as R.
  { split; [|repeat constructor]. cbn [records omap list_omap demo_agent].
    repeat (constructor; [split; [cbn; unfold conn_fits, addr_fits, fits; cbn; split_and!; (done || lia)|by eexists]|]). constructor. }
  apply (@redis_observed demo_float no_others always demo_tls (fun _ => true) (fun _ _ => None) demo_agent demo_log
    (demo_client 9) demo_redis [ping1; ping2] []); try done.
  - by left.
  - repeat constructor; by right.
Defined.

(** ** Properties *)

(** C36: the manager and its connections agree.  Whatever bytes the ring buffer holds,
    whatever events other parts of the agent write and however the goroutines run, no
    step dereferences nil; a cookie in the map leads to a connection of that cookie
    whose queue takes events and whose goroutine is in [watch]; and every connection is
    in the map under its cookie, or is in [Close] with a queue that refuses events, or
    has a closed and empty queue, the only state in which its goroutine can have
    ended. *)
Theorem agent_consistent {T : TlsUtils} {SP : StreamProcessor} createStreamer ops :
  exists m, agent_run createStreamer ops NewManager = Some m
    /\ (forall ck k, connections m !! ck = Some k -> exists c, conns m !! k = Some c /\ cookie c = ck)
    /\ forall k c, conns m !! k = Some c ->
         let q := eventQueue c in
         (connections m !! cookie c = Some k /\ routine c = InWatch /\ q_draining q = false /\ q_closed q = false)
         \/ (connections m !! cookie c <> Some k /\ routine c = InClose /\ q_draining q = true /\ q_closed q = false)
         \/ (connections m !! cookie c <> Some k /\ routine c <> InClose /\ q_closed q = true /\ q_head q = None).
Proof.
  destruct (agent_run_sane createStreamer ops NewManager NewManager_sane) as (m & E & S1 & S2). exists m. split; [done|]. split.
  - intros ck k M. destruct (S2 ck k M) as (c & L & <-). by exists c.
  - intros k c L q. destruct (S1 k c L) as (a & [Sp F] & Cl & X & D & W). injection F as F1 F2 _. fold q in F1, F2, Sp.
    destruct a as [l cl dr]; cbn in *. rewrite F1, F2, <- X. destruct cl.
    + destruct Cl as [-> ->]; [done|]. right; right. split_and!; [done|naive_solver|done|].
      by apply (spells_head _ _) in Sp; apply Sp.
    + destruct dr; [right; left; naive_solver|left]. split_and!; [done| |done|done]. destruct (routine c); naive_solver.
Qed.
