(* ===== verification/AgentConfig.v ===== *)
(** * The configuration and the settings of the probes

    [pkg/config/tap.go] says which protocols have a stack, at the top level or for an
    endpoint; [pkg/ebpf/socket/settings.go] writes that, the direction and the loopback
    switch into the map the probes read (Settings). *)

From stdpp Require Import base numbers list gmap strings.
From S2P Require Import Prelude Tap Bpf Settings Socket Wire.

(** [TapProtocolConfig], [TapEndpointConfig] and [TapConfig]; left out are the filters,
    the domain of an endpoint and [AuditIncludeDNS]. *)
Record TapProtocolConfig := MkTapProtocolConfig { Stack : string }.
Record TapEndpointConfig := MkTapEndpointConfig {
  e_Http : TapProtocolConfig; e_Redis : TapProtocolConfig; e_MySQL : TapProtocolConfig; e_Kafka : TapProtocolConfig }.
Record TapConfig := MkTapConfig {
  t_Direction : string; t_IgnoreLoopback : bool;
  t_Http : TapProtocolConfig; t_Redis : TapProtocolConfig; t_MySQL : TapProtocolConfig; t_Kafka : TapProtocolConfig;
  t_Endpoints : list TapEndpointConfig }.

Definition HasStack (c : TapProtocolConfig) : bool :=
  negb (String.eqb (Stack c) "") && negb (String.eqb (Stack c) "none").

Definition HasAnyStack (c : TapConfig) : bool :=
  HasStack (t_Http c) || HasStack (t_Redis c) || HasStack (t_MySQL c) || HasStack (t_Kafka c)
  || existsb (fun e => HasStack (e_Http e) || HasStack (e_Redis e) || HasStack (e_MySQL e) || HasStack (e_Kafka e))
       (t_Endpoints c).

(** The same four tests at the top level and for each endpoint. *)
Definition protocols_of (http redis mysql kafka : TapProtocolConfig) : list string :=
  (if HasStack http then ["http1"; "http2"] else []) ++ (if HasStack redis then ["redis"] else [])
  ++ (if HasStack mysql then ["mysql"] else []) ++ (if HasStack kafka then ["kafka"] else []).

(** [slices.Compact]: of consecutive equal elements only the first stays. *)
Fixpoint Compact (l : list string) : list string :=
  match l with
  | x :: ((y :: _) as l') => if String.eqb x y then Compact l' else x :: Compact l'
  | _ => l
  end.

Definition GetAllProtocols (c : TapConfig) : list string :=
  Compact (protocols_of (t_Http c) (t_Redis c) (t_MySQL c) (t_Kafka c)
           ++ concat (map (fun e => protocols_of (e_Http e) (e_Redis e) (e_MySQL e) (e_Kafka e)) (t_Endpoints c))).

(** ** [SettingsManager] *)

Definition updateSocketSetting (key rawValue : Z) : M world Z := bpf_map_update_elem socket_settings_map key rawValue.

Definition updateSocketSettingIgnoreLoopback (ignore : bool) : M world Z :=
  updateSocketSetting 0 (if ignore then 1 else 0).

Definition updateSocketSettingDirection (direction : string) : M world Z :=
  updateSocketSetting 1
    (if String.eqb direction "ingress" then 0 else if String.eqb direction "egress" then 1
     else if String.eqb direction "egress-internal" then 2 else if String.eqb direction "egress-external" then 3 else 4).

Definition stack_flag (top : TapProtocolConfig) (endpoint : TapEndpointConfig -> TapProtocolConfig) (endpoints : list TapEndpointConfig)
    (flag : Z) : Z :=
  if HasStack top then flag else if existsb (fun e => HasStack (endpoint e)) endpoints then flag else 0.

Definition updateSocketSettingStreamProtocols (c : TapConfig) : M world Z :=
  let protocols := stack_flag (t_Http c) e_Http (t_Endpoints c) 1 in
  let protocols := Z.lor protocols (stack_flag (t_Redis c) e_Redis (t_Endpoints c) 2) in
  let protocols := Z.lor protocols (stack_flag (t_MySQL c) e_MySQL (t_Endpoints c) 4) in
  let protocols := Z.lor protocols (stack_flag (t_Kafka c) e_Kafka (t_Endpoints c) 8) in
  updateSocketSetting 2 protocols.

(** An update that fails is logged and the others are still made.  The configuration
    must have a [tap] section. *)
Definition updateConfig (c : TapConfig) : M world unit :=
  let* _ := updateSocketSettingIgnoreLoopback (t_IgnoreLoopback c) in
  let* _ := updateSocketSettingDirection (t_Direction c) in
  let* _ := updateSocketSettingStreamProtocols c in
  ret tt.

(** ** What the probes then see *)

(** A protocol has a stack somewhere in the configuration. *)
Definition stack_in (c : TapConfig) (p : PROTOCOL) : bool :=
  let any top endpoint := HasStack (top c) || existsb (fun e => HasStack (endpoint e)) (t_Endpoints c) in
  match p with
  | P_HTTP1 | P_HTTP2 => any t_Http e_Http
  | P_REDIS => any t_Redis e_Redis
  | P_MYSQL => any t_MySQL e_MySQL
  | P_KAFKA => any t_Kafka e_Kafka
  | _ => false
  end.

Definition direction_wanted (s : string) : Z :=
  if decide (s = "ingress") then D_INGRESS else if decide (s = "egress") then D_EGRESS
  else if decide (s = "egress-internal") then D_EGRESS_INTERNAL
  else if decide (s = "egress-external") then D_EGRESS_EXTERNAL else D_ALL.

(** The map holds settings only, so it never fills. *)
Definition only_settings (w : world) : Prop := dom (f_socket_settings w) ⊆ ({[0; 1; 2]} : gset Z).

Lemma settings_room w k : only_settings w -> has_room 12 k (f_socket_settings w).
Proof.
  intros H. right. apply subseteq_size in H. rewrite size_dom in H.
  assert (size ({[0; 1; 2]} : gset Z) = 3%nat) as E by (by vm_compute). lia.
Qed.

Lemma update_setting_run w k v : only_settings w -> k ∈ ({[0; 1; 2]} : gset Z) ->
  updateSocketSetting k v w = (0, w <| f_socket_settings := <[k := v]> (f_socket_settings w) |>)
  /\ only_settings (w <| f_socket_settings := <[k := v]> (f_socket_settings w) |>).
Proof.
  intros H Hk. split.
  - unfold updateSocketSetting, bpf_map_update_elem. cbn [bm_lru socket_settings_map].
    change (bm_get socket_settings_map w) with (f_socket_settings w). change (bm_max socket_settings_map) with 12.
    by rewrite hash_update_room by (by apply settings_room).
  - unfold only_settings. cbn. rewrite dom_insert. set_solver.
Qed.

Lemma updateConfig_run c w : only_settings w ->
  let raw := Z.lor (Z.lor (Z.lor (stack_flag (t_Http c) e_Http (t_Endpoints c) 1) (stack_flag (t_Redis c) e_Redis (t_Endpoints c) 2))
    (stack_flag (t_MySQL c) e_MySQL (t_Endpoints c) 4)) (stack_flag (t_Kafka c) e_Kafka (t_Endpoints c) 8) in
  (updateConfig c w).2 = w <| f_socket_settings := <[2 := raw]> (<[1 := direction_wanted (t_Direction c)]>
    (<[0 := if t_IgnoreLoopback c then 1 else 0]> (f_socket_settings w))) |>.
Proof.
  intros H raw. unfold updateConfig, updateSocketSettingIgnoreLoopback, updateSocketSettingDirection,
    updateSocketSettingStreamProtocols, bind.
  destruct (update_setting_run w 0 (if t_IgnoreLoopback c then 1 else 0) H) as [-> H1]; [set_solver|].
  match goal with |- context [updateSocketSetting 1 ?v ?w1] => destruct (update_setting_run w1 1 v H1) as [-> H2]; [set_solver|] end.
  match goal with |- context [updateSocketSetting 2 ?v ?w1] => destruct (update_setting_run w1 2 v H2) as [-> _]; [set_solver|] end.
  cbn [snd ret]. unfold direction_wanted.
  destruct (String.eqb_spec (t_Direction c) "ingress"); [by rewrite decide_True|rewrite decide_False by done].
  destruct (String.eqb_spec (t_Direction c) "egress"); [by rewrite decide_True|rewrite decide_False by done].
  destruct (String.eqb_spec (t_Direction c) "egress-internal"); [by rewrite decide_True|rewrite decide_False by done].
  by destruct (String.eqb_spec (t_Direction c) "egress-external"); [rewrite decide_True|rewrite decide_False].
Qed.

Lemma Compact_elem s l : s ∈ Compact l <-> s ∈ l.
Proof.
  induction l as [|x [|y l] IH]; [done..|]. change (Compact (x :: y :: l))
    with (if String.eqb x y then Compact (y :: l) else x :: Compact (y :: l)).
  destruct (String.eqb_spec x y) as [->|]; rewrite ?elem_of_cons, IH, ?elem_of_cons; tauto.
Qed.

Lemma protocols_of_elem s h r m k : s ∈ protocols_of h r m k <->
  (s = "http1" \/ s = "http2") /\ HasStack h = true \/ s = "redis" /\ HasStack r = true
  \/ s = "mysql" /\ HasStack m = true \/ s = "kafka" /\ HasStack k = true.
Proof.
  unfold protocols_of. destruct (HasStack h), (HasStack r), (HasStack m), (HasStack k);
    rewrite ?elem_of_app, ?elem_of_cons, ?elem_of_nil; naive_solver.
Qed.

Lemma stack_in_protocols c p : stack_in c p = true <-> seen_protocol p ∈ GetAllProtocols c.
Proof.
  unfold GetAllProtocols. rewrite Compact_elem, elem_of_app, protocols_of_elem.
  transitivity (stack_in c p = true); [done|].
  assert (E : seen_protocol p ∈ concat (map (fun e => protocols_of (e_Http e) (e_Redis e) (e_MySQL e) (e_Kafka e)) (t_Endpoints c))
    <-> exists e, e ∈ t_Endpoints c /\ seen_protocol p ∈ protocols_of (e_Http e) (e_Redis e) (e_MySQL e) (e_Kafka e)).
  { rewrite list_elem_of_In, in_concat. setoid_rewrite in_map_iff. setoid_rewrite list_elem_of_In. naive_solver. }
  rewrite E. setoid_rewrite protocols_of_elem. unfold stack_in.
  destruct p; cbn [seen_protocol]; rewrite ?orb_true_iff, ?existsb_exists; setoid_rewrite list_elem_of_In; naive_solver.
Qed.

Lemma updateConfig_streams c w p : only_settings w ->
  (should_stream p (updateConfig c w).2).1 = stack_in c p.
Proof.
  intros H. rewrite updateConfig_run by done. rewrite should_stream_run. unfold streams.
    set (raw := Z.lor _ _). cbn. rewrite lookup_insert_eq. subst raw. unfold stack_in, stack_flag.
    destruct (HasStack (t_Http c)), (existsb (fun e => HasStack (e_Http e)) (t_Endpoints c)),
      (HasStack (t_Redis c)), (existsb (fun e => HasStack (e_Redis e)) (t_Endpoints c)),
      (HasStack (t_MySQL c)), (existsb (fun e => HasStack (e_MySQL e)) (t_Endpoints c)),
      (HasStack (t_Kafka c)), (existsb (fun e => HasStack (e_Kafka e)) (t_Endpoints c)); by destruct p.
Qed.

(** C35: the configuration reaches the probes.  After [updateConfig] the direction and
    the loopback switch the probes read are the configured ones, and the settings let
    a protocol be streamed exactly when it has a stack at the top level or for some
    endpoint, which is also when [GetAllProtocols] lists it.  The probe that streams
    obeys them, with one exception: the data of a DNS client is streamed whatever the
    configuration says; any other connection whose protocol has no stack is marked to
    be ignored. *)
Theorem config_reaches_probes c w :
  only_settings w ->
  let w' := (updateConfig c w).2 in
  only_settings w'
  /\ direction_of w' = direction_wanted (t_Direction c)
  /\ ignore_loopback_of w' = t_IgnoreLoopback c
  /\ (forall p, (should_stream p w').1 = stack_in c p /\ (stack_in c p = true <-> seen_protocol p ∈ GetAllProtocols c))
  /\ (forall (E : Env) ctx direction args bytes ssl ci, ci_ignore ci = false ->
        (ci_ignore (stream_data ctx direction args bytes ssl ci w').1 = false
         <-> cp_function (ci_conn_pid_id ci) = C_CLIENT /\ ci_protocol ci = P_DNS \/ stack_in c (ci_protocol ci) = true)).
Proof.
  intros H w'. subst w'. split_and!; [rewrite updateConfig_run by done..| |].
  - unfold only_settings in *. cbn. rewrite !dom_insert. set_solver.
  - unfold direction_of. cbn. by rewrite lookup_insert_ne, lookup_insert_eq by done.
  - unfold ignore_loopback_of. cbn. rewrite !lookup_insert_ne, lookup_insert_eq by done. by destruct (t_IgnoreLoopback c).
  - intros p. split; [by apply updateConfig_streams|apply stack_in_protocols].
  - intros E ctx direction args bytes ssl ci Hi. unfold stream_data, bind at 1.
    rewrite (surjective_pairing (should_stream _ _)), updateConfig_streams by done. cbn [fst snd].
    destruct (bool_decide (_ = C_CLIENT)) eqn:E1, (bool_decide (_ = P_DNS)) eqn:E2, (stack_in c _) eqn:E3;
      repeat match goal with H : bool_decide _ = _ |- _ => apply bool_decide_eq_true in H || apply bool_decide_eq_false in H end;
      cbn; naive_solver.
Qed.

Definition demo_config : TapConfig :=
  let none := MkTapProtocolConfig "none" in
  MkTapConfig "egress-external" true none none none none
    [MkTapEndpointConfig (MkTapProtocolConfig "audit") none none none; MkTapEndpointConfig (MkTapProtocolConfig "audit") none none none].

Lemma config_reaches_probes_witness :
  let w := (updateConfig demo_config world_init).2 in
  direction_of w = D_EGRESS_EXTERNAL /\ (should_stream P_HTTP2 w).1 = true /\ (should_stream P_REDIS w).1 = false.
Proof.
  intros w. assert (H : only_settings world_init) by done.
  destruct (config_reaches_probes demo_config world_init H) as (_ & E & _ & Hs & _).
  split_and!; [exact E|exact (proj1 (Hs P_HTTP2))|exact (proj1 (Hs P_REDIS))].
Defined.
