(* ===== verification/L7Detect.v ===== *)
(** * Protocol detection in user space: [pkg/l7detect/detect.go]

    The detectors look at the first bytes of a stream without consuming them.  A
    [Peeker] here is a [bufio.Reader] around the bytes of one message: peeking at more
    bytes than there are is [io.EOF].  The preface of HTTP/2 is a constant of
    [golang.org/x/net/http2].  The two detectors of TLS, which only the forwarder uses,
    are left out. *)

From stdpp Require Import base numbers list strings.
From S2P Require Import Prelude Common AgentEvents.

Class Http2 := { ClientPreface : list Z }.

Section l7detect.
Context {H2 : Http2}.

(** [Peek]; [None] is [io.EOF]. *)
Definition Peek (n : nat) (conn : list Z) : option (list Z) :=
  if decide (length conn < n)%nat then None else Some (take n conn).

Definition HasPrefix (s prefix : list Z) : bool := bool_decide (take (length prefix) s = prefix).

Definition http2PrefByteCount : nat := 24.
Definition http1PrefByteCount : nat := 8.
Definition redisPrefByteCount : nat := 4.
Definition http1MethodPrefixes : list (list Z) :=
  map bytes_of_string ["GET"; "HTTP"; "POST"; "PUT"; "DELETE"; "PATCH"; "CONNECT"; "HEAD"; "OPTIONS"].

Definition isHTTP2 (conn : list Z) : bool :=
  match Peek http2PrefByteCount conn with None => false | Some peek => HasPrefix peek ClientPreface end.

Definition isHTTP1 (conn : list Z) : bool :=
  match Peek http1PrefByteCount conn with None => false | Some peek => existsb (HasPrefix peek) http1MethodPrefixes end.

(** An asterisk and a digit from 1 to 9. *)
Definition isRedis (conn : list Z) : bool :=
  match Peek redisPrefByteCount conn with
  | Some (b0 :: b1 :: _) => (b0 =? 42) && (49 <=? b1) && (b1 <=? 57)
  | _ => false
  end.

Definition DetectProtocol (conn : list Z) : string :=
  if isHTTP2 conn then connection.Protocol_HTTP2
  else if isHTTP1 conn then connection.Protocol_HTTP1
  else if isRedis conn then connection.Protocol_REDIS
  else connection.Protocol_UNKNOWN.

End l7detect.
