(* ===== verification/Engine.v ===== *)
(** * The correlator of [SSLEngine] sessions: [pkg/ebpf/tls/javassl]

    The probes report plaintext under a session and ciphertext both under its session
    and under the descriptor it crosses.  [SslEngineManager] joins the two by the hash
    of the first 16 bytes of ciphertext: when the second report arrives, the session
    has a connection, its plaintext so far is written to that connection, and the
    probes are told through shared maps to send no more ciphertext.  An operation that
    indexes an array out of range panics: [None].  The hash is that of
    [cespare/xxhash]; the time of day is an argument. *)

From stdpp Require Import base numbers list gmap strings.
From S2P Require Import Prelude Tap AgentEvents Reader L7Detect AgentConfig.

Class Xxhash := { Sum64 : list Z -> Z }.

(** [JavaProcessPidMap], [SessionIgnoreMap], [SyscallCorrelatedMap] and
    [UprobeCorrelatedMap]: hash maps of 1024 entries. *)
Record SslEngineBridge := MkBridge {
  JavaProcessPidMap : gmap Z bool;
  SessionIgnoreMap : gmap Z bool;
  SyscallCorrelatedMap : gmap pid_fd_key bool;
  UprobeCorrelatedMap : gmap Z bool }.
#[export] Instance SslEngineBridge_settable : Settable SslEngineBridge :=
  fun r => MkBridge (JavaProcessPidMap r) (SessionIgnoreMap r) (SyscallCorrelatedMap r) (UprobeCorrelatedMap r).

(** [Put] fails on a full map, [Lookup] leaves its [false] when there is no entry. *)
Definition Put {K} `{Countable K} (k : K) (m : gmap K bool) : Z * gmap K bool := hash_update 1024 k true m.
Definition Lookup {K} `{Countable K} (k : K) (m : gmap K bool) : bool := default false (m !! k).

Inductive correlationSource := CORRELATION_SOURCE_UPROBE | CORRELATION_SOURCE_SYSCALL.

Record correlation := MkCorrelation { Timestamp : Z; Pid : Z; SessionId : Z; Cookie : Z; Fd : Z }.
#[export] Instance correlation_settable : Settable correlation :=
  fun r => MkCorrelation (Timestamp r) (Pid r) (SessionId r) (Cookie r) (Fd r).

Record pendingMessage := MkPendingMessage { Direction : Z; Msg : list Z }.
Record pidMeta := MkPidMeta { SessionIds : list Z; PidFds : list Z }.
#[export] Instance pidMeta_settable : Settable pidMeta := fun r => MkPidMeta (SessionIds r) (PidFds r).

(** [[]string{"ingress", "egress"}[d]] *)
Definition ToConnectionDirection (d : Z) : option string :=
  if d =? 0 then Some connection.Ingress else if d =? 1 then Some connection.Egress else None.

(** [pid << 32 | uint32(fd)] and back *)
Definition generatePidFdKey (pid fd : Z) : Z := Z.lor (u64 (Z.shiftl pid 32)) (u32 fd).
Definition extractPidFdFromKey (key : Z) : Z * Z := (u32 (Z.shiftr key 32), s32 (Z.land key 4294967295)).

Section engine.
Context {T : TlsUtils} {H2 : Http2} {X : Xxhash}.

(** [connEvents] is the connection manager: here, the events written to it so far. *)
Record SslEngineManager := MkSslEngineManager {
  streamProtocols : gmap string bool;
  bridge : SslEngineBridge;
  connEvents : list connection.Event;
  activeCorrelations : gmap Z correlation;
  pendingCorrelations : gmap Z correlation;
  pendingCorrelationsBySource : gmap Z (list Z);
  pendingMessages : gmap Z (list pendingMessage);
  pidFdSessionIdMap : gmap Z Z;
  pidMetas : gmap Z pidMeta }.
#[export] Instance SslEngineManager_settable : Settable SslEngineManager :=
  fun r => MkSslEngineManager (streamProtocols r) (bridge r) (connEvents r) (activeCorrelations r) (pendingCorrelations r)
    (pendingCorrelationsBySource r) (pendingMessages r) (pidFdSessionIdMap r) (pidMetas r).

Definition NewSslEngineManager (b : SslEngineBridge) : SslEngineManager := MkSslEngineManager ∅ b [] ∅ ∅ ∅ ∅ ∅ ∅.

(** [connection.Manager]'s writers *)
Definition WriteProtocolEvent (now cookie : Z) (protocol : string) (isTLS : bool) (m : SslEngineManager) : SslEngineManager :=
  m <| connEvents ::= fun l => l ++ [connection.Protocol (connection.MkProtocol cookie now protocol isTLS)] |>.
Definition WriteDataEvent (cookie : Z) (direction : string) (data : list Z) (m : SslEngineManager) : SslEngineManager :=
  m <| connEvents ::= fun l => l ++ [connection.Data (connection.MkData cookie direction (Z.of_nat (length data)) 0 data)] |>.

(** A configuration without [tap] section is skipped. *)
Definition SetConfig (tap : option TapConfig) (m : SslEngineManager) : SslEngineManager :=
  match tap with
  | None => m
  | Some c => m <| streamProtocols := list_to_map (map (fun p => (p, true)) (GetAllProtocols c)) |>
  end.

(** ** Bookkeeping *)

Definition getPidMeta (pid : Z) (m : SslEngineManager) : pidMeta := default (MkPidMeta [] []) (pidMetas m !! pid).

Definition addSessionIdToPidMeta (pid sessionId : Z) (m : SslEngineManager) : SslEngineManager :=
  let meta := getPidMeta pid m in
  if bool_decide (sessionId ∈ SessionIds meta) then m
  else m <| pidMetas ::= insert pid (meta <| SessionIds ::= fun l => l ++ [sessionId] |>) |>.

Definition removeSessionIdFromPidMeta (pid sessionId : Z) (m : SslEngineManager) : SslEngineManager :=
  let meta := getPidMeta pid m in
  if negb (bool_decide (sessionId ∈ SessionIds meta)) then m
  else m <| pidMetas ::= insert pid (meta <| SessionIds ::= filter (fun id => id <> sessionId) |>) |>.

Definition addPidFdToPidMeta (pid fd : Z) (m : SslEngineManager) : SslEngineManager :=
  let meta := getPidMeta pid m in
  let key := generatePidFdKey pid fd in
  if bool_decide (key ∈ PidFds meta) then m
  else m <| pidMetas ::= insert pid (meta <| PidFds ::= fun l => l ++ [key] |>) |>.

Definition removePidFdFromPidMeta (pid fd : Z) (m : SslEngineManager) : SslEngineManager :=
  let meta := getPidMeta pid m in
  let key := generatePidFdKey pid fd in
  if negb (bool_decide (key ∈ PidFds meta)) then m
  else m <| pidMetas ::= insert pid (meta <| PidFds ::= filter (fun id => id <> key) |>) |>.

Definition removePendingCorrelationsBySource (key : Z) (m : SslEngineManager) : SslEngineManager :=
  match pendingCorrelationsBySource m !! key with
  | None => m
  | Some hashes =>
      m <| pendingCorrelations ::= fun p => foldl (fun p hash => delete hash p) p hashes |>
        <| pendingCorrelationsBySource ::= delete key |>
  end.

Definition clearSessionIgnored (sessionId : Z) (m : SslEngineManager) : SslEngineManager :=
  if negb (Lookup sessionId (SessionIgnoreMap (bridge m))) then m
  else m <| bridge ::= fun b => b <| SessionIgnoreMap ::= delete sessionId |> |>.

Definition clearUprobeCorrelated (sessionId : Z) (m : SslEngineManager) : SslEngineManager :=
  if negb (Lookup sessionId (UprobeCorrelatedMap (bridge m))) then m
  else m <| bridge ::= fun b => b <| UprobeCorrelatedMap ::= delete sessionId |> |>.

Definition clearSyscallCorrelated (pid fd : Z) (m : SslEngineManager) : SslEngineManager :=
  if negb (Lookup (PidFd pid fd) (SyscallCorrelatedMap (bridge m))) then m
  else m <| bridge ::= fun b => b <| SyscallCorrelatedMap ::= delete (PidFd pid fd) |> |>.

(** ** Processes *)

(** With the error of a full map. *)
Definition ProcessStarted (pid : Z) (m : SslEngineManager) : Z * SslEngineManager :=
  let '(r, pids) := Put (u32 pid) (JavaProcessPidMap (bridge m)) in
  (r, m <| bridge ::= fun b => b <| JavaProcessPidMap := pids |> |>).

Definition clean_session (sessionId : Z) (m : SslEngineManager) : SslEngineManager :=
  let m := m <| activeCorrelations ::= delete sessionId |> in
  let m := removePendingCorrelationsBySource sessionId m in
  let m := m <| pendingMessages ::= delete sessionId |> in
  let m := clearSessionIgnored sessionId m in
  clearUprobeCorrelated sessionId m.

Definition clean_pidfd (pidFd : Z) (m : SslEngineManager) : SslEngineManager :=
  let m := removePendingCorrelationsBySource pidFd m in
  let m := m <| pidFdSessionIdMap ::= delete pidFd |> in
  let '(pid, fd) := extractPidFdFromKey pidFd in
  clearSyscallCorrelated pid fd m.

Definition cleanAllFromPid (pid : Z) (m : SslEngineManager) : SslEngineManager :=
  match pidMetas m !! pid with
  | None => m
  | Some meta =>
      let m := foldl (fun m s => clean_session s m) m (SessionIds meta) in
      let m := foldl (fun m k => clean_pidfd k m) m (PidFds meta) in
      m <| pidMetas ::= delete pid |>
  end.

Definition ProcessStopped (pid : Z) (m : SslEngineManager) : SslEngineManager :=
  let m := m <| bridge ::= fun b => b <| JavaProcessPidMap ::= delete (u32 pid) |> |> in
  cleanAllFromPid (u32 pid) m.

Definition ProcessSocketClosed (pid fd : Z) (m : SslEngineManager) : SslEngineManager :=
  match pidFdSessionIdMap m !! generatePidFdKey pid fd with
  | None => m
  | Some sessionId =>
      let m := m <| pidFdSessionIdMap ::= delete (generatePidFdKey pid fd) |> in
      let m := m <| activeCorrelations ::= delete sessionId |> in
      let m := removePendingCorrelationsBySource sessionId m in
      let m := removePendingCorrelationsBySource (generatePidFdKey pid fd) m in
      let m := m <| pendingMessages ::= delete sessionId |> in
      let m := removePidFdFromPidMeta pid fd m in
      let m := removeSessionIdFromPidMeta pid sessionId m in
      let m := clearSessionIgnored sessionId m in
      let m := clearUprobeCorrelated sessionId m in
      clearSyscallCorrelated pid fd m
  end.

(** ** Data and correlation *)

Definition ProcessPlaintextData (pid sessionId direction : Z) (msg : list Z) (m : SslEngineManager) : option SslEngineManager :=
  match activeCorrelations m !! sessionId with
  | Some c =>
      if Lookup sessionId (SessionIgnoreMap (bridge m)) then Some m
      else d ← ToConnectionDirection direction; Some (WriteDataEvent (Cookie c) d msg m)
  | None =>
      let messages := default [] (pendingMessages m !! sessionId) in
      Some (m <| pendingMessages ::= insert sessionId (messages ++ [MkPendingMessage direction msg]) |>)
  end.

(** The loop that writes the pending messages. *)
Fixpoint write_messages (cookie : Z) (messages : list pendingMessage) (m : SslEngineManager) : option SslEngineManager :=
  match messages with
  | [] => Some m
  | msg :: messages =>
      d ← ToConnectionDirection (Direction msg);
      write_messages cookie messages (WriteDataEvent cookie d (Msg msg) m)
  end.

(** The plaintext that waited for correlation [c]. *)
Definition flush_messages (now : Z) (c : correlation) (m : SslEngineManager) : option SslEngineManager :=
  match pendingMessages m !! SessionId c with
  | Some ((first :: _) as messages) =>
      let l7Protocol := DetectProtocol (Msg first) in
      m ← (match streamProtocols m !! l7Protocol with
           | None => Some (m <| bridge ::= fun b => b <| SessionIgnoreMap ::= fun s => (Put (SessionId c) s).2 |> |>)
           | Some _ => write_messages (Cookie c) messages (WriteProtocolEvent now (Cookie c) l7Protocol true m)
           end);
      Some (m <| pendingMessages ::= delete (SessionId c) |>)
  | _ => Some m
  end.

Definition converge (source : correlationSource) (c pending : correlation) : correlation :=
  match source with
  | CORRELATION_SOURCE_UPROBE => c <| Fd := Fd pending |> <| Cookie := Cookie pending |>
  | CORRELATION_SOURCE_SYSCALL => c <| SessionId := SessionId pending |>
  end.

Definition activate (now hash : Z) (c : correlation) (m : SslEngineManager) : option SslEngineManager :=
  let m := m <| bridge ::= fun b => b <| UprobeCorrelatedMap ::= fun s => (Put (SessionId c) s).2 |> |> in
  let m := m <| bridge ::= fun b => b <| SyscallCorrelatedMap ::= fun s => (Put (PidFd (Pid c) (Fd c)) s).2 |> |> in
  let m := m <| activeCorrelations ::= insert (SessionId c) c |> in
  let m := m <| pidFdSessionIdMap ::= insert (generatePidFdKey (Pid c) (Fd c)) (SessionId c) |> in
  let m := removePendingCorrelationsBySource (SessionId c) m in
  let m := removePendingCorrelationsBySource (generatePidFdKey (Pid c) (Fd c)) m in
  let m := m <| pendingCorrelations ::= delete hash |> in
  flush_messages now c m.

Definition await (source : correlationSource) (hash : Z) (c : correlation) (m : SslEngineManager) : SslEngineManager :=
  let m := m <| pendingCorrelations ::= insert hash c |> in
  let key := match source with
             | CORRELATION_SOURCE_UPROBE => SessionId c
             | CORRELATION_SOURCE_SYSCALL => generatePidFdKey (Pid c) (Fd c)
             end in
  let hashes := default [] (pendingCorrelationsBySource m !! key) in
  m <| pendingCorrelationsBySource ::= insert key (hashes ++ [hash]) |>.

Definition processCorrelation (now : Z) (source : correlationSource) (hash : Z) (c : correlation) (m : SslEngineManager) :
    option SslEngineManager :=
  '(c, m) ← (match pendingCorrelations m !! hash with
             | Some pending =>
                 let c := converge source c pending in
                 m ← activate now hash c m; Some (c, m)
             | None => Some (c, await source hash c m)
             end);
  Some (match source with
        | CORRELATION_SOURCE_UPROBE => addSessionIdToPidMeta (Pid c) (SessionId c) m
        | CORRELATION_SOURCE_SYSCALL => addPidFdToPidMeta (Pid c) (Fd c) m
        end).

Definition generatePrefixHash (data : list Z) : Z := Sum64 (take 16 data).

Definition ProcessEncryptedData (now pid sessionId direction : Z) (msg : list Z) (m : SslEngineManager) :
    option SslEngineManager :=
  if decide (length msg < 16)%nat then Some m
  else
    match activeCorrelations m !! sessionId with
    | Some _ => Some m
    | None =>
        processCorrelation now CORRELATION_SOURCE_UPROBE (generatePrefixHash msg) (MkCorrelation now pid sessionId 0 (-1)) m
    end.

Definition ProcessCorrelationData (now pid fd cookie direction : Z) (msg : list Z) (m : SslEngineManager) :
    option SslEngineManager :=
  if decide (length msg < 16)%nat then Some m
  else if Lookup (PidFd pid fd) (SyscallCorrelatedMap (bridge m)) then Some m
  else processCorrelation now CORRELATION_SOURCE_SYSCALL (generatePrefixHash msg) (MkCorrelation now pid 0 cookie fd) m.

(** ** Expiration *)

Definition expirePendingCorrelation (key : Z) (c : correlation) (m : SslEngineManager) : SslEngineManager :=
  let m := if negb (Pid c =? 0) && negb (Fd c =? -1)
           then removePendingCorrelationsBySource (generatePidFdKey (Pid c) (Fd c)) m else m in
  let m := if negb (SessionId c =? 0)
           then (removePendingCorrelationsBySource (SessionId c) m) <| pendingMessages ::= delete (SessionId c) |> else m in
  m <| pendingCorrelations ::= delete key |>.

(** One round of the ticker: [Iter] collects the keys, in an order of its own, and
    skips those that are gone when their turn comes. *)
Definition expire_key (now : Z) (m : SslEngineManager) (key : Z) : SslEngineManager :=
  match pendingCorrelations m !! key with
  | None => m
  | Some c => if now - Timestamp c >? 10 * 10 ^ 9 then expirePendingCorrelation key c m else m
  end.

Definition expirePendingCorrelations (now : Z) (order : list Z -> list Z) (m : SslEngineManager) : SslEngineManager :=
  foldl (expire_key now) m (order (map_to_list (pendingCorrelations m)).*1).

(** ** Records of the ring buffer: [event.go], [reader.go] *)

Record dataEvent := MkDataEvent {
  dv_Timestamp : Z; dv_Pid : Z; dv_SessionId : Z; dv_Direction : Z; dv_DataType : Z; dv_MsgSize : Z }.
Definition dataEvent_size : nat := 40.
Definition read_dataEvent (bs : list Z) : dataEvent :=
  let '(ts, bs) := uint 8 bs in
  let '(pid, bs) := uint 4 bs in
  let '(_, bs) := array_ 4 bs in
  let '(session, bs) := uint 8 bs in
  let '(direction, bs) := uint 4 bs in
  let '(data_type, bs) := uint 4 bs in
  let '(msg_size, bs) := uint 4 bs in
  MkDataEvent ts pid session direction data_type msg_size.

Record correlateEvent := MkCorrelateEvent {
  cv_Timestamp : Z; cv_Pid : Z; cv_Fd : Z; cv_Cookie : Z; cv_Direction : Z; cv_MsgSize : Z }.
Definition correlateEvent_size : nat := 32.
Definition read_correlateEvent (bs : list Z) : correlateEvent :=
  let '(ts, bs) := uint 8 bs in
  let '(pid, bs) := uint 4 bs in
  let '(fd, bs) := int32_ bs in
  let '(cookie, bs) := uint 8 bs in
  let '(direction, bs) := uint 4 bs in
  let '(msg_size, bs) := uint 4 bs in
  MkCorrelateEvent ts pid fd cookie direction msg_size.

Definition socketClosedEvent_size : nat := 8.
Definition read_socketClosedEvent (bs : list Z) : Z * Z :=
  let '(pid, bs) := uint 4 bs in
  let '(fd, bs) := int32_ bs in
  (pid, fd).

Definition EVENT_DATA : Z := 1.
Definition EVENT_CORRELATE : Z := 2.
Definition EVENT_SOCKET_CLOSED : Z := 3.
Definition DATA_TYPE_PLAINTEXT : Z := 1.
Definition DATA_TYPE_ENCRYPTED : Z := 2.

(** A record that is too short is dropped. *)
Definition readDataEvent (now : Z) (r : list Z) (m : SslEngineManager) : option SslEngineManager :=
  match binary_Read dataEvent_size read_dataEvent r with
  | None => Some m
  | Some (e, r) =>
      match reader_Read (Z.to_nat (dv_MsgSize e)) r with
      | None => Some m
      | Some msg =>
          if dv_DataType e =? DATA_TYPE_PLAINTEXT
          then ProcessPlaintextData (dv_Pid e) (dv_SessionId e) (dv_Direction e) msg m
          else if dv_DataType e =? DATA_TYPE_ENCRYPTED
          then ProcessEncryptedData now (dv_Pid e) (dv_SessionId e) (dv_Direction e) msg m
          else Some m
      end
  end.

Definition readCorrelateEvent (now : Z) (r : list Z) (m : SslEngineManager) : option SslEngineManager :=
  match binary_Read correlateEvent_size read_correlateEvent r with
  | None => Some m
  | Some (e, r) =>
      match reader_Read (Z.to_nat (cv_MsgSize e)) r with
      | None => Some m
      | Some msg => ProcessCorrelationData now (cv_Pid e) (cv_Fd e) (cv_Cookie e) (cv_Direction e) msg m
      end
  end.

Definition readSocketClosedEvent (r : list Z) (m : SslEngineManager) : option SslEngineManager :=
  match binary_Read socketClosedEvent_size read_socketClosedEvent r with
  | None => Some m
  | Some ((pid, fd), _) => Some (ProcessSocketClosed pid fd m)
  end.

Definition readEvent (now : Z) (record : list Z) (m : SslEngineManager) : option SslEngineManager :=
  match binary_Read 8 (fun bs => (uint 8 bs).1) record with
  | None => Some m
  | Some (type, r) =>
      if type =? EVENT_DATA then readDataEvent now r m
      else if type =? EVENT_CORRELATE then readCorrelateEvent now r m
      else if type =? EVENT_SOCKET_CLOSED then readSocketClosedEvent r m
      else Some m
  end.

End engine.
