(* ===== verification/EngineWire.v ===== *)
(** * The ring buffer of the [SSLEngine] probes

    The bytes of the three events as the compiler lays out the structures of
    [bpf/tap/javassl.bpf.c], what the correlator of Engine makes of them, and the two
    functions on pid/fd keys. *)

From stdpp Require Import base numbers list gmap strings.
From S2P Require Import Prelude Tap Common AgentEvents Reader Wire L7Detect Engine.

(** ** Layout *)

(** [pad] is what the padding of a data event holds: after the pid and after the size. *)
Definition java_wire (pad : list Z) (ev : java_event) : list Z :=
  match ev with
  | Je_data e =>
      le_store 8 (je_type e) ++ le_store 8 (je_timestamp_ns e) ++ le_store 4 (je_pid e) ++ take 4 (pad ++ zeros 4)
      ++ le_store 8 (je_session_id e) ++ le_store 4 (je_direction e) ++ le_store 4 (je_data_type e)
      ++ le_store 4 (je_msg_size e) ++ take 4 (drop 4 pad ++ zeros 4) ++ je_msg e
  | Je_correlate e =>
      le_store 8 (jc_type e) ++ le_store 8 (jc_timestamp_ns e) ++ le_store 4 (jc_pid e) ++ le_store 4 (jc_fd e)
      ++ le_store 8 (jc_cookie e) ++ le_store 4 (jc_direction e) ++ le_store 4 (jc_msg_size e) ++ jc_msg e
  | Je_closed e => le_store 8 (jk_type e) ++ le_store 4 (jk_pid e) ++ le_store 4 (jk_fd e)
  end.

(** The kind is that of the structure, every field has a value of its type, a message
    is as long as its size says and not empty. *)
Definition java_fits (ev : java_event) : Prop :=
  match ev with
  | Je_data e =>
      je_type e = J_DATA /\ fits 64 (je_timestamp_ns e) /\ fits 32 (je_pid e) /\ fits 64 (je_session_id e)
      /\ (je_direction e = D_INGRESS \/ je_direction e = D_EGRESS)
      /\ (je_data_type e = J_PLAINTEXT \/ je_data_type e = J_ENCRYPTED)
      /\ 0 < je_msg_size e <= MAX_MSG_SIZE /\ Z.of_nat (length (je_msg e)) = je_msg_size e
  | Je_correlate e =>
      jc_type e = J_CORRELATE /\ fits 64 (jc_timestamp_ns e) /\ fits 32 (jc_pid e) /\ - 2 ^ 31 <= jc_fd e < 2 ^ 31
      /\ fits 64 (jc_cookie e) /\ (jc_direction e = D_INGRESS \/ jc_direction e = D_EGRESS)
      /\ 0 < jc_msg_size e <= MAX_MSG_SIZE /\ Z.of_nat (length (jc_msg e)) = jc_msg_size e
  | Je_closed e => jk_type e = J_SOCKET_CLOSED /\ fits 32 (jk_pid e) /\ - 2 ^ 31 <= jk_fd e < 2 ^ 31
  end.

(** ** What the correlator does with an event *)

Section wire.
Context {T : TlsUtils} {H2 : Http2} {X : Xxhash}.

Definition process_event (now : Z) (ev : java_event) (m : SslEngineManager) : option SslEngineManager :=
  match ev with
  | Je_data e =>
      if je_data_type e =? J_PLAINTEXT
      then ProcessPlaintextData (je_pid e) (je_session_id e) (je_direction e) (je_msg e) m
      else ProcessEncryptedData now (je_pid e) (je_session_id e) (je_direction e) (je_msg e) m
  | Je_correlate e => ProcessCorrelationData now (jc_pid e) (jc_fd e) (jc_cookie e) (jc_direction e) (jc_msg e) m
  | Je_closed e => Some (ProcessSocketClosed (jk_pid e) (jk_fd e) m)
  end.

Lemma java_type now t r m : fits 64 t ->
  readEvent now (le_store 8 t ++ r) m
  = if t =? EVENT_DATA then readDataEvent now r m
    else if t =? EVENT_CORRELATE then readCorrelateEvent now r m
    else if t =? EVENT_SOCKET_CLOSED then readSocketClosedEvent r m else Some m.
Proof.
  intros F. unfold readEvent. rewrite (binary_Read_fields 8 _ _ _ t); [done|apply length_le_store|].
  intros r'. by rewrite (uint_fits 8 64).
Qed.

Lemma length_pad pad : length (take 4 (pad ++ zeros 4)) = 4%nat.
Proof. unfold zeros. rewrite length_take, length_app, length_replicate. lia. Qed.

Lemma direction_fits d : d = D_INGRESS \/ d = D_EGRESS -> fits 32 d.
Proof. by intros [-> | ->]. Qed.

Lemma size_fits n : 0 < n <= MAX_MSG_SIZE -> fits 32 n.
Proof. unfold fits, MAX_MSG_SIZE. lia. Qed.

Ltac java_fields :=
  intros r; rewrite <- ?app_assoc;
  repeat first [rewrite int32_store by done | rewrite (uint_fits 8 64) by done | rewrite (uint_fits 4 32) by done
               | rewrite array_store by apply length_pad]; reflexivity.

Lemma data_processed now pad e m : java_fits (Je_data e) ->
  readEvent now (java_wire pad (Je_data e)) m = process_event now (Je_data e) m.
Proof.
  intros (Ty & F1 & F2 & F3 & Fd & Ft & S & L). cbn [java_wire]. rewrite Ty, java_type by done.
  change (J_DATA =? EVENT_DATA) with true. cbn [process_event].
  pose proof (direction_fits _ Fd). pose proof (size_fits _ S).
  assert (fits 32 (je_data_type e)) by (by destruct Ft as [-> | ->]).
  unfold readDataEvent. rewrite !app_assoc.
  erewrite (binary_Read_fields dataEvent_size);
    [|rewrite !length_app, !length_le_store, !length_pad; reflexivity|unfold read_dataEvent; java_fields].
  cbn [dv_MsgSize dv_DataType dv_Pid dv_SessionId dv_Direction].
  rewrite reader_Read_exact by lia. rewrite take_ge by lia. by destruct Ft as [-> | ->].
Qed.

Lemma correlate_processed now pad e m : java_fits (Je_correlate e) ->
  readEvent now (java_wire pad (Je_correlate e)) m = process_event now (Je_correlate e) m.
Proof.
  intros (Ty & F1 & F2 & F3 & F4 & Fd & S & L). cbn [java_wire]. rewrite Ty, java_type by done.
  change (J_CORRELATE =? EVENT_DATA) with false. change (J_CORRELATE =? EVENT_CORRELATE) with true. cbn [process_event].
  pose proof (direction_fits _ Fd). pose proof (size_fits _ S). unfold readCorrelateEvent. rewrite !app_assoc.
  erewrite (binary_Read_fields correlateEvent_size);
    [|rewrite !length_app, !length_le_store; reflexivity|unfold read_correlateEvent; java_fields].
  cbn [cv_MsgSize cv_Pid cv_Fd cv_Cookie cv_Direction]. rewrite reader_Read_exact by lia. by rewrite take_ge by lia.
Qed.

Lemma closed_processed now pad e m : java_fits (Je_closed e) ->
  readEvent now (java_wire pad (Je_closed e)) m = process_event now (Je_closed e) m.
Proof.
  intros (Ty & F1 & F2). cbn [java_wire]. rewrite Ty, java_type by done. cbn -[readSocketClosedEvent le_store ProcessSocketClosed].
  unfold readSocketClosedEvent. rewrite <- (app_nil_r (le_store 4 (jk_fd e))), !app_assoc.
  erewrite (binary_Read_fields socketClosedEvent_size);
    [|rewrite !length_app, !length_le_store; reflexivity|unfold read_socketClosedEvent; java_fields]. done.
Qed.

Lemma readEvent_processed now pad ev m : java_fits ev -> readEvent now (java_wire pad ev) m = process_event now ev m.
Proof. destruct ev; auto using data_processed, correlate_processed, closed_processed. Qed.

End wire.

(** ** Keys *)

Lemma generatePidFdKey_spec pid fd : fits 32 pid -> generatePidFdKey pid fd = pid * 2 ^ 32 + u32 fd.
Proof.
  intros F. unfold generatePidFdKey, fits in *. rewrite Z.shiftl_mul_pow2 by lia. rewrite u64_small by lia.
  rewrite Z.lor_comm, <- (Z.shiftl_mul_pow2 pid 32) at 1 by lia.
  rewrite lor_shiftl_add; [apply Z.add_comm|lia|]. apply Z.mod_pos_bound. lia.
Qed.

Lemma key_hi pid fd : fits 32 pid -> generatePidFdKey pid fd / 2 ^ 32 = pid.
Proof.
  intros F. rewrite generatePidFdKey_spec by done. assert (0 <= u32 fd < 2 ^ 32) by (apply Z.mod_pos_bound; lia).
  rewrite Z.div_add_l, Z.div_small; lia.
Qed.

Lemma extract_generate pid fd : fits 32 pid -> - 2 ^ 31 <= fd < 2 ^ 31 -> extractPidFdFromKey (generatePidFdKey pid fd) = (pid, fd).
Proof.
  intros F R. unfold extractPidFdFromKey. f_equal.
  - rewrite Z.shiftr_div_pow2 by lia. rewrite key_hi by done. apply u32_small. exact F.
  - rewrite generatePidFdKey_spec by done. change 4294967295 with (Z.ones 32). rewrite Z.land_ones by lia.
    rewrite Z.add_comm, Z.mod_add by lia. unfold u32, s32. rewrite Z.mod_mod by lia.
    rewrite Zplus_mod_idemp_l, Z.mod_small; lia.
Qed.

Lemma key_inj pid fd pid' fd' : fits 32 pid -> fits 32 pid' -> - 2 ^ 31 <= fd < 2 ^ 31 -> - 2 ^ 31 <= fd' < 2 ^ 31 ->
  generatePidFdKey pid fd = generatePidFdKey pid' fd' -> pid = pid' /\ fd = fd'.
Proof.
  intros ???? E. pose proof (extract_generate pid fd) as E1. pose proof (extract_generate pid' fd') as E2.
  rewrite E in E1. rewrite E1 in E2 by done. specialize (E2 ltac:(done) ltac:(done)). by simplify_eq.
Qed.

(** ** Properties *)

(** The correlator reads what the probes wrote.  The bytes of any event that fits
    its structure, whatever the padding holds, make it process that event: plaintext
    and ciphertext with their session, direction and message, a correlation with its
    pid, descriptor, cookie and message, the end of a socket with its pid and
    descriptor. *)
Theorem java_events_decoded {T : TlsUtils} {H2 : Http2} {X : Xxhash} now pad ev m :
  java_fits ev -> readEvent now (java_wire pad ev) m = process_event now ev m.
Proof. apply readEvent_processed. Qed.

(** For examples: the preface of HTTP/2, and the sum of the bytes as a hash. *)
Definition demo_http2 : Http2 :=
  {| ClientPreface := bytes_of_string "PRI * HTTP/2.0" ++ [13; 10; 13; 10] ++ bytes_of_string "SM" ++ [13; 10; 13; 10] |}.
Definition demo_xxhash : Xxhash := {| Sum64 l := foldr Z.add 0 l |}.

(** Plaintext of an uncorrelated session is kept. *)
Lemma java_events_decoded_witness :
  let e := JavaDataEvent J_DATA 5 7 (2 ^ 60) D_EGRESS J_PLAINTEXT 3 [1; 2; 3] in
  let m := @NewSslEngineManager demo_tls (MkBridge ∅ ∅ ∅ ∅) in
  (fun m => pendingMessages m !! (2 ^ 60)) <$> @readEvent demo_tls demo_http2 demo_xxhash 9 (java_wire [255; 254; 253; 252; 251] (Je_data e)) m
  = Some (Some [MkPendingMessage 1 [1; 2; 3]]).
Proof.
  intros e m. rewrite (@java_events_decoded demo_tls demo_http2 demo_xxhash 9 [255; 254; 253; 252; 251] (Je_data e) m); [reflexivity|].
  split_and!; first [done | by right | by left].
Defined.
