(* ===== verification/EngineSpec.v ===== *)
(** * What the correlator promises

    One session and one descriptor as an abstract machine: what the two have shown of
    their ciphertext, the plaintext that waits, and whether they have been joined.  The
    correlator implements this machine for every pair, whatever other sessions,
    descriptors and processes do in between. *)

From stdpp Require Import base numbers list gmap strings.
From S2P Require Import Prelude Tap Common AgentEvents Reader Wire L7Detect AgentConfig Engine EngineWire.

(** ** The operations of the correlator *)

(** A record of the ring buffer, a round of the ticker, the start and the end of a Java
    process, a new configuration. *)
Inductive engine_op :=
| Ring (now : Z) (pad : list Z) (ev : java_event)
| Tick (now : Z) (order : list Z -> list Z)
| Started (pid : Z)
| Stopped (pid : Z)
| Configured (tap : option TapConfig).

(** ** One session and one descriptor *)

(** [mine] and [theirs] are the hashes the session and the descriptor have shown, with
    the time; [known] says that they are joined, and whether the session is ignored. *)
Record session := MkSession {
  mine : list (Z * Z);
  theirs : list (Z * Z);
  waiting : list pendingMessage;
  known : option bool;
  protocols : gmap string bool }.
#[export] Instance session_settable : Settable session :=
  fun r => MkSession (mine r) (theirs r) (waiting r) (known r) (protocols r).

Definition new_session : session := MkSession [] [] [] None ∅.

Inductive session_op :=
| S_enc (now hash : Z)
| S_plain (direction : Z) (msg : list Z)
| S_corr (now hash : Z)
| S_tick (now : Z)
| S_shut
| S_config (c : TapConfig).

Definition expired (now : Z) (l : list (Z * Z)) : bool := existsb (fun ht => now - ht.2 >? 10 * 10 ^ 9) l.

(** Where the correlator records that the pair is joined; the four change one by one. *)
Record flags := Flags { fl_active : bool; fl_fd : bool; fl_ignored : bool; fl_told : bool }.
Definition settled (k : option bool) : flags := match k with None => Flags false false false false | Some b => Flags true true b true end.

(** ** The table of hashes *)

Ltac fields := cbn [over streamProtocols bridge connEvents activeCorrelations pendingCorrelations pendingCorrelationsBySource
  pendingMessages pidFdSessionIdMap pidMetas JavaProcessPidMap SessionIgnoreMap SyscallCorrelatedMap UprobeCorrelatedMap
  mine theirs waiting known protocols fl_active fl_fd fl_ignored fl_told].

Section tables.
Context {T : TlsUtils} {H2 : Http2} {X : Xxhash}.

Lemma foldl_delete_lookup {A} (l : list Z) (p : gmap Z A) h :
  foldl (fun p hash => delete hash p) p l !! h = if decide (h ∈ l) then None else p !! h.
Proof.
  revert p. induction l as [|x l IH]; intros p; cbn [foldl]; [by rewrite decide_False by apply not_elem_of_nil|].
  rewrite IH. destruct (decide (h = x)) as [->|N].
  - rewrite lookup_delete_eq, (decide_True (P := x ∈ x :: l)) by set_solver. by destruct (decide _).
  - rewrite lookup_delete_ne by done. destruct (decide (h ∈ l)).
    + by rewrite decide_True by set_solver.
    + by rewrite decide_False by set_solver.
Qed.

Lemma remove_lookup k m h :
  pendingCorrelations (removePendingCorrelationsBySource k m) !! h
  = if decide (h ∈ default [] (pendingCorrelationsBySource m !! k)) then None else pendingCorrelations m !! h.
Proof.
  unfold removePendingCorrelationsBySource. destruct (pendingCorrelationsBySource m !! k); fields; cbn [default].
  - apply foldl_delete_lookup.
  - by rewrite decide_False by apply not_elem_of_nil.
Qed.

Lemma remove_source k m :
  pendingCorrelationsBySource (removePendingCorrelationsBySource k m) = delete k (pendingCorrelationsBySource m).
Proof.
  unfold removePendingCorrelationsBySource. destruct (pendingCorrelationsBySource m !! k) eqn:E; fields; [done|].
  by rewrite delete_id.
Qed.

(** Nothing else changes. *)
Lemma remove_rest k m :
  removePendingCorrelationsBySource k m
  = m <| pendingCorrelations := pendingCorrelations (removePendingCorrelationsBySource k m) |>
      <| pendingCorrelationsBySource := delete k (pendingCorrelationsBySource m) |>.
Proof. rewrite <- remove_source. unfold removePendingCorrelationsBySource. destruct (_ !! k); by destruct m. Qed.

End tables.

Section spec.
Context {T : TlsUtils} {H2 : Http2} {X : Xxhash}.

Definition engine_step (op : engine_op) (m : SslEngineManager) : option SslEngineManager :=
  match op with
  | Ring now pad ev => readEvent now (java_wire pad ev) m
  | Tick now order => Some (expirePendingCorrelations now order m)
  | Started pid => Some (ProcessStarted pid m).2
  | Stopped pid => Some (ProcessStopped pid m)
  | Configured tap => Some (SetConfig tap m)
  end.

Fixpoint engine_run (ops : list engine_op) (m : SslEngineManager) : option SslEngineManager :=
  match ops with [] => Some m | op :: ops => m ← engine_step op m; engine_run ops m end.

Context (ck : Z).

(** Plaintext as it is written to the connection. *)
Definition data_event (p : pendingMessage) : connection.Event :=
  connection.Data (connection.MkData ck (seen_direction (Direction p)) (Z.of_nat (length (Msg p))) 0 (Msg p)).

(** The two meet: the plaintext so far decides whether there is a stream. *)
Definition join (now : Z) (st : session) : session * list connection.Event :=
  let st' := st <| mine := [] |> <| theirs := [] |> <| waiting := [] |> in
  match waiting st with
  | [] => (st' <| known := Some false |>, [])
  | first :: _ =>
      let p := DetectProtocol (Msg first) in
      match protocols st !! p with
      | None => (st' <| known := Some true |>, [])
      | Some _ => (st' <| known := Some false |>,
                   connection.Protocol (connection.MkProtocol ck now p true) :: map data_event (waiting st))
      end
  end.

(** [None] when one of the two shows a prefix it is still waiting with. *)
Definition session_step (op : session_op) (st : session) : option (session * list connection.Event) :=
  match op, known st with
  | S_plain d msg, None => Some (st <| waiting ::= fun l => l ++ [MkPendingMessage d msg] |>, [])
  | S_plain d msg, Some false => Some (st, [data_event (MkPendingMessage d msg)])
  | S_plain d msg, Some true => Some (st, [])
  | S_enc now h, None =>
      if decide (h ∈ (mine st).*1) then None
      else if decide (h ∈ (theirs st).*1) then Some (join now st)
      else Some (st <| mine ::= fun l => l ++ [(h, now)] |>, [])
  | S_corr now h, None =>
      if decide (h ∈ (theirs st).*1) then None
      else if decide (h ∈ (mine st).*1) then Some (join now st)
      else Some (st <| theirs ::= fun l => l ++ [(h, now)] |>, [])
  | S_tick now, _ =>
      let st1 := if expired now (mine st) then st <| mine := [] |> <| waiting := [] |> else st in
      Some (if expired now (theirs st) then st1 <| theirs := [] |> else st1, [])
  | S_shut, Some _ => Some (new_session <| protocols := protocols st |>, [])
  | S_config c, _ => Some (st <| protocols := list_to_map (map (fun p => (p, true)) (GetAllProtocols c)) |>, [])
  | _, _ => Some (st, [])
  end.

Fixpoint session_run (ops : list session_op) (st : session) : option (session * list connection.Event) :=
  match ops with
  | [] => Some (st, [])
  | op :: ops =>
      '(st, out) ← session_step op st;
      '(st, out') ← session_run ops st;
      Some (st, out ++ out')
  end.

(** ** The operations that concern the pair *)

Context (s pid fd : Z).

Definition own (op : engine_op) : option session_op :=
  match op with
  | Ring now _ (Je_data e) =>
      if negb (je_session_id e =? s) then None
      else if je_data_type e =? J_PLAINTEXT then Some (S_plain (je_direction e) (je_msg e))
      else if decide (length (je_msg e) < 16)%nat then None else Some (S_enc now (generatePrefixHash (je_msg e)))
  | Ring now _ (Je_correlate e) =>
      if negb ((jc_pid e =? pid) && (jc_fd e =? fd)) then None
      else if decide (length (jc_msg e) < 16)%nat then None else Some (S_corr now (generatePrefixHash (jc_msg e)))
  | Ring _ _ (Je_closed e) => if (jk_pid e =? pid) && (jk_fd e =? fd) then Some S_shut else None
  | Tick now _ => Some (S_tick now)
  | Configured (Some c) => Some (S_config c)
  | _ => None
  end.

(** The events of the connection among those written. *)
Definition written (m : SslEngineManager) : list connection.Event := filter (fun e => connection.Key e = ck) (connEvents m).

(** ** The rest of the traffic *)

(** [hs] are the hashes of the pair; any other is seen in one process, its [owner].
    [sessions] and [descs] are all there are. *)
Context (hs : Z -> Prop) {hs_dec : forall h, Decision (hs h)} (owner : Z -> Z) (sessions : gset Z) (descs : gset pid_fd_key).

Definition key : Z := generatePidFdKey pid fd.

Definition fd_fits (f : Z) : Prop := - 2 ^ 31 <= f < 2 ^ 31.
Definition foreign_key (k : Z) : Prop := k <> s /\ k <> key.
Definition foreign_fd (p f : Z) : Prop := fits 32 p /\ fd_fits f /\ p <> s / 2 ^ 32 /\ PidFd p f <> PidFd pid fd.

(** Session identifiers and pid/fd keys index the same table, so neither may look like
    the other; the maps shared with the probes have room. *)
Definition scope : Prop :=
  s <> 0 /\ s / 2 ^ 32 <> pid /\ fits 32 pid /\ pid <> 0 /\ fd_fits fd /\ fd <> -1 /\ ck <> 0
  /\ s ∈ sessions /\ 0 ∈ sessions /\ PidFd pid fd ∈ descs
  /\ Z.of_nat (size sessions) <= 1024 /\ Z.of_nat (size descs) <= 1024.

(** Ciphertext elsewhere. *)
Definition foreign_hash (h p f : Z) : Prop :=
  ~ hs h /\ p = owner h /\ p <> s / 2 ^ 32 /\ PidFd p f <> PidFd pid fd /\ PidFd p f ∈ descs.

Definition apart (ev : java_event) : Prop :=
  match ev with
  | Je_data e =>
      let long := je_data_type e = J_ENCRYPTED /\ (16 <= length (je_msg e))%nat in
      let h := generatePrefixHash (je_msg e) in
      if decide (je_session_id e = s) then long -> hs h /\ je_pid e = pid
      else je_session_id e ∈ sessions /\ foreign_key (je_session_id e) /\ (long -> foreign_hash h (je_pid e) (-1))
  | Je_correlate e =>
      let long := (16 <= length (jc_msg e))%nat in
      let h := generatePrefixHash (jc_msg e) in
      if decide (jc_pid e = pid /\ jc_fd e = fd) then long -> hs h /\ jc_cookie e = ck
      else long -> foreign_hash h (jc_pid e) (jc_fd e) /\ jc_cookie e <> ck
  | Je_closed e => (jk_pid e = pid /\ jk_fd e = fd) \/ jk_pid e <> s / 2 ^ 32
  end.

Definition op_ok (op : engine_op) : Prop :=
  match op with
  | Ring _ _ ev => java_fits ev /\ apart ev
  | Tick _ order => forall l, order l ≡ₚ l
  | Stopped p => u32 p <> pid
  | Started _ | Configured _ => True
  end.

(** ** The correlator and the pair *)

(** The entries of the pair in the table of hashes. *)
Definition of_session (t : Z) : correlation := MkCorrelation t pid s 0 (-1).
Definition of_desc (t : Z) : correlation := MkCorrelation t pid 0 ck fd.
Definition expected (st : session) (h : Z) : option correlation :=
  match (list_to_map (mine st) : gmap Z Z) !! h with
  | Some t => Some (of_session t)
  | None => of_desc <$> (list_to_map (theirs st) : gmap Z Z) !! h
  end.

Definition foreign (h : Z) (c : correlation) : Prop :=
  Pid c = owner h /\ foreign_fd (Pid c) (Fd c) /\ PidFd (Pid c) (Fd c) ∈ descs
  /\ SessionId c ∈ sessions /\ foreign_key (SessionId c) /\ Cookie c <> ck.

Definition direction_ok (p : pendingMessage) : Prop := Direction p = D_INGRESS \/ Direction p = D_EGRESS.

Record tracks (st : session) (fl : flags) (out : list connection.Event) (m : SslEngineManager) : Prop := {
  tr_out : written m = out;
  tr_protocols : streamProtocols m = protocols st;
  tr_mine : default [] (pendingCorrelationsBySource m !! s) = (mine st).*1;
  tr_theirs : default [] (pendingCorrelationsBySource m !! key) = (theirs st).*1;
  tr_sources : forall k l h, pendingCorrelationsBySource m !! k = Some l -> h ∈ l -> hs h -> k = s \/ k = key;
  tr_pending : forall h, hs h -> pendingCorrelations m !! h = expected st h;
  tr_foreign : forall h c, ~ hs h -> pendingCorrelations m !! h = Some c -> foreign h c;
  tr_hashes : NoDup ((mine st).*1 ++ (theirs st).*1) /\ Forall hs ((mine st).*1 ++ (theirs st).*1);
  tr_waiting : default [] (pendingMessages m !! s) = waiting st;
  tr_messages : forall s' l, pendingMessages m !! s' = Some l -> Forall direction_ok l;
  tr_active : Cookie <$> activeCorrelations m !! s = (if fl_active fl then Some ck else None);
  tr_actives : forall s' c, s' <> s -> activeCorrelations m !! s' = Some c -> Cookie c <> ck;
  tr_fd : pidFdSessionIdMap m !! key = (if fl_fd fl then Some s else None);
  tr_fds : forall k v, k <> key -> pidFdSessionIdMap m !! k = Some v -> foreign_key v;
  tr_ignored : Lookup s (SessionIgnoreMap (bridge m)) = fl_ignored fl;
  tr_ignores : dom (SessionIgnoreMap (bridge m)) ⊆ sessions;
  tr_told : Lookup (PidFd pid fd) (SyscallCorrelatedMap (bridge m)) = fl_told fl;
  tr_tolds : dom (SyscallCorrelatedMap (bridge m)) ⊆ descs;
  tr_metas : forall p meta, p <> pid -> pidMetas m !! p = Some meta ->
    Forall foreign_key (SessionIds meta) /\ Forall (fun k => exists p f, k = generatePidFdKey p f /\ foreign_fd p f) (PidFds meta) }.

(** *** Operations elsewhere leave the pair alone *)

(** Only the changed fields are left. *)
Ltac frame H := destruct H; constructor; unfold written in *; fields; try assumption.

Context (Hscope : scope).

Lemma key_foreign p f : foreign_fd p f -> foreign_key (generatePidFdKey p f).
Proof.
  destruct Hscope as (_ & _ & Fp & _ & Ff & _). intros (F1 & F2 & N & Nf). split.
  - intros E. apply N. by rewrite <- E, key_hi.
  - intros E. apply key_inj in E as [-> ->]; done.
Qed.

Lemma own_key_ne : s <> key.
Proof. destruct Hscope as (_ & N & Fp & _). intros E. apply N. by rewrite E; apply key_hi. Qed.

Lemma foreign_zero : foreign_key 0.
Proof.
  destruct Hscope as (N & _ & Fp & Np & _). split; [done|]. intros E. apply Np. rewrite <- (key_hi pid fd) by done.
  change (generatePidFdKey pid fd) with key. by rewrite <- E.
Qed.

Lemma remove_foreign k st fl out m :
  foreign_key k -> tracks st fl out m -> tracks st fl out (removePendingCorrelationsBySource k m).
Proof.
  intros [N1 N2] H. unfold removePendingCorrelationsBySource.
  destruct (pendingCorrelationsBySource m !! k) as [l|] eqn:E; [|done]. frame H.
  - by rewrite lookup_delete_ne.
  - by rewrite lookup_delete_ne.
  - intros k' l' h [Nk Hk]%lookup_delete_Some. by apply tr_sources0.
  - intros h Hh. rewrite foldl_delete_lookup, decide_False; [by apply tr_pending0|].
    intros Hl. destruct (tr_sources0 k l h E Hl Hh); done.
  - intros h c Hh. rewrite foldl_delete_lookup. destruct (decide _); [done|]. by apply tr_foreign0.
Qed.

Lemma active_foreign s' c st fl out m :
  s' <> s -> Cookie c <> ck -> tracks st fl out m -> tracks st fl out (m <| activeCorrelations ::= insert s' c |>).
Proof.
  intros N Nc H. frame H.
  - by rewrite lookup_insert_ne.
  - intros s'' c'' N'' [[<- <-]|[_ Hs]]%lookup_insert_Some; [done|by eapply tr_actives0].
Qed.

Lemma inactive_foreign s' st fl out m : s' <> s -> tracks st fl out m -> tracks st fl out (m <| activeCorrelations ::= delete s' |>).
Proof.
  intros N H. frame H.
  - by rewrite lookup_delete_ne.
  - intros s'' c'' N'' [_ Hs]%lookup_delete_Some. by eapply tr_actives0.
Qed.

Lemma fd_foreign k v st fl out m :
  k <> key -> foreign_key v -> tracks st fl out m -> tracks st fl out (m <| pidFdSessionIdMap ::= insert k v |>).
Proof.
  intros N Nv H. frame H.
  - by rewrite lookup_insert_ne.
  - intros k' v' N' [[<- <-]|[_ Hk]]%lookup_insert_Some; [done|by eapply tr_fds0].
Qed.

Lemma no_fd_foreign k st fl out m : k <> key -> tracks st fl out m -> tracks st fl out (m <| pidFdSessionIdMap ::= delete k |>).
Proof.
  intros N H. frame H.
  - by rewrite lookup_delete_ne.
  - intros k' v' N' [_ Hk]%lookup_delete_Some. by eapply tr_fds0.
Qed.

Lemma messages_foreign s' l st fl out m :
  s' <> s -> Forall direction_ok l -> tracks st fl out m -> tracks st fl out (m <| pendingMessages ::= insert s' l |>).
Proof.
  intros N Hl H. frame H.
  - by rewrite lookup_insert_ne.
  - intros s'' l'' [[<- <-]|[_ Hs]]%lookup_insert_Some; [done|by eapply tr_messages0].
Qed.

Lemma no_messages_foreign s' st fl out m : s' <> s -> tracks st fl out m -> tracks st fl out (m <| pendingMessages ::= delete s' |>).
Proof.
  intros N H. frame H.
  - by rewrite lookup_delete_ne.
  - intros s'' l'' [_ Hs]%lookup_delete_Some. by eapply tr_messages0.
Qed.

Lemma Put_ne {K} `{Countable K} (k j : K) (b : gmap K bool) : j <> k -> Lookup j (Put k b).2 = Lookup j b.
Proof.
  intros N. unfold Lookup, Put, hash_update. destruct (b !! k); [|destruct (_ <? _)]; cbn [snd]; by rewrite ?lookup_insert_ne.
Qed.

Lemma Put_dom {K} `{Countable K} (k : K) (b : gmap K bool) (D : gset K) : k ∈ D -> dom b ⊆ D -> dom (Put k b).2 ⊆ D.
Proof.
  intros Hk Hd. unfold Put, hash_update. destruct (b !! k); [|destruct (_ <? _)]; cbn [snd]; rewrite ?dom_insert; set_solver.
Qed.

Lemma Put_eq {K} `{Countable K} (k : K) (b : gmap K bool) (D : gset K) :
  k ∈ D -> dom b ⊆ D -> Z.of_nat (size D) <= 1024 -> Lookup k (Put k b).2 = true.
Proof.
  intros Hk Hd Hs. unfold Lookup, Put. rewrite hash_update_room; [cbn [snd]; by rewrite lookup_insert_eq|].
  destruct (b !! k) eqn:E; [by left|right]. assert (dom b ⊂ D) as Hlt.
  { split; [done|]. intros Hc. apply Hc in Hk. by apply elem_of_dom in Hk as [? ?]; congruence. }
  apply subset_size in Hlt. rewrite size_dom in Hlt. lia.
Qed.

Lemma Lookup_delete_ne {K} `{Countable K} (k j : K) (b : gmap K bool) : j <> k -> Lookup j (delete k b) = Lookup j b.
Proof. intros N. unfold Lookup. by rewrite lookup_delete_ne. Qed.

Lemma ignore_foreign s' st fl out m :
  s' <> s -> s' ∈ sessions -> tracks st fl out m ->
  tracks st fl out (m <| bridge ::= fun b => b <| SessionIgnoreMap ::= fun x => (Put s' x).2 |> |>).
Proof. intros N Hs H. frame H; [by rewrite Put_ne|by apply Put_dom]. Qed.

Lemma told_foreign k st fl out m :
  k <> PidFd pid fd -> k ∈ descs -> tracks st fl out m ->
  tracks st fl out (m <| bridge ::= fun b => b <| SyscallCorrelatedMap ::= fun x => (Put k x).2 |> |>).
Proof. intros N Hs H. frame H; [by rewrite Put_ne|by apply Put_dom]. Qed.

Lemma uprobe_any f st fl out m :
  tracks st fl out m -> tracks st fl out (m <| bridge ::= fun b => b <| UprobeCorrelatedMap ::= f |> |>).
Proof. intros H. frame H. Qed.

Lemma clear_ignored_foreign s' st fl out m : s' <> s -> tracks st fl out m -> tracks st fl out (clearSessionIgnored s' m).
Proof.
  intros N H. unfold clearSessionIgnored. destruct (negb _); [done|].
  frame H; [by rewrite Lookup_delete_ne|]. rewrite dom_delete. set_solver.
Qed.

Lemma clear_uprobe_any s' st fl out m : tracks st fl out m -> tracks st fl out (clearUprobeCorrelated s' m).
Proof. intros H. unfold clearUprobeCorrelated. destruct (negb _); [done|]. by apply uprobe_any. Qed.

Lemma clear_told_foreign p f st fl out m :
  PidFd p f <> PidFd pid fd -> tracks st fl out m -> tracks st fl out (clearSyscallCorrelated p f m).
Proof.
  intros N H. unfold clearSyscallCorrelated. destruct (negb _); [done|].
  frame H; [by rewrite Lookup_delete_ne|]. rewrite dom_delete. set_solver.
Qed.

Definition meta_ok (p : Z) (meta : pidMeta) : Prop :=
  p = pid \/ Forall foreign_key (SessionIds meta) /\ Forall (fun k => exists p f, k = generatePidFdKey p f /\ foreign_fd p f) (PidFds meta).

Lemma get_meta_ok p st fl out m : tracks st fl out m -> meta_ok p (getPidMeta p m).
Proof.
  intros H. destruct (decide (p = pid)) as [->|N]; [by left|right]. unfold getPidMeta.
  destruct (pidMetas m !! p) eqn:E; [by eapply tr_metas|by split].
Qed.

Lemma meta_foreign p meta st fl out m : meta_ok p meta -> tracks st fl out m -> tracks st fl out (m <| pidMetas ::= insert p meta |>).
Proof.
  intros Hm H. frame H. intros p' meta' N [[<- <-]|[_ Hp]]%lookup_insert_Some; [|by eapply tr_metas0].
  by destruct Hm.
Qed.

Lemma add_session_tracks p s' st fl out m :
  p = pid \/ foreign_key s' -> tracks st fl out m -> tracks st fl out (addSessionIdToPidMeta p s' m).
Proof.
  intros Hs H. unfold addSessionIdToPidMeta. destruct (bool_decide _); [done|]. apply meta_foreign; [|done].
  destruct (get_meta_ok p st fl out m H) as [?|[HA HB]]; [by left|]. destruct Hs; [by left|right]. cbn. split; [|done].
  apply Forall_app. split; [done|by apply Forall_singleton].
Qed.

Lemma add_fd_tracks p f st fl out m :
  p = pid \/ foreign_fd p f -> tracks st fl out m -> tracks st fl out (addPidFdToPidMeta p f m).
Proof.
  intros Hs H. unfold addPidFdToPidMeta. destruct (bool_decide _); [done|]. apply meta_foreign; [|done].
  destruct (get_meta_ok p st fl out m H) as [?|[HA HB]]; [by left|]. destruct Hs; [by left|right]. cbn. split; [done|].
  apply Forall_app. split; [done|]. apply Forall_singleton. eauto.
Qed.

Lemma Forall_filtered {A} (P Q : A -> Prop) `{forall x, Decision (Q x)} l : Forall P l -> Forall P (filter Q l).
Proof. rewrite !Forall_forall. intros HP x [_ Hx]%list_elem_of_filter. by apply HP. Qed.

Lemma remove_session_tracks p s' st fl out m : tracks st fl out m -> tracks st fl out (removeSessionIdFromPidMeta p s' m).
Proof.
  intros H. unfold removeSessionIdFromPidMeta. destruct (negb _); [done|]. apply meta_foreign; [|done].
  destruct (get_meta_ok p st fl out m H) as [?|[HA HB]]; [by left|right]. cbn. split; [by apply Forall_filtered|done].
Qed.

Lemma remove_fd_tracks p f st fl out m : tracks st fl out m -> tracks st fl out (removePidFdFromPidMeta p f m).
Proof.
  intros H. unfold removePidFdFromPidMeta. destruct (negb _); [done|]. apply meta_foreign; [|done].
  destruct (get_meta_ok p st fl out m H) as [?|[HA HB]]; [by left|right]. cbn. split; [done|by apply Forall_filtered].
Qed.

Lemma write_foreign cookie d msg st fl out m : cookie <> ck -> tracks st fl out m -> tracks st fl out (WriteDataEvent cookie d msg m).
Proof. intros N H. unfold WriteDataEvent, WriteProtocolEvent. frame H. by rewrite filter_app, (filter_cons_False _ _ []), filter_nil, app_nil_r. Qed.

Lemma protocol_foreign now cookie p b st fl out m : cookie <> ck -> tracks st fl out m -> tracks st fl out (WriteProtocolEvent now cookie p b m).
Proof. intros N H. unfold WriteDataEvent, WriteProtocolEvent. frame H. by rewrite filter_app, (filter_cons_False _ _ []), filter_nil, app_nil_r. Qed.

Lemma direction_seen d : d = D_INGRESS \/ d = D_EGRESS -> ToConnectionDirection d = Some (seen_direction d).
Proof. by intros [-> | ->]. Qed.

Lemma write_messages_foreign cookie l st fl out m :
  cookie <> ck -> Forall direction_ok l -> tracks st fl out m ->
  exists m', write_messages cookie l m = Some m' /\ tracks st fl out m'.
Proof.
  intros N Hl. revert m. induction Hl as [|p l Hp Hl IH]; intros m H; cbn [write_messages]; [by exists m|].
  rewrite (direction_seen _ Hp). apply IH. by apply write_foreign.
Qed.

Lemma plaintext_foreign p s' d msg st fl out m :
  s' <> s -> d = D_INGRESS \/ d = D_EGRESS -> tracks st fl out m ->
  exists m', ProcessPlaintextData p s' d msg m = Some m' /\ tracks st fl out m'.
Proof.
  intros N Hd H. unfold ProcessPlaintextData. destruct (activeCorrelations m !! s') as [c|] eqn:E.
  - destruct (Lookup _ _); [by exists m|]. rewrite (direction_seen _ Hd). eexists. split; [done|].
    apply write_foreign; [|done]. by eapply tr_actives.
  - eexists. split; [done|]. apply messages_foreign; [done| |done]. apply Forall_app. split; [|by apply Forall_singleton].
    destruct (pendingMessages m !! s') eqn:El; [by eapply tr_messages|constructor].
Qed.

Lemma flush_foreign now c h st fl out m :
  foreign h c -> tracks st fl out m -> exists m', flush_messages now c m = Some m' /\ tracks st fl out m'.
Proof.
  intros (_ & _ & _ & Hs & [N _] & Nc) H. unfold flush_messages.
  destruct (pendingMessages m !! SessionId c) as [[|p l]|] eqn:E; [by exists m| |by exists m].
  pose proof (tr_messages _ _ _ _ H _ _ E) as Hl. destruct (streamProtocols m !! _).
  - destruct (write_messages_foreign (Cookie c) (p :: l) st fl out (WriteProtocolEvent now (Cookie c) (DetectProtocol (Msg p)) true m))
      as (m' & -> & H'); [done|done|by apply protocol_foreign|].
    eexists. split; [done|]. by apply no_messages_foreign.
  - eexists. split; [done|]. apply no_messages_foreign; [done|]. by apply ignore_foreign.
Qed.

Lemma activate_foreign now h c st fl out m :
  ~ hs h -> foreign h c -> tracks st fl out m -> exists m', activate now h c m = Some m' /\ tracks st fl out m'.
Proof.
  intros Nh Hf H. pose proof Hf as (_ & Hfd & Hd & Hs & Hk & Nc). pose proof (key_foreign _ _ Hfd) as Hkey.
  unfold activate. apply (flush_foreign _ _ h); [done|].
  apply uprobe_any with (f := fun x => (Put (SessionId c) x).2) in H.
  apply told_foreign with (k := PidFd (Pid c) (Fd c)) in H; [|by apply Hfd|done].
  apply active_foreign with (s' := SessionId c) (c := c) in H; [|by apply Hk|done].
  apply fd_foreign with (k := generatePidFdKey (Pid c) (Fd c)) (v := SessionId c) in H; [|by apply Hkey|done].
  apply remove_foreign with (k := SessionId c) in H; [|done].
  apply remove_foreign with (k := generatePidFdKey (Pid c) (Fd c)) in H; [|done].
  frame H.
  - intros h' Hh'. rewrite lookup_delete_ne by congruence. by apply tr_pending0.
  - intros h' c' Hh' [_ Hc]%lookup_delete_Some. by apply tr_foreign0.
Qed.

Lemma await_foreign source h c st fl out m :
  ~ hs h -> foreign h c -> tracks st fl out m -> tracks st fl out (await source h c m).
Proof.
  intros Nh Hf H. pose proof Hf as (_ & Hfd & _ & _ & Hk & _). pose proof (key_foreign _ _ Hfd) as Hkey. unfold await.
  set (k := match source with CORRELATION_SOURCE_UPROBE => _ | _ => _ end).
  assert (foreign_key k) as [N1 N2] by (by destruct source). clearbody k. frame H.
  - by rewrite lookup_insert_ne.
  - by rewrite lookup_insert_ne.
  - intros k' l' h' [[<- <-]|[_ Hl]]%lookup_insert_Some Hi Hh'; [|by eapply tr_sources0].
    apply elem_of_app in Hi as [Hi|Hi%list_elem_of_singleton]; [|congruence].
    destruct (pendingCorrelationsBySource m !! k) eqn:E; [by eapply tr_sources0|by apply not_elem_of_nil in Hi].
  - intros h' Hh'. rewrite lookup_insert_ne by congruence. by apply tr_pending0.
  - intros h' c' Hh' [[<- <-]|[_ Hl]]%lookup_insert_Some; [done|by apply tr_foreign0].
Qed.

Lemma converge_foreign source h c c' : foreign h c -> foreign h c' -> foreign h (converge source c c').
Proof.
  intros (E1 & F1 & D1 & S1 & K1 & C1) (E2 & F2 & D2 & S2 & K2 & C2). assert (Pid c = Pid c') as E by congruence.
  destruct source; unfold foreign, converge; cbn; rewrite ?E; repeat (split; [by rewrite <- ?E|]); done.
Qed.

Lemma correlation_foreign now source h c st fl out m :
  ~ hs h -> foreign h c -> tracks st fl out m -> exists m', processCorrelation now source h c m = Some m' /\ tracks st fl out m'.
Proof.
  intros Nh Hf H. unfold processCorrelation.
  assert (forall c m, foreign h c -> tracks st fl out m ->
    tracks st fl out (match source with CORRELATION_SOURCE_UPROBE => addSessionIdToPidMeta (Pid c) (SessionId c) m
                   | CORRELATION_SOURCE_SYSCALL => addPidFdToPidMeta (Pid c) (Fd c) m end)) as Hmeta.
  { intros c1 m1 (_ & F1 & _ & _ & K1 & _) H1. destruct source; [apply add_session_tracks|apply add_fd_tracks]; auto. }
  destruct (pendingCorrelations m !! h) as [c'|] eqn:E.
  - assert (Hc := converge_foreign source h c c' Hf (tr_foreign _ _ _ _ H _ _ Nh E)).
    destruct (activate_foreign now h _ st fl out m Nh Hc H) as (m' & -> & H'). eexists. split; [done|]. by apply Hmeta.
  - eexists. split; [done|]. apply Hmeta; [done|]. by apply await_foreign.
Qed.

Lemma closed_foreign p f st fl out m :
  foreign_fd p f -> tracks st fl out m -> tracks st fl out (ProcessSocketClosed p f m).
Proof.
  intros Hf H. pose proof (key_foreign _ _ Hf) as Hk. unfold ProcessSocketClosed.
  destruct (pidFdSessionIdMap m !! _) as [v|] eqn:E; [|done].
  destruct (tr_fds _ _ _ _ H _ _ (proj2 Hk) E) as [Nv Nv'].
  apply clear_told_foreign; [by apply Hf|]. apply clear_uprobe_any, clear_ignored_foreign; [done|].
  apply remove_session_tracks, remove_fd_tracks, no_messages_foreign; [done|]. apply remove_foreign; [done|].
  apply remove_foreign; [done|]. apply inactive_foreign; [done|]. by apply no_fd_foreign; [apply Hk|].
Qed.

Lemma clean_session_foreign s' st fl out m : foreign_key s' -> tracks st fl out m -> tracks st fl out (clean_session s' m).
Proof.
  intros [N N'] H. unfold clean_session. apply clear_uprobe_any, clear_ignored_foreign; [done|].
  apply no_messages_foreign; [done|]. apply remove_foreign; [done|]. by apply inactive_foreign.
Qed.

Lemma clean_pidfd_foreign p f st fl out m : foreign_fd p f -> tracks st fl out m -> tracks st fl out (clean_pidfd (generatePidFdKey p f) m).
Proof.
  intros Hf H. pose proof (key_foreign _ _ Hf) as Hk. unfold clean_pidfd.
  rewrite extract_generate by apply Hf. apply clear_told_foreign; [by apply Hf|].
  apply no_fd_foreign; [by apply Hk|]. by apply remove_foreign.
Qed.

Lemma stopped_foreign p st fl out m : u32 p <> pid -> tracks st fl out m -> tracks st fl out (ProcessStopped p m).
Proof.
  intros N H. unfold ProcessStopped, cleanAllFromPid.
  set (m1 := m <| bridge ::= _ |>). assert (HA : tracks st fl out m1) by (subst m1; frame H).
  clearbody m1. clear H. destruct (pidMetas m1 !! u32 p) as [meta|] eqn:E; [|done].
  destruct (tr_metas _ _ _ _ HA _ _ N E) as [Hs Hf]. clear E.
  assert (HB : tracks st fl out (foldl (fun m s => clean_session s m) m1 (SessionIds meta))).
  { revert m1 HA. induction Hs as [|x l Hx Hl IH]; intros m1 HA; [done|]. by apply IH, clean_session_foreign. }
  set (m2 := foldl _ m1 _) in *. clearbody m2. clear HA.
  assert (HC : tracks st fl out (foldl (fun m k => clean_pidfd k m) m2 (PidFds meta))).
  { revert m2 HB. induction Hf as [|x l (p' & f & -> & Hx) Hl IH]; intros m2 HB; [done|]. by apply IH, clean_pidfd_foreign. }
  set (m3 := foldl _ m2 _) in *. clearbody m3. frame HC. intros p' meta' N' [_ Hp]%lookup_delete_Some. by eapply tr_metas0.
Qed.

(** *** Operations of the pair *)

Lemma list_to_map_snoc (l : list (Z * Z)) h t h' :
  h ∉ l.*1 -> (list_to_map (l ++ [(h, t)]) : gmap Z Z) !! h' = if decide (h' = h) then Some t else (list_to_map l : gmap Z Z) !! h'.
Proof.
  intros N. rewrite list_to_map_app, lookup_union. cbn. destruct (decide (h' = h)) as [->|Nh].
  - rewrite not_elem_of_list_to_map_1 by done. by rewrite lookup_insert_eq.
  - rewrite lookup_insert_ne, lookup_empty by done. by destruct (list_to_map l !! h').
Qed.

Lemma expected_none st h : h ∉ (mine st).*1 -> h ∉ (theirs st).*1 -> expected st h = None.
Proof. intros N1 N2. unfold expected. by rewrite !not_elem_of_list_to_map_1. Qed.

Lemma expected_mine st h : h ∈ (mine st).*1 -> exists t, expected st h = Some (of_session t) /\ (h, t) ∈ mine st.
Proof.
  intros Hh. unfold expected. destruct ((list_to_map (mine st) : gmap Z Z) !! h) as [t|] eqn:E.
  - exists t. split; [done|]. by apply elem_of_list_to_map_2.
  - by apply not_elem_of_list_to_map_2 in E.
Qed.

Lemma expected_theirs st h : h ∉ (mine st).*1 -> h ∈ (theirs st).*1 ->
  exists t, expected st h = Some (of_desc t) /\ (h, t) ∈ theirs st.
Proof.
  intros N Hh. unfold expected. rewrite not_elem_of_list_to_map_1 by done.
  destruct ((list_to_map (theirs st) : gmap Z Z) !! h) as [t|] eqn:E.
  - exists t. split; [done|]. by apply elem_of_list_to_map_2.
  - by apply not_elem_of_list_to_map_2 in E.
Qed.

Lemma remove_mine st fl out m :
  tracks st fl out m -> tracks (st <| mine := [] |>) fl out (removePendingCorrelationsBySource s m).
Proof.
  intros H. rewrite remove_rest. pose proof own_key_ne as N. pose proof (remove_lookup s m) as R.
  set (P := pendingCorrelations (removePendingCorrelationsBySource s m)) in *. clearbody P. frame H.
  - by rewrite lookup_delete_eq.
  - by rewrite lookup_delete_ne.
  - intros k l h [_ Hk]%lookup_delete_Some. by apply tr_sources0.
  - intros h Hh. rewrite R, tr_mine0, tr_pending0 by done. unfold expected. fields. destruct (decide _) as [Hi|Hi].
    + destruct tr_hashes0 as [(_ & Hd & _)%NoDup_app _]. rewrite (not_elem_of_list_to_map_1 (theirs st)) by (by apply Hd). done.
    + by rewrite not_elem_of_list_to_map_1.
  - intros h c Hh. rewrite R. destruct (decide _); [done|]. by apply tr_foreign0.
  - destruct tr_hashes0 as [(_ & _ & ?)%NoDup_app [_ ?]%Forall_app]. by split.
Qed.

Lemma remove_theirs st fl out m :
  tracks st fl out m -> tracks (st <| theirs := [] |>) fl out (removePendingCorrelationsBySource key m).
Proof.
  intros H. rewrite remove_rest. pose proof own_key_ne as N. pose proof (remove_lookup key m) as R.
  set (P := pendingCorrelations (removePendingCorrelationsBySource key m)) in *. clearbody P. frame H.
  - by rewrite lookup_delete_ne.
  - by rewrite lookup_delete_eq.
  - intros k l h [_ Hk]%lookup_delete_Some. by apply tr_sources0.
  - intros h Hh. rewrite R, tr_theirs0, tr_pending0 by done. unfold expected. fields. destruct (decide _) as [Hi|Hi].
    + destruct tr_hashes0 as [(_ & Hd & _)%NoDup_app _].
      rewrite (not_elem_of_list_to_map_1 (mine st)) by (intros Hm; by apply (Hd h)). done.
    + rewrite (not_elem_of_list_to_map_1 (theirs st)) by done. by destruct (list_to_map (mine st) !! h).
  - intros h c Hh. rewrite R. destruct (decide _); [done|]. by apply tr_foreign0.
  - destruct tr_hashes0 as [(? & _ & _)%NoDup_app [? _]%Forall_app]. fields. by rewrite app_nil_r.
Qed.

(** A hash that nothing of the pair waits with. *)
Lemma delete_spent h st fl out m :
  expected st h = None -> hs h -> tracks st fl out m -> tracks st fl out (m <| pendingCorrelations ::= delete h |>).
Proof.
  intros E Hh H. frame H.
  - intros h' Hh'. destruct (decide (h' = h)) as [->|]; [by rewrite lookup_delete_eq|].
    rewrite lookup_delete_ne by done. by apply tr_pending0.
  - intros h' c' Hh' [_ Hc]%lookup_delete_Some. by apply tr_foreign0.
Qed.

Lemma await_mine now h st fl out m :
  hs h -> h ∉ (mine st).*1 -> h ∉ (theirs st).*1 -> tracks st fl out m ->
  tracks (st <| mine ::= fun l => l ++ [(h, now)] |>) fl out (await CORRELATION_SOURCE_UPROBE h (of_session now) m).
Proof.
  intros Hh N1 N2 H. pose proof own_key_ne as N. unfold await. cbn [SessionId of_session]. frame H.
  - rewrite lookup_insert_eq. cbn. by rewrite tr_mine0, fmap_app.
  - by rewrite lookup_insert_ne.
  - intros k l h' [[<- _]|[_ Hk]]%lookup_insert_Some; [by left|by apply tr_sources0].
  - intros h' Hh'. unfold expected. fields. rewrite list_to_map_snoc by done.
    destruct (decide (h' = h)) as [->|]; [by rewrite lookup_insert_eq|]. rewrite lookup_insert_ne by done. by apply tr_pending0.
  - intros h' c' Hh' [[<- _]|[_ Hc]]%lookup_insert_Some; [done|by apply tr_foreign0].
  - destruct tr_hashes0 as [Hn Hf]. fields. rewrite fmap_app. cbn [fmap list_fmap fst].
    rewrite <- app_assoc, (Permutation_app_swap_app _ [h]). cbn. split; [|by constructor].
    constructor; [|done]. rewrite not_elem_of_app. by split.
Qed.

Lemma await_theirs now h st fl out m :
  hs h -> h ∉ (mine st).*1 -> h ∉ (theirs st).*1 -> tracks st fl out m ->
  tracks (st <| theirs ::= fun l => l ++ [(h, now)] |>) fl out (await CORRELATION_SOURCE_SYSCALL h (of_desc now) m).
Proof.
  intros Hh N1 N2 H. pose proof own_key_ne as N. unfold await. cbn [Pid Fd of_desc]. change (generatePidFdKey pid fd) with key.
  frame H.
  - by rewrite lookup_insert_ne.
  - rewrite lookup_insert_eq. cbn. by rewrite tr_theirs0, fmap_app.
  - intros k l h' [[<- _]|[_ Hk]]%lookup_insert_Some; [by right|by apply tr_sources0].
  - intros h' Hh'. unfold expected. fields. rewrite list_to_map_snoc by done.
    destruct (decide (h' = h)) as [->|].
    + rewrite lookup_insert_eq. by rewrite not_elem_of_list_to_map_1.
    + rewrite lookup_insert_ne by done. by apply tr_pending0.
  - intros h' c' Hh' [[<- _]|[_ Hc]]%lookup_insert_Some; [done|by apply tr_foreign0].
  - destruct tr_hashes0 as [Hn Hf]. fields. rewrite fmap_app. cbn [fmap list_fmap fst].
    rewrite app_assoc, (Permutation_app_comm _ [h]). cbn. split; [|by constructor].
    constructor; [|done]. rewrite not_elem_of_app. by split.
Qed.

Lemma told_own st act f ign told out m :
  tracks st (Flags act f ign told) out m ->
  tracks st (Flags act f ign true) out (m <| bridge ::= fun b => b <| SyscallCorrelatedMap ::= fun x => (Put (PidFd pid fd) x).2 |> |>).
Proof. intros H. frame H; [apply (Put_eq _ _ descs)|apply Put_dom]; first [apply Hscope | assumption]. Qed.

Lemma active_own c st act f ign told out m :
  Cookie c = ck -> tracks st (Flags act f ign told) out m ->
  tracks st (Flags true f ign told) out (m <| activeCorrelations ::= insert s c |>).
Proof.
  intros Hc H. frame H.
  - rewrite lookup_insert_eq. cbn. by rewrite Hc.
  - intros s' c' N. rewrite lookup_insert_ne by done. by apply tr_actives0.
Qed.

Lemma fd_own st act f ign told out m :
  tracks st (Flags act f ign told) out m ->
  tracks st (Flags act true ign told) out (m <| pidFdSessionIdMap ::= insert key s |>).
Proof.
  intros H. frame H; [by rewrite lookup_insert_eq|]. intros k v N. rewrite lookup_insert_ne by done. by apply tr_fds0.
Qed.

Lemma no_messages_own st fl out m : tracks st fl out m -> tracks (st <| waiting := [] |>) fl out (m <| pendingMessages ::= delete s |>).
Proof.
  intros H. frame H; [by rewrite lookup_delete_eq|]. intros s' l [_ Hs]%lookup_delete_Some. by eapply tr_messages0.
Qed.

Lemma protocol_own now p st fl out m :
  tracks st fl out m ->
  tracks st fl (out ++ [connection.Protocol (connection.MkProtocol ck now p true)]) (WriteProtocolEvent now ck p true m).
Proof. intros H. unfold WriteProtocolEvent. frame H. rewrite filter_app. by rewrite tr_out0, filter_cons_True. Qed.

Lemma data_own p st fl out m :
  tracks st fl out m -> tracks st fl (out ++ [data_event p]) (WriteDataEvent ck (seen_direction (Direction p)) (Msg p) m).
Proof. intros H. unfold WriteDataEvent. frame H. rewrite filter_app. by rewrite tr_out0, filter_cons_True. Qed.

Lemma write_messages_own l st fl out m :
  Forall direction_ok l -> tracks st fl out m ->
  exists m', write_messages ck l m = Some m' /\ tracks st fl (out ++ map data_event l) m'.
Proof.
  intros Hl. revert out m. induction Hl as [|p l Hp Hl IH]; intros out m H; cbn [write_messages map].
  - exists m. by rewrite app_nil_r.
  - rewrite (direction_seen _ Hp). destruct (IH _ _ (data_own p _ _ _ _ H)) as (m' & E & H'). exists m'. split; [done|].
    by rewrite <- app_assoc in H'.
Qed.

Lemma flush_own now c st act f told out m :
  Cookie c = ck -> SessionId c = s -> tracks st (Flags act f false told) out m ->
  exists m', flush_messages now c m = Some m' /\
    let '(st', evs) := join now st in
    tracks (st <| waiting := [] |>) (Flags act f (default false (known st')) told) (out ++ evs) m'.
Proof.
  intros Hc Hs H. unfold flush_messages, join. rewrite Hs, Hc. pose proof (tr_waiting _ _ _ _ H) as Hw.
  destruct (waiting st) as [|p l] eqn:Ew.
  - assert (flush : tracks (st <| waiting := [] |>) (Flags act f false told) (out ++ []) m).
    { rewrite app_nil_r. replace (st <| waiting := [] |>) with st; [done|]. by destruct st; cbn in Ew; subst. }
    destruct (pendingMessages m !! s) as [[|??]|]; [by exists m|done|by exists m].
  - destruct (pendingMessages m !! s) as [w|] eqn:E; [|done]. cbn in Hw. subst w.
    pose proof (tr_messages _ _ _ _ H _ _ E) as Hl. rewrite (tr_protocols _ _ _ _ H). destruct (protocols st !! _).
    + destruct (write_messages_own (p :: l) _ _ _ _ Hl (protocol_own now (DetectProtocol (Msg p)) _ _ _ _ H)) as (m' & -> & H').
      eexists. split; [done|]. apply no_messages_own. by rewrite <- app_assoc in H'.
    + eexists. split; [done|]. rewrite app_nil_r. apply no_messages_own. 
      frame H; [apply (Put_eq _ _ sessions)|apply Put_dom]; first [apply Hscope | assumption].
Qed.

Lemma tracks_known k st fl out m : tracks st fl out m -> tracks (st <| known := k |>) fl out m.
Proof. intros H. frame H. Qed.

Lemma activate_own now h c st out m :
  hs h -> c = MkCorrelation now pid s ck fd -> known st = None -> tracks st (settled None) out m ->
  exists m', activate now h c m = Some m' /\
    let '(st', evs) := join now st in tracks st' (settled (known st')) (out ++ evs) m'.
Proof.
  intros Hh -> Hk H. unfold activate. cbn [SessionId Pid Fd]. change (generatePidFdKey pid fd) with key.
  apply uprobe_any with (f := fun x => (Put s x).2) in H. apply told_own in H.
  apply active_own with (c := MkCorrelation now pid s ck fd) in H; [|done]. apply fd_own in H.
  apply remove_mine in H. apply remove_theirs in H. apply (delete_spent h) in H; [|by apply expected_none; apply not_elem_of_nil|done].
  apply (flush_own now (MkCorrelation now pid s ck fd)) in H; [|done..]. destruct H as (m' & -> & H). exists m'. split; [done|].
  unfold join in *. cbn [over waiting protocols] in H |- *.
  destruct (waiting st); [by apply (tracks_known (Some false)) in H|].
  by destruct (protocols st !! _); [apply (tracks_known (Some false)) in H|apply (tracks_known (Some true)) in H].
Qed.

Lemma plaintext_own p d msg st st' evs out m :
  d = D_INGRESS \/ d = D_EGRESS -> tracks st (settled (known st)) out m ->
  session_step (S_plain d msg) st = Some (st', evs) ->
  exists m', ProcessPlaintextData p s d msg m = Some m' /\ tracks st' (settled (known st')) (out ++ evs) m'.
Proof.
  intros Hd H. pose proof (tr_active _ _ _ _ H) as Ha. pose proof (tr_ignored _ _ _ _ H) as Hi. unfold ProcessPlaintextData.
  destruct (activeCorrelations m !! s) as [c|]; cbn [session_step]; destruct (known st) as [b|] eqn:Ek;
    cbn in Ha, Hi; try discriminate.
  - injection Ha as ->. rewrite Hi. destruct b; intros E; simplify_eq; rewrite Ek.
    + exists m. by rewrite app_nil_r.
    + rewrite (direction_seen _ Hd). eexists. split; [done|]. by apply (data_own (MkPendingMessage d msg)).
  - intros E. simplify_eq. eexists. split; [done|]. rewrite app_nil_r. cbn [known over]. rewrite Ek. frame H.
    + rewrite lookup_insert_eq. cbn. by rewrite tr_waiting0.
    + intros s' l [[<- <-]|[_ Hs]]%lookup_insert_Some; [|by eapply tr_messages0].
      apply Forall_app. split; [|by apply Forall_singleton].
      destruct (pendingMessages m !! s) eqn:El; [by eapply tr_messages0|constructor].
Qed.

Lemma tracks_weaken st fl m out out' : out = out' -> tracks st fl out m -> tracks st fl out' m.
Proof. by intros ->. Qed.

Lemma encrypted_own now d msg h st st' evs out m :
  (16 <= length msg)%nat -> generatePrefixHash msg = h -> hs h -> tracks st (settled (known st)) out m ->
  session_step (S_enc now h) st = Some (st', evs) ->
  exists m', ProcessEncryptedData now pid s d msg m = Some m' /\ tracks st' (settled (known st')) (out ++ evs) m'.
Proof.
  intros L Eh Hh H. pose proof (tr_active _ _ _ _ H) as Ha. unfold ProcessEncryptedData. rewrite decide_False by lia.
  cbn [session_step]. destruct (known st) as [b|] eqn:Ek.
  - destruct (activeCorrelations m !! s); [|done]. intros E. simplify_eq. exists m. by rewrite Ek, app_nil_r.
  - destruct (activeCorrelations m !! s); [done|]. unfold processCorrelation.
    rewrite Eh, (tr_pending _ _ _ _ H) by done. destruct (decide (h ∈ (mine st).*1)) as [|N1]; [done|].
    destruct (decide (h ∈ (theirs st).*1)) as [Ht|N2]; intros [= E].
    + destruct (expected_theirs st h N1 Ht) as (t & -> & _).
      destruct (activate_own now h (MkCorrelation now pid s ck fd) st out m) as (m' & Em & H'); [done..|].
      unfold converge, of_desc; cbn [Fd Cookie]. setoid_rewrite Em. eexists. split; [done|].
      rewrite E in H'. apply add_session_tracks; [by left|done].
    + subst st' evs. rewrite expected_none by done. eexists. split; [done|]. rewrite app_nil_r. apply add_session_tracks; [by left|].
      fields. rewrite Ek. by apply await_mine.
Qed.

Lemma correlated_own now d msg h st st' evs out m :
  (16 <= length msg)%nat -> generatePrefixHash msg = h -> hs h -> tracks st (settled (known st)) out m ->
  session_step (S_corr now h) st = Some (st', evs) ->
  exists m', ProcessCorrelationData now pid fd ck d msg m = Some m' /\ tracks st' (settled (known st')) (out ++ evs) m'.
Proof.
  intros L Eh Hh H. pose proof (tr_told _ _ _ _ H) as Ha. unfold ProcessCorrelationData. rewrite decide_False by lia.
  cbn [session_step]. rewrite Ha. destruct (known st) as [b|] eqn:Ek; cbn [settled fl_told].
  - intros E. simplify_eq. exists m. by rewrite Ek, app_nil_r.
  - unfold processCorrelation. rewrite Eh, (tr_pending _ _ _ _ H) by done.
    destruct (decide (h ∈ (theirs st).*1)) as [|N2]; [done|].
    destruct (decide (h ∈ (mine st).*1)) as [Ht|N1]; intros [= E].
    + destruct (expected_mine st h Ht) as (t & -> & _).
      destruct (activate_own now h (MkCorrelation now pid s ck fd) st out m) as (m' & Em & H'); [done..|].
      unfold converge, of_session; cbn [SessionId]. setoid_rewrite Em. eexists. split; [done|].
      rewrite E in H'. apply add_fd_tracks; [by left|done].
    + subst st' evs. rewrite expected_none by done. eexists. split; [done|]. rewrite app_nil_r. apply add_fd_tracks; [by left|].
      fields. rewrite Ek. by apply await_theirs.
Qed.

Lemma no_fd_own st act f ign told out m :
  tracks st (Flags act f ign told) out m -> tracks st (Flags act false ign told) out (m <| pidFdSessionIdMap ::= delete key |>).
Proof.
  intros H. frame H; [by rewrite lookup_delete_eq|]. intros k v N. rewrite lookup_delete_ne by done. by apply tr_fds0.
Qed.

Lemma inactive_own st act f ign told out m :
  tracks st (Flags act f ign told) out m -> tracks st (Flags false f ign told) out (m <| activeCorrelations ::= delete s |>).
Proof.
  intros H. frame H; [by rewrite lookup_delete_eq|]. intros k v N. rewrite lookup_delete_ne by done. by apply tr_actives0.
Qed.

Lemma clear_ignored_own st act f ign told out m :
  tracks st (Flags act f ign told) out m -> tracks st (Flags act f false told) out (clearSessionIgnored s m).
Proof.
  intros H. unfold clearSessionIgnored. destruct (Lookup s _) eqn:E; cbn [negb]; frame H.
  - unfold Lookup. by rewrite lookup_delete_eq.
  - rewrite dom_delete. set_solver.
Qed.

Lemma clear_told_own st act f ign told out m :
  tracks st (Flags act f ign told) out m -> tracks st (Flags act f ign false) out (clearSyscallCorrelated pid fd m).
Proof.
  intros H. unfold clearSyscallCorrelated. destruct (Lookup (PidFd pid fd) _) eqn:E; cbn [negb]; frame H.
  - unfold Lookup. by rewrite lookup_delete_eq.
  - rewrite dom_delete. set_solver.
Qed.

Lemma closed_own st st' evs out m :
  tracks st (settled (known st)) out m -> session_step S_shut st = Some (st', evs) ->
  tracks st' (settled (known st')) (out ++ evs) (ProcessSocketClosed pid fd m).
Proof.
  intros H. pose proof (tr_fd _ _ _ _ H) as Hf. unfold ProcessSocketClosed. change (generatePidFdKey pid fd) with key.
  rewrite Hf. cbn [session_step]. destruct (known st) as [b|] eqn:Ek; cbn [settled fl_fd]; intros E; simplify_eq; rewrite app_nil_r.
  - apply no_fd_own, inactive_own, remove_mine, remove_theirs, no_messages_own in H.
    apply (tracks_known None) in H. apply (remove_fd_tracks pid fd) in H. apply (remove_session_tracks pid s) in H.
    apply clear_ignored_own in H. apply (clear_uprobe_any s) in H. apply clear_told_own in H. exact H.
  - by rewrite Ek.
Qed.

(** *** Expiration *)

Definition late (now : Z) (l : list (Z * Z)) (h : Z) : bool :=
  match (list_to_map l : gmap Z Z) !! h with Some t => now - t >? 10 * 10 ^ 9 | None => false end.

(** What one key of the round does to the pair. *)
Definition tick_key (now : Z) (st : session) (h : Z) : session :=
  let st1 := if late now (mine st) h then st <| mine := [] |> <| waiting := [] |> else st in
  if late now (theirs st) h then st1 <| theirs := [] |> else st1.

Lemma expire_foreign h c st fl out m :
  ~ hs h -> foreign h c -> tracks st fl out m -> tracks st fl out (expirePendingCorrelation h c m).
Proof.
  intros Nh (_ & Hfd & _ & _ & Hk & _) H. pose proof (key_foreign _ _ Hfd) as Hkey. unfold expirePendingCorrelation.
  set (m1 := if negb _ && negb _ then removePendingCorrelationsBySource _ m else m).
  assert (HA : tracks st fl out m1) by (subst m1; destruct (_ && _); [by apply remove_foreign|done]). clearbody m1.
  set (m2 := if negb _ then (removePendingCorrelationsBySource _ m1) <| pendingMessages ::= _ |> else m1).
  assert (HB : tracks st fl out m2).
  { subst m2; destruct (negb _); [|done]. apply no_messages_foreign; [by apply Hk|]. by apply remove_foreign. }
  clearbody m2. frame HB.
  - intros h' Hh'. rewrite lookup_delete_ne by congruence. by apply tr_pending0.
  - intros h' c' Hh' [_ Hc]%lookup_delete_Some. by apply tr_foreign0.
Qed.

Lemma expire_mine h t st fl out m :
  hs h -> (list_to_map (mine st) : gmap Z Z) !! h = Some t -> tracks st fl out m ->
  tracks (st <| mine := [] |> <| waiting := [] |>) fl out (expirePendingCorrelation h (of_session t) m).
Proof.
  intros Hh E H. unfold expirePendingCorrelation, of_session. cbn [Pid Fd SessionId]. rewrite andb_false_r.
  rewrite (proj2 (Z.eqb_neq s 0)) by apply Hscope. cbn [negb]. apply delete_spent; [|done|by apply no_messages_own, remove_mine].
  apply expected_none; [apply not_elem_of_nil|]. fields. destruct (tr_hashes _ _ _ _ H) as [(_ & Hd & _)%NoDup_app _].
  apply Hd. apply elem_of_list_to_map_2 in E. by apply (list_elem_of_fmap_2 fst) in E.
Qed.

Lemma expire_theirs h t st fl out m :
  hs h -> (list_to_map (mine st) : gmap Z Z) !! h = None -> tracks st fl out m ->
  tracks (st <| theirs := [] |>) fl out (expirePendingCorrelation h (of_desc t) m).
Proof.
  intros Hh E H. unfold expirePendingCorrelation, of_desc. cbn [Pid Fd SessionId].
  rewrite (proj2 (Z.eqb_neq pid 0)), (proj2 (Z.eqb_neq fd (-1))) by apply Hscope. cbn [negb andb].
  change (generatePidFdKey pid fd) with key. apply delete_spent; [|done|by apply remove_theirs].
  apply expected_none; [by apply not_elem_of_list_to_map_2|apply not_elem_of_nil].
Qed.

Lemma expire_key_tracks now h st fl out m :
  tracks st fl out m -> tracks (tick_key now st h) fl out (expire_key now m h).
Proof.
  intros H. unfold expire_key, tick_key, late. destruct (decide (hs h)) as [Hh|Nh].
  - rewrite (tr_pending _ _ _ _ H) by done. unfold expected. destruct (list_to_map (mine st) !! h) as [t|] eqn:E.
    + rewrite (not_elem_of_list_to_map_1 (theirs st)).
      * unfold of_session at 1. cbn [Timestamp]. destruct (_ >? _); [by apply expire_mine|done].
      * destruct (tr_hashes _ _ _ _ H) as [(_ & Hd & _)%NoDup_app _]. apply Hd.
        apply elem_of_list_to_map_2 in E. by apply (list_elem_of_fmap_2 fst) in E.
    + destruct (list_to_map (theirs st) !! h) as [t|]; [|done]. cbn [fmap option_fmap option_map].
      unfold of_desc at 1. cbn [Timestamp]. destruct (_ >? _); [by apply expire_theirs|done].
  - destruct (tr_hashes _ _ _ _ H) as [_ [F1 F2]%Forall_app]. rewrite Forall_forall in F1, F2.
    rewrite !not_elem_of_list_to_map_1 by auto. destruct (pendingCorrelations m !! h) as [c|] eqn:E; [|done].
    destruct (_ >? _); [|done]. apply expire_foreign; [done| |done]. by apply (tr_foreign _ _ _ _ H).
Qed.

Lemma expire_keys_tracks now keys st fl out m :
  tracks st fl out m -> tracks (foldl (tick_key now) st keys) fl out (foldl (expire_key now) m keys).
Proof.
  revert st m. induction keys as [|h keys IH]; intros st m H; [done|]. cbn [foldl]. by apply IH, expire_key_tracks.
Qed.

Lemma tick_keys now keys st :
  foldl (tick_key now) st keys
  = let st1 := if existsb (late now (mine st)) keys then st <| mine := [] |> <| waiting := [] |> else st in
    if existsb (late now (theirs st)) keys then st1 <| theirs := [] |> else st1.
Proof.
  assert (forall keys, existsb (late now []) keys = false) as Hn by (intros l; by induction l).
  revert st. induction keys as [|h keys IH]; intros st; [done|]. cbn [foldl existsb]. rewrite IH. unfold tick_key.
  destruct (late now (mine st) h), (late now (theirs st) h); fields; rewrite ?Hn; cbn [orb]; try done.
  all: by destruct (existsb (late now (mine st)) keys), (existsb (late now (theirs st)) keys).
Qed.

Lemma late_expired now l keys : NoDup l.*1 -> l.*1 ⊆ keys -> existsb (late now l) keys = expired now l.
Proof.
  intros Hn Hk. apply eq_bool_prop_intro. unfold expired. rewrite !Is_true_true, !existsb_exists. unfold late. split.
  - intros (h & _ & Hl). destruct (list_to_map l !! h) as [t|] eqn:E; [|done]. exists (h, t). split; [|done].
    apply list_elem_of_In. by apply elem_of_list_to_map_2.
  - intros ((h, t) & Hi%list_elem_of_In & Hl). exists h. split.
    + apply list_elem_of_In, Hk. by apply (list_elem_of_fmap_2 fst) in Hi.
    + by rewrite (elem_of_list_to_map_1 l h t).
Qed.

Lemma tick_own now order st st' evs out m :
  (forall l, order l ≡ₚ l) -> tracks st (settled (known st)) out m -> session_step (S_tick now) st = Some (st', evs) ->
  tracks st' (settled (known st')) (out ++ evs) (expirePendingCorrelations now order m).
Proof.
  intros Ho H. cbn [session_step]. intros [= <- <-]. rewrite app_nil_r. unfold expirePendingCorrelations.
  apply expire_keys_tracks with (now := now) (keys := order (map_to_list (pendingCorrelations m)).*1) in H as HB.
  rewrite tick_keys in HB. destruct (tr_hashes _ _ _ _ H) as [(N1 & Hd & N2)%NoDup_app [F1 F2]%Forall_app].
  rewrite Forall_forall in F1, F2.
  assert (forall h c, pendingCorrelations m !! h = Some c -> h ∈ order (map_to_list (pendingCorrelations m)).*1) as Hin.
  { intros h c Hp. rewrite Ho. apply elem_of_map_to_list in Hp. by apply (list_elem_of_fmap_2 fst) in Hp. }
  rewrite !late_expired in HB; [|done| |done|].
  - by destruct (expired now (mine st)), (expired now (theirs st)).
  - intros h Hh. destruct (expected_theirs st h) as (t & E & _); [|done|].
    + intros Hm. by apply (Hd h).
    + eapply Hin. by rewrite (tr_pending _ _ _ _ H), E by auto.
  - intros h Hh. destruct (expected_mine st h Hh) as (t & E & _). eapply Hin. by rewrite (tr_pending _ _ _ _ H), E by auto.
Qed.

(** *** Every operation *)

Lemma event_own now ev st st' evs out m o :
  java_fits ev -> apart ev -> own (Ring now [] ev) = Some o -> tracks st (settled (known st)) out m ->
  session_step o st = Some (st', evs) ->
  exists m', process_event now ev m = Some m' /\ tracks st' (settled (known st')) (out ++ evs) m'.
Proof.
  destruct ev as [e|e|e]; cbn [own apart process_event].
  - intros (_ & _ & _ & _ & Fd & Ft & _) Ha. destruct (Z.eqb_spec (je_session_id e) s) as [Es|]; cbn [negb]; [|done].
    rewrite decide_True in Ha by done. rewrite Es. destruct (Z.eqb_spec (je_data_type e) J_PLAINTEXT) as [Ep|Np].
    + intros [= <-]. by apply plaintext_own.
    + destruct Ft as [|Et]; [done|]. destruct (decide (length (je_msg e) < 16)%nat) as [|L]; [done|]. intros [= <-].
      destruct Ha as [Hh ->]; [split; [done|lia]|]. apply encrypted_own; [lia|done..].
  - intros _ Ha. destruct (Z.eqb_spec (jc_pid e) pid) as [Ep|]; [|done]. destruct (Z.eqb_spec (jc_fd e) fd) as [Ef|]; [|done].
    rewrite decide_True in Ha by done. rewrite Ep, Ef. cbn [negb andb]. destruct (decide (length (jc_msg e) < 16)%nat) as [|L]; [done|]. intros [= <-].
    destruct Ha as [Hh ->]; [lia|]. apply correlated_own; [lia|done..].
  - intros _ _. destruct (Z.eqb_spec (jk_pid e) pid) as [->|]; [|done]. destruct (Z.eqb_spec (jk_fd e) fd) as [->|]; [|done].
    intros [= <-] H Hs. eexists. split; [done|]. by apply (closed_own st).
Qed.

Lemma event_foreign now ev st fl out m :
  java_fits ev -> apart ev -> own (Ring now [] ev) = None -> tracks st fl out m ->
  exists m', process_event now ev m = Some m' /\ tracks st fl out m'.
Proof.
  destruct ev as [e|e|e]; cbn [own apart process_event].
  - intros (_ & _ & Fp & _ & Fd & Ft & _) Ha. destruct (Z.eqb_spec (je_session_id e) s) as [E|N]; cbn [negb].
    + destruct (Z.eqb_spec (je_data_type e) J_PLAINTEXT); [done|]. destruct (decide (length (je_msg e) < 16)%nat) as [L|L]; [|done]. intros _ H.
      exists m. split; [|done]. unfold ProcessEncryptedData. by rewrite decide_True.
    + rewrite decide_False in Ha by done. destruct Ha as (Hs & Hk & Ha). intros _ H.
      destruct (Z.eqb_spec (je_data_type e) J_PLAINTEXT) as [Ep|Np]; [by apply plaintext_foreign|].
      unfold ProcessEncryptedData. destruct (decide (length (je_msg e) < 16)%nat) as [|L]; [by exists m|].
      destruct (activeCorrelations m !! je_session_id e); [by exists m|]. destruct Ft as [|Et]; [done|].
      destruct Ha as (Nh & Ho & Np' & Nf & Hd); [split; [done|lia]|]. apply correlation_foreign; [done| |done].
      unfold foreign, foreign_fd, fd_fits. cbn. split_and!; try done. intros E. symmetry in E. by apply Hscope in E.
  - intros (_ & _ & Fp & Ff & _) Ha. destruct (decide (jc_pid e = pid /\ jc_fd e = fd)) as [[Ep Ef]|N].
    + rewrite Ep, Ef, !Z.eqb_refl. cbn [negb andb]. destruct (decide (length (jc_msg e) < 16)%nat) as [L|L]; [|done]. intros _ H. exists m. split; [|done].
      unfold ProcessCorrelationData. by rewrite decide_True.
    + intros _ H. unfold ProcessCorrelationData. destruct (decide (length (jc_msg e) < 16)%nat) as [|L]; [by exists m|].
      destruct (Lookup _ _); [by exists m|]. destruct Ha as [(Nh & Ho & Np' & Nf & Hd) Nc]; [lia|].
      apply correlation_foreign; [done| |done]. unfold foreign, foreign_fd, fd_fits. cbn.
      split_and!; try done; try apply foreign_zero; [lia|lia|apply Hscope].
  - intros (_ & Fp & Ff) Ha. destruct (Z.eqb_spec (jk_pid e) pid) as [E1|N1], (Z.eqb_spec (jk_fd e) fd) as [E2|N2]; [done|..];
      intros _ H; (eexists; split; [done|]); apply closed_foreign; [|done| |done| |done];
      (destruct Ha as [[??]|Ha]; [done|]; split_and!; [done|done|done|congruence]).
Qed.

Lemma step_tracks op st out m :
  op_ok op -> tracks st (settled (known st)) out m ->
  match own op with
  | None => exists m', engine_step op m = Some m' /\ tracks st (settled (known st)) out m'
  | Some o => forall st' evs, session_step o st = Some (st', evs) ->
      exists m', engine_step op m = Some m' /\ tracks st' (settled (known st')) (out ++ evs) m'
  end.
Proof.
  intros Hok H. destruct op as [now pad ev|now order|p|p|[c|]]; cbn [engine_step].
  - destruct Hok as [Hf Ha]. rewrite readEvent_processed by done. change (own (Ring now pad ev)) with (own (Ring now [] ev)).
    destruct (own (Ring now [] ev)) as [o|] eqn:E; [|by apply (event_foreign now)]. intros st' evs Hs. by apply (event_own now ev st st' evs out m o).
  - intros st' evs Hs. eexists. split; [done|]. by apply (tick_own now order st).
  - eexists. split; [done|]. unfold ProcessStarted. destruct (Put _ _). frame H.
  - eexists. split; [done|]. by apply stopped_foreign.
  - intros st' evs. cbn [session_step SetConfig].
    intros Hs. assert (st' = st <| protocols := list_to_map (map (fun p => (p, true)) (GetAllProtocols c)) |> /\ evs = []) as [-> ->]
      by (destruct (known st) as [[]|]; by simplify_eq).
    eexists. split; [done|]. rewrite app_nil_r. frame H. done.
  - eexists. split; [done|]. done.
Qed.

Lemma run_tracks ops st st' evs out m :
  Forall op_ok ops -> tracks st (settled (known st)) out m -> session_run (omap own ops) st = Some (st', evs) ->
  exists m', engine_run ops m = Some m' /\ tracks st' (settled (known st')) (out ++ evs) m'.
Proof.
  intros Hok. revert st out m evs. induction Hok as [|op ops Hop Hok IH]; intros st out m evs H; cbn [omap list_omap engine_run].
  - intros [= <- <-]. exists m. by rewrite app_nil_r.
  - pose proof (step_tracks op st out m Hop H) as Hs. destruct (own op) as [o|].
    + cbn [session_run]. destruct (session_step o st) as [[st1 evs1]|]; [|done]. cbn [mbind option_bind].
      destruct (Hs st1 evs1 eq_refl) as (m1 & -> & HA). destruct (session_run _ st1) as [[st2 evs2]|] eqn:E; [|done].
      intros [= <- <-]. rewrite app_assoc. by apply (IH st1).
    + destruct Hs as (m1 & -> & HA). by apply (IH st).
Qed.

Lemma start_tracks pids : tracks new_session (settled None) [] (NewSslEngineManager (MkBridge pids ∅ ∅ ∅)).
Proof. constructor; cbn; try done; try set_solver. split; constructor. Qed.

End spec.

(** ** Properties *)

(** C10: the correlator implements the machine of a pair of a session and a descriptor
    whose traffic is told apart.  Whatever else the ring buffer, the ticker, other
    processes and new configurations bring in between, it does not fail, and what it has
    written to the connection is what the machine writes on the operations of the pair:
    nothing while the pair is not joined, then the protocol and the plaintext so far, in
    order, if the protocol of the first message has a stack, then every further
    plaintext; nothing is left over from before the descriptor was closed or the
    plaintext expired.

    The conditions ([scope], [op_ok], a run of the machine): no other session or
    descriptor shows a ciphertext that starts like one of the pair's, and a prefix seen
    elsewhere is seen in one process; no session identifier looks like the key of a
    descriptor or the other way round, in particular the upper half of the session's is
    not a process; the cookie belongs to the descriptor alone; sessions and descriptors
    do not outgrow the shared maps (1024 each); the process of the pair does not stop
    during the run; and neither side shows a prefix again while it still waits with it.
    A second connection that starts with the same ciphertext is attributed to the first
    (engine.go:370). *)
Theorem engine_refines {T : TlsUtils} {H2 : Http2} {X : Xxhash} ck s pid fd (hashes : gset Z) owner sessions descs pids ops st out :
  scope ck s pid fd sessions descs ->
  Forall (op_ok ck s pid fd (fun h => h ∈ hashes) owner sessions descs) ops ->
  session_run ck (omap (own s pid fd) ops) new_session = Some (st, out) ->
  exists m, engine_run ops (NewSslEngineManager (MkBridge pids ∅ ∅ ∅)) = Some m /\ written ck m = out.
Proof.
  intros Hs Hok Hr.
  destruct (run_tracks ck s pid fd (fun h => h ∈ hashes) owner sessions descs Hs ops new_session st out []
    (NewSslEngineManager (MkBridge pids ∅ ∅ ∅))) as (m & E & H); [done|apply start_tracks|done|].
  exists m. split; [done|]. by eapply tr_out.
Qed.

(** Two sessions of process 7; the second is correlated while the first waits. *)
Definition demo_s : Z := 2 ^ 40 + 5.
Definition demo_stack : TapConfig :=
  let none := MkTapProtocolConfig "" in MkTapConfig "all" false (MkTapProtocolConfig "audit") none none none [].
Definition demo_data (s type : Z) (msg : list Z) : java_event :=
  Je_data (JavaDataEvent J_DATA 1 7 s D_EGRESS type (Z.of_nat (length msg)) msg).
Definition demo_corr (fd cookie : Z) (msg : list Z) : java_event :=
  Je_correlate (JavaCorrelateEvent J_CORRELATE 1 7 fd cookie D_EGRESS (Z.of_nat (length msg)) msg).
Definition demo_get : list Z := bytes_of_string "GET /a HTTP/1.1".
Definition demo_engine_ops : list engine_op :=
  [Configured (Some demo_stack); Ring 1 [] (demo_data demo_s J_ENCRYPTED (replicate 16 1));
   Ring 1 [] (demo_data (2 ^ 41) J_ENCRYPTED (replicate 16 2)); Ring 2 [] (demo_data demo_s J_PLAINTEXT demo_get);
   Ring 2 [] (demo_corr 10 78 (replicate 16 2)); Tick 3 (fun l => l); Ring 4 [] (demo_corr 9 77 (replicate 16 1));
   Ring 5 [] (demo_data (2 ^ 41) J_PLAINTEXT demo_get); Ring 6 [] (demo_data demo_s J_PLAINTEXT [1; 2; 3]);
   Ring 7 [] (Je_closed (JavaClosedEvent J_SOCKET_CLOSED 7 9))].

Definition demo_sessions : gset Z := {[0; demo_s; 2 ^ 41]}.
Definition demo_descs : gset pid_fd_key := {[PidFd 7 9; PidFd 7 10; PidFd 7 (-1)]}.

Lemma demo_in :
  (demo_s ∈ demo_sessions /\ 0 ∈ demo_sessions /\ 2 ^ 41 ∈ demo_sessions)
  /\ (PidFd 7 9 ∈ demo_descs /\ PidFd 7 10 ∈ demo_descs /\ PidFd 7 (-1) ∈ demo_descs)
  /\ 16 ∈ ({[16]} : gset Z) /\ 32 ∉ ({[16]} : gset Z).
Proof. unfold demo_sessions, demo_descs. set_solver. Qed.

Lemma demo_scope : scope 77 demo_s 7 9 demo_sessions demo_descs.
Proof.
  destruct demo_in as ((? & ? & ?) & (? & ? & ?) & _). unfold scope.
  assert (size demo_sessions = 3%nat) as -> by (vm_compute; reflexivity).
  assert (size demo_descs = 3%nat) as -> by (vm_compute; reflexivity).
  unfold fits, fd_fits. split_and!; first [assumption | lia | vm_compute; congruence].
Qed.

Lemma demo_data_fits s t msg :
  fits 64 s -> t = J_PLAINTEXT \/ t = J_ENCRYPTED -> 0 < Z.of_nat (length msg) <= MAX_MSG_SIZE -> java_fits (demo_data s t msg).
Proof. intros Fs Ft L. split_and!; first [reflexivity | apply L | apply Fs | exact Ft | by right | by compute]. Qed.

Lemma demo_corr_fits f c msg :
  fd_fits f -> fits 64 c -> 0 < Z.of_nat (length msg) <= MAX_MSG_SIZE -> java_fits (demo_corr f c msg).
Proof. intros Ff Fc L. split_and!; first [reflexivity | apply L | apply Ff | apply Fc | by right | by compute]. Qed.

Lemma demo_ops_ok :
  Forall (@op_ok demo_xxhash 77 demo_s 7 9 (fun h => h ∈ ({[16]} : gset Z)) (fun _ => 7) demo_sessions demo_descs) demo_engine_ops.
Proof.
  destruct demo_in as ((? & ? & ?) & (? & ? & ?) & ? & ?). unfold demo_engine_ops.
  assert (forall t msg, t = J_PLAINTEXT \/ t = J_ENCRYPTED -> 0 < Z.of_nat (length msg) <= MAX_MSG_SIZE ->
    java_fits (demo_data demo_s t msg) /\ java_fits (demo_data (2 ^ 41) t msg)) as Fd
    by (intros; split; apply demo_data_fits; first [assumption | by compute]).
  assert (foreign_key demo_s 7 9 (2 ^ 41)) by (split; vm_compute; congruence).
  assert (7 <> demo_s / 2 ^ 32) by (vm_compute; congruence).
  repeat apply Forall_cons_2; [exact I|..|apply Forall_nil_2].
  - split; [apply Fd; [by right|by compute]|]. intros _. by split.
  - split; [apply Fd; [by right|by compute]|]. split_and!; [done|done|]. intros _. by split_and!.
  - split; [apply Fd; [by left|by compute]|]. by intros [? _].
  - split; [apply demo_corr_fits; by compute|]. intros _. by split_and!.
  - by intros l.
  - split; [apply demo_corr_fits; by compute|]. intros _. by split.
  - split; [apply Fd; [by left|by compute]|]. split_and!; [done|done|]. by intros [? _].
  - split; [apply Fd; [by left|by compute]|]. by intros [? _].
  - split; [by split_and!|]. by left.
Qed.

Lemma engine_refines_witness :
  exists m, @engine_run demo_tls demo_http2 demo_xxhash demo_engine_ops (NewSslEngineManager (MkBridge ∅ ∅ ∅ ∅)) = Some m
  /\ written 77 m = [connection.Protocol (connection.MkProtocol 77 4 "http1" true);
                     connection.Data (connection.MkData 77 "egress" 15 0 demo_get);
                     connection.Data (connection.MkData 77 "egress" 3 0 [1; 2; 3])].
Proof.
  apply (@engine_refines demo_tls demo_http2 demo_xxhash 77 demo_s 7 9 {[16]} (fun _ => 7) demo_sessions demo_descs ∅ demo_engine_ops
    (new_session <| protocols := list_to_map (map (fun p => (p, true)) (GetAllProtocols demo_stack)) |>)).
  - exact demo_scope.
  - exact demo_ops_ok.
  - vm_compute. reflexivity.
Defined.
