(* ===== verification/EngineClean.v ===== *)
(** * The end of a Java process

    When a process stops, the correlator of Engine forgets what it has recorded under
    the process, and only that. *)

From stdpp Require Import base numbers list gmap strings.
From S2P Require Import Prelude Tap AgentEvents Reader Wire L7Detect AgentConfig Engine EngineWire EngineSpec.

Section clean.
Context {T : TlsUtils} {H2 : Http2} {X : Xxhash}.

(** Only [true] is ever stored in the shared maps. *)
Definition only_true (b : SslEngineBridge) : Prop :=
  map_Forall (fun _ v => v = true) (SessionIgnoreMap b) /\ map_Forall (fun _ v => v = true) (SyscallCorrelatedMap b)
  /\ map_Forall (fun _ v => v = true) (UprobeCorrelatedMap b).

Lemma unset_absent {K} `{Countable K} (k : K) (b : gmap K bool) :
  map_Forall (fun _ v => v = true) b -> Lookup k b = false -> delete k b = b.
Proof.
  intros Hb Hl. apply delete_id. unfold Lookup in Hl. destruct (b !! k) as [v|] eqn:E; [|done].
  specialize (Hb k v E). cbn in Hl. congruence.
Qed.

(** ** One session, one descriptor *)

Lemma clear_ignored_eq s m : only_true (bridge m) ->
  clearSessionIgnored s m = m <| bridge ::= fun b => b <| SessionIgnoreMap ::= delete s |> |>.
Proof.
  intros (Ht & _ & _). unfold clearSessionIgnored. destruct (Lookup s _) eqn:E; [done|]. cbn [negb].
  destruct m as [? [? ign ? ?] ? ? ? ? ? ? ?]. unfold over. cbn in *. by rewrite (unset_absent s ign).
Qed.

Lemma clear_uprobe_eq s m : only_true (bridge m) ->
  clearUprobeCorrelated s m = m <| bridge ::= fun b => b <| UprobeCorrelatedMap ::= delete s |> |>.
Proof.
  intros (_ & _ & Ht). unfold clearUprobeCorrelated. destruct (Lookup s _) eqn:E; [done|]. cbn [negb].
  destruct m as [? [? ? ? up] ? ? ? ? ? ? ?]. unfold over. cbn in *. by rewrite (unset_absent s up).
Qed.

Lemma clear_told_eq p f m : only_true (bridge m) ->
  clearSyscallCorrelated p f m = m <| bridge ::= fun b => b <| SyscallCorrelatedMap ::= delete (PidFd p f) |> |>.
Proof.
  intros (_ & Ht & _). unfold clearSyscallCorrelated. destruct (Lookup _ _) eqn:E; [done|]. cbn [negb].
  destruct m as [? [? ? told ?] ? ? ? ? ? ? ?]. unfold over. cbn in *. by rewrite (unset_absent (PidFd p f) told).
Qed.

(** What is waiting under a source that is dropped is dropped with it, what is not
    stays, nothing is added to the tables of hashes, and the processes and what was
    written to connections are left alone. *)
Record forgets (m m' : SslEngineManager) : Prop := {
  fg_hashes : pendingCorrelations m' ⊆ pendingCorrelations m;
  fg_sources : pendingCorrelationsBySource m' ⊆ pendingCorrelationsBySource m;
  fg_dropped k l h : pendingCorrelationsBySource m !! k = Some l -> pendingCorrelationsBySource m' !! k = None -> h ∈ l ->
    pendingCorrelations m' !! h = None;
  fg_kept h : pendingCorrelations m' !! h = pendingCorrelations m !! h
    \/ exists k l, pendingCorrelationsBySource m !! k = Some l /\ pendingCorrelationsBySource m' !! k = None /\ h ∈ l;
  fg_processes : pidMetas m' = pidMetas m;
  fg_events : connEvents m' = connEvents m }.

#[export] Instance forgets_preorder : PreOrder forgets.
Proof.
  split.
  - intros m. split; [done|done|congruence|by left|done|done].
  - intros m1 m2 m3 [P1 S1 D1 K1 M1 E1] [P2 S2 D2 K2 M2 E2]. split; [by etrans|by etrans| | |by etrans|by etrans].
    + intros k l h Hk Hn Hh. destruct (pendingCorrelationsBySource m2 !! k) as [l'|] eqn:E.
      * assert (l' = l) as -> by (pose proof (lookup_weaken _ _ _ _ E S1); congruence). by eapply D2.
      * specialize (D1 k l h Hk E Hh). destruct (pendingCorrelations m3 !! h) eqn:E3; [|done].
        pose proof (lookup_weaken _ _ _ _ E3 P2). congruence.
    + intros h. destruct (K2 h) as [->|(k & l & L1 & L2 & L3)].
      * destruct (K1 h) as [->|(k & l & L1 & L2 & L3)]; [by left|right]. exists k, l. split_and!; [done| |done].
        destruct (pendingCorrelationsBySource m3 !! k) eqn:E3; [|done]. pose proof (lookup_weaken _ _ _ _ E3 S2). congruence.
      * right. exists k, l. split_and!; [|done|done]. by eapply lookup_weaken.
Qed.

Lemma forgets_same m m' :
  pendingCorrelations m' = pendingCorrelations m -> pendingCorrelationsBySource m' = pendingCorrelationsBySource m ->
  pidMetas m' = pidMetas m -> connEvents m' = connEvents m -> forgets m m'.
Proof. intros Ep Es Em Ee. split; rewrite ?Ep, ?Es; [done|done|congruence|by left|done|done]. Qed.

Lemma remove_forgets k m : forgets m (removePendingCorrelationsBySource k m).
Proof.
  split.
  - apply map_subseteq_spec. intros h c. rewrite remove_lookup. by destruct (decide _).
  - rewrite remove_source. apply delete_subseteq.
  - intros k' l h Hk. rewrite remove_source. destruct (decide (k' = k)) as [->|].
    + intros _ Hh. rewrite remove_lookup, Hk. by rewrite decide_True.
    + rewrite lookup_delete_ne by done. congruence.
  - intros h. rewrite remove_lookup, remove_source. destruct (decide _) as [Hin|]; [right|by left]. exists k.
    destruct (pendingCorrelationsBySource m !! k) as [l|]; [|by apply not_elem_of_nil in Hin]. exists l.
    by rewrite lookup_delete_eq.
  - by rewrite remove_rest.
  - by rewrite remove_rest.
Qed.

Lemma clean_session_maps s m : only_true (bridge m) ->
  let m' := clean_session s m in
  forgets m m' /\ pendingCorrelationsBySource m' = delete s (pendingCorrelationsBySource m)
  /\ activeCorrelations m' = delete s (activeCorrelations m) /\ pendingMessages m' = delete s (pendingMessages m)
  /\ pidFdSessionIdMap m' = pidFdSessionIdMap m
  /\ bridge m' = (bridge m) <| SessionIgnoreMap ::= delete s |> <| UprobeCorrelatedMap ::= delete s |>.
Proof.
  intros Ht m'. unfold m', clean_session. set (m1 := m <| activeCorrelations ::= delete s |>).
  rewrite (remove_rest s m1). set (P := pendingCorrelations (removePendingCorrelationsBySource s m1)).
  rewrite clear_ignored_eq by done. rewrite clear_uprobe_eq.
  - fields. split_and!; try done. etrans; [by apply (forgets_same m m1)|]. etrans; [apply (remove_forgets s)|].
    apply forgets_same; [done|by rewrite remove_source|by rewrite remove_rest..].
  - destruct Ht as (H1 & H3 & H4). split_and!; [|done|done]. fields. by apply map_Forall_delete.
Qed.

Lemma clean_pidfd_maps p f m : fits 32 p -> fd_fits f -> only_true (bridge m) ->
  let k := generatePidFdKey p f in
  let m' := clean_pidfd k m in
  forgets m m' /\ pendingCorrelationsBySource m' = delete k (pendingCorrelationsBySource m)
  /\ activeCorrelations m' = activeCorrelations m /\ pendingMessages m' = pendingMessages m
  /\ pidFdSessionIdMap m' = delete k (pidFdSessionIdMap m)
  /\ bridge m' = (bridge m) <| SyscallCorrelatedMap ::= delete (PidFd p f) |>.
Proof.
  intros Fp Ff Ht k m'. unfold m', clean_pidfd, k. rewrite extract_generate by done.
  rewrite (remove_rest _ m). set (P := pendingCorrelations (removePendingCorrelationsBySource _ m)).
  rewrite clear_told_eq by done. fields. split_and!; try done. etrans; [apply remove_forgets|].
  apply forgets_same; [done|by rewrite remove_source|by rewrite remove_rest..].
Qed.

(** ** All of a process *)

Lemma only_true_sessions l m : only_true (bridge m) -> only_true (bridge (foldl (fun m s => clean_session s m) m l)).
Proof.
  revert m. induction l as [|s l IH]; intros m Ht; [done|]. apply IH. destruct (clean_session_maps s m Ht) as (_ & _ & _ & _ & _ & ->).
  destruct Ht as (HA & HB & HC). split_and!; fields; [by apply map_Forall_delete|done|by apply map_Forall_delete].
Qed.

Lemma clean_sessions_maps l m : only_true (bridge m) ->
  let m' := foldl (fun m s => clean_session s m) m l in
  let drop {A} (x : gmap Z A) := foldl (fun x s => delete s x) x l in
  forgets m m' /\ pendingCorrelationsBySource m' = drop (pendingCorrelationsBySource m)
  /\ activeCorrelations m' = drop (activeCorrelations m) /\ pendingMessages m' = drop (pendingMessages m)
  /\ pidFdSessionIdMap m' = pidFdSessionIdMap m
  /\ bridge m' = (bridge m) <| SessionIgnoreMap ::= drop |> <| UprobeCorrelatedMap ::= drop |>.
Proof.
  revert m. induction l as [|s l IH]; intros m Ht m' drop.
  - split_and!; try done. by destruct m as [? [] ? ? ? ? ? ? ?].
  - destruct (clean_session_maps s m Ht) as (F1 & S1 & A1 & M1 & D1 & B1).
    destruct (IH (clean_session s m) (only_true_sessions [s] m Ht)) as (F3 & S3 & A3 & M3 & D3 & B3).
    unfold m'. cbn [foldl]. split_and!; [by etrans|by rewrite S3, S1|by rewrite A3, A1|by rewrite M3, M1|by rewrite D3|].
    by rewrite B3, B1.
Qed.

Lemma clean_pidfds_maps p fds m : fits 32 p -> Forall fd_fits fds -> only_true (bridge m) ->
  let ks := map (generatePidFdKey p) fds in
  let m' := foldl (fun m k => clean_pidfd k m) m ks in
  let drop {A} (x : gmap Z A) := foldl (fun x s => delete s x) x ks in
  forgets m m' /\ pendingCorrelationsBySource m' = drop (pendingCorrelationsBySource m)
  /\ activeCorrelations m' = activeCorrelations m /\ pendingMessages m' = pendingMessages m
  /\ pidFdSessionIdMap m' = drop (pidFdSessionIdMap m)
  /\ bridge m' = (bridge m) <| SyscallCorrelatedMap ::= fun x => foldl (fun x f => delete (PidFd p f) x) x fds |>.
Proof.
  intros Fp Hf. revert m. induction Hf as [|f fds Hf Hfs IH]; intros m Ht ks m' drop.
  - split_and!; try done. by destruct m as [? [] ? ? ? ? ? ? ?].
  - destruct (clean_pidfd_maps p f m Fp Hf Ht) as (F1 & S1 & A1 & M1 & D1 & B1).
    assert (only_true (bridge (clean_pidfd (generatePidFdKey p f) m))) as Ht'.
    { rewrite B1. destruct Ht as (HA & HB & HC). split_and!; fields; [done|by apply map_Forall_delete|done]. }
    destruct (IH _ Ht') as (F3 & S3 & A3 & M3 & D3 & B3).
    unfold m', ks. cbn [map foldl]. split_and!; [by etrans|by rewrite S3, S1|by rewrite A3|by rewrite M3|by rewrite D3, D1|].
    by rewrite B3, B1.
Qed.

Lemma foldl_delete_told p fds (x : gmap pid_fd_key bool) p' f' :
  foldl (fun x f => delete (PidFd p f) x) x fds !! PidFd p' f' = if decide (p' = p /\ f' ∈ fds) then None else x !! PidFd p' f'.
Proof.
  revert x. induction fds as [|f fds IH]; intros x; cbn [foldl].
  - rewrite decide_False; [done|]. intros [_ []%not_elem_of_nil].
  - rewrite IH. destruct (decide (PidFd p' f' = PidFd p f)) as [[= -> ->]|N].
    + rewrite lookup_delete_eq, (decide_True (P := p = p /\ f ∈ f :: fds)) by set_solver. by destruct (decide _).
    + rewrite lookup_delete_ne by done. destruct (decide (p' = p /\ f' ∈ fds)) as [[-> Hf]|Nf].
      * rewrite decide_True; [done|]. set_solver.
      * rewrite decide_False; [done|]. intros [-> [->|Hf]%elem_of_cons]; auto.
Qed.

End clean.

(** ** Properties *)

(** C29: a process that stops is forgotten, and nothing else is.  Of the sessions and
    descriptors recorded under it, every correlation, every waiting plaintext, every
    entry in the maps shared with the probes and every hash shown under them is gone;
    the correlations, the plaintext, the entries and the waiting hashes of all others
    stay, as do the other processes, and nothing is written to a connection. *)
Theorem stopped_process_forgotten {T : TlsUtils} {H2 : Http2} {X : Xxhash} pid m meta fds :
  pidMetas m !! u32 pid = Some meta -> PidFds meta = map (generatePidFdKey (u32 pid)) fds -> Forall fd_fits fds ->
  only_true (bridge m) ->
  let m' := ProcessStopped pid m in
  let sources := SessionIds meta ++ PidFds meta in
  (forall s, let gone := bool_decide (s ∈ SessionIds meta) in
    activeCorrelations m' !! s = (if gone then None else activeCorrelations m !! s)
    /\ pendingMessages m' !! s = (if gone then None else pendingMessages m !! s)
    /\ SessionIgnoreMap (bridge m') !! s = (if gone then None else SessionIgnoreMap (bridge m) !! s)
    /\ UprobeCorrelatedMap (bridge m') !! s = (if gone then None else UprobeCorrelatedMap (bridge m) !! s))
  /\ (forall k, pidFdSessionIdMap m' !! k = if decide (k ∈ PidFds meta) then None else pidFdSessionIdMap m !! k)
  /\ (forall p f, SyscallCorrelatedMap (bridge m') !! PidFd p f
        = if decide (p = u32 pid /\ f ∈ fds) then None else SyscallCorrelatedMap (bridge m) !! PidFd p f)
  /\ (forall k, pendingCorrelationsBySource m' !! k
        = if decide (k ∈ sources) then None else pendingCorrelationsBySource m !! k)
  /\ (forall h, let shown := exists k l, k ∈ sources /\ pendingCorrelationsBySource m !! k = Some l /\ h ∈ l in
        (shown -> pendingCorrelations m' !! h = None)
        /\ (~ shown -> pendingCorrelations m' !! h = pendingCorrelations m !! h))
  /\ (forall p, pidMetas m' !! p = (if decide (p = u32 pid) then None else pidMetas m !! p)
        /\ JavaProcessPidMap (bridge m') !! p
           = (if decide (p = u32 pid) then None else JavaProcessPidMap (bridge m) !! p))
  /\ connEvents m' = connEvents m.
Proof.
  intros Hm Hp Hf Ht m' sources. unfold m', ProcessStopped, cleanAllFromPid. set (m1 := m <| bridge ::= _ |>).
  assert (pidMetas m1 !! u32 pid = Some meta) as -> by exact Hm.
  assert (F32 : fits 32 (u32 pid)) by (apply Z.mod_pos_bound; lia).
  destruct (clean_sessions_maps (SessionIds meta) m1 Ht) as (F1 & S1 & A1 & M1 & D1 & B1).
  pose proof (only_true_sessions (SessionIds meta) m1 Ht) as Ht2. set (m2 := foldl _ m1 _) in *. clearbody m2.
  rewrite Hp. destruct (clean_pidfds_maps (u32 pid) fds m2 F32 Hf Ht2) as (F3 & S3 & A3 & M3 & D3 & B3).
  set (m3 := foldl _ m2 _) in *. clearbody m3. fields. rewrite A3, M3, D3, B3, A1, M1, D1, B1. fields.
  assert (F : forgets m m3) by (etrans; [by apply (forgets_same m m1)|by etrans]).
  assert (S13 : forall k, pendingCorrelationsBySource m3 !! k
    = if decide (k ∈ sources) then None else pendingCorrelationsBySource m !! k).
  { intros k. unfold sources. rewrite Hp, S3, S1, !foldl_delete_lookup. repeat case_decide; set_solver. }
  split_and!.
  - intros s. rewrite !foldl_delete_lookup. by destruct (decide (s ∈ SessionIds meta)) as [i|i];
      [rewrite (bool_decide_true _ i)|rewrite (bool_decide_false _ i)].
  - intros k. by rewrite foldl_delete_lookup.
  - intros p f. by rewrite foldl_delete_told.
  - exact S13.
  - intros h. split.
    + intros (k & l & Hk & Hl & Hh). apply (fg_dropped _ _ F k l h Hl); [|done]. rewrite S13. by rewrite decide_True.
    + intros Hno. destruct (fg_kept _ _ F h) as [|(k & l & Hl & Hn & Hh)]; [done|]. destruct Hno. exists k, l.
      rewrite S13 in Hn. case_decide; [done|congruence].
  - intros p. rewrite (fg_processes _ _ F). split; case_decide; subst;
      [apply lookup_delete_eq|by apply lookup_delete_ne|apply lookup_delete_eq|by apply lookup_delete_ne].
  - apply (fg_events _ _ F).
Qed.

(** Process 7 stops while one of its sessions is correlated. *)
Definition demo_running : SslEngineManager :=
  default (NewSslEngineManager (MkBridge ∅ ∅ ∅ ∅))
    (@engine_run demo_tls demo_http2 demo_xxhash (take 8 demo_engine_ops) (NewSslEngineManager (MkBridge {[7 := true]} ∅ ∅ ∅))).
Definition demo_meta : pidMeta := MkPidMeta [demo_s; 2 ^ 41] (map (generatePidFdKey 7) [10; 9]).

Lemma stopped_process_forgotten_witness :
  Cookie <$> activeCorrelations demo_running !! demo_s = Some 77
  /\ activeCorrelations (@ProcessStopped demo_tls 7 demo_running) !! demo_s = None
  /\ SyscallCorrelatedMap (bridge (@ProcessStopped demo_tls 7 demo_running)) !! PidFd 7 9 = None.
Proof.
  assert (Hm : pidMetas demo_running !! u32 7 = Some demo_meta) by (vm_compute; reflexivity).
  assert (Hp : PidFds demo_meta = map (generatePidFdKey (u32 7)) [10; 9]) by (vm_compute; reflexivity).
  assert (Hf : Forall fd_fits [10; 9]) by (repeat apply Forall_cons_2; try apply Forall_nil_2; unfold fd_fits; lia).
  assert (Ht : only_true (bridge demo_running)) by (split_and!; apply (bool_decide_unpack _); vm_compute; exact I).
  split; [vm_compute; reflexivity|].
  destruct (@stopped_process_forgotten demo_tls demo_http2 demo_xxhash 7 demo_running demo_meta [10; 9] Hm Hp Hf Ht) as (Hs & _ & Hd & _).
  split; [exact (proj1 (Hs demo_s))|exact (Hd 7 9)].
Defined.
