(* ===== verification/EngineFlow.v ===== *)
(** * From the JVM to the connection

    The probes of an [SSLEngine] and of the system calls around it, together with the
    correlator: what a program that wraps and writes, or reads and unwraps, makes the
    agent write to the connection. *)

From stdpp Require Import base numbers list gmap strings.
From S2P Require Import Connection Agent.
From S2P Require Import Prelude Tap Bpf Common Buffers SocketSpec System LibQtap JavaSsl JavaSpec AgentEvents Reader Wire L7Detect AgentConfig Engine EngineWire EngineSpec.

(** ** The events of a pair, as the correlator meets them *)

(** With the time at which each is read. *)
Definition ringed (ops : list engine_op) : list (Z * java_event) :=
  omap (fun op => match op with Ring now _ ev => Some (now, ev) | _ => None end) ops.

Definition mentions (s pid fd : Z) (ev : java_event) : bool :=
  match ev with
  | Je_data e => je_session_id e =? s
  | Je_correlate e => (jc_pid e =? pid) && (jc_fd e =? fd)
  | Je_closed e => (jk_pid e =? pid) && (jk_fd e =? fd)
  end.

(** The correlator has read exactly [evs] about the pair, everything within ten
    seconds from [t0] on, and the configuration stayed. *)
Definition reads_pair (s pid fd t0 : Z) (ops : list engine_op) (evs : list java_event) : Prop :=
  (filter (fun ne => mentions s pid fd ne.2 = true) (ringed ops)).*2 = evs
  /\ Forall (fun op => match op with
                       | Ring now _ _ | Tick now _ => t0 <= now <= t0 + 10 * 10 ^ 9
                       | Configured _ => False
                       | _ => True
                       end) ops.

Section flow.
Context {T : TlsUtils} {H2 : Http2} {X : Xxhash}.
Context (ck s pid fd t0 : Z).

Abbreviation run_pair := (session_run ck).

(** *** Within ten seconds the ticker does nothing *)

Definition is_tick (o : session_op) : bool := match o with S_tick _ => true | _ => false end.

Definition timely (o : session_op) : Prop :=
  match o with
  | S_enc now _ | S_corr now _ => t0 <= now
  | S_tick now => now <= t0 + 10 * 10 ^ 9
  | _ => True
  end.

Definition young (st : session) : Prop := Forall (fun ht => t0 <= ht.2) (mine st ++ theirs st).

Lemma young_expired now l : now <= t0 + 10 * 10 ^ 9 -> Forall (fun ht : Z * Z => t0 <= ht.2) l -> expired now l = false.
Proof.
  intros Hn Hl. unfold expired. induction Hl as [|x l Hx Hl IH]; [done|]. cbn [existsb]. rewrite IH, orb_false_r.
  rewrite Z.gtb_ltb. apply Z.ltb_ge. lia.
Qed.

Lemma young_step o st st' evs : timely o -> young st -> session_step ck o st = Some (st', evs) -> young st'.
Proof.
  unfold young. intros Ho [Hm Ht]%Forall_app Hs.
  assert (forall now, young (join ck now st).1) as Hj.
  { intros now. unfold young, join. destruct (waiting st); [constructor|]. destruct (protocols st !! _); constructor. }
  destruct o; cbn [session_step] in Hs; destruct (known st) as [[]|];
    repeat match type of Hs with context [if ?b then _ else _] => destruct b end; simplify_eq; cbn;
    try (apply Forall_app; split; first [assumption | apply Forall_nil_2
           | apply Forall_app; split; [assumption|by apply Forall_singleton]]).
  all: try (pose proof (Hj now) as Hj'; by rewrite Hs in Hj').
  all: first [assumption | apply Forall_nil_2].
Qed.

Lemma run_without_ticks os st :
  Forall timely os -> young st -> run_pair os st = run_pair (filter (fun o => is_tick o = false) os) st.
Proof.
  intros Ho. revert st. induction Ho as [|o os Ho Hos IH]; intros st Hy; [done|].
  destruct o as [now h|d msg|now h|now| |c] eqn:Eo; cbn [filter list_filter is_tick]; cbn [session_run].
  4: { rewrite decide_False by done. cbn [session_step]. apply Forall_app in Hy as Hy'. destruct Hy' as [Hm Ht].
       assert (forall A (k : option bool) (x : A), match k with Some true | _ => x end = x) as R by (by intros A [[]|]).
       rewrite !young_expired by done. destruct (known st) as [[]|]; cbn [mbind option_bind]; rewrite <- IH by done;
       by destruct (session_run _ _ _) as [[??]|]. }
  all: rewrite decide_True by done; cbn [session_run]; rewrite <- Eo in *; clear Eo;
    destruct (session_step ck o st) as [[st1 e1]|] eqn:Es; cbn [mbind option_bind]; [|done].
  all: by rewrite IH by (by eapply young_step).
Qed.

(** *** The operations of the pair *)

Definition op_of (ne : Z * java_event) : option session_op := own s pid fd (Ring ne.1 [] ne.2).

Lemma unmentioned ne : mentions s pid fd ne.2 = false -> op_of ne = None.
Proof. unfold op_of. destruct ne as [now [e|e|e]]; cbn; by intros ->. Qed.

Lemma pair_ops ops evs : reads_pair s pid fd t0 ops evs ->
  exists l, l.*2 = evs /\ Forall timely (omap (own s pid fd) ops)
    /\ filter (fun o => is_tick o = false) (omap (own s pid fd) ops) = omap op_of l.
Proof.
  intros [<- Ht]. eexists. split; [done|]. induction Ht as [|op ops Hop Ht [IHt IHe]]; [done|].
  unfold ringed. cbn [omap list_omap]. fold (ringed ops).
  destruct op as [now pad ev|now order|p|p|tap]; [|cbn [own]..|done].
  - change (own s pid fd (Ring now pad ev)) with (op_of (now, ev)). cbn [filter list_filter].
    destruct (decide (mentions s pid fd (now, ev).2 = true)) as [M|M].
    + cbn [omap list_omap]. destruct (op_of (now, ev)) as [o|] eqn:E; [|done].
      assert (timely o /\ is_tick o = false) as [HA HB].
      { unfold op_of in E. destruct ev as [e|e|e]; cbn in E; repeat case_match; simplify_eq; cbn; (split; [lia || done|done]). }
      split; [by constructor|]. cbn [filter list_filter]. rewrite decide_True by done. f_equal. exact IHe.
    + rewrite unmentioned by (by apply not_true_is_false). done.
  - split; [constructor; [cbn; lia|done]|]. cbn [filter list_filter is_tick]. by rewrite decide_False.
  - done.
  - done.
Qed.

Lemma run_app os1 os2 st :
  run_pair (os1 ++ os2) st
  = '(st1, e1) ← run_pair os1 st; '(st2, e2) ← run_pair os2 st1; Some (st2, e1 ++ e2).
Proof.
  revert st. induction os1 as [|o os1 IH]; intros st; cbn [app session_run mbind option_bind].
  - by destruct (run_pair os2 st) as [[??]|].
  - destruct (session_step ck o st) as [[st1 e1]|]; cbn [mbind option_bind]; [|done]. rewrite IH.
    destruct (run_pair os1 st1) as [[st2 e2]|]; cbn [mbind option_bind]; [|done].
    destruct (run_pair os2 st2) as [[st3 e3]|]; cbn [mbind option_bind]; [|done]. by rewrite app_assoc.
Qed.

(** The plaintext [bs] as it is written. *)
Definition messages (dir : Z) (bs : list Z) : list pendingMessage := map (MkPendingMessage dir) (pieces bs).

Lemma plain_ops p dir bs evs l :
  engine_events p s dir J_PLAINTEXT bs evs -> l.*2 = map Je_data evs ->
  omap op_of l = map (fun m => S_plain (Direction m) (Msg m)) (messages dir bs).
Proof.
  intros (_ & Hp & Hf). unfold messages. rewrite <- Hp, !map_map. cbn [Direction Msg]. clear Hp.
  revert l. induction Hf as [|e evs [ts ->] Hf IH]; intros [|[now ev] l] Hl; try done. cbn in Hl. simplify_eq.
  cbn [omap list_omap]. rewrite (IH l) by done. unfold op_of. cbn. by rewrite Z.eqb_refl.
Qed.

Lemma waiting_app a b st : (st <| waiting ::= fun w => w ++ a |>) <| waiting ::= fun w => w ++ b |> = st <| waiting ::= fun w => w ++ a ++ b |>.
Proof.
  destruct st as [mi th w k ps]. change (MkSession mi th ((w ++ a) ++ b) k ps = MkSession mi th (w ++ a ++ b) k ps).
  by rewrite app_assoc.
Qed.

Lemma waiting_nil st : st <| waiting ::= fun w => w ++ [] |> = st.
Proof. destruct st as [mi th w k ps]. change (MkSession mi th (w ++ []) k ps = MkSession mi th w k ps). by rewrite app_nil_r. Qed.

Lemma run_waiting ms st : known st = None ->
  run_pair (map (fun m => S_plain (Direction m) (Msg m)) ms) st = Some (st <| waiting ::= fun w => w ++ ms |>, []).
Proof.
  revert st. induction ms as [|[d m] ms IH]; intros st Hk; cbn [map session_run].
  - by rewrite waiting_nil.
  - cbn [session_step Direction Msg]. rewrite Hk. cbn [mbind option_bind]. rewrite IH by done. cbn [mbind option_bind app].
    by rewrite waiting_app.
Qed.

Lemma run_streaming ms st : known st = Some false ->
  run_pair (map (fun m => S_plain (Direction m) (Msg m)) ms) st = Some (st, map (data_event ck) ms).
Proof.
  intros Hk. induction ms as [|[d m] ms IH]; cbn [map session_run]; [done|].
  cbn [session_step Direction Msg]. rewrite Hk. cbn [mbind option_bind]. by rewrite IH.
Qed.

(** Ciphertext of either side, of which the first message starts with [es]. *)
Definition ciphertext_op (o : session_op) : Prop := match o with S_enc _ _ | S_corr _ _ => True | _ => False end.

Lemma run_told os st : is_Some (known st) -> Forall ciphertext_op os -> run_pair os st = Some (st, []).
Proof.
  intros [b Hk] Ho. induction Ho as [|o os Ho Hos IH]; [done|]. cbn [session_run].
  destruct o; try done; cbn [session_step]; rewrite Hk; destruct b; cbn [mbind option_bind]; by rewrite IH.
Qed.

Lemma pieces_first es : (16 <= length es)%nat -> exists rest, pieces es = take (Z.to_nat MAX_MSG_SIZE) es :: rest.
Proof. intros L. rewrite pieces_chunks by lia. by eexists. Qed.

Lemma pieces_short es : (0 < length es)%nat -> Z.of_nat (length es) <= MAX_MSG_SIZE -> pieces es = [es].
Proof.
  intros L Lm. rewrite pieces_chunks by done. cbn [chunks BUF_CHUNK_LIMIT map snd].
  rewrite drop_ge, take_ge by lia. done.
Qed.

Lemma first_hash es : (16 <= length es)%nat ->
  generatePrefixHash (take (Z.to_nat MAX_MSG_SIZE) es) = generatePrefixHash es
  /\ (16 <= length (take (Z.to_nat MAX_MSG_SIZE) es))%nat.
Proof.
  intros L. unfold generatePrefixHash, MAX_MSG_SIZE. rewrite take_take, length_take.
  replace (16 `min` Z.to_nat 30720)%nat with 16%nat by lia. split; [done|lia].
Qed.

Lemma enc_ops p dir es evs l :
  (16 <= length es)%nat -> engine_events p s dir J_ENCRYPTED es evs -> l.*2 = map Je_data evs ->
  exists now rest, omap op_of l = S_enc now (generatePrefixHash es) :: rest /\ Forall ciphertext_op rest
    /\ (Z.of_nat (length es) <= MAX_MSG_SIZE -> rest = []).
Proof.
  intros L (_ & Hp & Hf) Hl. destruct (pieces_first es L) as [ps E]. rewrite E in Hp.
  destruct evs as [|e evs]; [done|]. destruct l as [|[now ev] l]; [done|].
  injection Hp as Hm Hp. injection Hl as -> Hl. apply Forall_cons in Hf as [[ts He] Hf]. destruct (first_hash es L) as [Eh Lh].
  assert (op_of (now, Je_data e) = Some (S_enc now (generatePrefixHash es))) as Ho.
  { unfold op_of. rewrite He. cbn -[MAX_MSG_SIZE]. rewrite Z.eqb_refl, Hm. cbn [negb]. rewrite decide_False by lia. by rewrite Eh. }
  exists now, (omap op_of l). split_and!.
  - change (omap op_of ((now, Je_data e) :: l)) with (match op_of (now, Je_data e) with Some o => o :: omap op_of l | None => omap op_of l end).
    by rewrite Ho.
  - clear -Hf Hl. revert l Hl. induction Hf as [|e evs [ts He] Hf IH]; intros [|[n ev] l] Hl; try done.
    injection Hl as -> Hl. cbn [omap list_omap]. unfold op_of at 1. rewrite He. cbn. rewrite Z.eqb_refl. cbn [negb].
    destruct (decide _); [by apply IH|]. constructor; [done|by apply IH].
  - intros Lm. rewrite pieces_short in E by lia. injection E as _ E. rewrite <- E in *.
    destruct evs; [|done]. by destruct l.
Qed.

Lemma corr_ops dir cs evs l :
  (16 <= length cs)%nat -> correlate_events pid fd ck dir cs evs -> l.*2 = map Je_correlate evs ->
  exists now rest, omap op_of l = S_corr now (generatePrefixHash cs) :: rest /\ Forall ciphertext_op rest
    /\ (Z.of_nat (length cs) <= MAX_MSG_SIZE -> rest = []).
Proof.
  intros L (_ & Hp & Hf) Hl. destruct (pieces_first cs L) as [ps E]. rewrite E in Hp.
  destruct evs as [|e evs]; [done|]. destruct l as [|[now ev] l]; [done|].
  injection Hp as Hm Hp. injection Hl as -> Hl. apply Forall_cons in Hf as [[ts He] Hf]. destruct (first_hash cs L) as [Eh Lh].
  assert (op_of (now, Je_correlate e) = Some (S_corr now (generatePrefixHash cs))) as Ho.
  { unfold op_of. rewrite He. cbn -[MAX_MSG_SIZE]. rewrite !Z.eqb_refl, Hm. cbn [negb andb]. rewrite decide_False by lia. by rewrite Eh. }
  exists now, (omap op_of l). split_and!.
  - change (omap op_of ((now, Je_correlate e) :: l)) with (match op_of (now, Je_correlate e) with Some o => o :: omap op_of l | None => omap op_of l end).
    by rewrite Ho.
  - clear -Hf Hl. revert l Hl. induction Hf as [|e evs [ts He] Hf IH]; intros [|[n ev] l] Hl; try done.
    injection Hl as -> Hl. cbn [omap list_omap]. unfold op_of at 1. rewrite He. cbn. rewrite !Z.eqb_refl. cbn [negb andb].
    destruct (decide _); [by apply IH|]. constructor; [done|by apply IH].
  - intros Lm. rewrite pieces_short in E by lia. injection E as _ E. rewrite <- E in *.
    destruct evs; [|done]. by destruct l.
Qed.

(** *** Both orders *)

(** What a session whose ciphertext comes first writes: the protocol, when it has a
    stack, and the plaintext. *)
Definition announced (c : TapConfig) (now dir : Z) (bs : list Z) : list connection.Event :=
  match messages dir bs with
  | [] => []
  | first :: _ =>
      let p := DetectProtocol (Msg first) in
      if decide (p ∈ GetAllProtocols c)
      then connection.Protocol (connection.MkProtocol ck now p true) :: map (data_event ck) (messages dir bs)
      else []
  end.

Definition configured (c : TapConfig) : session :=
  new_session <| protocols := list_to_map (map (fun p => (p, true)) (GetAllProtocols c)) |>.

Lemma protocols_lookup c p :
  (list_to_map (map (fun p => (p, true)) (GetAllProtocols c)) : gmap string bool) !! p
  = if decide (p ∈ GetAllProtocols c) then Some true else None.
Proof.
  induction (GetAllProtocols c) as [|x l IH]; cbn [map list_to_map foldr]; [by rewrite decide_False by apply not_elem_of_nil|].
  cbn [fst snd uncurry]. destruct (decide (p = x)) as [->|N].
  - rewrite lookup_insert_eq. by rewrite decide_True by set_solver.
  - rewrite lookup_insert_ne by done. rewrite IH. destruct (decide (p ∈ l)).
    + by rewrite decide_True by set_solver.
    + by rewrite decide_False by set_solver.
Qed.

Lemma same_prefix es cs : take 16 cs = take 16 es -> generatePrefixHash cs = generatePrefixHash es.
Proof. unfold generatePrefixHash. by intros ->. Qed.

Lemma ciphertext_first c l p dir bs es cs dir' evs_e evs_p evs_c :
  (16 <= length es)%nat -> Z.of_nat (length es) <= MAX_MSG_SIZE -> (16 <= length cs)%nat -> take 16 cs = take 16 es ->
  engine_events pid s dir J_ENCRYPTED es evs_e -> engine_events p s dir J_PLAINTEXT bs evs_p ->
  correlate_events pid fd ck dir' cs evs_c -> l.*2 = map Je_data (evs_e ++ evs_p) ++ map Je_correlate evs_c ->
  exists st now, run_pair (omap op_of l) (configured c) = Some (st, announced c now dir bs).
Proof.
  intros Le Lm Lc Hpre He Hp Hc Hl. rewrite map_app in Hl.
  apply fmap_app_inv in Hl as (l1 & lc & Hl1 & Hlc & ->). symmetry in Hl1, Hlc.
  apply fmap_app_inv in Hl1 as (le & lp & Hle & Hlp & ->). symmetry in Hle, Hlp.
  rewrite !omap_app. destruct (enc_ops _ _ _ _ _ Le He Hle) as (t1 & r1 & -> & _ & Hr1). rewrite Hr1 by done.
  rewrite (plain_ops _ _ _ _ _ Hp Hlp). destruct (corr_ops _ _ _ _ Lc Hc Hlc) as (t2 & r2 & -> & Hr2 & _).
  rewrite (same_prefix es cs) by done. set (h := generatePrefixHash es). cbn [app session_run session_step known configured new_session over].
  rewrite !decide_False by apply not_elem_of_nil. cbn [mbind option_bind]. rewrite run_app, run_waiting by done.
  cbn [mbind option_bind session_run session_step known over theirs mine].
  rewrite decide_False by apply not_elem_of_nil. rewrite decide_True by set_solver.
  destruct (join ck t2 _) as [st' out'] eqn:Ej. cbn [mbind option_bind].
  assert (is_Some (known st') /\ out' = announced c t2 dir bs) as [Hk ->].
  { unfold join, announced in *. cbn [waiting over app protocols configured new_session] in Ej.
    destruct (messages dir bs) as [|m ms]; [by simplify_eq|]. cbn [Msg] in *. setoid_rewrite protocols_lookup in Ej.
    destruct (decide _); by simplify_eq. }
  change (known (configured c)) with (@None bool). cbn [mbind option_bind]. rewrite run_told by done. cbn [mbind option_bind]. exists st', t2. by rewrite !app_nil_r.
Qed.

Lemma descriptor_first c l p dir bs es cs dir' evs_e evs_p evs_c :
  (16 <= length es)%nat -> (16 <= length cs)%nat -> Z.of_nat (length cs) <= MAX_MSG_SIZE -> take 16 cs = take 16 es ->
  engine_events pid s dir J_ENCRYPTED es evs_e -> engine_events p s dir J_PLAINTEXT bs evs_p ->
  correlate_events pid fd ck dir' cs evs_c -> l.*2 = map Je_correlate evs_c ++ map Je_data (evs_e ++ evs_p) ->
  exists st, run_pair (omap op_of l) (configured c) = Some (st, map (data_event ck) (messages dir bs)).
Proof.
  intros Le Lc Lm Hpre He Hp Hc Hl. rewrite map_app in Hl.
  apply fmap_app_inv in Hl as (lc & l1 & Hlc & Hl1 & ->). symmetry in Hl1, Hlc.
  apply fmap_app_inv in Hl1 as (le & lp & Hle & Hlp & ->). symmetry in Hle, Hlp.
  rewrite !omap_app. destruct (enc_ops _ _ _ _ _ Le He Hle) as (t1 & r1 & -> & Hr1 & _).
  rewrite (plain_ops _ _ _ _ _ Hp Hlp). destruct (corr_ops _ _ _ _ Lc Hc Hlc) as (t2 & r2 & -> & _ & Hr2). rewrite Hr2 by done.
  rewrite (same_prefix es cs) by done. set (h := generatePrefixHash es). cbn [app session_run session_step known configured new_session over].
  rewrite !decide_False by apply not_elem_of_nil. cbn [mbind option_bind app session_run session_step known over theirs mine].
  rewrite decide_False by apply not_elem_of_nil. rewrite decide_True by set_solver.
  change (known (configured c)) with (@None bool). cbn [mbind option_bind].
  destruct (join ck t1 _) as [st' out'] eqn:Ej. assert (known st' = Some false /\ out' = []) as [Hk ->] by (vm_compute in Ej; by simplify_eq).
  rewrite run_app, run_told by done. cbn [mbind option_bind]. rewrite run_streaming by done. by eexists.
Qed.

(** What the correlator has written once it has read [evs]. *)
Lemma pair_written (hashes : gset Z) owner sessions descs pids c ops evs P :
  scope ck s pid fd sessions descs -> Forall (op_ok ck s pid fd (fun h => h ∈ hashes) owner sessions descs) ops ->
  reads_pair s pid fd t0 ops evs ->
  (forall l, l.*2 = evs -> exists st out, run_pair (omap op_of l) (configured c) = Some (st, out) /\ P out) ->
  exists m, engine_run (Configured (Some c) :: ops) (NewSslEngineManager (MkBridge pids ∅ ∅ ∅)) = Some m /\ P (written ck m).
Proof.
  intros Hs Hok Hr HP. destruct (pair_ops ops evs Hr) as (l & Hl & Ht & El). destruct (HP l Hl) as (st & out & Er & Ho).
  rewrite <- El, <- run_without_ticks in Er; [|done|constructor].
  destruct (run_tracks ck s pid fd (fun h => h ∈ hashes) owner sessions descs Hs (Configured (Some c) :: ops) new_session st out []
    (NewSslEngineManager (MkBridge pids ∅ ∅ ∅))) as (m & Em & Hm); [by constructor|apply start_tracks| |].
  - cbn [omap list_omap own]. cbn [session_run session_step known new_session mbind option_bind]. fold (configured c).
    change (run_pair (omap (own s pid fd) ops) (configured c) ≫= (fun '(st, out') => Some (st, [] ++ out')) = Some (st, out)).
    by rewrite Er.
  - exists m. split; [done|]. by rewrite (tr_out _ _ _ _ _ _ _ _ _ _ _ _ Hm).
Qed.

End flow.

(** Data alone gives a connection no processor. *)
Lemma data_unprocessed {T : TlsUtils} ck (out : list connection.Event) ms : out = map (data_event ck) ms ->
  forall (SP : StreamProcessor) createStreamer aops am,
    agent_run createStreamer aops NewManager = Some am ->
    (forall pe, connection.Protocol pe ∈ events_for ck aops -> connection.Protocol pe ∈ out) ->
    Forall (fun conn => cookie conn = ck -> streamProcessor conn = None) (conns am).
Proof.
  intros -> SP createStreamer aops am Hr He.
  assert (Forall unnamed_event (events_for ck aops)) as Hu.
  { apply Forall_forall. intros e Hi pe ->. apply He in Hi. by apply list_elem_of_fmap in Hi as (? & ? & _). }
  eapply Forall_impl; [by apply (unannounced_unprocessed createStreamer ck aops am)|]. intros conn Hq Hc. by apply Hq.
Qed.

(** ** Properties *)

Section calls.
Context {T : TlsUtils} {H2 : Http2} {X : Xxhash} (E' E : Env).
Context (critical : Z -> Z) (p po pl e eo el sa : Z) (sid bs es : list Z) (c : engine_call) (fd buf a2 : Z) (cs : list Z).

(** One call of the engine and one system call of the same thread: plaintext [bs], the
    ciphertext [es] of the engine and [cs] of the descriptor, which start alike. *)
Definition exchange : Prop :=
  (forall k, @ringbuf_room E k = true) /\ @bpf_get_current_pid_tgid E' = @bpf_get_current_pid_tgid E /\ flat_call c = true
  /\ @array_at E critical p po pl bs /\ @array_at E critical sa 0 (Z.of_nat (length sid)) sid /\ @array_at E critical e eo el es
  /\ @user_holds E buf cs /\ 16 <= Z.of_nat (length es) <= MAX_MSG_SIZE /\ 16 <= Z.of_nat (length cs) <= MAX_MSG_SIZE
  /\ take 16 cs = take 16 es.

Definition engine_returns (ingress : bool) (w : world) : world :=
  run_jni E (engine_jni critical ingress p po pl e eo el sa (Z.of_nat (length sid))) w.
Definition call_returns (w : world) : world :=
  @run_program E (Exit_engine c (Z.of_nat (length cs))) (@run_program E' (Enter_engine c fd buf a2) w).

(** The session is neither ignored nor correlated, the call is due to be reported. *)
Definition session_fresh (w : world) : Prop :=
  f_java_session_ignore (f_java (w_tls w)) !! session_hash sid = None
  /\ f_java_uprobe_correlated (f_java (w_tls w)) !! session_hash sid = None.
Definition call_due (w : world) (ck : Z) : Prop :=
  has_room 1024 (@bpf_get_current_pid_tgid E) (f_java_syscall_args (f_java (w_tls w)))
  /\ correlates w (@bpf_get_current_userspace_pid E) (s32 fd) cs = Some ck.

Lemma engine_sends ingress w : exchange -> session_hash sid <> 0 -> session_fresh w ->
  exists q evs_e evs_p, jevents (engine_returns ingress w) = jevents w ++ map Je_data (evs_e ++ evs_p)
    /\ engine_events (@bpf_get_current_userspace_pid E) (session_hash sid) (java_dir ingress) J_ENCRYPTED es evs_e
    /\ engine_events q (session_hash sid) (java_dir ingress) J_PLAINTEXT bs evs_p.
Proof.
  intros (Hroom & _ & _ & Hb & Hs & He & _) Hh [Hi Hc].
  destruct (engine_data_reported E critical ingress p po pl e eo el sa sid bs es w Hroom Hb Hs (or_introl He) Hh Hi)
    as (evs_e & evs_p & Hev & Hee & Hep). rewrite Hc in Hee. eexists _, evs_e, evs_p. split_and!; [exact Hev|exact Hee|exact Hep].
Qed.

Lemma call_sends w ck : exchange -> call_due w ck ->
  exists evs_c, jevents (call_returns w) = jevents w ++ map Je_correlate evs_c
    /\ correlate_events (@bpf_get_current_userspace_pid E) (s32 fd) ck (engine_dir c) cs evs_c.
Proof.
  intros (Hroom & Ht & Hf & _ & _ & _ & Hu & _ & Hl & _) [Hr Hd].
  destruct (engine_ciphertext_correlated E' E c fd buf a2 cs w Hroom Ht Hf Hr Hu ltac:(unfold MAX_MSG_SIZE in *; lia)) as [Hev _].
  rewrite Hd in Hev. destruct Hev as (evs & H1 & Hc). by exists evs.
Qed.

(** C11: the first plaintext of a session, wrapped before its ciphertext is written,
    reaches the right connection.  The session has not been correlated and shows its
    first ciphertext ([session_fresh], [call_due]); the engine's call and then the system
    call send their events.  Once the correlator, configured at the start, has read these
    within ten seconds, mixed with any traffic that stays apart from the pair's ([scope],
    [op_ok]) and with nothing else of the pair ([reads_pair]), it has written to the
    connection of the descriptor the protocol of the plaintext and the plaintext itself,
    in pieces and in order, or nothing when that protocol has no stack. *)
Theorem wrap_write_reported (hashes : gset Z) owner sessions descs pids w ck t0 tap ops evs :
  let s := session_hash sid in let pid := @bpf_get_current_userspace_pid E in
  exchange -> session_fresh w -> call_due (engine_returns false w) ck ->
  scope ck s pid (s32 fd) sessions descs ->
  Forall (op_ok ck s pid (s32 fd) (fun h => h ∈ hashes) owner sessions descs) ops ->
  reads_pair s pid (s32 fd) t0 ops evs ->
  jevents (call_returns (engine_returns false w)) = jevents w ++ evs ->
  exists m, engine_run (Configured (Some tap) :: ops) (NewSslEngineManager (MkBridge pids ∅ ∅ ∅)) = Some m
    /\ exists now, written ck m = announced ck tap now D_EGRESS bs.
Proof.
  intros s pid Hx Hf Hd Hs Hok Hr Hev.
  destruct (engine_sends false w Hx ltac:(apply Hs) Hf) as (q & evs_e & evs_p & H1 & He & Hp).
  destruct (call_sends _ ck Hx Hd) as (evs_c & H3 & Hc). rewrite H3, H1, <- app_assoc in Hev. apply app_inv_head in Hev. subst evs.
  apply (pair_written ck s pid (s32 fd) t0 hashes owner sessions descs pids tap ops _
    (fun out => exists now, out = announced ck tap now D_EGRESS bs) Hs Hok Hr).
  intros l Hl. destruct Hx as (_ & _ & _ & _ & _ & _ & _ & Le & Lc & Hpre).
  destruct (ciphertext_first ck s pid (s32 fd) tap l q D_EGRESS bs es cs (engine_dir c) evs_e evs_p evs_c) as (st & now & Er);
    [lia|lia|lia|done..|]. exists st. eexists. split; [exact Er|]. by exists now.
Qed.

(** C12: the first plaintext of a session is not announced when it is unwrapped after
    its ciphertext was read, the order of a process that receives first.  Under the
    conditions of [wrap_write_reported], but with the system call before the engine's
    call, the pair is joined before there is any plaintext to detect the protocol of:
    whatever the configuration, all the correlator writes to the connection is the
    plaintext, without a protocol event.  As long as no other protocol event for that
    connection comes, from the correlator or from another part of the agent, the
    connection has no processor to hand the plaintext to. *)
Theorem read_unwrap_unannounced (hashes : gset Z) owner sessions descs pids w ck t0 tap ops evs :
  let s := session_hash sid in let pid := @bpf_get_current_userspace_pid E in
  exchange -> call_due w ck -> session_fresh (call_returns w) ->
  scope ck s pid (s32 fd) sessions descs ->
  Forall (op_ok ck s pid (s32 fd) (fun h => h ∈ hashes) owner sessions descs) ops ->
  reads_pair s pid (s32 fd) t0 ops evs ->
  jevents (engine_returns true (call_returns w)) = jevents w ++ evs ->
  exists m, engine_run (Configured (Some tap) :: ops) (NewSslEngineManager (MkBridge pids ∅ ∅ ∅)) = Some m
    /\ written ck m = map (data_event ck) (messages D_INGRESS bs)
    /\ forall (SP : StreamProcessor) createStreamer aops am,
         agent_run createStreamer aops NewManager = Some am ->
         (forall pe, connection.Protocol pe ∈ events_for ck aops -> connection.Protocol pe ∈ written ck m) ->
         Forall (fun conn => cookie conn = ck -> streamProcessor conn = None) (conns am).
Proof.
  intros s pid Hx Hd Hf Hs Hok Hr Hev.
  destruct (call_sends _ ck Hx Hd) as (evs_c & H3 & Hc).
  destruct (engine_sends true _ Hx ltac:(apply Hs) Hf) as (q & evs_e & evs_p & H1 & He & Hp).
  rewrite H1, H3, <- app_assoc in Hev. apply app_inv_head in Hev. subst evs.
  destruct (pair_written ck s pid (s32 fd) t0 hashes owner sessions descs pids tap ops _
    (fun out => out = map (data_event ck) (messages D_INGRESS bs)) Hs Hok Hr) as (m & Em & Hw);
    [|by exists m; split_and!; [| |apply (data_unprocessed ck _ _ Hw)]].
  intros l Hl. destruct Hx as (_ & _ & _ & _ & _ & _ & _ & Le & Lc & Hpre).
  destruct (descriptor_first ck s pid (s32 fd) tap l q D_INGRESS bs es cs (engine_dir c) evs_e evs_p evs_c) as (st & Er);
    [lia|lia|lia|done..|]. by exists st, (map (data_event ck) (messages D_INGRESS bs)).
Qed.

End calls.

(** ** Examples *)

(** A session, a record of application data and a request in memory; descriptor 5 of
    Java process 1000 is the connection with cookie 7. *)
Definition flow_sid : list Z := [1; 2; 3; 4; 5; 6; 7; 8].
Definition flow_es : list Z := [23; 3; 3; 0; 11] ++ replicate 11 9.
Definition flow_bs : list Z := bytes_of_string "GET / HTTP/1.1".
Definition flow_env : Env := flat_env (1000 * 2 ^ 32 + 1000) 4096 (flow_sid ++ flow_es ++ flow_bs).
Definition flow_w : world :=
  (demo_state SocketSpec.demo_open) <| w_tls ::= fun t => t <| f_java ::= fun j => j <| f_java_pids := {[1000 := true]} |> |> |>.
Definition flow_critical (a : Z) : Z := 4000 + a.
Definition flow_s : Z := 578437695752307209.
Definition flow_data (ts dir type : Z) (msg : list Z) : java_event :=
  Je_data (JavaDataEvent J_DATA ts 1000 flow_s dir type (Z.of_nat (length msg)) msg).
Definition flow_corr (ts dir : Z) : java_event := Je_correlate (JavaCorrelateEvent J_CORRELATE ts 1000 5 7 dir 16 flow_es).

Definition egress_evs : list java_event :=
  [flow_data 0 D_EGRESS J_ENCRYPTED flow_es; flow_data 2 D_EGRESS J_PLAINTEXT flow_bs; flow_corr 4 D_EGRESS].
Definition ingress_evs : list java_event :=
  [flow_corr 0 D_INGRESS; flow_data 2 D_INGRESS J_ENCRYPTED flow_es; flow_data 4 D_INGRESS J_PLAINTEXT flow_bs].
Definition flow_ops (evs : list java_event) : list engine_op := map (Ring 9 []) evs.

Lemma flow_exchange c : flat_call c = true ->
  exchange flow_env flow_env flow_critical 120 0 14 104 0 16 96 flow_sid flow_bs flow_es c 4104 flow_es.
Proof.
  intros Hc. unfold exchange. split_and!; try done; try (by apply flat_env_holds_at); by split_and!; try done; apply flat_env_holds_at.
Qed.

Lemma flow_scope : scope 7 flow_s 1000 5 {[0; flow_s]} {[PidFd 1000 5]}.
Proof.
  assert (size ({[0; flow_s]} : gset Z) = 2%nat) as Z1 by (vm_compute; reflexivity).
  assert (size ({[PidFd 1000 5]} : gset pid_fd_key) = 1%nat) as Z2 by (vm_compute; reflexivity).
  assert (flow_s ∈ ({[0; flow_s]} : gset Z) /\ 0 ∈ ({[0; flow_s]} : gset Z)) as [? ?]
    by (rewrite !elem_of_union, !elem_of_singleton; split; [by right|by left]).
  assert (PidFd 1000 5 ∈ ({[PidFd 1000 5]} : gset pid_fd_key)) by (by apply elem_of_singleton).
  unfold scope. rewrite Z1, Z2. unfold fits, fd_fits. split_and!; first [assumption | lia | vm_compute; congruence].
Qed.

Lemma flow_fits ts dir : fits 64 ts -> dir = D_INGRESS \/ dir = D_EGRESS ->
  java_fits (flow_data ts dir J_ENCRYPTED flow_es) /\ java_fits (flow_data ts dir J_PLAINTEXT flow_bs) /\ java_fits (flow_corr ts dir).
Proof.
  intros Ft Hd. split; [|split].
  - refine (conj eq_refl (conj Ft (conj _ (conj _ (conj Hd (conj (or_intror eq_refl) (conj _ eq_refl))))))); by compute.
  - refine (conj eq_refl (conj Ft (conj _ (conj _ (conj Hd (conj (or_introl eq_refl) (conj _ eq_refl))))))); by compute.
  - refine (conj eq_refl (conj Ft (conj _ (conj _ (conj _ (conj Hd (conj _ eq_refl))))))); by compute.
Qed.

Abbreviation flow_ok := (@op_ok demo_xxhash 7 flow_s 1000 5 (fun h => h ∈ ({[139]} : gset Z)) (fun _ => 0) {[0; flow_s]} {[PidFd 1000 5]}).

Lemma flow_op_ok ts dir : fits 64 ts -> dir = D_INGRESS \/ dir = D_EGRESS ->
  flow_ok (Ring 9 [] (flow_data ts dir J_ENCRYPTED flow_es)) /\ flow_ok (Ring 9 [] (flow_data ts dir J_PLAINTEXT flow_bs))
  /\ flow_ok (Ring 9 [] (flow_corr ts dir)).
Proof.
  intros Ft Hd. destruct (flow_fits ts dir Ft Hd) as (F1 & F2 & F3). assert (139 ∈ ({[139]} : gset Z)) by (by apply elem_of_singleton).
  split_and!; (split; [done|]).
  - intros _. by split.
  - by intros [? _].
  - intros _. by split.
Qed.

Lemma flow_ops_ok evs : evs = egress_evs \/ evs = ingress_evs -> Forall flow_ok (flow_ops evs).
Proof.
  assert (O : forall ts, ts = 0 \/ ts = 2 \/ ts = 4 -> fits 64 ts) by (unfold fits; lia).
  pose proof (fun ts H => flow_op_ok ts D_EGRESS (O ts H) (or_intror eq_refl)) as He.
  pose proof (fun ts H => flow_op_ok ts D_INGRESS (O ts H) (or_introl eq_refl)) as Hi.
  intros [-> | ->]; (apply Forall_cons_2; [|apply Forall_cons_2; [|apply Forall_cons_2; [|apply Forall_nil_2]]]).
  - exact (proj1 (He 0 ltac:(lia))).
  - exact (proj1 (proj2 (He 2 ltac:(lia)))).
  - exact (proj2 (proj2 (He 4 ltac:(lia)))).
  - exact (proj2 (proj2 (Hi 0 ltac:(lia)))).
  - exact (proj1 (Hi 2 ltac:(lia))).
  - exact (proj1 (proj2 (Hi 4 ltac:(lia)))).
Qed.

Lemma flow_reads evs : evs = egress_evs \/ evs = ingress_evs -> reads_pair flow_s 1000 5 9 (flow_ops evs) evs.
Proof.
  intros [-> | ->]; (split; [vm_compute; reflexivity|]); repeat apply Forall_cons_2; try apply Forall_nil_2; lia.
Qed.

Lemma wrap_write_reported_witness :
  exists m, @engine_run demo_tls demo_http2 demo_xxhash (Configured (Some demo_stack) :: flow_ops egress_evs)
      (NewSslEngineManager (MkBridge ∅ ∅ ∅ ∅)) = Some m
    /\ exists now, written 7 m = [connection.Protocol (connection.MkProtocol 7 now "http1" true);
                                  connection.Data (connection.MkData 7 "egress" 14 0 flow_bs)].
Proof.
  assert (Hf : session_fresh flow_sid flow_w) by done.
  assert (Hd : call_due flow_env 5 flow_es (engine_returns flow_env flow_critical 120 0 14 104 0 16 96 flow_sid false flow_w) 7)
    by (split; [right; by vm_compute|vm_compute; reflexivity]).
  assert (He : jevents (call_returns flow_env flow_env ENGINE_WRITE 5 4104 16 flow_es
    (engine_returns flow_env flow_critical 120 0 14 104 0 16 96 flow_sid false flow_w)) = jevents flow_w ++ egress_evs) by (vm_compute; reflexivity).
  exact (@wrap_write_reported demo_tls demo_http2 demo_xxhash flow_env flow_env flow_critical 120 0 14 104 0 16 96 flow_sid flow_bs flow_es
    ENGINE_WRITE 5 4104 16 flow_es {[139]} (fun _ => 0) {[0; flow_s]} {[PidFd 1000 5]} ∅ flow_w 7 9 demo_stack (flow_ops egress_evs) egress_evs
    (flow_exchange ENGINE_WRITE eq_refl) Hf Hd flow_scope (flow_ops_ok _ (or_introl eq_refl)) (flow_reads _ (or_introl eq_refl)) He).
Defined.

Lemma read_unwrap_unannounced_witness :
  exists m, @engine_run demo_tls demo_http2 demo_xxhash (Configured (Some demo_stack) :: flow_ops ingress_evs)
      (NewSslEngineManager (MkBridge ∅ ∅ ∅ ∅)) = Some m
    /\ written 7 m = [connection.Data (connection.MkData 7 "ingress" 14 0 flow_bs)].
Proof.
  assert (Hf : session_fresh flow_sid (call_returns flow_env flow_env ENGINE_READ 5 4104 16 flow_es flow_w)) by (split; vm_compute; reflexivity).
  assert (Hd : call_due flow_env 5 flow_es flow_w 7) by (split; [right; by vm_compute|vm_compute; reflexivity]).
  assert (He : jevents (engine_returns flow_env flow_critical 120 0 14 104 0 16 96 flow_sid true
    (call_returns flow_env flow_env ENGINE_READ 5 4104 16 flow_es flow_w)) = jevents flow_w ++ ingress_evs) by (vm_compute; reflexivity).
  destruct (@read_unwrap_unannounced demo_tls demo_http2 demo_xxhash flow_env flow_env flow_critical 120 0 14 104 0 16 96 flow_sid flow_bs flow_es
    ENGINE_READ 5 4104 16 flow_es {[139]} (fun _ => 0) {[0; flow_s]} {[PidFd 1000 5]} ∅ flow_w 7 9 demo_stack (flow_ops ingress_evs) ingress_evs
    (flow_exchange ENGINE_READ eq_refl) Hd Hf flow_scope (flow_ops_ok _ (or_intror eq_refl)) (flow_reads _ (or_intror eq_refl)) He) as (m & Em & Hw & _).
  exists m. split; [exact Em|exact Hw].
Defined.
