(* ===== verification/ProcFilter.v ===== *)
(** * Processes and process filters of the agent

    [pkg/config/filters.go], [pkg/process/filter.go], [filter_groups.go] and
    [qpoint.go]: which flags the agent wants the probes to apply to a process, and the
    strategy its environment asks for.  Unicode lower case, regular expressions a user
    writes and the agent's own pid are parameters ([Host]). *)

From stdpp Require Import base numbers list gmap strings.
From Stdlib Require Import Ascii.
From S2P Require Import Prelude.

Class Host := {
  ToLower : string -> string;
  regexp : Type;
  regexp_Compile : string -> option regexp;
  MatchString : regexp -> string -> bool;
  Getpid : Z }.

(** ** [strings] *)

Definition HasSuffix (s suffix : string) : bool :=
  (String.length suffix <=? String.length s)%nat
  && String.eqb (String.substring (String.length s - String.length suffix) (String.length suffix) s) suffix.

Fixpoint Contains (s substr : string) : bool :=
  String.prefix substr s || match s with EmptyString => false | String _ s' => Contains s' substr end.

(** [strings.Cut] at a separator of one character. *)
Fixpoint Cut (s : string) (sep : Ascii.ascii) : option (string * string) :=
  match s with
  | EmptyString => None
  | String c s' =>
      if Ascii.eqb c sep then Some ("", s')
      else match Cut s' sep with Some (before, after) => Some (String c before, after) | None => None end
  end.

(** [strings.Split] at a separator of one character. *)
Fixpoint Split (s : string) (sep : Ascii.ascii) : list string :=
  match s with
  | EmptyString => [""]
  | String c s' =>
      if Ascii.eqb c sep then "" :: Split s' sep
      else match Split s' sep with f :: fs => String c f :: fs | [] => [String c ""] end
  end.

Definition CutPrefix (s prefix : string) : string :=
  if String.prefix prefix s then String.substring (String.length prefix) (String.length s - String.length prefix) s else s.

(** ** [config.TapFilter] *)

Definition MatchStrategy_EXACT : string := "exact".
Definition MatchStrategy_PREFIX : string := "prefix".
Definition MatchStrategy_SUFFIX : string := "suffix".
Definition MatchStrategy_CONTAINS : string := "contains".
Definition MatchStrategy_REGEX : string := "regex".

Definition Parse (s : string) : bool :=
  bool_decide (s ∈ [MatchStrategy_EXACT; MatchStrategy_PREFIX; MatchStrategy_SUFFIX; MatchStrategy_CONTAINS; MatchStrategy_REGEX]).

Definition FilterLevel_DATA : string := "data".
Definition FilterLevel_DNS : string := "dns".
Definition FilterLevel_TLS : string := "tls".
Definition FilterLevel_HTTP : string := "http".

Definition SkipDataFlag : Z := 1.
Definition SkipDNSFlag : Z := 2.
Definition SkipTLSFlag : Z := 4.
Definition SkipHTTPFlag : Z := 8.
Definition SkipAllFlag : Z := 15.

Definition Resolve (t : string) : Z :=
  if String.eqb t FilterLevel_DATA then SkipDataFlag
  else if String.eqb t FilterLevel_DNS then SkipDNSFlag
  else if String.eqb t FilterLevel_TLS then SkipTLSFlag
  else if String.eqb t FilterLevel_HTTP then SkipHTTPFlag else 0.

Record TapFilter := MkTapFilter { tf_Exe : string; tf_Strategy : string; tf_Only : list string }.

Definition Pack (tf : TapFilter) : Z :=
  if bool_decide (tf_Only tf = []) then SkipAllFlag
  else
    let has level := bool_decide (level ∈ tf_Only tf) in
    let flags := if has FilterLevel_DATA then Z.lor 0 SkipDataFlag else 0 in
    let flags := if has FilterLevel_DNS then Z.lor flags SkipDNSFlag else flags in
    let flags := if has FilterLevel_TLS then Z.lor flags SkipTLSFlag else flags in
    if has FilterLevel_HTTP then Z.lor flags SkipHTTPFlag else flags.

(** ** [Process]

    Left out are the user, the shell, the container, the pod and the host name, which
    are looked up lazily, the detected TLS probes and the times.  [notifier] says
    whether there is one: the only one that is ever set calls [SetMeta] on the process
    itself. *)

Record Tag := MkTag { Key : string; Source : string; Location : string }.

Record Process := MkProcess {
  Pid : Z;
  PodID : string;
  Cgroup : string;
  ContainerID : string;
  RootID : Z;
  Binary : string;
  Exe : string;
  ExeFilename : string;
  Args : list string;
  Root : string;
  Environment : gmap string string;
  Strategy : Z;
  PredatesQpoint : bool;
  ExitCode : Z;
  p_filter : Z;
  exited : bool;
  tlsOk : bool;
  envTags : list Tag;
  notifier : bool }.
#[export] Instance Process_settable : Settable Process :=
  fun p => MkProcess (Pid p) (PodID p) (Cgroup p) (ContainerID p) (RootID p) (Binary p) (Exe p) (ExeFilename p) (Args p) (Root p)
    (Environment p) (Strategy p) (PredatesQpoint p) (ExitCode p) (p_filter p) (exited p) (tlsOk p) (envTags p) (notifier p).

Definition NewProcess (pid : Z) (exeFilename : string) : Process :=
  MkProcess pid "" "" "" 0 "" "" exeFilename [] "" ∅ 0 false 0 0 false false [] false.

Definition IsFiltered (p : Process) (flag : list string) : bool :=
  if String.eqb (Exe p) "" then false
  else existsb (fun f => negb (Z.land (p_filter p) (Resolve f) =? 0)) flag.

(** ** Filters *)

Section filters.
Context {H : Host}.

Definition Validate (tf : TapFilter) : bool :=
  if String.eqb (tf_Exe tf) "" then false
  else if String.eqb (tf_Strategy tf) MatchStrategy_REGEX && negb (bool_decide (is_Some (regexp_Compile (tf_Exe tf)))) then false
  else forallb (fun level => bool_decide (level ∈ [FilterLevel_DATA; FilterLevel_DNS; FilterLevel_TLS; FilterLevel_HTTP])) (tf_Only tf).

Inductive Filter :=
| ExeFilter (pattern strategy : string) (bitmask : Z)
| ExeRegexFilter (pattern : regexp) (bitmask : Z)
| PIDFilter (PID bitmask : Z).

Definition Bitmask (f : Filter) : Z :=
  match f with ExeFilter _ _ bitmask | ExeRegexFilter _ bitmask | PIDFilter _ bitmask => bitmask end.

(** An error is [None]. *)
Definition Evaluate (f : Filter) (p : Process) : option bool :=
  match f with
  | ExeFilter pattern strategy _ =>
      if String.eqb (Exe p) "" || String.eqb pattern "" then Some false
      else
        let input := ToLower (Exe p) in
        let exe := ToLower pattern in
        let strategy := if String.eqb strategy "" then MatchStrategy_SUFFIX else strategy in
        if String.eqb strategy MatchStrategy_EXACT then Some (String.eqb exe input)
        else if String.eqb strategy MatchStrategy_PREFIX then Some (String.prefix exe input)
        else if String.eqb strategy MatchStrategy_SUFFIX then Some (HasSuffix input exe)
        else if String.eqb strategy MatchStrategy_CONTAINS then Some (Contains input exe)
        else None
  | ExeRegexFilter pattern _ => Some (MatchString pattern (Exe p))
  | PIDFilter pid _ => Some (pid =? Pid p)
  end.

Fixpoint applyFilters (filters : list Filter) (p : Process) : Z :=
  match filters with
  | [] => 0
  | filter :: filters' =>
      match Evaluate filter p with
      | Some true => Bitmask filter
      | Some false | None => applyFilters filters' p
      end
  end.

Definition FromConfigFilter (filter : TapFilter) : option Filter :=
  if String.eqb (tf_Strategy filter) MatchStrategy_REGEX then
    match regexp_Compile (tf_Exe filter) with
    | None => None
    | Some re => Some (ExeRegexFilter re (Pack filter))
    end
  else Some (ExeFilter (tf_Exe filter) (tf_Strategy filter) (Pack filter)).

Definition predefinedFilters (group : string) : list Filter :=
  let exact exe := ExeFilter exe MatchStrategy_EXACT SkipAllFlag in
  let suffix exe := ExeFilter exe MatchStrategy_SUFFIX SkipAllFlag in
  if String.eqb group "container-runtimes" then
    [exact "/usr/bin/containerd"; exact "/usr/bin/dockerd"; exact "/usr/bin/runc"]
  else if String.eqb group "eks" then
    [exact "/app/aws-k8s-agent"; exact "/usr/bin/amazon-ssm-agent"; exact "/usr/bin/ssm-agent-worker";
     exact "/usr/bin/ssm-document-worker"]
  else if String.eqb group "gke" then
    [exact "/home/kubernetes/bin/gcfsd"; exact "/event-exporter"; exact "/fluent-bit-gke-exporter";
     exact "/home/kubernetes/bin/node-problem-detector"]
  else if String.eqb group "kubernetes" then
    [suffix "/kubelet"; suffix "/kube-proxy"; suffix "/proxy-agent"; suffix "/cluster-proportional-autoscaler";
     suffix "/csi-node-driver-registrar"]
  else if String.eqb group "qpoint" then [PIDFilter Getpid SkipAllFlag; suffix "/qtap"]
  else [].

(** The filters a configuration loads: the valid custom ones, then the groups. *)
Definition load_filters (custom : list TapFilter) (groups : list string) : list Filter :=
  omap (fun filter => if Validate filter then FromConfigFilter filter else None) custom
  ++ concat (map predefinedFilters groups).

(** ** [QpointStrategy] *)

Definition StrategyObserve : Z := 0.
Definition StrategyIgnore : Z := 1.
Definition StrategyAudit : Z := 2.
Definition StrategyForward : Z := 3.
Definition StrategyProxy : Z := 4.

Definition createTapFilter (filterStr : string) : option TapFilter :=
  match Cut (CutPrefix filterStr "exe.") ":"%char with
  | None => None
  | Some (strategy, matchValue) => if Parse strategy then Some (MkTapFilter matchValue strategy []) else None
  end.

(** Whether one of the filters matches; [None] when an error comes first. *)
Fixpoint any_match (filterStrs : list string) (p : Process) : option bool :=
  match filterStrs with
  | [] => Some false
  | filterStr :: rest =>
      match createTapFilter filterStr with
      | None => None
      | Some filterConfig =>
          match FromConfigFilter filterConfig with
          | None => None
          | Some filter =>
              match Evaluate filter p with
              | None => None
              | Some true => Some true
              | Some false => any_match rest p
              end
          end
      end
  end.

Definition strategy_named (strat : string) : Z :=
  if String.eqb strat "observe" then StrategyObserve else if String.eqb strat "ignore" then StrategyIgnore
  else if String.eqb strat "audit" then StrategyAudit else if String.eqb strat "forward" then StrategyForward
  else if String.eqb strat "proxy" then StrategyProxy else StrategyObserve.

Definition QpointStrategyFromString (s : string) (p : Process) : option Z :=
  match Cut s ","%char with
  | None => Some (strategy_named s)
  | Some (strat, filterStr) =>
      match any_match (Split filterStr ","%char) p with
      | None => None
      | Some false => Some StrategyObserve
      | Some true => Some (strategy_named strat)
      end
  end.

End filters.
