(* ===== verification/ProcFilterSpec.v ===== *)
(** * What filters and strategies mean

    A declarative reading of the filters of ProcFilter, and the theorems that
    [applyFilters] and [QpointStrategyFromString] decide it. *)

From stdpp Require Import base numbers list gmap strings.
From Stdlib Require Import Ascii.
From S2P Require Import Prelude Tap Process ProcFilter.

(** ** Strings *)

#[local] Arguments String.append !_ _ / : simpl nomatch.

Lemma length_append a b : String.length (a +:+ b) = (String.length a + String.length b)%nat.
Proof. induction a as [|c a IH]; cbn; [done|]. by rewrite IH. Qed.

Lemma append_assoc a b c : (a +:+ b) +:+ c = a +:+ (b +:+ c).
Proof. induction a as [|x a IH]; cbn; [done|]. by rewrite IH. Qed.

Lemma append_nil a : a +:+ "" = a.
Proof. induction a as [|x a IH]; cbn; [done|]. by rewrite IH. Qed.

Lemma prefix_spec a s : String.prefix a s = true <-> exists r, s = a +:+ r.
Proof.
  revert s. induction a as [|c a IH]; intros s; [split; [by exists s|by destruct s]|]. destruct s as [|d s]; cbn.
  { split; [done|]. by intros []. }
  destruct (ascii_dec c d) as [->|Hne].
  - rewrite IH. split; intros [r Hr]; exists r; [by rewrite Hr|by injection Hr].
  - split; [done|]. intros [r Hr]. injection Hr. congruence.
Qed.

Lemma substring_all s : String.substring 0 (String.length s) s = s.
Proof. induction s as [|c s IH]; cbn; [done|]. by rewrite IH. Qed.

Lemma substring_drop a b : String.substring (String.length a) (String.length b) (a +:+ b) = b.
Proof. induction a as [|c a IH]; [apply substring_all|exact IH]. Qed.

Lemma substring_split n s : (n <= String.length s)%nat ->
  s = String.substring 0 n s +:+ String.substring n (String.length s - n) s.
Proof.
  revert n. induction s as [|c s IH]; intros [|n] Hn; cbn in *; try lia; [done|by rewrite substring_all|].
  rewrite <- IH; [done|lia].
Qed.

Lemma HasSuffix_spec s b : HasSuffix s b = true <-> exists r, s = r +:+ b.
Proof.
  unfold HasSuffix. rewrite andb_true_iff, Nat.leb_le, String.eqb_eq. split.
  - intros [Hl Hb]. exists (String.substring 0 (String.length s - String.length b) s).
    rewrite (substring_split (String.length s - String.length b) s) at 1 by lia.
    by replace (String.length s - (String.length s - String.length b))%nat with (String.length b) by lia; rewrite Hb.
  - intros [r ->]. rewrite length_append. split; [lia|].
    replace (String.length r + String.length b - String.length b)%nat with (String.length r) by lia. apply substring_drop.
Qed.

Lemma Contains_spec s b : Contains s b = true <-> exists a c, s = a +:+ b +:+ c.
Proof.
  revert b. induction s as [|x s IH]; intros b; cbn [Contains]; rewrite orb_true_iff, prefix_spec.
  - split; [intros [[r Hr]|?]; [exists "", r; done|done]|]. intros (a & c & Hs). left. destruct a; [by exists c|done].
  - rewrite IH. split.
    + intros [[r Hr]|(a & c & ->)]; [by exists "", r|by exists (String x a), c].
    + intros (a & c & Hs). destruct a as [|y a]; [left; by exists c|right]. injection Hs as _ ->. eauto.
Qed.

Section filters.
Context {H : Host}.

(** ** Filters *)

(** How a pattern selects an executable; nothing is a suffix by default. *)
Definition matches (strategy pattern exe : string) : Prop :=
  strategy = "exact" /\ exe = pattern
  \/ strategy = "prefix" /\ (exists r, exe = pattern +:+ r)
  \/ (strategy = "suffix" \/ strategy = "") /\ (exists r, exe = r +:+ pattern)
  \/ strategy = "contains" /\ (exists a c, exe = a +:+ pattern +:+ c).

Definition selects (f : Filter) (v : Process) : Prop :=
  match f with
  | ExeFilter pattern strategy _ => Exe v <> "" /\ pattern <> "" /\ matches strategy (ToLower pattern) (ToLower (Exe v))
  | ExeRegexFilter pattern _ => MatchString pattern (Exe v) = true
  | PIDFilter pid _ => pid = Pid v
  end.

Lemma Evaluate_selects f v : Evaluate f v = Some true <-> selects f v.
Proof.
  destruct f as [pattern strategy mask|re mask|pid mask]; cbn [Evaluate selects].
  - destruct (String.eqb_spec (Exe v) "") as [|Hx]; cbn [orb]; [naive_solver|].
    destruct (String.eqb_spec pattern "") as [|Hp]; [naive_solver|].
    set (input := ToLower (Exe v)). set (exe := ToLower pattern).
    transitivity (matches strategy exe input); [|naive_solver]. unfold matches.
    destruct (String.eqb_spec strategy "") as [->|Hs].
    { cbn. rewrite (inj_iff Some), HasSuffix_spec. intuition congruence. }
    destruct (String.eqb_spec strategy MatchStrategy_EXACT) as [->|].
    { rewrite (inj_iff Some), String.eqb_eq. unfold MatchStrategy_EXACT. intuition congruence. }
    destruct (String.eqb_spec strategy MatchStrategy_PREFIX) as [->|].
    { rewrite (inj_iff Some), prefix_spec. unfold MatchStrategy_PREFIX. intuition congruence. }
    destruct (String.eqb_spec strategy MatchStrategy_SUFFIX) as [->|].
    { rewrite (inj_iff Some), HasSuffix_spec. unfold MatchStrategy_SUFFIX. intuition congruence. }
    destruct (String.eqb_spec strategy MatchStrategy_CONTAINS) as [->|].
    { rewrite (inj_iff Some), Contains_spec. unfold MatchStrategy_CONTAINS. intuition congruence. }
    unfold MatchStrategy_EXACT, MatchStrategy_PREFIX, MatchStrategy_SUFFIX, MatchStrategy_CONTAINS in *. intuition congruence.
  - by rewrite (inj_iff Some).
  - by rewrite (inj_iff Some), Z.eqb_eq.
Qed.

(** The flags of the first filter that selects a process, and none without one. *)
Definition flags_for (fl : list Filter) (v : Process) (flags : Z) : Prop :=
  (exists before f after, fl = before ++ f :: after /\ Forall (fun g => ~ selects g v) before /\ selects f v /\ flags = Bitmask f)
  \/ (Forall (fun g => ~ selects g v) fl /\ flags = 0).

Lemma applyFilters_first fl v : flags_for fl v (applyFilters fl v).
Proof.
  induction fl as [|g fl IH]; [by right|]. cbn [applyFilters].
  destruct (Evaluate g v) as [[]|] eqn:E.
  { left. exists [], g, fl. apply Evaluate_selects in E. done. }
  all: assert (~ selects g v) as Hg by (rewrite <- Evaluate_selects, E; done).
  all: destruct IH as [(before & f & after & -> & Hb & Hf & Ha)|[Hb Ha]];
    [left; exists (g :: before), f, after; rewrite Forall_cons; done|right; rewrite Forall_cons; done].
Qed.

Lemma Pack_level tf level : level ∈ [FilterLevel_DATA; FilterLevel_DNS; FilterLevel_TLS; FilterLevel_HTTP] ->
  Z.land (Pack tf) (Resolve level) <> 0 <-> tf_Only tf = [] \/ level ∈ tf_Only tf.
Proof.
  intros Hl. unfold Pack. destruct (bool_decide_reflect (tf_Only tf = [])) as [->|Hne].
  { split; [by left|intros _]. rewrite !elem_of_cons, elem_of_nil in Hl. by destruct Hl as [->|[->|[->|[->|[]]]]]. }
  cbv zeta. transitivity (level ∈ tf_Only tf); [|naive_solver].
  rewrite !elem_of_cons, elem_of_nil in Hl. destruct Hl as [->|[->|[->|[->|[]]]]];
    repeat match goal with |- context [bool_decide (?l ∈ ?o)] => destruct (bool_decide_reflect (l ∈ o)) end; cbn; naive_solver.
Qed.

(** A valid configured filter that matches a process. *)
Definition wanted (tf : TapFilter) (v : Process) : Prop :=
  Validate tf = true
  /\ if String.eqb (tf_Strategy tf) "regex" then exists re, regexp_Compile (tf_Exe tf) = Some re /\ MatchString re (Exe v) = true
     else Exe v <> "" /\ tf_Exe tf <> "" /\ matches (tf_Strategy tf) (ToLower (tf_Exe tf)) (ToLower (Exe v)).

(** The flags a configuration gives a process: those of the first configured filter
    that matches it, and otherwise those of its groups. *)
Definition config_flags (custom : list TapFilter) (groups : list string) (v : Process) (flags : Z) : Prop :=
  (exists before tf after, custom = before ++ tf :: after /\ Forall (fun g => ~ wanted g v) before /\ wanted tf v /\ flags = Pack tf)
  \/ (Forall (fun g => ~ wanted g v) custom /\ flags_for (concat (map predefinedFilters groups)) v flags).

(** What a configured filter becomes. *)
Lemma load_one tf v :
  match (if Validate tf then FromConfigFilter tf else None) with
  | Some f => Bitmask f = Pack tf /\ (selects f v <-> wanted tf v)
  | None => ~ wanted tf v
  end.
Proof.
  unfold wanted, FromConfigFilter. destruct (Validate tf) eqn:Hv; [|by intros [? _]].
  change MatchStrategy_REGEX with "regex". destruct (String.eqb (tf_Strategy tf) "regex").
  - destruct (regexp_Compile (tf_Exe tf)) as [re|]; [|by intros (_ & ? & ? & _)]. split; [done|]. cbn. split.
    + intros Hm. split; [done|]. by exists re.
    + by intros (_ & ? & [= ->] & ?).
  - split; [done|]. cbn. tauto.
Qed.

(** One filter more, that selects the process or does not. *)
Lemma flags_for_cons f fl v flags :
  flags_for (f :: fl) v flags <-> (selects f v /\ flags = Bitmask f) \/ (~ selects f v /\ flags_for fl v flags).
Proof.
  split.
  - intros [(before & g & after & E & Hb & Hg & Hf)|[Hall Hf]].
    + destruct before as [|f' before]; injection E as <- E; [by left|]. apply Forall_cons in Hb as [Hn Hb].
      right. split; [done|]. left. by exists before, g, after.
    + apply Forall_cons in Hall as [Hn Hall]. right. split; [done|]. by right.
  - intros [[Hf E]|[Hn [(before & g & after & -> & Hb & Hg & Hf)|[Hall Hf]]]].
    + left. by exists [], f, fl.
    + left. exists (f :: before), g, after. by rewrite Forall_cons.
    + right. by rewrite Forall_cons.
Qed.

Lemma config_flags_cons tf custom groups v flags :
  config_flags (tf :: custom) groups v flags
  <-> (wanted tf v /\ flags = Pack tf) \/ (~ wanted tf v /\ config_flags custom groups v flags).
Proof.
  split.
  - intros [(before & g & after & E & Hb & Hg & Hf)|[Hall Hf]].
    + destruct before as [|f' before]; injection E as <- E; [by left|]. apply Forall_cons in Hb as [Hn Hb].
      right. split; [done|]. left. by exists before, g, after.
    + apply Forall_cons in Hall as [Hn Hall]. right. split; [done|]. by right.
  - intros [[Hf E]|[Hn [(before & g & after & -> & Hb & Hg & Hf)|[Hall Hf]]]].
    + left. by exists [], tf, custom.
    + left. exists (tf :: before), g, after. by rewrite Forall_cons.
    + right. by rewrite Forall_cons.
Qed.

Lemma load_flags custom groups v flags : flags_for (load_filters custom groups) v flags <-> config_flags custom groups v flags.
Proof.
  unfold load_filters. induction custom as [|tf custom IH].
  { unfold config_flags. rewrite Forall_nil. split; [by right|]. intros [(before & tf & after & E & _)|[_ ?]]; [|done].
    by destruct before. }
  rewrite config_flags_cons. cbn [omap list_omap].
  pose proof (load_one tf v) as Hone. destruct (if Validate tf then _ else None) as [f|]; [|rewrite IH; tauto].
  destruct Hone as [<- Hsel]. cbn [app]. by rewrite flags_for_cons, IH, Hsel.
Qed.

(** The flags are determined. *)
Lemma flags_for_applied fl v flags : flags_for fl v flags -> flags = applyFilters fl v.
Proof.
  induction fl as [|f fl IH]; [by intros [(before & ? & ? & E & _)|[_ ?]]; [destruct before|]|].
  rewrite flags_for_cons, <- Evaluate_selects. cbn [applyFilters]. intros [[-> ->]|[Hn Hf%IH]]; [done|].
  destruct (Evaluate f v) as [[]|]; done.
Qed.

(** ** Strategies *)

(** No character of a string is [c]. *)
Fixpoint lacks (c : ascii) (s : string) : Prop :=
  match s with EmptyString => True | String d s' => d <> c /\ lacks c s' end.

Fixpoint join (fs : list string) : string :=
  match fs with [] => "" | [f] => f | f :: fs' => f +:+ "," +:+ join fs' end.

Lemma Cut_lacks c a b : lacks c a -> Cut (a +:+ String c b) c = Some (a, b).
Proof.
  induction a as [|d a IH]; cbn; [by rewrite Ascii.eqb_refl|]. intros [Hd Ha].
  rewrite (proj2 (Ascii.eqb_neq d c) Hd). by rewrite IH.
Qed.

Lemma Cut_none c a : lacks c a -> Cut a c = None.
Proof. induction a as [|d a IH]; cbn; [done|]. intros [Hd Ha]. rewrite (proj2 (Ascii.eqb_neq d c) Hd). by rewrite IH. Qed.

Lemma Cut_some c s a b : Cut s c = Some (a, b) -> s = a +:+ String c b.
Proof.
  revert a b. induction s as [|d s IH]; cbn; [done|]. intros a b. destruct (Ascii.eqb_spec d c) as [->|].
  - by intros [= <- <-].
  - destruct (Cut s c) as [[a' b']|]; [|done]. intros [= <- <-]. cbn. f_equal. by apply IH.
Qed.

Lemma Split_lacks c a : lacks c a -> Split a c = [a].
Proof. induction a as [|d a IH]; cbn; [done|]. intros [Hd Ha]. rewrite (proj2 (Ascii.eqb_neq d c) Hd). by rewrite IH. Qed.

Lemma Split_cons c a b : lacks c a -> Split (a +:+ String c b) c = a :: Split b c.
Proof.
  induction a as [|d a IH]; cbn; [by rewrite Ascii.eqb_refl|]. intros [Hd Ha].
  rewrite (proj2 (Ascii.eqb_neq d c) Hd). by rewrite IH.
Qed.

Lemma Split_join fs : fs <> [] -> Forall (lacks ","%char) fs -> Split (join fs) ","%char = fs.
Proof.
  induction fs as [|f fs IH]; intros Hne Hf; [done|]. apply Forall_cons in Hf as [Hf Hfs]. destruct fs as [|g fs]; [by apply Split_lacks|].
  change (join (f :: g :: fs)) with (f +:+ String ","%char (join (g :: fs))). rewrite Split_cons by done. by rewrite IH.
Qed.

(** A condition of the variable: whether it is written with [exe.], how to match, and
    the pattern.  It is written [exe.suffix:/curl] or [suffix:/curl]. *)
Record cond := Cond { cond_exe : bool; cond_kind : string; cond_pattern : string }.
Definition condition (e : cond) : string :=
  (if cond_exe e then "exe." else "") +:+ cond_kind e +:+ ":" +:+ cond_pattern e.
Definition condition_ok (e : cond) : Prop :=
  (cond_kind e ∈ ["exact"; "prefix"; "suffix"; "contains"]
   \/ cond_kind e = "regex" /\ is_Some (regexp_Compile (cond_pattern e))) /\ lacks ","%char (cond_pattern e).

(** Whether it selects a process. *)
Definition satisfied (v : Process) (e : cond) : Prop :=
  if String.eqb (cond_kind e) "regex" then exists re, regexp_Compile (cond_pattern e) = Some re /\ MatchString re (Exe v) = true
  else Exe v <> "" /\ cond_pattern e <> "" /\ matches (cond_kind e) (ToLower (cond_pattern e)) (ToLower (Exe v)).

(** The numbers the probes know the strategies by. *)
Definition strategy_numbers : list (string * Z) :=
  [("observe", QP_OBSERVE); ("ignore", QP_IGNORE); ("audit", QP_AUDIT); ("forward", QP_FORWARD); ("proxy", QP_PROXY)].
Definition strategy_number (name : string) : Z := default QP_OBSERVE (snd <$> find (fun e => String.eqb name e.1) strategy_numbers).

Lemma strategy_named_number name : strategy_named name = strategy_number name.
Proof. unfold strategy_named, strategy_number. cbn [find strategy_numbers fst]. by repeat destruct (String.eqb name _). Qed.

Lemma createTapFilter_condition e : condition_ok e -> createTapFilter (condition e) = Some (MkTapFilter (cond_pattern e) (cond_kind e) []).
Proof.
  destruct e as [exe kind pattern]. intros [Hk _]. cbn [cond_kind cond_pattern] in Hk. unfold createTapFilter, condition.
  cbn [cond_kind cond_pattern cond_exe].
  assert (CutPrefix ((if exe then "exe." else "") +:+ kind +:+ ":" +:+ pattern) "exe." = kind +:+ ":" +:+ pattern) as ->.
  { destruct exe.
    - unfold CutPrefix. rewrite (proj2 (prefix_spec _ _)) by eauto. rewrite length_append.
      replace (String.length "exe." + _ - _)%nat with (String.length (kind +:+ ":" +:+ pattern)) by lia. apply substring_drop.
    - rewrite !elem_of_cons, elem_of_nil in Hk. by destruct Hk as [[->|[->|[->|[->|[]]]]]|[-> _]]. }
  rewrite !elem_of_cons, elem_of_nil in Hk. by destruct Hk as [[->|[->|[->|[->|[]]]]]|[-> _]].
Qed.

(** The filter of a condition. *)
Lemma condition_filter e v : condition_ok e ->
  exists f b, FromConfigFilter (MkTapFilter (cond_pattern e) (cond_kind e) []) = Some f /\ Evaluate f v = Some b
    /\ (b = true <-> satisfied v e).
Proof.
  intros [Hk _]. unfold FromConfigFilter, satisfied. cbn [tf_Strategy tf_Exe]. change MatchStrategy_REGEX with "regex".
  destruct Hk as [Hk|[-> [re Hre]]].
  - assert (String.eqb (cond_kind e) "regex" = false) as ->.
    { rewrite !elem_of_cons, elem_of_nil in Hk. by destruct Hk as [->|[->|[->|[->|[]]]]]. }
    set (f := ExeFilter _ _ _). assert (is_Some (Evaluate f v)) as [b Hb].
    { unfold f. cbn [Evaluate]. destruct (_ || _); [done|]. rewrite !elem_of_cons, elem_of_nil in Hk.
      by destruct Hk as [->|[->|[->|[->|[]]]]]. }
    exists f, b. split; [done|]. split; [done|]. change (b = true <-> selects f v). rewrite <- Evaluate_selects, Hb. split; congruence.
  - rewrite Hre. cbn [String.eqb]. exists (ExeRegexFilter re (Pack (MkTapFilter (cond_pattern e) "regex" []))), (MatchString re (Exe v)).
    split; [done|]. split; [done|]. split; [by exists re|]. by intros (? & [= ->] & ?).
Qed.

Lemma any_match_conditions es v : Forall condition_ok es ->
  exists b, any_match (map condition es) v = Some b /\ (b = true <-> Exists (satisfied v) es).
Proof.
  induction 1 as [|e es He _ IH]; [exists false; split; [done|]; by rewrite Exists_nil|].
  cbn [map any_match]. rewrite createTapFilter_condition by done. destruct (condition_filter e v He) as (f & m & -> & -> & Hm).
  destruct m; [exists true; split; [done|]; rewrite Exists_cons; tauto|].
  destruct IH as (b & -> & Hb). exists b. split; [done|]. rewrite Exists_cons, Hb. split; [tauto|]. intros [Hs%Hm|]; done.
Qed.
End filters.

(** ** Properties *)

(** C33: a configuration decides which traffic of a process is filtered.  The flags
    [applyFilters] returns, once the configuration is loaded, are those of the first
    configured filter that is valid and matches the executable, by equality, prefix,
    suffix (also without a strategy) or containment up to case, or as a regular
    expression; without one, those of the first filter of the named groups that selects
    the process by executable or pid; and none otherwise.  The flags of a configured
    filter are the levels it names, or all of them when it names none. *)
Theorem first_filter_decides {H : Host} custom groups v tf level :
  config_flags custom groups v (applyFilters (load_filters custom groups) v)
  /\ (level ∈ [FilterLevel_DATA; FilterLevel_DNS; FilterLevel_TLS; FilterLevel_HTTP] ->
      Z.land (Pack tf) (Resolve level) <> 0 <-> tf_Only tf = [] \/ level ∈ tf_Only tf).
Proof. split; [apply load_flags, applyFilters_first|apply Pack_level]. Qed.

(** C34: the variable [QPOINT_STRATEGY] is read as it is written.  The name of a strategy
    alone gives the number the probes know it by, and an unknown name that of observing.
    With conditions after it, each written with or without [exe.] and asking for equality,
    a prefix, a suffix, containment or a regular expression, the strategy is taken exactly
    when one of them holds for the executable, and the process is only observed
    otherwise. *)
Theorem strategy_read {H : Host} strat es v :
  lacks ","%char strat -> Forall condition_ok es ->
  QpointStrategyFromString strat v = Some (strategy_number strat)
  /\ (es <> [] -> exists b, QpointStrategyFromString (strat +:+ "," +:+ join (map condition es)) v
        = Some (if b : bool then strategy_number strat else QP_OBSERVE)
      /\ (b = true <-> Exists (satisfied v) es)).
Proof.
  intros Hs Hes. unfold QpointStrategyFromString. rewrite strategy_named_number. split; [by rewrite Cut_none|]. intros Hne.
  change (strat +:+ "," +:+ join (map condition es)) with (strat +:+ String ","%char (join (map condition es))). rewrite Cut_lacks by done.
  rewrite strategy_named_number, Split_join.
  - destruct (any_match_conditions es v Hes) as (b & -> & Hb). exists b. split; [by destruct b|done].
  - by destruct es.
  - apply Forall_map. eapply Forall_impl; [exact Hes|]. intros [exe kind pattern] [Hk Hp]. cbn in *.
    rewrite !elem_of_cons, elem_of_nil in Hk. destruct Hk as [[->|[->|[->|[->|[]]]]]|[-> _]]; destruct exe; cbn; split_and!; done.
Qed.

(** ** Examples *)

Definition demo_lower (c : Ascii.ascii) : Ascii.ascii :=
  let n := Ascii.N_of_ascii c in if ((65 <=? n) && (n <=? 90))%N then Ascii.ascii_of_N (n + 32) else c.
Fixpoint demo_ToLower (s : string) : string :=
  match s with EmptyString => "" | String c s' => String (demo_lower c) (demo_ToLower s') end.

(** Expressions without special characters. *)
Definition demo_host : Host :=
  {| ToLower := demo_ToLower; regexp := string; regexp_Compile := Some; MatchString re s := Contains s re; Getpid := 1 |}.

(** Forwarded are the programs named curl, and the scripts of one directory. *)
Lemma strategy_read_witness :
  @QpointStrategyFromString demo_host "forward,exe.suffix:/CURL,prefix:/opt/scripts/" ((NewProcess 7 "") <| Exe := "/usr/bin/curl" |>)
  = Some 3.
Proof.
  destruct (@strategy_read demo_host "forward" [Cond true "suffix" "/CURL"; Cond false "prefix" "/opt/scripts/"]
    ((NewProcess 7 "") <| Exe := "/usr/bin/curl" |>)) as [_ A].
  - vm_compute. split_and!; done.
  - rewrite !Forall_cons, Forall_nil. split_and!; [| |done]; (split; [left; vm_compute; by repeat constructor|vm_compute; split_and!; done]).
  - destruct A as (b & Hs & Hb); [done|]. assert (b = true) as ->; [|exact Hs].
    apply Hb, Exists_cons_hd. split; [done|]. split; [done|]. right. right. left. split; [by left|]. by exists "/usr/bin".
Defined.

(** A filter that names TLS alone keeps DNS. *)
Lemma first_filter_decides_witness :
  let tf := MkTapFilter "curl" "suffix" [FilterLevel_TLS] in
  Z.land (Pack tf) (Resolve FilterLevel_TLS) <> 0
  /\ @config_flags demo_host [tf] [] ((NewProcess 7 "") <| Exe := "/usr/bin/curl" |>) (Pack tf).
Proof.
  intros tf. destruct (@first_filter_decides demo_host [tf] [] ((NewProcess 7 "") <| Exe := "/usr/bin/curl" |>) tf FilterLevel_TLS) as [A B].
  split; [|exact A]. apply B; [by right; right; left|]. right. by left.
Defined.
