(* ===== verification/ProcManager.v ===== *)
(** * The process manager of the agent

    [pkg/process/manager.go], [process.go], [reader.go] and [ebpf.go]: the agent reads
    the exec and exit events of the probes, keeps an object for each process, and
    writes what the probes have to know of it into [process_meta_map].

    Objects are shared: the registry, the cache of running execs and the observers hold
    pointers to the same [Process], so objects live in a heap and a pointer is its index.
    The kernel's maps are the field [kernel] of the state.  What [/proc] answers is an
    argument of each operation that reads it ([procfs]); the cache is [golang-lru]
    ([Lru]).  Calls of observers and deliveries to waiters, which run in goroutines of
    their own, are collected in [notices].  Metrics and tracing are left out. *)

From stdpp Require Import base numbers list gmap strings pretty.
From Stdlib Require Import Ascii.
From S2P Require Import Prelude Tap Bpf Process Reader ProcFilter.

(** [lru.Cache[int32, *Process]]; [Get] and [Add] make the key the most recent. *)
Class Lru := {
  lru : Type;
  lru_New : lru;
  lru_Add : Z -> nat -> lru -> lru;
  lru_Get : Z -> lru -> option nat * lru;
  lru_Remove : Z -> lru -> lru }.

(** What a process finds in [/proc], [None] for an error.  [Stat] gives the inode and
    the device of a path. *)
Record procfs := MkProcfs {
  Executable : Z -> option string;
  Cgroups : Z -> option (list string);
  Stat : string -> option (Z * Z);
  Environ : Z -> option (list string) }.

(** [ProcessStarted], [ProcessReplaced] and [ProcessStopped] of every observer, and a
    process sent to a waiter. *)
Inductive notice :=
| Started (p : nat)
| Replaced (p : nat)
| Stopped (p : nat)
| Discovered (waiter p : nat).

(** ** The two expressions for the cgroup *)

Definition is_word (c : ascii) : bool :=
  let n := N_of_ascii c in
  ((48 <=? n) && (n <=? 57) || (65 <=? n) && (n <=? 90) || (97 <=? n) && (n <=? 122) || (n =? 95))%N.
Definition is_hex (c : ascii) : bool :=
  let n := N_of_ascii c in ((48 <=? n) && (n <=? 57) || (97 <=? n) && (n <=? 102))%N.
Definition is_dash (c : ascii) : bool := Ascii.eqb c "-"%char || Ascii.eqb c "_"%char.

(** The characters of [s] that match [pattern], which ends in a word character, when
    what follows them is not one. *)
Fixpoint match_here (pattern : list (ascii -> bool)) (s : string) : option string :=
  match pattern, s with
  | [], EmptyString => Some ""
  | [], String c _ => if is_word c then None else Some ""
  | _ :: _, EmptyString => None
  | f :: pattern', String c s' => if f c then String c <$> match_here pattern' s' else None
  end.

(** The leftmost match; with [bounded], one that does not follow a word character. *)
Fixpoint match_first (bounded prev : bool) (pattern : list (ascii -> bool)) (s : string) : option string :=
  let rest := match s with EmptyString => None | String c s' => match_first bounded (is_word c) pattern s' end in
  if bounded && prev then rest
  else match match_here pattern s with Some m => Some m | None => rest end.

(** [(\b[0-9a-f]{64}\b)] *)
Definition containerRe (s : string) : option string := match_first true false (replicate 64 is_hex) s.

(** [pod([0-9a-f]{8}[-_][0-9a-f]{4}[-_][0-9a-f]{4}[-_][0-9a-f]{4}[-_][0-9a-f]{12}\b)],
    without its first three characters. *)
Definition podRe (s : string) : option string :=
  let m := match_first false false
    (map Ascii.eqb ["p"; "o"; "d"]%char ++ replicate 8 is_hex ++ [is_dash] ++ replicate 4 is_hex ++ [is_dash]
     ++ replicate 4 is_hex ++ [is_dash] ++ replicate 4 is_hex ++ [is_dash] ++ replicate 12 is_hex) s in
  (fun m => String.substring 3 36 m) <$> m.

Fixpoint dashes (s : string) : string :=
  match s with EmptyString => "" | String c s' => String (if Ascii.eqb c "_" then "-"%char else c) (dashes s') end.

(** [filepath.Base]: the last element, without trailing slashes. *)
Definition Base (path : string) : string :=
  if String.eqb path "" then "."
  else default "/" (last (filter (fun s => s <> "") (Split path "/"%char))).

(** The container and the pod that one level of the cgroup names. *)
Definition identify (p : Process) (namespace : string) : Process :=
  let p :=
    if String.eqb (ContainerID p) "" then
      match containerRe namespace with Some m => p <| ContainerID := String.substring 0 12 m |> | None => p end
    else p in
  if String.eqb (PodID p) "" then
    match podRe namespace with Some m => p <| PodID := dashes m |> | None => p end
  else p.

Definition find_container (p : Process) : Process :=
  if String.eqb (ContainerID p) "" then
    let p := foldl identify p (rev (Split (Cgroup p) "/"%char)) in
    if String.eqb (ContainerID p) "" then p <| ContainerID := "root" |> else p
  else p.

(** The variables of the environment that are masked, the last one of a name. *)
Definition masked_env (envMask : gmap string bool) (env : list string) : gmap string string :=
  foldl (fun e envVar =>
    match Cut envVar "="%char with
    | Some (k, v) => if bool_decide (is_Some (envMask !! k)) then <[k := v]> e else e
    | None => e
    end) ∅ env.

Section manager.
Context {H : Host} {L : Lru}.

(** ** State *)

(** [Manager], the event source it is registered with, and the package's [filters]. *)
Record Manager := MkManager {
  heap : list Process;
  cache : lru;
  procs : gmap Z nat;
  filters : list Filter;
  envMask : gmap string bool;
  m_envTags : list Tag;
  processWaiters : gmap Z (list nat);
  notices : list notice;
  kernel : world }.
#[export] Instance Manager_settable : Settable Manager :=
  fun m => MkManager (heap m) (cache m) (procs m) (filters m) (envMask m) (m_envTags m) (processWaiters m) (notices m) (kernel m).

Definition NewProcessManager (w : world) : Manager := MkManager [] lru_New ∅ [] ∅ [] ∅ [] w.

Definition object (s : Manager) (p : nat) : Process := default (NewProcess 0 "") (heap s !! p).

Definition deref (p : nat) : M Manager Process := gets (fun s => object s p).
Definition assign (p : nat) (f : Process -> Process) : M Manager unit := modify (fun s => s <| heap ::= alter f p |>).
Definition new_object (v : Process) : M Manager nat := fun s => (length (heap s), s <| heap ::= fun h => h ++ [v] |>).
Definition in_kernel {A} (m : M world A) : M Manager A := fun s => ((m (kernel s)).1, s <| kernel := (m (kernel s)).2 |>).
Definition notice_all (ns : list notice) : M Manager unit := modify (fun s => s <| notices ::= fun l => l ++ ns |>).

(** ** [ebpf.go] and [process.go] *)

(** What the probes read of a process; the identifier of its container follows it. *)
Definition process_meta_of (p : Process) : process_meta := ProcessMeta (RootID p) (Strategy p) (p_filter p) (tlsOk p).

(** Whether there is no error; that of a delete is only logged. *)
Definition SetMeta (p : nat) : M Manager bool :=
  let* v := deref p in
  if exited v then let* _ := in_kernel (bpf_map_delete_elem process_meta_map (u32 (Pid v))) in ret true
  else let* r := in_kernel (bpf_map_update_elem process_meta_map (u32 (Pid v)) (process_meta_of v)) in ret (r =? 0).

(** [if p.notifier != nil { p.notifier() }] *)
Definition notify (p : nat) : M Manager bool :=
  let* v := deref p in if notifier v then SetMeta p else ret true.

Definition getRootID (fs : procfs) (root : string) : option Z :=
  match Stat fs root with
  | None => None
  | Some (ino, dev) => Some (Z.lor (u64 (Z.shiftl dev 32)) (Z.land ino 0xFFFFFFFF))
  end.

(** The last part: the strategy and the notification. *)
Definition discover_strategy (p : nat) : M Manager bool :=
  let* v := deref p in
  assign p (fun q => q <| Strategy :=
    default StrategyObserve (QpointStrategyFromString (default "" (Environment v !! "QPOINT_STRATEGY")) v) |>) ;;
  notify p.

Definition discover_env (fs : procfs) (p : nat) : M Manager bool :=
  let* v := deref p in
  if bool_decide (Environment v = ∅) then
    match Environ fs (Pid v) with
    | None => ret false
    | Some env =>
        let* mask := gets envMask in
        assign p (fun q => q <| Environment := masked_env mask env |>) ;; discover_strategy p
    end
  else discover_strategy p.

Definition discover_root (fs : procfs) (p : nat) : M Manager bool :=
  let* v := deref p in
  if RootID v =? 0 then
    match getRootID fs (Root v) with
    | None => ret false
    | Some rootID => assign p (fun q => q <| RootID := rootID |>) ;; discover_env fs p
    end
  else discover_env fs p.

Definition discover_cgroup (fs : procfs) (p : nat) : M Manager bool :=
  let* v := deref p in
  if String.eqb (Cgroup v) "" then
    match Cgroups fs (Pid v) with
    | None => ret false
    | Some cgroups =>
        assign p (fun q => find_container (match cgroups with c :: _ => q <| Cgroup := c |> | [] => q end)) ;;
        discover_root fs p
    end
  else assign p find_container ;; discover_root fs p.

Definition Discover (fs : procfs) (p : nat) : M Manager bool :=
  let* v := deref p in
  match Executable fs (Pid v) with
  | None => ret false
  | Some exe =>
      let* fl := gets filters in
      assign p (fun q =>
        let q := q <| Exe := exe |> in
        let q := q <| p_filter := applyFilters fl q |> in
        let q := q <| Binary := Base exe |> in
        if String.eqb (Root q) "" then q <| Root := "/proc/" +:+ pretty (Pid q) +:+ "/root" |> else q) ;;
      discover_cgroup fs p
  end.

Definition SetTlsOk (p : nat) (ok : bool) : M Manager bool :=
  let* v := deref p in
  if Bool.eqb (tlsOk v) ok then ret true
  else assign p (fun q => q <| tlsOk := ok |>) ;; notify p.

Definition Close (p : nat) : M Manager bool := assign p (fun q => q <| exited := true |>) ;; notify p.

(** ** [manager.go] *)

(** The registered object of a pid, [None] for nil. *)
Definition Get (pid : Z) : M Manager (option nat) := gets (fun s => procs s !! pid).

Definition Await (pid : Z) (waiter : nat) : M Manager (option nat) :=
  let* p := Get pid in
  match p with
  | Some p => ret (Some p)
  | None =>
      modify (fun s => s <| processWaiters ::= partial_alter (fun ws => Some (default [] ws ++ [waiter])) pid |>) ;; ret None
  end.

Definition MaskEnvVars (envVars : list string) : M Manager unit :=
  modify (fun s => s <| envMask ::= fun mask => foldl (fun mask v => <[v := true]> mask) mask envVars |>).

(** The end of [addProc], under the lock of the registry. *)
Definition register (p : nat) (procChanged : bool) : M Manager unit :=
  let* v := deref p in
  modify (fun s => s <| procs ::= <[Pid v := p]> |>) ;;
  let* waiters := gets (fun s => processWaiters s !! Pid v) in
  match waiters with
  | Some ws =>
      modify (fun s => s <| processWaiters ::= delete (Pid v) |>) ;; notice_all (map (fun w => Discovered w p) ws)
  | None => ret tt
  end ;;
  notice_all [if procChanged then Replaced p else Started p].

Definition addProc (fs : procfs) (p : nat) : M Manager unit :=
  let* tags := gets m_envTags in
  assign p (fun q => q <| envTags := tags |>) ;;
  let* v := deref p in
  let* existing := Get (Pid v) in
  match existing with
  | Some proc =>
      let* old := deref proc in
      let procChanged := negb (String.eqb (Exe v) (Exe old)) || negb (String.eqb (Binary v) (Binary old))
                         || negb (bool_decide (Args v = Args old)) in
      assign proc (fun q => q <| Args := Args v |>) ;;
      let* ok := Discover fs proc in
      if ok then register proc procChanged else ret tt
  | None =>
      let* ok := Discover fs p in
      if ok then register p false else ret tt
  end.

Definition RegisterProcess (fs : procfs) (p : nat) : M Manager unit := addProc fs p.

Definition removeProc (p : nat) : M Manager unit :=
  let* _ := Close p in
  notice_all [Stopped p] ;;
  let* v := deref p in
  modify (fun s => s <| procs ::= delete (Pid v) |>).

Definition UnregisterProcess (pid exitCode : Z) : M Manager unit :=
  let* proc := Get pid in
  match proc with
  | None => ret tt
  | Some p => assign p (fun q => q <| ExitCode := exitCode |>) ;; removeProc p
  end.

(** The part of the configuration the manager reads: the tags, and the custom filters
    and the groups of the [tap] section. *)
Record Config := MkConfig { c_Tags : list Tag; c_Tap : option (list TapFilter * list string) }.

(** One registered process, when the filters have changed. *)
Definition refilter (p : nat) : M Manager unit :=
  let* fl := gets filters in
  let* v := deref p in
  let f := applyFilters fl v in
  if negb (f =? 0) then assign p (fun q => q <| p_filter := f |>) ;; let* _ := notify p in ret tt else ret tt.

Fixpoint each {A} (f : A -> M Manager unit) (l : list A) : M Manager unit :=
  match l with [] => ret tt | a :: l' => f a ;; each f l' end.

Definition updateFilters (cfg : Config) : M Manager unit :=
  match c_Tap cfg with
  | None => ret tt
  | Some (custom, groups) =>
      modify (fun s => s <| filters := load_filters custom groups |>) ;;
      let* ps := gets (fun s => map snd (map_to_list (procs s))) in
      each refilter ps
  end.

Definition SetConfig (cfg : option Config) : M Manager unit :=
  modify (fun s => s <| envMask ::= fun mask => foldl (fun mask tag => delete (Key tag) mask) mask (m_envTags s) |>) ;;
  match cfg with
  | None => ret tt
  | Some cfg =>
      modify (fun s =>
        s <| envMask ::= fun mask =>
               foldl (fun mask tag => if String.eqb (Source tag) "env" then <[Location tag := true]> mask else mask) mask (c_Tags cfg) |>
          <| m_envTags := c_Tags cfg |>) ;;
      updateFilters cfg
  end.

(** [preloadProcs] on the objects of the processes found in [/proc]; [false] for an error. *)
Fixpoint preload (fs : procfs) (snap : list nat) : M Manager bool :=
  match snap with
  | [] => ret true
  | p :: snap' =>
      let* v := deref p in
      let* existing := Get (Pid v) in
      match existing with
      | Some _ => preload fs snap'
      | None =>
          assign p (fun q => q <| PredatesQpoint := true |>) ;;
          addProc fs p ;;
          let* ok := SetMeta p in
          if ok then preload fs snap' else ret false
      end
  end.

(** [AllProcesses], for the pids that are not kernel threads. *)
Fixpoint AllProcesses (pids : list Z) : M Manager (list nat) :=
  match pids with
  | [] => ret []
  | pid :: pids' =>
      let* p := new_object (NewProcess pid "") in
      let* ps := AllProcesses pids' in
      ret (p :: ps)
  end.

Definition preloadProcs (fs : procfs) (pids : list Z) : M Manager bool :=
  let* snap := AllProcesses pids in preload fs snap.

(** Up to the start of the event source. *)
Definition Start (fs : procfs) (pids : list Z) : M Manager bool :=
  MaskEnvVars ["QPOINT_STRATEGY"; "QPOINT_TAGS"] ;; preloadProcs fs pids.

(** ** [reader.go] *)

(** A pid and a 32-bit number, the fields of the start, argument and exit events. *)
Definition read_pair (bs : list Z) : Z * Z := let '(pid, bs) := int32_ bs in (pid, (uint 4 bs).1).

(** A size is one more than that of the string; the subtraction is at 32 bits. *)
Definition handleExecStartEvent (r : list Z) : M Manager unit :=
  match binary_Read 8 read_pair r with
  | None => ret tt
  | Some ((pid, exeSize), r) =>
      let exe := if exeSize >? 0 then reader_Read (Z.to_nat (u32 (exeSize - 1))) r else Some [] in
      match exe with
      | None => ret tt
      | Some exe =>
          let* p := new_object ((NewProcess pid (string_of_bytes exe)) <| notifier := true |>) in
          modify (fun s => s <| cache ::= lru_Add pid p |>)
      end
  end.

Definition cache_Get (pid : Z) : M Manager (option nat) :=
  fun s => ((lru_Get pid (cache s)).1, s <| cache := (lru_Get pid (cache s)).2 |>).

Definition handleExecArgvEvent (r : list Z) : M Manager unit :=
  match binary_Read 8 read_pair r with
  | None => ret tt
  | Some ((pid, argvSize), r) =>
      match reader_Read (Z.to_nat (u32 (argvSize - 1))) r with
      | None => ret tt
      | Some argv =>
          let* p := cache_Get pid in
          match p with
          | None => ret tt
          | Some p =>
              assign p (fun q => q <| Args ::= fun args => args ++ [string_of_bytes argv] |>) ;;
              modify (fun s => s <| cache ::= lru_Add pid p |>)
          end
      end
  end.

Definition handleExecEndEvent (fs : procfs) (r : list Z) : M Manager unit :=
  match binary_Read 4 (fun bs => (int32_ bs).1) r with
  | None => ret tt
  | Some (pid, _) =>
      let* p := cache_Get pid in
      match p with
      | None => ret tt
      | Some p => RegisterProcess fs p ;; modify (fun s => s <| cache ::= lru_Remove pid |>)
      end
  end.

Definition handleExitEvent (r : list Z) : M Manager unit :=
  match binary_Read 8 read_pair r with
  | None => ret tt
  | Some ((pid, exitCode), _) => UnregisterProcess pid (s32 exitCode)
  end.

Definition EVENT_EXEC_START : Z := 1.
Definition EVENT_EXEC_ARGV : Z := 2.
Definition EVENT_EXEC_END : Z := 3.
Definition EVENT_EXIT : Z := 4.

Definition readProcEvent (fs : procfs) (RawSample : list Z) : M Manager unit :=
  match binary_Read 8 (fun bs => (uint 8 bs).1) RawSample with
  | None => ret tt
  | Some (type, r) =>
      if type =? EVENT_EXEC_START then handleExecStartEvent r
      else if type =? EVENT_EXEC_ARGV then handleExecArgvEvent r
      else if type =? EVENT_EXEC_END then handleExecEndEvent fs r
      else if type =? EVENT_EXIT then handleExitEvent r
      else ret tt
  end.

End manager.
