(* ===== verification/ProcSpec.v ===== *)
(** * What the probes know of processes

    Theorems about the process manager (ProcManager): its operations as steps of one
    state, the invariant that ties the metadata in the kernel to the registered objects,
    and what breaks the tie. *)

From stdpp Require Import base numbers list gmap strings pretty.
From Stdlib Require Import Ascii.
From S2P Require Import Prelude Tap Bpf Process Reader Wire ProcFilter ProcFilterSpec ProcManager.

(** The documented behaviour of [golang-lru]: the cache is a map of at most 1024 entries;
    a new key may evict another one, only when the cache is full. *)
Class LruLaws (L : Lru) := {
  contents : lru -> gmap Z nat;
  contents_New : contents lru_New = ∅;
  contents_Get k c : (lru_Get k c).1 = contents c !! k;
  contents_Get_same k c : contents (lru_Get k c).2 = contents c;
  contents_Remove k c : contents (lru_Remove k c) = delete k (contents c);
  contents_Add k v c : contents (lru_Add k v c) !! k = Some v;
  contents_Add_sub k v c : contents (lru_Add k v c) ⊆ <[k := v]> (contents c);
  contents_Add_room k v c :
    (size (contents c) < 1024)%nat -> contents (lru_Add k v c) = <[k := v]> (contents c) }.

Definition int32 (x : Z) : Prop := - 2 ^ 31 <= x < 2 ^ 31.

Lemma u32_inj x y : int32 x -> int32 y -> u32 x = u32 y -> x = y.
Proof.
  unfold int32, u32. intros Hx Hy E. apply Z.cong_iff_0 in E.
  apply Z.mod_divide in E as [k E]; lia.
Qed.

(** ** The environment *)

(** The last entry of a variable in an environment, and nothing without one. *)
Definition env_says (env : list string) (name value : string) : Prop :=
  let other e := String.prefix (name +:+ "=") e = false in
  (exists pre post, env = pre ++ (name +:+ "=" +:+ value) :: post /\ Forall other post)
  \/ (Forall other env /\ value = "").

Lemma masked_env_snoc mask env e : masked_env mask (env ++ [e]) =
  match Cut e "="%char with
  | Some (k, v) => if bool_decide (is_Some (mask !! k)) then <[k := v]> (masked_env mask env) else masked_env mask env
  | None => masked_env mask env
  end.
Proof. unfold masked_env. by rewrite foldl_app. Qed.

Lemma masked_env_other mask env post name :
  Forall (fun e => String.prefix (name +:+ "=") e = false) post ->
  masked_env mask (env ++ post) !! name = masked_env mask env !! name.
Proof.
  induction post as [|e post IH] using rev_ind; [by rewrite app_nil_r|]. intros [Hp He]%Forall_app.
  rewrite Forall_singleton in He. rewrite app_assoc, masked_env_snoc. destruct (Cut e "="%char) as [[k v]|] eqn:Hc; [|by apply IH].
  destruct (bool_decide _); [|by apply IH]. rewrite lookup_insert_ne; [by apply IH|]. intros ->.
  apply Cut_some in Hc as ->. rewrite (proj2 (prefix_spec _ _)) in He; [done|]. exists v. by rewrite append_assoc.
Qed.

Lemma masked_env_says mask env name value :
  lacks "="%char name -> is_Some (mask !! name) -> env_says env name value -> default "" (masked_env mask env !! name) = value.
Proof.
  intros Hn Hm [(pre & post & -> & Hp)|[Hp ->]].
  - rewrite cons_middle, app_assoc, masked_env_other, masked_env_snoc by done.
    change (name +:+ "=" +:+ value) with (name +:+ String "=" value). rewrite Cut_lacks, bool_decide_true by done.
    by rewrite lookup_insert_eq.
  - by rewrite <- (app_nil_l env), (masked_env_other mask [] env name Hp).
Qed.

Section spec.
Context {H : Host} {L : Lru} {LL : LruLaws L}.

Definition meta (s : Manager) : gmap Z process_meta := f_process_meta (w_proc (kernel s)).

(** ** Objects *)

Definition set_obj (p : nat) (v : Process) (s : Manager) : Manager := s <| heap ::= <[p := v]> |>.
Definition set_meta (k : Z) (v : option process_meta) (s : Manager) : Manager :=
  s <| kernel ::= fun w => w <| w_proc ::= fun pr => pr <| f_process_meta ::= partial_alter (fun _ => v) k |> |> |>.

Lemma meta_set_eq k v s : meta (set_meta k v s) !! k = v.
Proof. exact (lookup_partial_alter_eq (fun _ => v) (meta s) k). Qed.

Lemma meta_set_ne k k' v s : k' <> k -> meta (set_meta k v s) !! k' = meta s !! k'.
Proof. intros Hne. exact (lookup_partial_alter_ne (fun _ => v) (meta s) k k' (not_eq_sym Hne)). Qed.

Lemma heap_set p v s : heap (set_obj p v s) = <[p := v]> (heap s).
Proof. done. Qed.

Lemma object_heap s p v : heap s !! p = Some v -> object s p = v.
Proof. unfold object. by intros ->. Qed.

Lemma heap_object s p : (p <? length (heap s))%nat = true -> heap s !! p = Some (object s p).
Proof. rewrite Nat.ltb_lt, <- lookup_lt_is_Some. intros [v Hv]. by rewrite (object_heap s p v). Qed.

Lemma set_obj_heap s p v v' : heap s !! p = Some v -> heap (set_obj p v' s) !! p = Some v'.
Proof. intros Hp. cbn. apply list_lookup_insert_eq. by eapply lookup_lt_Some. Qed.

Lemma set_obj_ne s p v q : q <> p -> heap (set_obj p v s) !! q = heap s !! q.
Proof. intros. cbn. by apply list_lookup_insert_ne. Qed.

Lemma set_set p v v' s : set_obj p v' (set_obj p v s) = set_obj p v' s.
Proof. destruct s. unfold set_obj, over. cbn. by rewrite list_insert_insert_eq. Qed.

Lemma deref_eq s p v : heap s !! p = Some v -> deref p s = (v, s).
Proof. intros Hp. unfold deref, gets. by rewrite (object_heap s p v). Qed.

Lemma assign_eq s p v f : heap s !! p = Some v -> assign p f s = (tt, set_obj p (f v) s).
Proof.
  intros Hp. unfold assign, modify, set_obj, over. f_equal. cbn. f_equal. apply list_eq. intros i.
  destruct (decide (i = p)) as [->|].
  - rewrite list_lookup_alter_eq, Hp. symmetry. apply list_lookup_insert_eq. by eapply lookup_lt_Some.
  - by rewrite list_lookup_alter_ne, list_lookup_insert_ne.
Qed.

(** ** Metadata *)

Definition roomy (s : Manager) (k : Z) : Prop := has_room 5000 k (meta s).
#[local] Instance roomy_dec s k : Decision (roomy s k).
Proof. unfold roomy, has_room. apply _. Defined.

Lemma SetMeta_eq s p v : heap s !! p = Some v ->
  SetMeta p s =
    if exited v then (true, set_meta (u32 (Pid v)) None s)
    else if decide (roomy s (u32 (Pid v))) then (true, set_meta (u32 (Pid v)) (Some (process_meta_of v)) s)
    else (false, s).
Proof.
  intros Hp. unfold SetMeta, bind at 1. rewrite (deref_eq s p v Hp). cbn [fst snd].
  destruct (exited v); [done|]. unfold bind, in_kernel, bpf_map_update_elem. cbn [bm_lru process_meta_map].
  change (bm_get process_meta_map (kernel s)) with (meta s). change (bm_max process_meta_map) with 5000.
  case_decide as Hr; [by rewrite hash_update_room|]. rewrite hash_update_full by done. cbn.
  unfold over. cbn. by destruct s as [????????[????[]]].
Qed.

Lemma notify_eq s p v : heap s !! p = Some v -> notify p s = if notifier v then SetMeta p s else (true, s).
Proof. intros Hp. unfold notify, bind. rewrite (deref_eq s p v Hp). cbn [fst snd]. by destruct (notifier v). Qed.

(** ** Discovery, as a function of the object *)

Definition with_strategy (v : Process) : Process :=
  v <| Strategy := default StrategyObserve (QpointStrategyFromString (default "" (Environment v !! "QPOINT_STRATEGY")) v) |>.

Definition with_env (fs : procfs) (mask : gmap string bool) (v : Process) : Process * bool :=
  if bool_decide (Environment v = ∅) then
    match Environ fs (Pid v) with
    | None => (v, false)
    | Some env => (with_strategy (v <| Environment := masked_env mask env |>), true)
    end
  else (with_strategy v, true).

Definition with_root (fs : procfs) (mask : gmap string bool) (v : Process) : Process * bool :=
  if RootID v =? 0 then
    match getRootID fs (Root v) with
    | None => (v, false)
    | Some rootID => with_env fs mask (v <| RootID := rootID |>)
    end
  else with_env fs mask v.

Definition with_cgroup (fs : procfs) (mask : gmap string bool) (v : Process) : Process * bool :=
  if String.eqb (Cgroup v) "" then
    match Cgroups fs (Pid v) with
    | None => (v, false)
    | Some cgroups => with_root fs mask (find_container (match cgroups with c :: _ => v <| Cgroup := c |> | [] => v end))
    end
  else with_root fs mask (find_container v).

Definition with_exe (fl : list Filter) (exe : string) (q : Process) : Process :=
  let q := q <| Exe := exe |> in
  let q := q <| p_filter := applyFilters fl q |> in
  let q := q <| Binary := Base exe |> in
  if String.eqb (Root q) "" then q <| Root := "/proc/" +:+ pretty (Pid q) +:+ "/root" |> else q.

Definition discovered (fs : procfs) (fl : list Filter) (mask : gmap string bool) (v : Process) : Process * bool :=
  match Executable fs (Pid v) with
  | None => (v, false)
  | Some exe => with_cgroup fs mask (with_exe fl exe v)
  end.

(** Store the object, and notify when all of [/proc] answered. *)
Definition settle (p : nat) (r : Process * bool) (s : Manager) : bool * Manager :=
  if r.2 then notify p (set_obj p r.1 s) else (false, set_obj p r.1 s).

Lemma settle_same p v s b : heap s !! p = Some v -> settle p (v, b) s = if b then notify p s else (false, s).
Proof.
  intros Hp. unfold settle. cbn [fst snd]. assert (set_obj p v s = s) as ->; [|done].
  destruct s. unfold set_obj, over. cbn in *. by rewrite list_insert_id.
Qed.

Lemma settle_set p v r s : settle p r (set_obj p v s) = settle p r s.
Proof. unfold settle. by rewrite !set_set. Qed.

Lemma discover_strategy_eq s p v : heap s !! p = Some v -> discover_strategy p s = settle p (with_strategy v, true) s.
Proof.
  intros Hp. unfold discover_strategy, bind. rewrite (deref_eq s p v Hp). cbn [fst snd]. by rewrite (assign_eq s p v _ Hp).
Qed.

Lemma discover_env_eq fs s p v : heap s !! p = Some v -> discover_env fs p s = settle p (with_env fs (envMask s) v) s.
Proof.
  intros Hp. unfold discover_env, bind at 1. rewrite (deref_eq s p v Hp). cbn [fst snd]. unfold with_env.
  destruct (bool_decide _); [|by apply discover_strategy_eq]. destruct (Environ fs (Pid v)); [|by rewrite (settle_same p v)].
  unfold bind, gets. cbn [fst snd]. rewrite (assign_eq s p v _ Hp). cbn [fst snd].
  rewrite (discover_strategy_eq _ p _ (set_obj_heap s p v _ Hp)). apply settle_set.
Qed.

Lemma discover_root_eq fs s p v : heap s !! p = Some v -> discover_root fs p s = settle p (with_root fs (envMask s) v) s.
Proof.
  intros Hp. unfold discover_root, bind at 1. rewrite (deref_eq s p v Hp). cbn [fst snd]. unfold with_root.
  destruct (_ =? 0); [|by apply discover_env_eq]. destruct (getRootID _ _); [|by rewrite (settle_same p v)].
  unfold bind. rewrite (assign_eq s p v _ Hp). cbn [fst snd].
  rewrite (discover_env_eq _ _ p _ (set_obj_heap s p v _ Hp)). apply settle_set.
Qed.

Lemma discover_cgroup_eq fs s p v : heap s !! p = Some v -> discover_cgroup fs p s = settle p (with_cgroup fs (envMask s) v) s.
Proof.
  intros Hp. unfold discover_cgroup, bind at 1. rewrite (deref_eq s p v Hp). cbn [fst snd]. unfold with_cgroup.
  destruct (String.eqb _ _).
  - destruct (Cgroups _ _); [|by rewrite (settle_same p v)]. unfold bind. rewrite (assign_eq s p v _ Hp). cbn [fst snd].
    rewrite (discover_root_eq _ _ p _ (set_obj_heap s p v _ Hp)). apply settle_set.
  - unfold bind. rewrite (assign_eq s p v _ Hp). cbn [fst snd].
    rewrite (discover_root_eq _ _ p _ (set_obj_heap s p v _ Hp)). apply settle_set.
Qed.

Lemma Discover_eq fs s p v : heap s !! p = Some v ->
  Discover fs p s = settle p (discovered fs (filters s) (envMask s) v) s.
Proof.
  intros Hp. unfold Discover, bind at 1. rewrite (deref_eq s p v Hp). cbn [fst snd]. unfold discovered.
  destruct (Executable _ _); [|by rewrite (settle_same p v)]. unfold bind, gets. cbn [fst snd].
  rewrite (assign_eq s p v _ Hp). cbn [fst snd].
  rewrite (discover_cgroup_eq _ _ p _ (set_obj_heap s p v _ Hp)). apply settle_set.
Qed.

(** What discovery leaves alone. *)
Definition same_process (v v' : Process) : Prop :=
  Pid v' = Pid v /\ notifier v' = notifier v /\ exited v' = exited v /\ tlsOk v' = tlsOk v /\ Args v' = Args v
  /\ ExeFilename v' = ExeFilename v.

#[local] Instance same_process_trans : Transitive same_process.
Proof. intros v1 v2 v3 (E1 & E2 & E3 & E4 & E5 & E6) (F1 & F2 & F3 & F4 & F5 & F6). split_and!; congruence. Qed.

Lemma identify_same v ns : same_process v (identify v ns) /\ Root (identify v ns) = Root v
  /\ Exe (identify v ns) = Exe v /\ Binary (identify v ns) = Binary v /\ p_filter (identify v ns) = p_filter v
  /\ Environment (identify v ns) = Environment v.
Proof. unfold identify. by repeat case_match. Qed.

Lemma find_container_same v : same_process v (find_container v) /\ Root (find_container v) = Root v
  /\ Exe (find_container v) = Exe v /\ Binary (find_container v) = Binary v /\ p_filter (find_container v) = p_filter v
  /\ Environment (find_container v) = Environment v.
Proof.
  unfold find_container. destruct (String.eqb _ _); [|done].
  assert (forall l q, let q' := foldl identify q l in same_process q q' /\ Root q' = Root q
    /\ Exe q' = Exe q /\ Binary q' = Binary q /\ p_filter q' = p_filter q /\ Environment q' = Environment q) as Hl.
  { induction l as [|ns l IH]; intros q; [done|]. cbn [foldl]. destruct (IH (identify q ns)) as (? & -> & -> & -> & -> & ->).
    destruct (identify_same q ns) as (? & -> & -> & -> & -> & ->). split_and!; [by etrans|done..]. }
  destruct (Hl (rev (Split (Cgroup v) "/"%char)) v) as (? & ? & ? & ? & ? & ?). by destruct (String.eqb _ _).
Qed.

Definition root_of (pid : Z) : string := "/proc/" +:+ pretty pid +:+ "/root".
Definition root_ok (v : Process) : Prop := Root v = "" \/ Root v = root_of (Pid v).

(** What is read of a process that is there. *)
Definition strategy_of (v : Process) : Z :=
  default StrategyObserve (QpointStrategyFromString (default "" (Environment v !! "QPOINT_STRATEGY")) v).

(** The filter and the strategy of a process depend on its pid and executable only. *)
Lemma Evaluate_ext f v v' : Pid v' = Pid v -> Exe v' = Exe v -> Evaluate f v' = Evaluate f v.
Proof. intros E1 E2. destruct f; cbn; by rewrite ?E1, ?E2. Qed.

Lemma applyFilters_ext fl v v' : Pid v' = Pid v -> Exe v' = Exe v -> applyFilters fl v' = applyFilters fl v.
Proof. intros E1 E2. induction fl as [|f fl IH]; cbn; [done|]. by rewrite (Evaluate_ext f v v'), IH. Qed.

Lemma any_match_ext fs v v' : Pid v' = Pid v -> Exe v' = Exe v -> any_match fs v' = any_match fs v.
Proof.
  intros E1 E2. induction fs as [|f fs IH]; cbn; [done|]. destruct (createTapFilter f); [|done].
  destruct (FromConfigFilter _); [|done]. by rewrite (Evaluate_ext _ v v'), IH.
Qed.

Lemma strategy_ext str v v' : Pid v' = Pid v -> Exe v' = Exe v -> QpointStrategyFromString str v' = QpointStrategyFromString str v.
Proof. intros E1 E2. unfold QpointStrategyFromString. destruct (Cut _ _) as [[]|]; [|done]. by rewrite (any_match_ext _ v v'). Qed.

(** The environment of [v'] when [v] was discovered: read unless there was one. *)
Definition env_read (fs : procfs) (mask : gmap string bool) (v v' : Process) : Prop :=
  if decide (Environment v = ∅) then exists env, Environ fs (Pid v) = Some env /\ Environment v' = masked_env mask env
  else Environment v' = Environment v.

(** The outcome of discovery from the object [v] to [r]. *)
Definition found (fs : procfs) (mask : gmap string bool) (v : Process) (r : Process * bool) : Prop :=
  same_process v r.1 /\ Root r.1 = Root v /\ Exe r.1 = Exe v /\ Binary r.1 = Binary v /\ p_filter r.1 = p_filter v
  /\ (r.2 = true -> Strategy r.1 = strategy_of r.1 /\ env_read fs mask v r.1).

Lemma with_env_found fs mask v : found fs mask v (with_env fs mask v).
Proof.
  unfold with_env, found, env_read. destruct (decide (Environment v = ∅)) as [He|He].
  - rewrite bool_decide_true by done. destruct (Environ _ _) as [env|]; cbn; split_and!; try done.
    intros _. split; [unfold strategy_of; cbn; f_equal; by apply strategy_ext|by exists env].
  - rewrite bool_decide_false by done. cbn. split_and!; try done.
    intros _. split; [unfold strategy_of; cbn; f_equal; by apply strategy_ext|done].
Qed.

Lemma found_trans fs mask v v1 r : same_process v v1 -> Root v1 = Root v -> Exe v1 = Exe v -> Binary v1 = Binary v ->
  p_filter v1 = p_filter v -> Environment v1 = Environment v -> found fs mask v1 r -> found fs mask v r.
Proof.
  intros Hs ???? He (? & ? & ? & ? & ? & Hr). unfold found. split_and!; [by etrans|congruence..|].
  unfold env_read in *. rewrite He in Hr. destruct Hs as [<- _]. exact Hr.
Qed.

Lemma with_root_found fs mask v : found fs mask v (with_root fs mask v).
Proof.
  unfold with_root. destruct (_ =? 0); [|apply with_env_found]. destruct (getRootID _ _); [|by split_and!].
  eapply found_trans; [..|apply with_env_found]; done.
Qed.

Lemma with_cgroup_found fs mask v : found fs mask v (with_cgroup fs mask v).
Proof.
  unfold with_cgroup. destruct (String.eqb _ _); [destruct (Cgroups _ _) as [cgroups|]; [|by split_and!]|].
  - destruct (find_container_same (match cgroups with c :: _ => v <| Cgroup := c |> | [] => v end)) as (? & ? & ? & ? & ? & ?).
    eapply found_trans; [..|apply with_root_found]; by destruct cgroups.
  - destruct (find_container_same v) as (? & ? & ? & ? & ? & ?). by eapply found_trans; [..|apply with_root_found].
Qed.

Lemma discovered_same fs fl mask v : root_ok v ->
  let r := discovered fs fl mask v in same_process v r.1 /\ root_ok r.1.
Proof.
  intros Hr. cbv zeta. unfold discovered. destruct (Executable _ _) as [exe|]; [|done].
  destruct (with_cgroup_found fs mask (with_exe fl exe v)) as (Hs & Hr' & _). unfold root_ok in *. rewrite Hr'.
  destruct Hs as (E1 & E2 & E3 & E4 & E5 & E6). rewrite E1. unfold same_process. rewrite E1, E2, E3, E4, E5, E6. unfold with_exe.
  cbv zeta. match goal with |- context [String.eqb ?r ""] => destruct (String.eqb_spec r "") end; (split; [done|]); [by right|exact Hr].
Qed.

Lemma discovered_done fs fl mask v : (discovered fs fl mask v).2 = true ->
  let v' := (discovered fs fl mask v).1 in
  Executable fs (Pid v) = Some (Exe v') /\ Binary v' = Base (Exe v') /\ p_filter v' = applyFilters fl v' /\ Strategy v' = strategy_of v'
  /\ env_read fs mask v v'.
Proof.
  cbv zeta. unfold discovered. destruct (Executable _ _) as [exe|]; [|done]. intros Hd.
  destruct (with_cgroup_found fs mask (with_exe fl exe v)) as ((E & _) & _ & E1 & E2 & E3 & E4).
  destruct (E4 Hd) as [-> Henv]. rewrite E1, E2, E3.
  assert (Exe (with_exe fl exe v) = exe /\ Binary (with_exe fl exe v) = Base exe /\ Pid (with_exe fl exe v) = Pid v
    /\ p_filter (with_exe fl exe v) = applyFilters fl (v <| Exe := exe |>)
    /\ Environment (with_exe fl exe v) = Environment v) as (E5 & -> & E6 & -> & E7).
  { unfold with_exe. by destruct (String.eqb _ _). }
  unfold env_read in *. rewrite E5, E6, E7 in *. split_and!; try done. symmetry. apply applyFilters_ext; cbn; congruence.
Qed.

(** A process of which [/proc] answers everything or not even the executable. *)
Definition steady (fs : procfs) : Prop := forall pid,
  Executable fs pid = None \/ is_Some (Cgroups fs pid) /\ is_Some (Environ fs pid) /\ is_Some (Stat fs (root_of pid)).

Lemma discovered_steady fs fl mask v : steady fs -> root_ok v ->
  (Executable fs (Pid v) = None /\ discovered fs fl mask v = (v, false)) \/ (discovered fs fl mask v).2 = true.
Proof.
  intros Hfs Hr. unfold discovered. destruct (Hfs (Pid v)) as [->|([cg Hc] & [env He] & [st Hst])]; [by left|].
  destruct (Executable fs (Pid v)) as [exe|]; [right|by left].
  assert (Root (with_exe fl exe v) = root_of (Pid v) /\ Pid (with_exe fl exe v) = Pid v) as [Er Ep].
  { unfold with_exe. cbv zeta. match goal with |- context [String.eqb ?r ""] => destruct (String.eqb_spec r "") as [|Hn] end; [done|].
    split; [|done]. by destruct Hr. }
  revert Er Ep. generalize (with_exe fl exe v). intros u Er Ep.
  assert (forall u, Pid u = Pid v -> (with_env fs mask u).2 = true) as Henv.
  { intros q Eq. unfold with_env. rewrite Eq, He. by destruct (bool_decide _). }
  assert (forall u, Pid u = Pid v -> Root u = root_of (Pid v) -> (with_root fs mask u).2 = true) as Hroot.
  { intros q Eq Eq'. unfold with_root, getRootID. rewrite Eq', Hst. destruct st. destruct (_ =? 0); by apply Henv. }
  unfold with_cgroup. rewrite Ep, Hc. destruct (String.eqb _ _); apply Hroot.
  - destruct (find_container_same (match cg with c :: _ => u <| Cgroup := c |> | [] => u end)) as ((-> & _) & _). by destruct cg.
  - destruct (find_container_same (match cg with c :: _ => u <| Cgroup := c |> | [] => u end)) as (_ & -> & _). by destruct cg.
  - by destruct (find_container_same u) as ((-> & _) & _).
  - by destruct (find_container_same u) as (_ & -> & _).
Qed.
End spec.
