(* ===== verification/ProcInv.v ===== *)
(** * The registry and the probes agree

    The operations of the process manager as steps of one state, the invariant that
    ties the metadata in the kernel to the registered objects, and what breaks the
    tie. *)

From stdpp Require Import base numbers list gmap strings pretty.
From S2P Require Import Prelude Tap Bpf Process Reader Wire ProcFilter ProcManager ProcSpec.

(** ** The invariant, on objects, registry, cache and metadata *)

Section invariant.
Context (P : gset Z).

Definition live (v : Process) : Prop := int32 (Pid v) /\ exited v = false /\ root_ok v.

(** An object that was not discovered yet. *)
Definition unread (v : Process) : Prop := Binary v = "" /\ Environment v = ∅.

(** [P] are the processes that were there before the agent.  A registered process has
    an object of its own, with the name of its binary, whose data are in the kernel when
    it has a notifier; only one of [P] has none.  Another process has no data in the
    kernel.  An object of a running exec is not the registered one and not yet read. *)
Record inv (h : list Process) (pr c : gmap Z nat) (m : gmap Z process_meta) : Prop := Inv {
  inv_registered pid p : pr !! pid = Some p -> exists v, h !! p = Some v /\ Pid v = pid /\ live v
    /\ (notifier v = true -> m !! u32 pid = Some (process_meta_of v)) /\ (notifier v = false -> pid ∈ P) /\ Binary v <> "";
  inv_gone pid : int32 pid -> pr !! pid = None -> pid ∉ P -> m !! u32 pid = None;
  inv_cached pid p : c !! pid = Some p -> pr !! pid <> Some p
    /\ exists v, h !! p = Some v /\ Pid v = pid /\ live v /\ notifier v = true /\ unread v }.

Lemma inv_int32 h pr c m pid p : inv h pr c m -> pr !! pid = Some p -> int32 pid.
Proof. intros I Hp. destruct (inv_registered _ _ _ _ I _ _ Hp) as (v & _ & <- & (? & _) & _). done. Qed.

Lemma inv_cache_sub h pr c c' m : inv h pr c m -> c' ⊆ c -> inv h pr c' m.
Proof. intros [I1 I2 I3] Hs. split; [done..|]. intros pid p Hp. apply I3. by eapply lookup_weaken. Qed.

(** A map that differs at the key of one pid only. *)
Definition differs_at (pid : Z) (m m' : gmap Z process_meta) : Prop := forall k, k <> u32 pid -> m' !! k = m !! k.

Lemma differs_other pid pid' m m' : differs_at pid m m' -> int32 pid -> int32 pid' -> pid' <> pid -> m' !! u32 pid' = m !! u32 pid'.
Proof. intros Hd H1 H2 Hne. apply Hd. intros E. by apply Hne, u32_inj. Qed.

(** Another value for a registered object. *)
Lemma inv_set_registered h pr c m m' pid p v v' :
  inv h pr c m -> pr !! pid = Some p -> h !! p = Some v -> Pid v' = pid -> live v' -> notifier v' = notifier v -> Binary v' <> "" ->
  (if notifier v then m' !! u32 pid = Some (process_meta_of v') /\ differs_at pid m m' else m' = m) ->
  inv (<[p := v']> h) pr c m'.
Proof.
  intros I Hp Hv Epid Hl Hn Hb Hm. pose proof (inv_int32 _ _ _ _ _ _ I Hp) as Hi. destruct I as [I1 I2 I3].
  assert (differs_at pid m m') as Hd by (destruct (notifier v); [by destruct Hm|by subst]).
  assert (p < length h)%nat by (by eapply lookup_lt_Some).
  destruct (I1 _ _ Hp) as (v0 & Hv0 & <- & _ & _ & HP & _). simplify_eq. split.
  - intros pid' p' Hp'. destruct (decide (p' = p)) as [->|Hne].
    + destruct (I1 _ _ Hp') as (v1 & Hv1 & <- & _). simplify_eq. exists v'. rewrite list_lookup_insert_eq by done.
      split_and!; try done; rewrite Hn; intros E; rewrite E in *; [by destruct Hm|by auto].
    + rewrite list_lookup_insert_ne by done. destruct (I1 _ _ Hp') as (v1 & ? & ? & Hl1 & Hm1 & ? & ?).
      exists v1. split_and!; try done. intros Hn1. rewrite (differs_other _ pid' _ _ Hd); [by auto|done| |congruence].
      destruct Hl1 as [? _]. congruence.
  - intros pid' H1 H2 H3. rewrite (differs_other _ pid' _ _ Hd); [by auto|done..|congruence].
  - intros pid' p' Hc. destruct (I3 _ _ Hc) as (Hne & v1 & ? & ? & ?). split; [done|]. exists v1.
    rewrite list_lookup_insert_ne; [done|]. intros ->. simplify_eq.
Qed.

(** Another value for an object of a running exec. *)
Lemma inv_set_cached h pr c m pid p v' :
  inv h pr c m -> c !! pid = Some p -> Pid v' = pid -> live v' -> notifier v' = true -> unread v' ->
  inv (<[p := v']> h) pr c m.
Proof.
  intros [I1 I2 I3] Hp Epid Hl Hn Hb. destruct (I3 _ _ Hp) as (Hne & v & Hv & Hpid & _).
  assert (p < length h)%nat by (by eapply lookup_lt_Some). split.
  - intros pid' p' Hp'. destruct (I1 _ _ Hp') as (v1 & ? & ? & ?). exists v1.
    rewrite list_lookup_insert_ne; [done|]. intros ->. simplify_eq. congruence.
  - done.
  - intros pid' p' Hc. destruct (I3 _ _ Hc) as (Hne' & v1 & ? & ? & ?). split; [done|].
    destruct (decide (p' = p)) as [->|].
    + exists v'. rewrite list_lookup_insert_eq by done. simplify_eq. done.
    + exists v1. by rewrite list_lookup_insert_ne.
Qed.

(** A new object for an exec that starts. *)
Lemma inv_new h pr c c' m v :
  inv h pr c m -> c' ⊆ <[Pid v := length h]> c -> live v -> notifier v = true -> unread v -> inv (h ++ [v]) pr c' m.
Proof.
  intros [I1 I2 I3] Hc Hl Hn Hb.
  assert (forall p u, h !! p = Some u -> (h ++ [v]) !! p = Some u) as Hh.
  { intros p u Hu. rewrite lookup_app_l; [done|]. by eapply lookup_lt_Some. }
  split; [|done|].
  - intros pid p Hp. destruct (I1 _ _ Hp) as (u & ? & ?). exists u. auto.
  - intros pid p Hp. eapply lookup_weaken in Hp; [|exact Hc]. apply lookup_insert_Some in Hp as [[<- <-]|[? Hp]].
    + split.
      * intros Hp. destruct (I1 _ _ Hp) as (u & Hu & _). apply lookup_lt_Some in Hu. lia.
      * exists v. by rewrite list_lookup_middle.
    + destruct (I3 _ _ Hp) as (? & u & ? & ?). split; [done|]. exists u. auto.
Qed.

(** The object of an exec becomes the registered one. *)
Lemma inv_register h pr c m m' pid p v v' :
  inv h pr c m -> h !! p = Some v -> pr !! pid = None -> c !! pid = Some p \/ (forall pid', c !! pid' <> Some p) ->
  (forall pid', pr !! pid' <> Some p) -> Pid v' = pid -> live v' -> Binary v' <> "" ->
  (if notifier v' then m' !! u32 pid = Some (process_meta_of v') else pid ∈ P) -> differs_at pid m m' ->
  inv (<[p := v']> h) (<[pid := p]> pr) (delete pid c) m'.
Proof.
  intros [I1 I2 I3] Hv Hnone Hc Hfresh Epid Hl Hb Hm Hd. assert (p < length h)%nat by (by eapply lookup_lt_Some).
  assert (int32 pid) as Hi by (destruct Hl; congruence). split.
  - intros pid' p' [[<- <-]|[Hne Hp']]%lookup_insert_Some.
    + exists v'. rewrite list_lookup_insert_eq by done. split_and!; try done; intros E; by rewrite E in Hm.
    + destruct (I1 _ _ Hp') as (v1 & ? & ? & Hl1 & Hm1 & ? & ?). exists v1. rewrite list_lookup_insert_ne by (intros ->; by eapply Hfresh).
      split_and!; try done. intros Hn1. rewrite (differs_other _ pid' _ _ Hd); [by auto|done| |done]. destruct Hl1. congruence.
  - intros pid' H1 [H2 ?]%lookup_insert_None H3. rewrite (differs_other _ pid' _ _ Hd); [by auto|done..].
  - intros pid' p' [Hne Hc']%lookup_delete_Some. destruct (I3 _ _ Hc') as (Hne' & v1 & ? & ? & ?). split.
    + by rewrite lookup_insert_ne.
    + exists v1. rewrite list_lookup_insert_ne; [done|]. intros ->. destruct Hc as [Hc|Hc]; [|by eapply Hc].
      destruct (I3 _ _ Hc) as (_ & v2 & ? & ? & _). congruence.
Qed.

(** The object of an exec is given up. *)
Lemma inv_drop h pr c m pid p v' : inv h pr c m -> c !! pid = Some p -> inv (<[p := v']> h) pr (delete pid c) m.
Proof.
  intros [I1 I2 I3] Hp. destruct (I3 _ _ Hp) as (Hne & v & Hv & Hpid & _). split; [|done|].
  - intros pid' p' Hp'. destruct (I1 _ _ Hp') as (v1 & ? & ? & ?). exists v1.
    rewrite list_lookup_insert_ne; [done|]. intros ->. simplify_eq.
  - intros pid' p' [? Hc]%lookup_delete_Some. destruct (I3 _ _ Hc) as (Hne' & v1 & ? & ? & ?). split; [done|].
    exists v1. rewrite list_lookup_insert_ne; [done|]. intros ->. simplify_eq.
Qed.

(** Another value for an object that nobody knows. *)
Lemma inv_set_free h pr c m p v' :
  inv h pr c m -> (forall pid, pr !! pid <> Some p) -> (forall pid, c !! pid <> Some p) -> inv (<[p := v']> h) pr c m.
Proof.
  intros [I1 I2 I3] Hp Hc. split; [|done|].
  - intros pid q Hq. destruct (I1 _ _ Hq) as (v & ?). exists v. rewrite list_lookup_insert_ne; [done|]. intros ->. by eapply Hp.
  - intros pid q Hq. destruct (I3 _ _ Hq) as (? & v & ?). split; [done|]. exists v. rewrite list_lookup_insert_ne; [done|].
    intros ->. by eapply Hc.
Qed.

(** Other data for a process of [P] that has no notifier. *)
Lemma inv_set_mute h pr c m m' pid :
  inv h pr c m -> pid ∈ P -> int32 pid -> (forall p v, pr !! pid = Some p -> h !! p = Some v -> notifier v = false) ->
  differs_at pid m m' -> inv h pr c m'.
Proof.
  intros [I1 I2 I3] HP Hi Hn Hd. split; [|intros pid' ? ? ?|done].
  - intros pid' p Hp. destruct (I1 _ _ Hp) as (v & Hv & Ep & Hl & Hm & ? & ?). exists v. split_and!; try done.
    intros Hnv. rewrite (differs_other pid pid' m m' Hd); [by auto|done|by destruct Hl; congruence|].
    intros ->. by rewrite (Hn p v) in Hnv.
  - rewrite (differs_other pid pid' m m' Hd); [by auto|done..|congruence].
Qed.

(** A registered process is over. *)
Lemma inv_exit h pr c m m' pid p v v' :
  inv h pr c m -> pr !! pid = Some p -> h !! p = Some v -> (if notifier v then m' = delete (u32 pid) m else m' = m) ->
  inv (<[p := v']> h) (delete pid pr) c m'.
Proof.
  intros I Hp Hv Hm. pose proof (inv_int32 _ _ _ _ _ _ I Hp) as Hi. destruct I as [I1 I2 I3].
  destruct (I1 _ _ Hp) as (v0 & Hv0 & <- & _ & _ & HP & _). simplify_eq.
  assert (differs_at (Pid v) m m') as Hd.
  { intros k Hk. destruct (notifier v); subst m'; [by rewrite lookup_delete_ne|done]. }
  split.
  - intros pid' p' [Hne Hp']%lookup_delete_Some. destruct (I1 _ _ Hp') as (v1 & ? & ? & Hl1 & Hm1 & ? & ?).
    exists v1. rewrite list_lookup_insert_ne by congruence.
    split_and!; try done. intros Hn1. rewrite (differs_other _ pid' _ _ Hd); [by auto|done| |done]. destruct Hl1. congruence.
  - intros pid' H1 H2 H3. destruct (decide (pid' = Pid v)) as [->|Hne].
    + destruct (notifier v); [subst m'; apply lookup_delete_eq|]. by destruct H3; auto.
    + rewrite (differs_other _ pid' _ _ Hd) by done. apply lookup_delete_None in H2 as [|H2]; [done|]. by auto.
  - intros pid' p' Hc. destruct (I3 _ _ Hc) as (Hne & v1 & ? & ? & ?). split.
    + intros [? ?]%lookup_delete_Some. done.
    + exists v1. rewrite list_lookup_insert_ne; [done|]. intros ->. simplify_eq.
Qed.

End invariant.
