(* ===== verification/ProcStep.v ===== *)
(** * The process manager as a transition system

    The bytes of the process events, the steps of the manager on them and on the other
    calls it gets, and that every step keeps the invariant of ProcInv. *)

From stdpp Require Import base numbers list gmap strings pretty.
From S2P Require Import Prelude Tap Bpf Process Reader Wire ProcFilter ProcManager ProcSpec ProcInv.

(** ** Events on the wire *)

Definition proc_wire (pad : list Z) (ev : proc_event) : list Z :=
  match ev with
  | PROC_EXEC_START e => le_store 8 1 ++ le_store 4 (xs_pid e) ++ le_store 4 (xs_exe_size e) ++ xs_exe e
  | PROC_EXEC_ARGV pid size argv => le_store 8 2 ++ le_store 4 pid ++ le_store 4 size ++ argv
  | PROC_EXEC_END pid => le_store 8 3 ++ le_store 4 pid ++ take 4 (pad ++ zeros 4)
  | PROC_EXIT pid exit_code => le_store 8 4 ++ le_store 4 pid ++ le_store 4 exit_code
  end.

Definition event_pid (ev : proc_event) : Z :=
  match ev with PROC_EXEC_START e => xs_pid e | PROC_EXEC_ARGV pid _ _ | PROC_EXEC_END pid | PROC_EXIT pid _ => pid end.

(** The fields have values of their types and the strings fill their arrays. *)
Definition proc_event_fits (ev : proc_event) : Prop :=
  int32 (event_pid ev) /\
  match ev with
  | PROC_EXEC_START e => fits 32 (xs_exe_size e) /\ length (xs_exe e) = 1024%nat
  | PROC_EXEC_ARGV _ size argv => fits 32 size /\ length argv = 1024%nat
  | PROC_EXEC_END _ => True
  | PROC_EXIT _ exit_code => int32 exit_code
  end.

Section steps.
Context {H : Host} {L : Lru} {LL : LruLaws L}.

(** ** Steps on decoded events *)

Definition exec_start (pid : Z) (exe : string) : M Manager unit :=
  let* p := new_object ((NewProcess pid exe) <| notifier := true |>) in
  modify (fun s => s <| cache ::= lru_Add pid p |>).

Definition exec_argv (pid : Z) (arg : string) : M Manager unit :=
  let* p := cache_Get pid in
  match p with
  | None => ret tt
  | Some p => assign p (fun q => q <| Args ::= fun args => args ++ [arg] |>) ;; modify (fun s => s <| cache ::= lru_Add pid p |>)
  end.

Definition exec_end (fs : procfs) (pid : Z) : M Manager unit :=
  let* p := cache_Get pid in
  match p with
  | None => ret tt
  | Some p => RegisterProcess fs p ;; modify (fun s => s <| cache ::= lru_Remove pid |>)
  end.

(** The string an event carries: its first bytes without the terminator. *)
Definition carried (size : Z) (bytes : list Z) : string :=
  string_of_bytes (take (Z.to_nat (u32 (size - 1))) (bytes ++ zeros (Z.to_nat (u32 (size - 1))))).

Definition on_event (fs : procfs) (ev : proc_event) : M Manager unit :=
  match ev with
  | PROC_EXEC_START e => exec_start (xs_pid e) (if xs_exe_size e >? 0 then carried (xs_exe_size e) (xs_exe e) else "")
  | PROC_EXEC_ARGV pid size argv => exec_argv pid (carried size argv)
  | PROC_EXEC_END pid => exec_end fs pid
  | PROC_EXIT pid exit_code => UnregisterProcess pid exit_code
  end.

Lemma reader_Read_bytes n bs : length bs = 1024%nat -> reader_Read n bs = Some (take n (bs ++ zeros n)).
Proof. by destruct bs. Qed.

Lemma read_pair_fields pid x bs : int32 pid ->
  binary_Read 8 read_pair (le_store 4 pid ++ le_store 4 x ++ bs) = Some ((pid, x `mod` 2 ^ 32), bs).
Proof.
  intros Hp. rewrite app_assoc. apply binary_Read_fields; [by rewrite length_app, !length_le_store|].
  intros r. rewrite <- app_assoc. unfold read_pair. by rewrite (int32_store pid _ Hp), uint_store.
Qed.

Lemma readProcEvent_wire fs pad ev : proc_event_fits ev -> readProcEvent fs (proc_wire pad ev) = on_event fs ev.
Proof.
  intros [Hp Hf]. assert (forall t r, 0 <= t < 5 -> readProcEvent fs (le_store 8 t ++ r) =
    if t =? EVENT_EXEC_START then handleExecStartEvent r else if t =? EVENT_EXEC_ARGV then handleExecArgvEvent r
    else if t =? EVENT_EXEC_END then handleExecEndEvent fs r else if t =? EVENT_EXIT then handleExitEvent r else ret tt) as Ht.
  { intros t r Hr. unfold readProcEvent. rewrite (binary_Read_fields 8 _ (le_store 8 t) r t); [done|by rewrite length_le_store|].
    intros r'. by rewrite (uint_fits 8 64) by (done || unfold fits; lia). }
  destruct ev as [e|pid size argv|pid|pid code]; cbn [proc_wire on_event event_pid] in *; rewrite Ht by lia;
    cbn [Z.eqb Pos.eqb EVENT_EXEC_START EVENT_EXEC_ARGV EVENT_EXEC_END EVENT_EXIT].
  - destruct Hf as [Hs Hl]. unfold handleExecStartEvent. rewrite read_pair_fields, Z.mod_small by done.
    destruct (xs_exe_size e >? 0); [|done]. by rewrite reader_Read_bytes.
  - destruct Hf as [Hs Hl]. unfold handleExecArgvEvent. rewrite read_pair_fields, Z.mod_small by done. by rewrite reader_Read_bytes.
  - unfold handleExecEndEvent. rewrite (binary_Read_fields 4 _ (le_store 4 pid) _ pid); [done|by rewrite length_le_store|].
    intros r. by rewrite int32_store.
  - unfold handleExitEvent. rewrite <- (app_nil_r (le_store 4 code)), read_pair_fields by done. f_equal.
    unfold s32. unfold int32 in Hf. rewrite Zplus_mod_idemp_l, Z.mod_small; lia.
Qed.

(** ** Steps *)

(** An event of the ring buffer, a configuration, a TLS decision for the object that is
    registered for a pid, and a caller that waits for a pid. *)
Inductive op :=
| Proc_event (fs : procfs) (pad : list Z) (ev : proc_event)
| Set_config (cfg : option Config)
| Set_tls (pid : Z) (ok : bool)
| Wait (pid : Z) (waiter : nat).

Definition step (o : op) : M Manager unit :=
  match o with
  | Proc_event fs pad ev => readProcEvent fs (proc_wire pad ev)
  | Set_config cfg => SetConfig cfg
  | Set_tls pid ok =>
      let* p := Get pid in
      match p with Some p => let* _ := SetTlsOk p ok in ret tt | None => ret tt end
  | Wait pid waiter => let* _ := Await pid waiter in ret tt
  end.

Definition run (ops : list op) (s : Manager) : Manager := foldl (fun s o => (step o s).2) s ops.

Definition op_ok (o : op) : Prop := match o with Proc_event fs _ ev => steady fs /\ proc_event_fits ev | _ => True end.

Context (P : gset Z).

Definition holds (s : Manager) : Prop := inv P (heap s) (procs s) (contents (cache s)) (meta s).

Lemma holds_registered s pid p : holds s -> procs s !! pid = Some p ->
  exists v, heap s !! p = Some v /\ Pid v = pid /\ live v /\ (notifier v = true -> meta s !! u32 pid = Some (process_meta_of v))
    /\ (notifier v = false -> pid ∈ P) /\ Binary v <> "".
Proof. intros I. apply (inv_registered _ _ _ _ _ I). Qed.

Lemma roomy_registered s pid p v : holds s -> procs s !! pid = Some p -> heap s !! p = Some v -> notifier v = true -> roomy s (u32 pid).
Proof.
  intros I Hp Hv Hn. destruct (holds_registered s pid p I Hp) as (v' & ? & _ & _ & Hm & _). simplify_eq.
  left. rewrite Hm by done. done.
Qed.

(** A registered object gets a new value, and the kernel is told. *)
Lemma update_registered s pid p v v' :
  holds s -> procs s !! pid = Some p -> heap s !! p = Some v -> Pid v' = pid -> live v' -> notifier v' = notifier v -> Binary v' <> "" ->
  notify p (set_obj p v' s)
  = (true, if notifier v then set_meta (u32 pid) (Some (process_meta_of v')) (set_obj p v' s) else set_obj p v' s)
  /\ holds (notify p (set_obj p v' s)).2.
Proof.
  intros I Hp Hv Epid Hl Hn Hb.
  assert (notify p (set_obj p v' s)
    = (true, if notifier v then set_meta (u32 pid) (Some (process_meta_of v')) (set_obj p v' s) else set_obj p v' s)) as E.
  { rewrite (notify_eq _ p v') by (by eapply set_obj_heap). rewrite Hn. destruct (notifier v) eqn:En; [|done].
    rewrite (SetMeta_eq _ p v') by (by eapply set_obj_heap). destruct Hl as (_ & -> & _). rewrite Epid.
    rewrite decide_True; [done|]. by apply (roomy_registered s pid p v). }
  split; [exact E|]. rewrite E. unfold holds. eapply (inv_set_registered P _ _ _ _ _ pid p v v') in I; try done; cycle 1.
  { instantiate (1 := meta (if notifier v then set_meta (u32 pid) (Some (process_meta_of v')) (set_obj p v' s) else set_obj p v' s)).
    destruct (notifier v); [|done]. split; [by rewrite meta_set_eq|]. intros k Hk. by rewrite meta_set_ne. }
  by destruct (notifier v).
Qed.

(** ** One pid at a time *)

(** What a step on [pid] leaves of the others. *)
Definition only (pid : Z) (s s' : Manager) : Prop :=
  (forall q, q <> pid -> procs s' !! q = procs s !! q)
  /\ (forall k, k <> u32 pid -> meta s' !! k = meta s !! k)
  /\ (forall i v, heap s !! i = Some v -> Pid v <> pid -> heap s' !! i = Some v)
  /\ filters s' = filters s /\ envMask s' = envMask s.

#[local] Instance only_refl pid : Reflexive (only pid).
Proof. by intros s. Qed.
#[local] Instance only_trans pid : Transitive (only pid).
Proof.
  intros s1 s2 s3 (A1 & A2 & A3 & A4 & A5) (B1 & B2 & B3 & B4 & B5). split_and!; [..|congruence|congruence].
  - intros q Hq. by rewrite B1, A1.
  - intros k Hk. by rewrite B2, A2.
  - auto.
Qed.

Lemma only_set_obj s p v v' : heap s !! p = Some v -> only (Pid v) s (set_obj p v' s).
Proof.
  intros Hp. split_and!; try done. intros i u Hi Hne. rewrite set_obj_ne; [done|]. intros ->. congruence.
Qed.

Lemma only_set_meta s pid x : only pid s (set_meta (u32 pid) x s).
Proof. split_and!; try done. intros k Hk. by apply meta_set_ne. Qed.

Lemma only_cache s pid c : only pid s (s <| cache := c |>).
Proof. by split_and!. Qed.

Lemma only_notify s p v : heap s !! p = Some v -> only (Pid v) s (notify p s).2.
Proof.
  intros Hp. rewrite (notify_eq s p v Hp). destruct (notifier v); [|done]. rewrite (SetMeta_eq s p v Hp).
  destruct (exited v); [apply only_set_meta|]. case_decide; [apply only_set_meta|done].
Qed.

Lemma heap_notify s p : heap (notify p s).2 = heap s /\ procs (notify p s).2 = procs s /\ cache (notify p s).2 = cache s.
Proof.
  unfold notify, SetMeta, bind, deref, gets. cbn [fst snd]. destruct (notifier _); [|done]. by destruct (exited _).
Qed.

(** ** Execs *)

Lemma exec_start_holds s pid exe : holds s -> int32 pid ->
  holds (exec_start pid exe s).2 /\ only pid s (exec_start pid exe s).2.
Proof.
  intros I Hp. split.
  - eapply inv_new; [exact I|..]; cbn; try done; [apply contents_Add_sub|]. split_and!; [done..|by left].
  - split_and!; try done. intros i v Hi _. cbn. rewrite lookup_app_l; [done|]. by eapply lookup_lt_Some.
Qed.

Lemma cache_Get_eq pid s : cache_Get pid s = (contents (cache s) !! pid, s <| cache := (lru_Get pid (cache s)).2 |>).
Proof. unfold cache_Get. by rewrite contents_Get. Qed.

Lemma exec_argv_none s pid arg : contents (cache s) !! pid = None ->
  exec_argv pid arg s = (tt, s <| cache := (lru_Get pid (cache s)).2 |>).
Proof. intros Hc. unfold exec_argv, bind. by rewrite cache_Get_eq, Hc. Qed.

Lemma exec_argv_some s pid arg p v : contents (cache s) !! pid = Some p -> heap s !! p = Some v ->
  exec_argv pid arg s
  = (tt, (set_obj p (v <| Args ::= fun args => args ++ [arg] |>) s) <| cache := lru_Add pid p (lru_Get pid (cache s)).2 |>).
Proof.
  intros Hc Hv. unfold exec_argv, bind at 1. rewrite cache_Get_eq, Hc. cbn [fst snd]. unfold bind.
  by rewrite (assign_eq _ p v) by done.
Qed.

Lemma exec_argv_holds s pid arg : holds s -> holds (exec_argv pid arg s).2 /\ only pid s (exec_argv pid arg s).2.
Proof.
  intros I. destruct (contents (cache s) !! pid) as [p|] eqn:Hc.
  2:{ rewrite exec_argv_none by done. split; [|apply only_cache]. unfold holds. cbn. by rewrite contents_Get_same. }
  destruct (inv_cached _ _ _ _ _ I _ _ Hc) as (_ & v & Hv & Epid & Hl & Hn & Hb).
  rewrite (exec_argv_some s pid arg p v Hc Hv). cbn [snd]. split.
  - eapply inv_cache_sub; [by eapply (inv_set_cached _ _ _ _ _ pid p)|]. cbn.
    etrans; [apply contents_Add_sub|]. rewrite contents_Get_same, insert_id by done. done.
  - etrans; [|apply only_cache]. subst pid. exact (only_set_obj s p v _ Hv).
Qed.

Lemma register_eq p b s v : heap s !! p = Some v ->
  let s' := (register p b s).2 in
  heap s' = heap s /\ cache s' = cache s /\ kernel s' = kernel s /\ procs s' = <[Pid v := p]> (procs s)
  /\ filters s' = filters s /\ envMask s' = envMask s /\ last (notices s') = Some (if b then Replaced p else Started p).
Proof.
  intros Hp. cbv zeta. unfold register, bind, deref, gets, modify, notice_all. cbn [fst snd].
  rewrite (object_heap s p v Hp). cbn. destruct (processWaiters s !! Pid v); cbn; split_and!; try done; apply last_snoc.
Qed.

(** The object an exec of [v] ends up in, before discovery: the registered one with new
    arguments, or its own. *)
Definition exec_target (s : Manager) (p : nat) (v : Process) : nat * Process :=
  match procs s !! Pid v with
  | Some p' => (p', (object s p') <| Args := Args v |>)
  | None => (p, v <| envTags := m_envTags s |>)
  end.

(** [addProc] up to the registration. *)
Lemma addProc_eq fs s p v : heap s !! p = Some v -> procs s !! Pid v <> Some p ->
  (forall p', procs s !! Pid v = Some p' -> exists old, heap s !! p' = Some old /\ Pid old = Pid v) ->
  let t := exec_target s p v in
  exists s1 b, (b = match procs s !! Pid v with
    | Some p' => negb (String.eqb (Exe v) (Exe (object s p'))) || negb (String.eqb (Binary v) (Binary (object s p')))
                 || negb (bool_decide (Args v = Args (object s p')))
    | None => false end) /\  heap s1 !! t.1 = Some t.2 /\ only (Pid v) s s1 /\ procs s1 = procs s /\ kernel s1 = kernel s /\ cache s1 = cache s
    /\ heap s1 = <[t.1 := t.2]> (<[p := v <| envTags := m_envTags s |>]> (heap s))
    /\ addProc fs p s = let r := Discover fs t.1 s1 in if r.1 then register t.1 b r.2 else (tt, r.2).
Proof.
  intros Hv Hp Hreg. cbv zeta. unfold addProc, bind at 1. cbn [gets fst snd]. unfold bind at 1. rewrite (assign_eq s p v) by done. cbn [fst snd].
  set (s0 := set_obj p _ s). assert (heap s0 !! p = Some (v <| envTags := m_envTags s |>)) as Hv0 by (by eapply set_obj_heap).
  assert (only (Pid v) s s0) as H0 by (by apply only_set_obj).
  unfold bind at 1. rewrite (deref_eq s0 p _ Hv0). cbn [fst snd]. unfold bind at 1, Get, gets. cbn [fst snd].
  change (procs s0 !! Pid (v <| envTags := m_envTags s |>)) with (procs s !! Pid v). unfold exec_target.
  destruct (procs s !! Pid v) as [p'|] eqn:Hp'.
  - destruct (Hreg p' eq_refl) as (old & Hold & Epid). assert (heap s0 !! p' = Some old) as Hold0 by (unfold s0; by rewrite
    set_obj_ne by congruence).
    unfold bind at 1. rewrite (deref_eq s0 p' _ Hold0). cbn [fst snd]. unfold bind at 1. rewrite (assign_eq s0 p' _ _ Hold0). cbn [fst snd].
    rewrite (object_heap s p' old Hold). eexists (set_obj p' (old <| Args := Args v |>) s0), _. split; [done|].
    split; [by eapply set_obj_heap|]. split.
    { etrans; [exact H0|]. rewrite <- Epid. exact (only_set_obj s0 p' old _ Hold0). }
    do 4 (split; [done|]). unfold bind. cbv zeta. by destruct (Discover _ _ _) as [[] ?].
  - exists s0, false. do 6 (split; [done|]). split; [unfold s0; cbn; by rewrite list_insert_insert_eq|].
    unfold bind. cbv zeta. cbn [fst]. by destruct (Discover _ _ _) as [[] ?].
Qed.

Lemma Base_nonempty path : Base path <> "".
Proof.
  unfold Base. destruct (String.eqb path ""); [done|]. destruct (last _) as [f|] eqn:E; [|done].
  apply last_Some_elem_of, list_elem_of_filter in E. by destruct E.
Qed.

Lemma live_set (v v' : Process) : live v -> Pid v' = Pid v -> exited v' = exited v -> Root v' = Root v -> live v'.
Proof. unfold live, root_ok. by intros ? -> -> ->. Qed.

(** The objects once the arguments are there. *)
Lemma exec_target_holds s p v s1 : holds s -> contents (cache s) !! Pid v = Some p -> heap s !! p = Some v ->
  let t := exec_target s p v in
  heap s1 = <[t.1 := t.2]> (<[p := v <| envTags := m_envTags s |>]> (heap s)) -> procs s1 = procs s -> kernel s1 = kernel s ->
  cache s1 = cache s -> holds s1 /\ live t.2 /\ Pid t.2 = Pid v.
Proof.
  intros I Hc Hv t Eh Ep Ek Ec. unfold holds, meta. rewrite Eh, Ep, Ek, Ec. unfold t, exec_target in *.
  destruct (inv_cached _ _ _ _ _ I _ _ Hc) as (Hne & v0 & ? & _ & Hl & Hn & Hb). simplify_eq.
  assert (inv P (<[p := v <| envTags := m_envTags s |>]> (heap s)) (procs s) (contents (cache s)) (meta s)) as I1.
  { by apply (inv_set_cached _ _ _ _ _ (Pid v) p). }
  destruct (procs s !! Pid v) as [p'|] eqn:Hp; cbn [fst snd].
  - destruct (holds_registered s _ _ I Hp) as (old & Hold & Epid & Hl' & Hm & _ & Hb').
    rewrite (object_heap s p' old Hold). split; [|split; [by apply (live_set old)|done]].
    eapply (inv_set_registered _ _ _ _ _ _ (Pid v) p' old); try done.
    + by rewrite list_lookup_insert_ne by congruence.
    + destruct (notifier old) eqn:En; [|done]. split; [by apply Hm|by intros k].
  - split; [by rewrite list_insert_insert_eq|]. split; [by apply (live_set v)|done].
Qed.

(** The object after discovery, when [/proc] answers. *)
Definition exec_result (fs : procfs) (s : Manager) (t : nat * Process) : Process := (discovered fs (filters s) (envMask s) t.2).1.

(** The process is registered, or it could not be discovered or told to the kernel. *)
Definition exec_outcome (fs : procfs) (s s' : Manager) (p : nat) (v : Process) : Prop :=
  let t := exec_target s p v in
  is_Some (Executable fs (Pid v)) -> roomy s (u32 (Pid v)) ->
  (discovered fs (filters s) (envMask s) t.2).2 = true
  /\ procs s' !! Pid v = Some t.1 /\ heap s' !! t.1 = Some (exec_result fs s t)
  /\ last (notices s') = Some (match procs s !! Pid v with Some _ => Replaced t.1 | None => Started t.1 end).

Lemma discover_registered fs s pid p v : holds s -> steady fs -> procs s !! pid = Some p -> heap s !! p = Some v ->
  let r := discovered fs (filters s) (envMask s) v in
  (r.2 = false /\ Executable fs pid = None /\ Discover fs p s = (false, s)) \/
  (r.2 = true /\ (Discover fs p s).1 = true /\ heap (Discover fs p s).2 = <[p := r.1]> (heap s) /\ holds (Discover fs p s).2
   /\ only pid s (Discover fs p s).2).
Proof.
  intros I Hfs Hp Hv r. rewrite (Discover_eq fs s p v Hv). fold r.
  destruct (holds_registered s _ _ I Hp) as (v0 & ? & Epid & Hl & Hm & HP & Hb). simplify_eq.
  destruct Hl as (Hi & He & Hr). destruct (discovered_same fs (filters s) (envMask s) v Hr) as [Hs Hr']. fold r in Hs, Hr'.
  destruct (discovered_steady fs (filters s) (envMask s) v Hfs Hr) as [[Hx E]|Hd].
  { left. fold r in E. rewrite E. cbn. split_and!; [done..|]. by apply (settle_same p v s false). }
  right. split; [done|]. destruct (discovered_done _ _ _ _ Hd) as (_ & Hbin & _). fold r in Hd, Hbin.
  unfold settle. rewrite Hd. destruct Hs as (E1 & E2 & E3 & _).
  destruct (update_registered s (Pid v) p v r.1) as [Hn Hh]; try done.
  { unfold live. by rewrite E1, E3. }
  { rewrite Hbin. apply Base_nonempty. }
  rewrite Hn in *. cbn [fst snd] in *. split; [done|]. split; [by destruct (notifier v)|]. split; [done|].
  destruct (notifier v); [etrans; [by apply only_set_obj|apply only_set_meta]|by apply only_set_obj].
Qed.

(** An exec of a process that is registered already. *)
Lemma register_again s pid p b v : holds s -> procs s !! pid = Some p -> heap s !! p = Some v ->
  let s' := (register p b s).2 in holds s' /\ only pid s s' /\ heap s' = heap s /\ procs s' = procs s /\ cache s' = cache s.
Proof.
  intros I Hp Hv. destruct (holds_registered s _ _ I Hp) as (v0 & ? & Epid & _). simplify_eq.
  destruct (register_eq p b s v Hv) as (E1 & E2 & E3 & E4 & E5 & E6 & _). cbv zeta in *.
  rewrite insert_id in E4 by done. unfold holds, only, meta. rewrite E1, E2, E3, E4, E5, E6. done.
Qed.

Lemma exec_end_none fs s pid : contents (cache s) !! pid = None ->
  exec_end fs pid s = (tt, s <| cache := (lru_Get pid (cache s)).2 |>).
Proof. intros Hc. unfold exec_end, bind. by rewrite cache_Get_eq, Hc. Qed.

Lemma exec_end_some fs s pid p : contents (cache s) !! pid = Some p ->
  let s0 := s <| cache := (lru_Get pid (cache s)).2 |> in
  exec_end fs pid s = (tt, (addProc fs p s0).2 <| cache ::= lru_Remove pid |>).
Proof. intros Hc. unfold exec_end, bind. by rewrite cache_Get_eq, Hc. Qed.

Lemma holds_remove s pid : holds s -> holds (s <| cache ::= lru_Remove pid |>).
Proof. intros I. eapply inv_cache_sub; [exact I|]. cbn. rewrite contents_Remove. apply delete_subseteq. Qed.

Lemma addProc_registered fs s p v p' : holds s -> steady fs -> contents (cache s) !! Pid v = Some p -> heap s !! p = Some v ->
  procs s !! Pid v = Some p' ->
  let s' := (addProc fs p s).2 in
  holds s' /\ only (Pid v) s s' /\ cache s' = cache s /\ exec_outcome fs s s' p v.
Proof.
  intros I Hfs Hc Hv Hp. destruct (inv_cached _ _ _ _ _ I _ _ Hc) as (Hne & v0 & ? & _ & _ & _ & Hb0 & _). simplify_eq.
  destruct (holds_registered s _ _ I Hp) as (old & Hold & Epid & _ & _ & _ & Hb).
  destruct (addProc_eq fs s p v Hv Hne) as (s1 & b & Eb & Ht & Ho & Ep & Ek & Ec & Eh & ->).
  { intros p0 ?. simplify_eq. eauto. }
  destruct (exec_target_holds s p v s1 I Hc Hv Eh Ep Ek Ec) as (I1 & Hl & Epid').
  unfold exec_outcome. set (t := exec_target s p v) in *. assert (t.1 = p') as Et by (unfold t, exec_target; by rewrite Hp).
  assert (b = true) as ->.
  { rewrite Eb, Hp, (object_heap s p' old Hold), Hb0. rewrite (proj2 (String.eqb_neq "" (Binary old))) by done.
    cbn [negb]. by rewrite orb_true_r. }
  destruct Ho as (O1 & O2 & O3 & O4 & O5). assert (procs s1 !! Pid v = Some t.1) as Hp1 by congruence.
  destruct (discover_registered fs s1 (Pid v) t.1 t.2 I1 Hfs Hp1 Ht) as [(Hd & Hx & ->)|(Hd & Hok & Hh & I2 & O')]; cbv zeta.
  - cbn [fst snd]. split; [done|]. split; [done|]. split; [done|]. rewrite Hx. by intros [].
  - rewrite Hok. assert (procs (Discover fs t.1 s1).2 !! Pid v = Some t.1 /\ cache (Discover fs t.1 s1).2 = cache s1) as [Hp2 Hc2].
    { rewrite (Discover_eq fs s1 _ _ Ht). unfold settle. rewrite Hd.
    by destruct (heap_notify (set_obj t.1 (discovered fs (filters s1) (envMask s1) t.2).1 s1) t.1) as (_ & -> & ->). }
    assert (heap (Discover fs t.1 s1).2 !! t.1 = Some (discovered fs (filters s1) (envMask s1) t.2).1) as Hh2.
    { rewrite Hh. apply list_lookup_insert_eq. by eapply lookup_lt_Some. }
    destruct (register_again _ (Pid v) t.1 true _ I2 Hp2 Hh2) as (I3 & O3' & E1 & E2 & E3). cbv zeta in *.
    split; [done|]. split; [etrans; [|exact O3']; etrans; [|exact O']; by split_and!|]. split; [congruence|].
    intros _ _. rewrite E1, E2, Hp. rewrite <- O4, <- O5. split; [done|]. split; [done|].
    split; [by rewrite Hh2; unfold exec_result; rewrite O4, O5|].
    by destruct (register_eq t.1 true _ _ Hh2) as (_ & _ & _ & _ & _ & _ & ?).
Qed.

Lemma register_new s pid p v v' : holds s -> contents (cache s) !! pid = Some p -> heap s !! p = Some v -> procs s !! pid = None ->
  Pid v' = pid -> live v' -> notifier v' = true -> Binary v' <> "" ->
  let s' := (register p false (set_meta (u32 pid) (Some (process_meta_of v')) (set_obj p v' s))).2 in
  holds (s' <| cache ::= lru_Remove pid |>) /\ only pid s s' /\ cache s' = cache s
  /\ procs s' !! pid = Some p /\ heap s' !! p = Some v' /\ last (notices s') = Some (Started p).
Proof.
  intros I Hc Hv Hp Epid Hl Hn Hb s'. destruct (inv_cached _ _ _ _ _ I _ _ Hc) as (_ & v0 & ? & Epid0 & _). simplify_eq.
  assert (heap (set_obj p v' s) !! p = Some v') as Hv' by (by eapply set_obj_heap).
  destruct (register_eq p false (set_meta (u32 (Pid v')) (Some (process_meta_of v')) (set_obj p v' s)) v' Hv')
    as (R1 & R2 & R3 & R4 & R5 & R6 & R7). cbv zeta in *. fold s' in R1, R2, R3, R4, R5, R6, R7.
  assert (meta s' = meta (set_meta (u32 (Pid v')) (Some (process_meta_of v')) (set_obj p v' s))) as Em by (unfold meta; by rewrite R3).
  assert (only (Pid v') s (set_meta (u32 (Pid v')) (Some (process_meta_of v')) (set_obj p v' s))) as Ho.
  { etrans; [|apply only_set_meta]. rewrite <- Epid0. by apply only_set_obj. }
  split; [|split].
  - change (inv P (heap s') (procs s') (contents (lru_Remove (Pid v') (cache s'))) (meta s')).
    rewrite R1, R2, R4, Em, contents_Remove. eapply (inv_register _ _ _ _ _ _ _ p v v' I); try done; [by left|..].
    + intros pid' Hp'. destruct (holds_registered s _ _ I Hp') as (v1 & ? & ? & _). simplify_eq. congruence.
    + rewrite Hn. apply meta_set_eq.
    + intros k Hk. by rewrite meta_set_ne.
  - etrans; [exact Ho|]. unfold only. rewrite R1, R4, R5, R6, Em. split_and!; try done. intros q Hq. by rewrite lookup_insert_ne.
  - rewrite R1, R2, R4. split; [done|]. split; [apply lookup_insert_eq|done].
Qed.

Lemma addProc_new fs s p v : holds s -> steady fs -> contents (cache s) !! Pid v = Some p -> heap s !! p = Some v ->
  procs s !! Pid v = None ->
  let s' := (addProc fs p s).2 <| cache ::= lru_Remove (Pid v) |> in
  holds s' /\ only (Pid v) s s' /\ cache (addProc fs p s).2 = cache s /\ exec_outcome fs s s' p v.
Proof.
  intros I Hfs Hc Hv Hp. destruct (inv_cached _ _ _ _ _ I _ _ Hc) as (Hne & v0 & ? & _ & _ & Hn & _). simplify_eq.
  destruct (addProc_eq fs s p v Hv Hne) as (s1 & b & Eb & Ht & Ho & Ep & Ek & Ec & Eh & E).
  { intros p0 ?. congruence. }
  destruct (exec_target_holds s p v s1 I Hc Hv Eh Ep Ek Ec) as (I1 & Hl & Epid).
  rewrite Hp in Eb. subst b. cbv zeta. rewrite E. clear E. unfold exec_outcome.
  assert (exec_target s p v = (p, v <| envTags := m_envTags s |>)) as Et by (unfold exec_target; by rewrite Hp).
  rewrite Et in *. cbn [fst snd] in *. set (u := v <| envTags := m_envTags s |>) in *.
  destruct Ho as (O1 & O2 & O3 & O4 & O5). assert (only (Pid v) s s1) as Ho by (by split_and!).
  destruct Hl as (Hi & Hex & Hroot). rewrite (Discover_eq fs s1 p u Ht), O4, O5. set (r := discovered fs (filters s) (envMask s) u).
  destruct (discovered_same fs (filters s) (envMask s) u Hroot) as [(E1 & E2 & E3 & _) Hr']. fold r in E1, E2, E3, Hr'.
  destruct (discovered_steady fs (filters s) (envMask s) u Hfs Hroot) as [[Hx E]|Hd].
  { fold r in E. rewrite E, (settle_same p u s1 false Ht). cbn [fst snd]. split; [by apply holds_remove|].
    split; [etrans; [exact Ho|apply only_cache]|]. split; [done|]. change (Pid u) with (Pid v) in Hx. rewrite Hx. by intros []. }
  destruct (discovered_done _ _ _ _ Hd) as (Hx & Hbin & _). fold r in Hd, Hx, Hbin.
  unfold settle. rewrite Hd. assert (heap (set_obj p r.1 s1) !! p = Some r.1) as Hr1 by (by eapply set_obj_heap).
  rewrite (notify_eq _ p r.1 Hr1), E2. change (notifier u) with (notifier v). rewrite Hn, (SetMeta_eq _ p r.1 Hr1), E3.
  change (exited u) with (exited v) in *. rewrite Hex, E1. change (Pid u) with (Pid v) in *.
  assert (only (Pid v) s1 (set_obj p r.1 s1)) as Ho1 by (exact (only_set_obj s1 p u r.1 Ht)).
  case_decide as Hroom; cbn [fst snd].
  - destruct (register_new s1 (Pid v) p u r.1) as (I2 & Ho2 & Hc2 & Hp2 & Hh2 & Hl2); try congruence.
    { by split_and!; rewrite ?E1, ?E3. }
    { by rewrite E2. }
    { rewrite Hbin. apply Base_nonempty. }
    split; [done|]. split; [etrans; [exact Ho|]; etrans; [exact Ho2|]; apply only_cache|]. split; [congruence|].
    intros _ _. by rewrite Hp.
  - split; [|split; [|split; [done|]]].
    + change (inv P (<[p := r.1]> (heap s1)) (procs s1) (contents (lru_Remove (Pid v) (cache s1))) (meta s1)).
      rewrite contents_Remove. apply (inv_drop _ _ _ _ _ _ _ _ I1). congruence.
    + etrans; [exact Ho|]. etrans; [exact Ho1|]. apply only_cache.
    + intros _ Hroom'. destruct Hroom. unfold roomy, meta in *. cbn. by rewrite Ek.
Qed.

Lemma exec_end_holds fs s pid : holds s -> steady fs ->
  let s' := (exec_end fs pid s).2 in
  holds s' /\ only pid s s' /\ contents (cache s') = delete pid (contents (cache s))
  /\ (forall p v, contents (cache s) !! pid = Some p -> heap s !! p = Some v -> exec_outcome fs s s' p v).
Proof.
  intros I Hfs. set (s0 := s <| cache := (lru_Get pid (cache s)).2 |>).
  assert (contents (cache s0) = contents (cache s)) as Ec by apply contents_Get_same.
  assert (holds s0) as I0 by (unfold holds; rewrite Ec; exact I).
  destruct (contents (cache s) !! pid) as [p|] eqn:Hc.
  2:{ rewrite exec_end_none by done. cbn [snd]. split; [exact I0|]. split; [apply only_cache|]. split; [|done].
      by rewrite delete_id. }
  destruct (inv_cached _ _ _ _ _ I _ _ Hc) as (_ & v & Hv & <- & _). rewrite (exec_end_some fs s (Pid v) p Hc). fold s0. cbn [snd].
  assert (only (Pid v) s s0) as Ho by apply only_cache. cbv zeta.
  assert (forall s', contents (cache s') = contents (cache s) ->
    contents (cache (s' <| cache ::= lru_Remove (Pid v) |>)) = delete (Pid v) (contents (cache s))) as Hdel.
  { intros s' <-. apply contents_Remove. }
  rewrite <- Ec in Hc. destruct (procs s0 !! Pid v) as [p'|] eqn:Hp.
  - destruct (addProc_registered fs s0 p v p' I0 Hfs Hc Hv Hp) as (I1 & O1 & C1 & R1).
    split; [by apply holds_remove|]. split; [etrans; [exact Ho|]; etrans; [exact O1|]; apply only_cache|].
    split; [apply Hdel; congruence|]. intros p1 v1 ? ?. simplify_eq. exact R1.
  - destruct (addProc_new fs s0 p v I0 Hfs Hc Hv Hp) as (I1 & O1 & C1 & R1).
    split; [done|]. split; [by etrans|]. split; [apply Hdel; congruence|]. intros p1 v1 ? ?. simplify_eq. exact R1.
Qed.

(** ** Exits, TLS decisions and waiting *)

Lemma unregister_eq s pid code p v : holds s -> procs s !! pid = Some p -> heap s !! p = Some v ->
  let v' := v <| ExitCode := code |> <| exited := true |> in
  let s1 := set_obj p v' s in
  let s2 := if notifier v then set_meta (u32 pid) None s1 else s1 in
  (UnregisterProcess pid code s).2 = s2 <| notices ::= fun l => l ++ [Stopped p] |> <| procs ::= delete pid |>.
Proof.
  intros I Hp Hv. destruct (holds_registered s _ _ I Hp) as (v0 & ? & Epid & _). simplify_eq.
  set (v' := _ <| exited := true |>). cbv zeta.
  unfold UnregisterProcess, bind at 1, Get, gets. cbn [fst snd]. rewrite Hp. unfold bind at 1. rewrite (assign_eq s p v _ Hv). cbn [fst snd].
  unfold removeProc, Close, bind. cbn [fst snd]. rewrite (assign_eq _ p _ _ (set_obj_heap s p v _ Hv)), set_set. cbn [fst snd].
  fold v'. assert (heap (set_obj p v' s) !! p = Some v') as Hv' by (by eapply set_obj_heap).
  rewrite (notify_eq _ p v' Hv'), (SetMeta_eq _ p v' Hv'). unfold bind, notice_all, modify, deref, gets. cbn [fst snd].
  assert (forall l, Pid (object ((if notifier v then set_meta (u32 (Pid v)) None (set_obj p v' s) else set_obj p v' s)
    <| notices ::= fun n => n ++ l |>) p) = Pid v) as Ep.
  { intros l. unfold object. destruct (notifier v); cbn; by rewrite list_lookup_insert_eq by (by eapply lookup_lt_Some). }
  specialize (Ep [Stopped p]). change (notifier v') with (notifier v). change (exited v') with true. change (Pid v') with (Pid v).
  destruct (notifier v); cbn [fst snd]; by rewrite Ep.
Qed.

Lemma unregister_holds s pid code : holds s ->
  let s' := (UnregisterProcess pid code s).2 in holds s' /\ only pid s s' /\ cache s' = cache s.
Proof.
  intros I. cbv zeta. destruct (procs s !! pid) as [p|] eqn:Hp.
  2:{ unfold UnregisterProcess, bind, Get, gets. cbn [fst snd]. rewrite Hp. by split_and!. }
  destruct (holds_registered s _ _ I Hp) as (v & Hv & Epid & _). rewrite (unregister_eq s pid code p v I Hp Hv).
  set (v' := _ <| exited := true |>). set (s2 := if notifier v then _ else _).
  assert (heap s2 = <[p := v']> (heap s) /\ procs s2 = procs s /\ cache s2 = cache s) as (E1 & E2 & E3) by (unfold s2; by destruct (notifier v)).
  assert (only pid s s2) as Ho.
  { rewrite <- Epid. unfold s2. rewrite Epid.
    destruct (notifier v); [etrans; [|apply only_set_meta]|]; rewrite <- Epid; by apply only_set_obj. }
  split; [|split; [|done]].
  - change (inv P (heap s2) (delete pid (procs s2)) (contents (cache s2)) (meta s2)). rewrite E1, E2, E3.
    eapply (inv_exit _ _ _ _ _ _ _ _ v _ I Hp Hv). unfold s2. destruct (notifier v); [|done]. by apply map_eq; intros k.
  - etrans; [exact Ho|]. split_and!; try done. intros q Hq. cbn. by rewrite lookup_delete_ne.
Qed.

Lemma set_tls_holds s pid p ok : holds s -> procs s !! pid = Some p ->
  let s' := (SetTlsOk p ok s).2 in
  holds s' /\ only pid s s' /\ cache s' = cache s /\ procs s' = procs s
  /\ (forall v, heap s !! p = Some v -> heap s' = <[p := v <| tlsOk := ok |>]> (heap s) /\ (notifier v = false -> meta s' = meta s)).
Proof.
  intros I Hp. destruct (holds_registered s _ _ I Hp) as (v & Hv & Epid & Hl & _ & _ & Hb). cbv zeta.
  unfold SetTlsOk, bind. rewrite (deref_eq s p v Hv). cbn [fst snd]. destruct (Bool.eqb_spec (tlsOk v) ok) as [<-|_].
  { cbn [snd ret]. split; [done|]. split; [done|]. split; [done|]. split; [done|]. intros v' ?. simplify_eq. split; [|done].
    assert (v <| tlsOk := tlsOk v |> = v) as -> by (by destruct v). cbn. by rewrite list_insert_id. }
  rewrite (assign_eq s p v _ Hv). cbn [fst snd].
  destruct (update_registered s pid p v (v <| tlsOk := ok |>)) as [E I']; try done.
  destruct (heap_notify (set_obj p (v <| tlsOk := ok |>) s) p) as (E1 & E2 & E3).
  split; [done|]. rewrite E in *. cbn [fst snd] in *. split; [|split; [done|split; [done|]]].
  - destruct (notifier v); [etrans; [|apply only_set_meta]|]; rewrite <- Epid; by apply only_set_obj.
  - intros v' ?. simplify_eq. split; [exact E1|]. intros Hn. by rewrite Hn.
Qed.

Lemma await_holds s pid waiter : holds s -> let s' := (Await pid waiter s).2 in holds s' /\ only pid s s' /\ cache s' = cache s.
Proof. intros I. cbv zeta. unfold Await, bind, Get, gets. cbn [fst snd]. by destruct (procs s !! pid). Qed.

(** ** Configurations *)

(** The flags of a process that is running when the filters change. *)
Definition refiltered (fl : list Filter) (v : Process) : Process :=
  let f := applyFilters fl v in if f =? 0 then v else v <| p_filter := f |>.

Lemma refiltered_twice fl v : refiltered fl (refiltered fl v) = refiltered fl v.
Proof.
  unfold refiltered. destruct (applyFilters fl v =? 0) eqn:E; [by rewrite E|].
  rewrite (applyFilters_ext fl v) by done. by rewrite E.
Qed.

(** A process without a notifier, or none. *)
Definition mute (s : Manager) (pid : Z) : Prop :=
  int32 pid /\ forall p v, procs s !! pid = Some p -> heap s !! p = Some v -> notifier v = false.

(** What the filters change: objects, and the data of those with a notifier. *)
Definition refilters (s s' : Manager) : Prop :=
  procs s' = procs s /\ cache s' = cache s /\ filters s' = filters s /\ envMask s' = envMask s
  /\ (forall i v', heap s' !! i = Some v' -> exists v, heap s !! i = Some v /\ notifier v' = notifier v)
  /\ (forall pid, mute s pid -> meta s' !! u32 pid = meta s !! u32 pid).

#[local] Instance refilters_trans : Transitive refilters.
Proof.
  intros s1 s2 s3 (A1 & A2 & A3 & A4 & A5 & A6) (B1 & B2 & B3 & B4 & B5 & B6). split_and!; try congruence.
  - intros i v3 H3. destruct (B5 _ _ H3) as (v2 & H2 & ?). destruct (A5 _ _ H2) as (v1 & ? & ?). exists v1. split; [done|congruence].
  - intros pid Hm. rewrite B6, A6; [done..|]. destruct Hm as [Hi Hm]. split; [done|]. intros p v Hp Hv. rewrite A1 in Hp.
    destruct (A5 _ _ Hv) as (v1 & ? & ->). by eapply Hm.
Qed.

Lemma refilter_holds s pid p v : holds s -> procs s !! pid = Some p -> heap s !! p = Some v ->
  let s' := (refilter p s).2 in
  holds s' /\ heap s' = <[p := refiltered (filters s) v]> (heap s) /\ refilters s s'.
Proof.
  intros I Hp Hv. destruct (holds_registered s _ _ I Hp) as (v0 & ? & Epid & Hl & _ & _ & Hb). simplify_eq.
  unfold refilter, refiltered, bind. cbn [gets fst snd]. rewrite (deref_eq s p v Hv). cbn [fst snd].
  destruct (applyFilters (filters s) v =? 0); cbn [negb].
  { cbn. split; [done|]. split; [by rewrite list_insert_id|]. split_and!; try done. eauto. }
  rewrite (assign_eq s p v _ Hv). cbn [fst snd ret]. set (v' := v <| p_filter := _ |>).
  destruct (update_registered s (Pid v) p v v') as [E I']; try done.
  destruct (heap_notify (set_obj p v' s) p) as (E1 & E2 & E3). split; [done|]. split; [exact E1|].
  split_and!; [done|done|by rewrite E; destruct (notifier v)|by rewrite E; destruct (notifier v)|..].
  - intros i u Hu. rewrite E1 in Hu. cbn in Hu. apply list_lookup_insert_Some in Hu as [(-> & <- & _)|[? ?]]; eauto.
  - intros q [Hi Hm]. rewrite E. cbn [snd]. destruct (notifier v) eqn:En; [|done]. rewrite meta_set_ne; [done|].
    intros Eq. apply u32_inj in Eq; [|done|by destruct Hl]. subst q. by rewrite (Hm _ _ Hp Hv) in En.
Qed.

Lemma each_refilter_holds ps s : holds s -> (forall p, p ∈ ps -> exists pid, procs s !! pid = Some p) ->
  let s' := (each refilter ps s).2 in
  holds s' /\ refilters s s'
  /\ forall i, heap s' !! i = (if decide (i ∈ ps) then refiltered (filters s) else id) <$> heap s !! i.
Proof.
  revert s. induction ps as [|p ps IH]; intros s I Hps.
  { cbn. split; [done|]. split; [split_and!; try done; eauto|]. intros i. by rewrite option_fmap_id. }
  destruct (Hps p) as [pid Hp]; [by left|]. destruct (holds_registered s _ _ I Hp) as (v & Hv & _).
  destruct (refilter_holds s pid p v I Hp Hv) as (I1 & E1 & R1). cbn [each]. unfold bind. set (s1 := (refilter p s).2) in *.
  destruct (IH s1 I1) as (I2 & R2 & E2).
  { intros q Hq. destruct R1 as (-> & _). apply Hps. by right. }
  split; [done|]. split; [by etrans|]. intros i. rewrite E2, E1. destruct R1 as (_ & _ & -> & _).
  destruct (decide (i = p)) as [->|Hne].
  - rewrite list_lookup_insert_eq by (by eapply lookup_lt_Some). rewrite Hv. rewrite (decide_True (P := p ∈ p :: ps)) by (by left).
    cbn. case_decide; [by rewrite refiltered_twice|done].
  - rewrite list_lookup_insert_ne by done. destruct (decide (i ∈ ps)); [rewrite decide_True by (by right)|rewrite decide_False]; [done..|].
    by intros [->|?]%elem_of_cons.
Qed.

Definition registered (s : Manager) : list nat := map snd (map_to_list (procs s)).

Lemma elem_registered s p : p ∈ registered s <-> exists pid, procs s !! pid = Some p.
Proof.
  unfold registered. rewrite list_elem_of_fmap. split.
  - intros ([pid q] & -> & Hq). exists pid. by apply elem_of_map_to_list.
  - intros [pid Hp]. exists (pid, p). split; [done|]. by apply elem_of_map_to_list.
Qed.

(** What a configuration makes of an object. *)
Definition reconfigured (cfg : option Config) (s : Manager) (i : nat) (v : Process) : Process :=
  match cfg with
  | Some (MkConfig _ (Some (custom, groups))) => if decide (i ∈ registered s) then refiltered (load_filters custom groups) v else v
  | _ => v
  end.

Lemma SetConfig_holds s cfg : holds s ->
  let s' := (SetConfig cfg s).2 in
  holds s' /\ procs s' = procs s /\ cache s' = cache s /\ (forall pid, mute s pid -> meta s' !! u32 pid = meta s !! u32 pid)
  /\ forall i, heap s' !! i = reconfigured cfg s i <$> heap s !! i.
Proof.
  intros I. destruct cfg as [[tags [[custom groups]|]]|]; cbv zeta.
  2-3: unfold reconfigured; split_and!; try done; intros i; by rewrite option_fmap_id.
  set (s1 := (s <| envMask ::= fun mask => foldl (fun mask tag => delete (Key tag) mask) mask (m_envTags s) |>
    <| envMask ::= fun mask => foldl (fun mask tag => if String.eqb (Source tag) "env" then <[Location tag := true]> mask else mask) mask tags |>
    <| m_envTags := tags |>) <| filters := load_filters custom groups |>).
  assert ((SetConfig (Some (MkConfig tags (Some (custom, groups)))) s).2 = (each refilter (registered s) s1).2) as -> by done.
  destruct (each_refilter_holds (registered s) s1 I) as (I' & (R1 & R2 & R3 & R4 & R5 & R6) & E).
  { intros p Hp. by apply elem_registered in Hp. }
  split; [done|]. split; [done|]. split; [done|]. split; [done|]. intros i. rewrite E. unfold reconfigured.
  by case_decide.
Qed.

(** ** Every step keeps the invariant *)

Lemma on_event_holds fs ev s : holds s -> steady fs -> int32 (event_pid ev) ->
  holds (on_event fs ev s).2 /\ only (event_pid ev) s (on_event fs ev s).2.
Proof.
  intros I Hfs Hp. destruct ev as [e|pid size argv|pid|pid code]; cbn [on_event event_pid] in *.
  - by apply exec_start_holds.
  - by apply exec_argv_holds.
  - by destruct (exec_end_holds fs s pid I Hfs) as (? & ? & _).
  - by destruct (unregister_holds s pid code I) as (? & ? & _).
Qed.

Lemma step_holds o s : op_ok o -> holds s -> holds (step o s).2.
Proof.
  destruct o as [fs pad ev|cfg|pid ok|pid waiter]; cbn [op_ok step]; intros Ho I.
  - destruct Ho as [Hfs Hf]. rewrite readProcEvent_wire by done. apply on_event_holds; [done..|apply Hf].
  - by destruct (SetConfig_holds s cfg I) as (? & _).
  - unfold bind, Get, gets. cbn [fst snd]. destruct (procs s !! pid) as [p|] eqn:Hp; [|done]. cbn.
    by destruct (set_tls_holds s pid p ok I Hp) as (? & _).
  - unfold bind. cbn. by destruct (await_holds s pid waiter I) as (? & _).
Qed.

Lemma run_holds ops s : Forall op_ok ops -> holds s -> holds (run ops s).
Proof. intros Ho. revert s. induction Ho as [|o ops Ho _ IH]; intros s I; [done|]. apply IH. by apply step_holds. Qed.

(** ** Processes without a notifier *)

Definition still_mute (pid : Z) (p : nat) (s s' : Manager) : Prop :=
  procs s' !! pid = Some p /\ meta s' !! u32 pid = meta s !! u32 pid /\ exists v, heap s' !! p = Some v /\ notifier v = false.

Lemma addProc_mute fs s p v p' old : holds s -> contents (cache s) !! Pid v = Some p -> heap s !! p = Some v ->
  procs s !! Pid v = Some p' -> heap s !! p' = Some old -> notifier old = false ->
  still_mute (Pid v) p' s (addProc fs p s).2.
Proof.
  intros I Hc Hv Hp Hold Hn. destruct (inv_cached _ _ _ _ _ I _ _ Hc) as (Hne & _).
  destruct (holds_registered s _ _ I Hp) as (v0 & ? & Epid & _). simplify_eq.
  destruct (addProc_eq fs s p v Hv Hne) as (s1 & b & _ & Ht & _ & Ep & Ek & Ec & Eh & ->).
  { intros p0 ?. simplify_eq. eauto. }
  destruct (exec_target_holds s p v s1 I Hc Hv Eh Ep Ek Ec) as (_ & (_ & _ & Hr) & Epid').
  assert (exec_target s p v = (p', old <| Args := Args v |>)) as Et by (unfold exec_target; by rewrite Hp, (object_heap s p' old Hold)).
  rewrite Et in *. cbn [fst snd] in *. rewrite (Discover_eq fs s1 p' _ Ht). set (r := discovered _ _ _ _).
  destruct (discovered_same fs (filters s1) (envMask s1) _ Hr) as [(E1 & E2 & _) _]. fold r in E1, E2. cbn in E2. rewrite Hn in E2.
  assert (heap (set_obj p' r.1 s1) !! p' = Some r.1) as Hr1 by (by eapply set_obj_heap).
  unfold settle, still_mute. rewrite (notify_eq _ _ _ Hr1), E2. destruct r.2; cbn [fst snd]; cbv zeta.
  - destruct (register_eq p' b _ _ Hr1) as (R1 & _ & R3 & R4 & _). unfold meta. rewrite R1, R3, R4, E1, Epid', lookup_insert_eq.
    change (kernel (set_obj p' r.1 s1)) with (kernel s1). rewrite Ek. eauto.
  - unfold meta. cbn. rewrite Ep, Ek. split; [done|]. split; [done|]. exists r.1. by split.
Qed.
End steps.
