(* ===== verification/ProcSystem.v ===== *)
(** * The life of the process manager

    The start of the manager on the processes it finds, its runs, and the theorems on
    what the probes know: they are told about the processes that the agent saw start,
    and told once about those that were there before. *)

From stdpp Require Import base numbers list gmap strings pretty.
From S2P Require Import Prelude Tap Bpf Process Reader Wire ProcFilter ProcFilterSpec ProcManager ProcSpec ProcInv ProcStep.

Section system.
Context {H : Host} {L : Lru} {LL : LruLaws L} (P : gset Z).

(** ** Processes without a notifier *)

Lemma exec_end_mute fs s pid p v : holds P s -> procs s !! pid = Some p -> heap s !! p = Some v -> notifier v = false ->
  still_mute pid p s (exec_end fs pid s).2.
Proof.
  intros I Hp Hv Hn. destruct (contents (cache s) !! pid) as [p'|] eqn:Hc.
  2:{ rewrite exec_end_none by done. split; [done|]. split; [done|]. by exists v. }
  destruct (inv_cached _ _ _ _ _ I _ _ Hc) as (_ & v' & Hv' & <- & _). rewrite (exec_end_some fs s _ p' Hc). cbn [snd].
  set (s0 := s <| cache := (lru_Get (Pid v') (cache s)).2 |>).
  assert (contents (cache s0) = contents (cache s)) as Ec by apply contents_Get_same.
  assert (holds P s0) as I0 by (unfold holds; rewrite Ec; exact I). rewrite <- Ec in Hc.
  exact (addProc_mute P fs s0 p' v' p v I0 Hc Hv' Hp Hv Hn).
Qed.

Lemma step_mute o s pid p v : op_ok o -> holds P s -> procs s !! pid = Some p -> heap s !! p = Some v -> notifier v = false ->
  (forall fs pad code, o <> Proc_event fs pad (PROC_EXIT pid code)) -> still_mute pid p s (step o s).2.
Proof.
  intros Ho I Hp Hv Hn Hne. destruct (holds_registered P s _ _ I Hp) as (v0 & ? & Epid & (Hi & _) & _). simplify_eq.
  destruct o as [fs pad ev|cfg|pid' ok|pid' waiter]; cbn [op_ok step] in *.
  - destruct Ho as [Hfs Hf]. rewrite readProcEvent_wire by done.
    destruct (decide (event_pid ev = Pid v)) as [E|E].
    + destruct ev as [e|pid' size argv|pid'|pid' code]; cbn [event_pid on_event] in *; subst.
      * split; [done|]. split; [done|]. exists v. split; [|done]. cbn. rewrite lookup_app_l; [done|]. by eapply lookup_lt_Some.
      * destruct (contents (cache s) !! Pid v) as [q|] eqn:Hc; [|rewrite exec_argv_none by done; split; [done|split; [done|by exists v]]].
        destruct (inv_cached _ _ _ _ _ I _ _ Hc) as (Hq & u & Hu & _). rewrite (exec_argv_some s _ _ q u Hc Hu).
        split; [done|]. split; [done|]. exists v. split; [|done]. cbn. rewrite list_lookup_insert_ne; [done|]. congruence.
      * by apply (exec_end_mute fs s (Pid v) p v).
      * by destruct (Hne fs pad code).
    + destruct (on_event_holds P fs ev s I Hfs) as (_ & (O1 & O2 & O3 & _)); [apply Hf|]. unfold still_mute. rewrite O1 by done.
      split; [done|]. split; [|by eauto]. apply O2. intros Eu. apply u32_inj in Eu; [done..|apply Hf].
  - destruct (SetConfig_holds P s cfg I) as (_ & E1 & _ & E2 & E3). unfold still_mute. rewrite E1, E3, Hv. split; [done|]. split.
    + apply E2. split; [done|]. intros p' v' ? ?. by simplify_eq.
    + cbn. eexists. split; [done|]. destruct cfg as [[? [[]|]]|]; cbn; try done. case_decide; [|done]. unfold refiltered. by destruct (_ =? 0).
  - unfold bind, Get, gets. cbn [fst snd]. destruct (procs s !! pid') as [q|] eqn:Hq; [|split; [done|split; [done|by exists v]]]. cbn.
    destruct (set_tls_holds P s pid' q ok I Hq) as (_ & (O1 & O2 & O3 & _) & _ & E1 & E2). unfold still_mute. rewrite E1. split; [done|].
    destruct (decide (pid' = Pid v)) as [->|].
    + simplify_eq. destruct (E2 v Hv) as [-> ->]; [|done]. split; [done|]. exists (v <| tlsOk := ok |>). split; [|done].
      apply list_lookup_insert_eq. by eapply lookup_lt_Some.
    + destruct (holds_registered P s _ _ I Hq) as (u & ? & ? & (? & _) & _). subst. split; [|eauto].
      apply O2. intros Eu. by apply u32_inj in Eu.
  - unfold bind, Await, bind, Get, gets. cbn [fst snd]. destruct (procs s !! pid'); (split; [done|split; [done|by exists v]]).
Qed.

Lemma run_mute ops s pid p v : Forall op_ok ops -> holds P s -> procs s !! pid = Some p -> heap s !! p = Some v -> notifier v = false ->
  Forall (fun o => forall fs pad code, o <> Proc_event fs pad (PROC_EXIT pid code)) ops -> still_mute pid p s (run ops s).
Proof.
  intros Ho. revert s v. induction Ho as [|o ops Ho _ IH]; intros s v I Hp Hv Hn Hne; [split; [done|split; [done|by exists v]]|].
  inversion Hne as [|? ? Hne1 Hne2]; subst. destruct (step_mute o s pid p v Ho I Hp Hv Hn Hne1) as (Hp1 & Hm1 & v1 & Hv1 & Hn1).
  destruct (IH (step o s).2 v1 (step_holds P o s Ho I) Hp1 Hv1 Hn1 Hne2) as (Hp2 & Hm2 & Hv2).
  split; [done|]. split; [|done]. by rewrite <- Hm1.
Qed.

(** ** The start *)

(** Nothing is being executed, and what is registered is known to the probes. *)
Definition synced (s : Manager) : Prop :=
  contents (cache s) = ∅
  /\ forall pid p v, procs s !! pid = Some p -> heap s !! p = Some v -> notifier v = false /\ meta s !! u32 pid = Some (process_meta_of v).

(** The objects that are still to be registered. *)
Definition pending (s : Manager) (snap : list nat) : Prop :=
  NoDup snap /\ forall p, p ∈ snap -> (forall pid, procs s !! pid <> Some p)
    /\ exists pid, heap s !! p = Some (NewProcess pid "") /\ pid ∈ P /\ int32 pid.

(** [addProc] on an object without a notifier. *)
Lemma addProc_plain fs s p v : heap s !! p = Some v -> procs s !! Pid v = None -> notifier v = false -> exited v = false -> root_ok v ->
  let s' := (addProc fs p s).2 in
  exists v', heap s' = <[p := v']> (heap s) /\ cache s' = cache s /\ kernel s' = kernel s
    /\ Pid v' = Pid v /\ notifier v' = false /\ exited v' = false /\ root_ok v'
    /\ (procs s' = procs s \/ procs s' = <[Pid v := p]> (procs s) /\ Binary v' <> "").
Proof.
  intros Hv Hp Hn He Hr. cbv zeta.
  destruct (addProc_eq fs s p v Hv) as (s1 & b & Eb & Ht & _ & Ep & Ek & Ec & Eh & ->); [congruence|congruence|].
  assert (exec_target s p v = (p, v <| envTags := m_envTags s |>)) as Et by (unfold exec_target; by rewrite Hp).
  rewrite Et in *. cbn [fst snd] in *. rewrite list_insert_insert_eq in Eh.
  match type of Ht with _ = Some ?w => set (u := w) in * end.
  rewrite (Discover_eq fs s1 p _ Ht). set (r := discovered fs (filters s1) (envMask s1) u).
  destruct (discovered_same fs (filters s1) (envMask s1) u Hr) as [(E1 & E2 & E3 & _) Hr']. fold r in E1, E2, E3, Hr'.
  assert (heap (set_obj p r.1 s1) !! p = Some r.1) as Hr1 by (by eapply set_obj_heap).
  assert (heap (set_obj p r.1 s1) = <[p := r.1]> (heap s)) as Eh1 by (cbn; by rewrite Eh, list_insert_insert_eq).
  unfold settle. rewrite (notify_eq _ _ _ Hr1), E2. change (notifier u) with (notifier v) in *. change (exited u) with (exited v) in *.
  change (Pid u) with (Pid v) in *. rewrite Hn.
  exists r.1. destruct r.2 eqn:Ed; cbn [fst snd].
  - destruct (register_eq p b _ _ Hr1) as (R1 & R2 & R3 & R4 & _). cbv zeta in *. rewrite R1, R2, R3, R4, E1, E2, E3, Hn, He, Eh1.
    destruct (discovered_done _ _ _ _ Ed) as (_ & Hb & _). fold r in Hb.
    change (procs (set_obj p r.1 s1)) with (procs s1). rewrite Ep. split_and!; try done. right. split; [done|]. rewrite Hb. apply Base_nonempty.
  - rewrite Eh1, E1, E2, E3, Hn, He. split_and!; try done. by left.
Qed.

(** One of them: it is registered or not, and told to the kernel if there is room. *)
Lemma preload_one fs s p pid snap : holds P s -> synced s -> pending s (p :: snap) -> heap s !! p = Some (NewProcess pid "") ->
  procs s !! pid = None ->
  let s' := (addProc fs p (set_obj p ((NewProcess pid "") <| PredatesQpoint := true |>) s)).2 in
  let r := SetMeta p s' in
  holds P r.2 /\ pending r.2 snap /\ (r.1 = true -> synced r.2).
Proof.
  intros I [Hc Hs] [Hnd Hpend] Hv Hp. set (s0 := set_obj p _ s).
  destruct (Hpend p) as (Hfree & pid' & Hv' & HP & Hi); [by left|]. simplify_eq. apply NoDup_cons in Hnd as [Hnp Hnd].
  destruct (addProc_plain fs s0 p ((NewProcess pid "") <| PredatesQpoint := true |>)) as (v & Eh & Ec & Ek & Epid & Hn & He & Hr & Ep);
    [by eapply set_obj_heap|done..|by left|]. cbv zeta. set (s' := (addProc fs p s0).2) in *.
  cbn in Epid. assert (heap s' = <[p := v]> (heap s)) as Eh' by (rewrite Eh; apply list_insert_insert_eq).
  assert (heap s' !! p = Some v) as Hv2 by (rewrite Eh'; apply list_lookup_insert_eq; by eapply lookup_lt_Some).
  assert (holds P s') as I'.
  { unfold holds, meta. rewrite Eh', Ec, Ek. change (cache s0) with (cache s). change (kernel s0) with (kernel s).
    destruct Ep as [->|[-> Hb]]; [apply (inv_set_free _ _ _ _ _ _ _ I Hfree); intros q; rewrite Hc; done|].
    rewrite <- (delete_id (contents (cache s)) pid) by (by rewrite Hc).
    eapply (inv_register _ _ _ _ _ _ pid p _ v I); try done; [right; intros q; by rewrite Hc|by rewrite <- Epid in Hi|by rewrite Hn]. }
  assert (forall q k u, k <> p -> procs s' !! q = Some k -> heap s' !! k = Some u -> procs s !! q = Some k /\ heap s !! k = Some u) as Hold.
  { intros q k u Hk Hq Hu. rewrite Eh', list_lookup_insert_ne in Hu by done. split; [|done].
    destruct Ep as [Ep|[Ep _]]; rewrite Ep in Hq; [done|]. by apply lookup_insert_Some in Hq as [[? ?]|[? ?]]; [congruence|]. }
  assert (pending s' snap) as Hpend'.
  { split; [done|]. intros q Hq. destruct (Hpend q) as (Hfq & pq & Hvq & ?); [by right|].
    assert (q <> p) by (intros ->; done). split; [|exists pq; by rewrite Eh', list_lookup_insert_ne].
    intros k Hk. destruct Ep as [Ep|[Ep _]]; rewrite Ep in Hk; [by eapply Hfq|].
    apply lookup_insert_Some in Hk as [[? ?]|[? ?]]; [congruence|by eapply Hfq]. }
  rewrite (SetMeta_eq _ p v Hv2), He, Epid. case_decide as Hroom; cbn [fst snd]; [|split; [done|split; [done|done]]].
  assert (procs s' !! pid = None \/ procs s' !! pid = Some p) as Hreg.
  { destruct Ep as [->|[-> _]]; [by left|right; apply lookup_insert_eq]. }
  split; [|split; [done|intros _; split; [by change (cache (set_meta (u32 pid) _ s')) with (cache s'); rewrite Ec|]]].
  - eapply (inv_set_mute _ _ _ _ _ _ pid I'); [done..| |intros k Hk; by rewrite meta_set_ne].
    intros q u Hq Hu. destruct Hreg; congruence.
  - intros q k u Hq Hu. change (procs s' !! q = Some k) in Hq. change (heap s' !! k = Some u) in Hu.
    destruct (holds_registered P s' q k I' Hq) as (u' & Hu' & Eq & (Hiq & _) & _). assert (u' = u) as -> by congruence.
    destruct (decide (k = p)) as [->|Hk].
    + assert (u = v) as -> by congruence. rewrite <- Eq, Epid. split; [done|]. apply meta_set_eq.
    + destruct (Hold _ _ _ Hk Hq Hu) as [Hq0 Hu0]. destruct (Hs _ _ _ Hq0 Hu0) as [? Hm]. split; [done|].
      rewrite meta_set_ne; [unfold meta; rewrite Ek; exact Hm|]. intros Eu. rewrite Eq in Hiq. apply u32_inj in Eu; [congruence|done..].
Qed.

Lemma preload_holds fs snap s : holds P s -> synced s -> pending s snap ->
  holds P (preload fs snap s).2 /\ ((preload fs snap s).1 = true -> synced (preload fs snap s).2).
Proof.
  revert s. induction snap as [|p snap IH]; intros s I Hs Hp; [done|].
  assert (pending s snap) as Hp'. { destruct Hp as [[_ ?]%NoDup_cons Hp]. split; [done|]. intros q Hq. apply Hp. by right. }
  destruct (proj2 Hp p ltac:(by left)) as (_ & pid & Hv & _). cbn [preload]. unfold bind. rewrite (deref_eq s p _ Hv). unfold Get, gets.
  cbn [fst snd]. change (Pid (NewProcess pid "")) with pid.
  destruct (procs s !! pid) as [q|] eqn:Hq; [by apply IH|]. rewrite (assign_eq s p _ _ Hv). cbn [fst snd].
  destruct (preload_one fs s p pid snap I Hs Hp Hv Hq) as (I1 & P1 & S1). cbv zeta in *. destruct (SetMeta _ _) as [[] s1]; cbn in *; auto.
Qed.

Lemma AllProcesses_eq pids s :
  AllProcesses pids s = (seq (length (heap s)) (length pids), s <| heap ::= fun h => h ++ map (fun pid => NewProcess pid "") pids |>).
Proof.
  revert s. induction pids as [|pid pids IH]; intros s; cbn [AllProcesses].
  - cbn. f_equal. unfold over. cbn. rewrite app_nil_r. by destruct s.
  - unfold bind, new_object. cbn [fst snd]. rewrite IH. cbn. rewrite length_app. cbn. f_equal; [by rewrite Nat.add_1_r|].
    unfold over. cbn. by rewrite <- app_assoc.
Qed.

Lemma Start_holds fs pids w : f_process_meta (w_proc w) = ∅ -> Forall int32 pids -> P = list_to_set pids ->
  let r := Start fs pids (NewProcessManager w) in holds P r.2 /\ (r.1 = true -> synced r.2).
Proof.
  intros Hw Hi HP. cbv zeta. unfold Start, preloadProcs, bind. rewrite AllProcesses_eq. cbn [fst snd].
  apply preload_holds.
  - split; cbn; [done| |by rewrite contents_New]. intros pid _ _ _. change (f_process_meta (w_proc w) !! u32 pid = None). by rewrite Hw.
  - split; [cbn; apply contents_New|done].
  - split; [apply NoDup_seq|]. intros p Hp. split; [done|]. apply elem_of_seq in Hp. cbn in Hp.
    destruct (lookup_lt_is_Some_2 pids p) as [pid Hpid]; [lia|]. exists pid. cbn. rewrite list_lookup_fmap, Hpid. split; [done|].
    apply list_elem_of_lookup_2 in Hpid. subst P. rewrite elem_of_list_to_set. split; [done|]. by eapply Forall_forall in Hi.
Qed.
End system.

(** ** Properties *)

(** The manager after it has started on the processes [pids] and taken steps. *)
Definition after {H : Host} {L : Lru} (fs : procfs) (pids : list Z) (w : world) (ops : list op) : Manager :=
  run ops (Start fs pids (NewProcessManager w)).2.

Lemma after_holds {H : Host} {L : Lru} {LL : LruLaws L} fs pids w ops :
  f_process_meta (w_proc w) = ∅ -> Forall int32 pids -> Forall op_ok ops -> holds (list_to_set pids) (after fs pids w ops).
Proof. intros Hw Hi Ho. apply run_holds; [done|]. by apply (Start_holds _ fs pids w Hw Hi). Qed.

(** What the macros of the probes answer for a process with data. *)
Lemma skip_flags (E : Env) (w : world) (pid : Z) (v : Process) :
  f_process_meta (w_proc w) !! pid = Some (process_meta_of v) -> Exe v <> "" ->
  (SKIP_DATA pid w).1 = (pid =? qpid) || IsFiltered v ["data"] /\ (SKIP_DNS pid w).1 = IsFiltered v ["dns"]
  /\ (SKIP_TLS pid w).1 = IsFiltered v ["tls"] /\ (SKIP_HTTP pid w).1 = IsFiltered v ["http"].
Proof.
  intros Hm He. unfold SKIP_DATA, SKIP_DNS, SKIP_TLS, SKIP_HTTP, get_process_meta, bpf_map_lookup_elem, bind, gets. cbn [fst snd ret].
  change (bm_get process_meta_map w) with (f_process_meta (w_proc w)). rewrite Hm. unfold IsFiltered.
  rewrite (proj2 (String.eqb_neq _ _) He). cbn [existsb]. by rewrite !orb_false_r.
Qed.

(** C14: the probes know the processes the agent saw start.  Whatever processes were
    there, and whatever execs, exits and configurations followed, and TLS decisions on
    processes that are still registered, the data the probes find for a registered
    process with a notifier are those of its object, so that both sides agree on what is
    filtered; every process whose pid was not there at the start has a notifier; and of
    such a pid that is not registered, because the process is over or was never seen, the
    probes find nothing.  For each event, [/proc] shows all the files of a process or not
    even its executable ([steady]).  A decision on a process that is over is not covered:
    it breaks the tie ([stale_decision_forgets]). *)
Theorem probes_know_processes {H : Host} {L : Lru} {LL : LruLaws L} (E : Env) fs pids w ops :
  f_process_meta (w_proc w) = ∅ -> Forall int32 pids -> Forall op_ok ops ->
  let s := after fs pids w ops in
  (forall pid p v, procs s !! pid = Some p -> heap s !! p = Some v ->
     Pid v = pid /\ exited v = false /\ (pid ∉ pids -> notifier v = true)
     /\ (notifier v = true ->
         (get_process_meta (u32 pid) (kernel s)).1 = Some (process_meta_of v)
         /\ (Exe v <> "" ->
             (SKIP_DATA (u32 pid) (kernel s)).1 = (u32 pid =? qpid) || IsFiltered v ["data"]
             /\ (SKIP_DNS (u32 pid) (kernel s)).1 = IsFiltered v ["dns"] /\ (SKIP_TLS (u32 pid) (kernel s)).1 = IsFiltered v ["tls"]
             /\ (SKIP_HTTP (u32 pid) (kernel s)).1 = IsFiltered v ["http"])))
  /\ (forall pid, int32 pid -> pid ∉ pids -> procs s !! pid = None -> (get_process_meta (u32 pid) (kernel s)).1 = None).
Proof.
  intros Hw Hi Ho s. pose proof (after_holds fs pids w ops Hw Hi Ho) as I. fold s in I. split.
  - intros pid p v Hp Hv. destruct (holds_registered _ s pid p I Hp) as (v' & ? & Epid & (_ & He & _) & Hm & HP & _). simplify_eq.
    split; [done|]. split; [done|]. split.
    + intros Hn. destruct (notifier v); [done|]. destruct Hn. by apply (elem_of_list_to_set (C := gset Z)), HP.
    + intros Hn. split; [by apply Hm|]. intros Hx. by apply (skip_flags E); [apply Hm|].
  - intros pid Hpid HP Hnone. apply (inv_gone _ _ _ _ _ I); [done..|]. by rewrite elem_of_list_to_set.
Qed.

(** C30: processes that were there before the agent are told to the probes once.  Their
    objects have no notifier, so after a successful start, the data the probes find for
    such a process stay what they were at the start: whatever it executes, whatever the
    new filters say and whatever is decided about its TLS connections, and even after it
    has exited. *)
Theorem earlier_processes_frozen {H : Host} {L : Lru} {LL : LruLaws L} fs pids w ops pid p :
  f_process_meta (w_proc w) = ∅ -> Forall int32 pids -> Forall op_ok ops ->
  Forall (fun o => forall fs pad code, o <> Proc_event fs pad (PROC_EXIT pid code)) ops ->
  let s0 := after fs pids w [] in
  let s := after fs pids w ops in
  (Start fs pids (NewProcessManager w)).1 = true -> procs s0 !! pid = Some p ->
  procs s !! pid = Some p
  /\ (get_process_meta (u32 pid) (kernel s)).1 = Some (process_meta_of (object s0 p))
  /\ forall fs' pad code, int32 code ->
     let s' := (step (Proc_event fs' pad (PROC_EXIT pid code)) s).2 in
     procs s' !! pid = None /\ (get_process_meta (u32 pid) (kernel s')).1 = Some (process_meta_of (object s0 p)).
Proof.
  intros Hw Hi Ho Hne s0 s Hok Hp.
  destruct (Start_holds (list_to_set pids) fs pids w Hw Hi eq_refl) as [I0 Hs0]. change (holds (list_to_set pids) s0) in I0.
  destruct (Hs0 Hok) as [_ Hs]. destruct (holds_registered _ s0 pid p I0 Hp) as (v0 & Hv0 & Epid & (Hi0 & _) & _).
  destruct (Hs pid p v0 Hp Hv0) as [Hn0 Hm0]. rewrite (object_heap s0 p v0 Hv0).
  destruct (run_mute _ ops s0 pid p v0 Ho I0 Hp Hv0 Hn0 Hne) as (Hp1 & Hm1 & v1 & Hv1 & Hn1).
  change (procs s !! pid = Some p) in Hp1. change (heap s !! p = Some v1) in Hv1.
  change (meta s !! u32 pid = meta s0 !! u32 pid) in Hm1. change (meta s0 !! u32 pid = Some (process_meta_of v0)) in Hm0.
  split; [done|]. rewrite Hm0 in Hm1. split; [exact Hm1|]. intros fs' pad code Hcode. cbv zeta. cbn [step].
  rewrite readProcEvent_wire by (split; cbn; [congruence|done]). cbn [on_event].
  pose proof (after_holds fs pids w ops Hw Hi Ho) as I. rewrite (unregister_eq _ s pid code p v1 I Hp1 Hv1), Hn1.
  split; [apply lookup_delete_eq|exact Hm1].
Qed.

(** C31: a changed filter is never lifted from a running process.  A new configuration
    with a tap section gives every registered process the flags of its first filter that
    matches the process, a configured one or else one of a group, and the probes find
    them when the process has a notifier, that is, unless it was there before the agent;
    but a process that no filter of the new configuration matches keeps the flags it
    had. *)
Theorem filters_reapplied {H : Host} {L : Lru} {LL : LruLaws L} fs pids w ops tags custom groups :
  f_process_meta (w_proc w) = ∅ -> Forall int32 pids -> Forall op_ok ops ->
  let s := after fs pids w ops in
  let s' := (step (Set_config (Some (MkConfig tags (Some (custom, groups))))) s).2 in
  forall pid p v, procs s !! pid = Some p -> heap s !! p = Some v ->
  exists f, config_flags custom groups v f
  /\ let v' := if f =? 0 then v else v <| p_filter := f |> in
     procs s' !! pid = Some p /\ heap s' !! p = Some v'
     /\ (notifier v = true -> (get_process_meta (u32 pid) (kernel s')).1 = Some (process_meta_of v')).
Proof.
  intros Hw Hi Ho s s' pid p v Hp Hv. set (f := applyFilters (load_filters custom groups) v).
  exists f. split; [apply load_flags, applyFilters_first|]. intros v'. pose proof (after_holds fs pids w ops Hw Hi Ho) as I. fold s in I.
  destruct (SetConfig_holds _ s (Some (MkConfig tags (Some (custom, groups)))) I) as (I' & Ep & _ & _ & Eh).
  change (holds (list_to_set pids) s') in I'. change (procs s' = procs s) in Ep.
  assert (heap s' !! p = Some v') as Hv'.
  { unfold s'. cbn [step]. rewrite Eh, Hv. cbn. rewrite decide_True; [done|]. apply elem_registered. eauto. }
  split; [by rewrite Ep|]. split; [done|]. intros Hn. rewrite <- Ep in Hp.
  destruct (holds_registered _ s' pid p I' Hp) as (u & ? & _ & _ & Hm & _). simplify_eq. apply Hm. unfold v'. by destruct (f =? 0).
Qed.

(** C32: a TLS decision for a process that is over takes the data of its successor.  An
    object with a notifier that was kept beyond the exit of its process (by a connection
    that is still open) deletes the data under its pid when a decision differs from the
    one it has recorded, also when the pid belongs to another process by then; that
    process stays registered, and the probes no longer find it. *)
Theorem stale_decision_forgets {H : Host} {L : Lru} {LL : LruLaws L} fs pids w ops p v ok p' :
  f_process_meta (w_proc w) = ∅ -> Forall int32 pids -> Forall op_ok ops ->
  let s := after fs pids w ops in
  heap s !! p = Some v -> exited v = true -> notifier v = true -> tlsOk v = negb ok -> procs s !! Pid v = Some p' ->
  let s' := (SetTlsOk p ok s).2 in
  p' <> p /\ procs s' !! Pid v = Some p' /\ (get_process_meta (u32 (Pid v)) (kernel s')).1 = None.
Proof.
  intros Hw Hi Ho s Hv He Hn Ht Hp. pose proof (after_holds fs pids w ops Hw Hi Ho) as I. fold s in I. cbv zeta.
  destruct (holds_registered _ s _ p' I Hp) as (v' & Hv' & _ & (_ & He' & _) & _). split; [intros ->; congruence|].
  unfold SetTlsOk, bind. rewrite (deref_eq s p v Hv). cbn [fst snd]. rewrite Ht. replace (Bool.eqb (negb ok) ok) with false by (by destruct ok).
  rewrite (assign_eq s p v _ Hv). cbn [fst snd]. set (u := v <| tlsOk := ok |>).
  assert (heap (set_obj p u s) !! p = Some u) as Hu by (by eapply set_obj_heap).
  rewrite (notify_eq _ p u Hu), (SetMeta_eq _ p u Hu). change (notifier u) with (notifier v). change (exited u) with (exited v).
  rewrite Hn, He. split; [exact Hp|]. apply meta_set_eq.
Qed.

(** ** Examples *)

(** Evaluates an equation.  A hypothesis that is convertible to it is not looked for:
    comparing two unevaluated runs is much slower than evaluating them. *)
Ltac evaluate := vm_compute; reflexivity.

(** A cache that forgets everything when it is full. *)
Definition demo_lru : Lru :=
  {| lru := gmap Z nat; lru_New := ∅;
     lru_Add k v c := if decide (size c < 1024)%nat then <[k := v]> c else {[k := v]};
     lru_Get k c := (c !! k, c); lru_Remove := delete |}.

#[export] Instance demo_lru_laws : LruLaws demo_lru.
Proof.
  refine {| contents := (id : @lru demo_lru -> gmap Z nat) |}; try done; intros; cbn.
  - case_decide; [apply lookup_insert_eq|apply lookup_singleton_eq].
  - case_decide; [done|]. apply map_subseteq_spec. intros k' v' [<- <-]%lookup_singleton_Some. apply lookup_insert_eq.
  - by rewrite decide_True.
Defined.

(** Every process runs the same program. *)
Definition demo_procfs (exe : string) : procfs :=
  MkProcfs (fun _ => Some exe) (fun _ => Some ["/"]) (fun _ => Some (7, 1)) (fun _ => Some ["HOME=/"; "QPOINT_STRATEGY=forward"]).

Lemma demo_steady exe : steady (demo_procfs exe).
Proof. intros pid. right. cbn. eauto. Qed.

Definition demo_exec (exe : string) (pid : Z) : list op :=
  [Proc_event (demo_procfs exe) [] (PROC_EXEC_START (ExecStart pid 2 ([97; 0] ++ zeros 1022)));
   Proc_event (demo_procfs exe) [] (PROC_EXEC_END pid)].

Lemma demo_exec_ok exe pid : int32 pid -> Forall op_ok (demo_exec exe pid).
Proof.
  intros Hp. unfold demo_exec. rewrite !Forall_cons, Forall_nil. unfold op_ok, proc_event_fits, fits. cbn [event_pid xs_pid xs_exe_size xs_exe].
  pose proof (demo_steady exe). by split_and!.
Qed.

(** The manager starts with a shell as process 1. *)
Notation "'demo_after' ops" := (@after demo_host demo_lru (demo_procfs "/bin/sh") [1] world_init ops) (at level 10, ops at level 9).

Lemma demo_int32 x : (- 2 ^ 31 <=? x) && (x <? 2 ^ 31) = true -> int32 x.
Proof. unfold int32. lia. Qed.

Lemma demo_pids : Forall int32 [1].
Proof. by apply Forall_singleton, demo_int32. Qed.

Lemma probes_know_processes_witness :
  let s := demo_after (demo_exec "/usr/bin/curl" 7) in
  (get_process_meta (u32 7) (kernel s)).1 = Some (ProcessMeta 4294967303 3 0 false) /\ (SKIP_TLS (u32 7) (kernel s)).1 = false
  /\ (get_process_meta (u32 8) (kernel s)).1 = None.
Proof.
  destruct (@probes_know_processes demo_host demo_lru demo_lru_laws (flat_env 0 0 []) (demo_procfs "/bin/sh") [1] world_init
    (demo_exec "/usr/bin/curl" 7) eq_refl demo_pids (demo_exec_ok _ 7 (demo_int32 7 eq_refl))) as [A B].
  destruct (A 7 1%nat (object (demo_after (demo_exec "/usr/bin/curl" 7)) 1)) as (_ & _ & _ & A');
    [evaluate|apply heap_object; evaluate|].
  destruct A' as [A1 A2]; [evaluate|]. destruct A2 as (_ & _ & A2 & _); [vm_compute; discriminate|].
  split; [etrans; [exact A1|evaluate]|]. split; [etrans; [exact A2|evaluate]|].
  apply (B 8); [by apply demo_int32| |evaluate]. rewrite list_elem_of_singleton. lia.
Defined.

(** The shell becomes another program, and then exits. *)
Lemma earlier_processes_frozen_witness :
  let s := demo_after (demo_exec "/usr/bin/curl" 1) in
  procs s !! 1 = Some 0%nat /\ Exe (object s 0) = "/usr/bin/curl"
  /\ (get_process_meta (u32 1) (kernel s)).1 = Some (ProcessMeta 4294967303 3 0 false)
  /\ let s' := (step (Proc_event (demo_procfs "") [] (PROC_EXIT 1 0)) s).2 in
     procs s' !! 1 = None /\ (get_process_meta (u32 1) (kernel s')).1 = Some (ProcessMeta 4294967303 3 0 false).
Proof.
  destruct (@earlier_processes_frozen demo_host demo_lru demo_lru_laws (demo_procfs "/bin/sh") [1] world_init
    (demo_exec "/usr/bin/curl" 1) 1 0%nat eq_refl demo_pids (demo_exec_ok _ 1 (demo_int32 1 eq_refl))) as (A & B & C).
  - unfold demo_exec. rewrite !Forall_cons, Forall_nil. done.
  - evaluate.
  - evaluate.
  - split; [exact A|]. split; [evaluate|]. split; [etrans; [exact B|evaluate]|].
    destruct (C (demo_procfs "") [] 0 (demo_int32 0 eq_refl)) as [D1 D2]. split; [exact D1|]. etrans; [exact D2|evaluate].
Defined.

(** A filter for curl is set and taken away again. *)
Definition demo_filtered : list op :=
  demo_exec "/usr/bin/curl" 7 ++ [Set_config (Some (MkConfig [] (Some ([MkTapFilter "curl" "suffix" ["tls"]], []))))].

Lemma demo_filtered_ok : Forall op_ok demo_filtered.
Proof. apply Forall_app. split; [by apply demo_exec_ok, demo_int32|by apply Forall_singleton]. Qed.

Lemma filters_reapplied_witness :
  let s := demo_after demo_filtered in
  let s' := (step (Set_config (Some (MkConfig [] (Some ([], ["eks"]))))) s).2 in
  p_filter (object s 1) = 4 /\ heap s' !! 1%nat = Some (object s 1)
  /\ (get_process_meta (u32 7) (kernel s')).1 = Some (ProcessMeta 4294967303 3 4 false).
Proof.
  destruct (@filters_reapplied demo_host demo_lru demo_lru_laws (demo_procfs "/bin/sh") [1] world_init demo_filtered [] [] ["eks"]
    eq_refl demo_pids demo_filtered_ok 7 1%nat (object (demo_after demo_filtered) 1)) as (f & Hf & _ & A & B);
    [evaluate|apply heap_object; evaluate|].
  assert (f = 0) as -> by (apply load_flags, flags_for_applied in Hf; etrans; [exact Hf|evaluate]). split; [evaluate|]. split; [exact A|]. etrans; [apply B; evaluate|evaluate].
Defined.

(** Process 7 has its TLS connections intercepted, exits, and its pid is used again. *)
Definition demo_reused : list op :=
  demo_exec "/usr/bin/curl" 7 ++ [Set_tls 7 true; Proc_event (demo_procfs "") [] (PROC_EXIT 7 0)] ++ demo_exec "/usr/bin/wget" 7.

Lemma demo_reused_ok : Forall op_ok demo_reused.
Proof.
  apply Forall_app. split; [by apply demo_exec_ok, demo_int32|]. apply Forall_app. split; [|by apply demo_exec_ok, demo_int32].
  rewrite !Forall_cons, Forall_nil. split; [done|]. split; [|done]. split; [apply demo_steady|]. by split; apply demo_int32.
Qed.

Lemma stale_decision_forgets_witness :
  let s := demo_after demo_reused in
  (get_process_meta (u32 7) (kernel s)).1 = Some (ProcessMeta 4294967303 3 0 false)
  /\ let s' := (SetTlsOk 1 false s).2 in procs s' !! 7 = Some 2%nat /\ (get_process_meta (u32 7) (kernel s')).1 = None.
Proof.
  destruct (@stale_decision_forgets demo_host demo_lru demo_lru_laws (demo_procfs "/bin/sh") [1] world_init demo_reused 1%nat
    (object (demo_after demo_reused) 1) false 2%nat eq_refl demo_pids demo_reused_ok) as (_ & A & B);
    [apply heap_object; evaluate|evaluate..|].
  split; [evaluate|]. split; [exact A|exact B].
Defined.
