(* ===== verification/ProcExec.v ===== *)
(** * From an exec to the registry

    The events of one exec among those of others: what the probes report of an exec
    (Process) is put together by the agent and becomes the registered process. *)

From stdpp Require Import base numbers list gmap strings pretty.
From S2P Require Import Prelude Tap Bpf Common Process Reader Wire ProcFilter ProcFilterSpec ProcManager ProcSpec ProcInv ProcStep ProcSystem.

Section exec.
Context {H : Host} {L : Lru} {LL : LruLaws L} (P : gset Z).

(** The path and the arguments collected so far for an exec of a pid. *)
Definition collected (s : Manager) (pid : Z) : option (string * list string) :=
  p ← contents (cache s) !! pid; v ← heap s !! p; Some (ExeFilename v, Args v).

(** What one event makes of it. *)
Definition collect (ev : proc_event) (x : option (string * list string)) : option (string * list string) :=
  match ev with
  | PROC_EXEC_START e => Some (if xs_exe_size e >? 0 then carried (xs_exe_size e) (xs_exe e) else "", [])
  | PROC_EXEC_ARGV _ size argv => (fun '(exe, args) => (exe, args ++ [carried size argv])) <$> x
  | PROC_EXEC_END _ => None
  | PROC_EXIT _ _ => x
  end.

Definition op_event (pid : Z) (o : op) : option proc_event :=
  match o with Proc_event _ _ ev => if decide (event_pid ev = pid) then Some ev else None | _ => None end.

Lemma on_event_contents fs ev s : holds P s -> steady fs -> (size (contents (cache s)) < 1024)%nat ->
  contents (cache (on_event fs ev s).2) =
    match ev with
    | PROC_EXEC_START e => <[xs_pid e := length (heap s)]> (contents (cache s))
    | PROC_EXEC_END pid => delete pid (contents (cache s))
    | _ => contents (cache s)
    end.
Proof.
  intros I Hfs Hsz. destruct ev as [e|pid size argv|pid|pid code]; cbn [on_event].
  - cbn. by rewrite contents_Add_room.
  - destruct (contents (cache s) !! pid) as [p|] eqn:Hc.
    2:{ rewrite exec_argv_none by done. apply contents_Get_same. }
    destruct (inv_cached _ _ _ _ _ I _ _ Hc) as (_ & v & Hv & _). rewrite (exec_argv_some s pid _ p v Hc Hv). cbn.
    rewrite contents_Add_room; rewrite contents_Get_same; [by apply insert_id|done].
  - by destruct (exec_end_holds P fs s pid I Hfs) as (_ & _ & ? & _).
  - by destruct (unregister_holds P s pid code I) as (_ & _ & ->).
Qed.

Lemma collected_event fs ev s : holds P s -> steady fs -> (size (contents (cache s)) < 1024)%nat -> int32 (event_pid ev) ->
  collected (on_event fs ev s).2 (event_pid ev) = collect ev (collected s (event_pid ev)).
Proof.
  intros I Hfs Hsz Hi. unfold collected at 1. rewrite (on_event_contents fs ev s I Hfs Hsz).
  destruct ev as [e|pid size argv|pid|pid code]; cbn [event_pid collect].
  - rewrite lookup_insert_eq. cbn. by rewrite list_lookup_middle.
  - unfold collected. destruct (contents (cache s) !! pid) as [p|] eqn:Hc; [|done].
    destruct (inv_cached _ _ _ _ _ I _ _ Hc) as (_ & v & Hv & _). cbn [on_event]. rewrite (exec_argv_some s pid _ p v Hc Hv). cbn.
    rewrite list_lookup_insert_eq by (by eapply lookup_lt_Some). by rewrite Hv.
  - by rewrite lookup_delete_eq.
  - unfold collected. destruct (contents (cache s) !! pid) as [p|] eqn:Hc; [|done].
    destruct (inv_cached _ _ _ _ _ I _ _ Hc) as (Hne & v & Hv & _). cbn [on_event mbind option_bind].
    destruct (procs s !! pid) as [q|] eqn:Hq.
    + destruct (holds_registered P s _ _ I Hq) as (u & Hu & _). rewrite (unregister_eq P s pid code q u I Hq Hu).
      assert (heap ((if notifier u then set_meta (u32 pid) None (set_obj q (u <| ExitCode := code |> <| exited := true |>) s)
        else set_obj q (u <| ExitCode := code |> <| exited := true |>) s)
        <| notices ::= fun l => l ++ [Stopped q] |> <| procs ::= delete pid |>) !! p = heap s !! p) as E; [|by rewrite E].
      destruct (notifier u); cbn; by rewrite list_lookup_insert_ne by congruence.
    + unfold UnregisterProcess, bind, Get, gets. cbn [fst snd]. by rewrite Hq.
Qed.

(** Steps that are not for the pid leave its exec alone. *)
Lemma collected_other o s pid : op_ok o -> holds P s -> (size (contents (cache s)) < 1024)%nat -> op_event pid o = None ->
  collected (step o s).2 pid = collected s pid.
Proof.
  intros Ho I Hsz Hev.
  assert (forall s' q, q <> pid -> only q s s' -> contents (cache s') !! pid = contents (cache s) !! pid ->
    collected s' pid = collected s pid) as Honly.
  { intros s' q Hq (_ & _ & O3 & _) Ec. unfold collected. rewrite Ec. destruct (contents (cache s) !! pid) as [p|] eqn:Hc; [|done].
    destruct (inv_cached _ _ _ _ _ I _ _ Hc) as (_ & v & Hv & Epid & _). cbn. by rewrite (O3 p v Hv), Hv by congruence. }
  assert (forall s', cache s' = cache s -> (forall p v, procs s !! pid <> Some p -> heap s !! p = Some v -> Pid v = pid -> heap s' !! p = Some v) ->
    collected s' pid = collected s pid) as Hfree.
  { intros s' Ec Hh. unfold collected. rewrite Ec. destruct (contents (cache s) !! pid) as [p|] eqn:Hc; [|done].
    destruct (inv_cached _ _ _ _ _ I _ _ Hc) as (Hne & v & Hv & Epid & _). cbn. by rewrite (Hh p v), Hv. }
  destruct o as [fs pad ev|cfg|q ok|q waiter]; cbn [op_ok step op_event] in *.
  - destruct Ho as [Hfs Hf]. rewrite readProcEvent_wire by done. destruct (decide (event_pid ev = pid)) as [|Hne]; [done|].
    apply (Honly _ (event_pid ev) Hne); [by apply (on_event_holds P fs ev s I Hfs), Hf|].
    rewrite (on_event_contents fs ev s I Hfs Hsz). destruct ev; cbn [event_pid] in Hne; [by rewrite lookup_insert_ne|done|by
      rewrite lookup_delete_ne|done].
  - destruct (SetConfig_holds P s cfg I) as (_ & _ & Ec & _ & Eh). apply Hfree; [done|]. intros p v Hp Hv Epid. rewrite Eh, Hv. cbn. f_equal.
    unfold reconfigured. destruct cfg as [[? [[]|]]|]; try done. rewrite decide_False; [done|]. intros [pid' Hp']%elem_registered.
    destruct (holds_registered P s _ _ I Hp') as (u & ? & ? & _). congruence.
  - unfold bind, Get, gets. cbn [fst snd]. destruct (procs s !! q) as [p|] eqn:Hq; [|done]. cbn [fst snd ret].
    destruct (set_tls_holds P s q p ok I Hq) as (_ & _ & Ec & _ & Eh). apply Hfree; [done|]. intros p' v Hp' Hv Epid.
    destruct (holds_registered P s _ _ I Hq) as (u & Hu & Eu & _). destruct (Eh u Hu) as [-> _].
    rewrite list_lookup_insert_ne; [done|]. intros ->. congruence.
  - unfold bind, Await, bind, Get, gets. cbn [fst snd]. by destruct (procs s !! q).
Qed.

Definition events_of (pid : Z) (ops : list op) : list proc_event := omap (op_event pid) ops.

Lemma step_size o s : op_ok o -> holds P s -> (size (contents (cache s)) < 1024)%nat ->
  (size (contents (cache (step o s).2)) <= S (size (contents (cache s))))%nat.
Proof.
  intros Ho I Hsz. destruct o as [fs pad ev|cfg|q ok|q waiter]; cbn [op_ok step] in *.
  - destruct Ho as [Hfs Hf]. rewrite readProcEvent_wire by done. rewrite (on_event_contents fs ev s I Hfs Hsz).
    destruct ev; [|lia| |lia]; rewrite ?map_size_insert, ?map_size_delete; destruct (_ !! _); cbn; lia.
  - destruct (SetConfig_holds P s cfg I) as (_ & _ & -> & _). lia.
  - unfold bind, Get, gets. cbn [fst snd]. destruct (procs s !! q) as [p|] eqn:Hq; [|cbn; lia]. cbn [fst snd ret].
    destruct (set_tls_holds P s q p ok I Hq) as (_ & _ & -> & _). lia.
  - unfold bind, Await, bind, Get, gets. cbn [fst snd]. destruct (procs s !! q); cbn; lia.
Qed.

Lemma collected_run ops s pid : Forall op_ok ops -> holds P s -> (size (contents (cache s)) + length ops <= 1024)%nat ->
  collected (run ops s) pid = foldl (fun x ev => collect ev x) (collected s pid) (events_of pid ops).
Proof.
  intros Ho. revert s. induction Ho as [|o ops Ho _ IH]; intros s I Hsz; [done|]. cbn [length] in Hsz.
  change (run (o :: ops) s) with (run ops (step o s).2). pose proof (step_size o s Ho I ltac:(lia)).
  rewrite IH by (try apply step_holds; (done || lia)). unfold events_of. cbn [omap list_omap].
  destruct (op_event pid o) as [ev|] eqn:He; [|by rewrite collected_other by (done || lia)]. cbn [foldl]. f_equal.
  destruct o as [fs pad ev'| | |]; cbn in He; try done. destruct (decide (event_pid ev' = pid)) as [<-|]; simplify_eq.
  destruct Ho as [Hfs Hf]. cbn [step]. rewrite readProcEvent_wire by done. apply collected_event; [done..|lia|apply Hf].
Qed.
End exec.

(** ** What the probes report of an exec *)

(** A string without its terminator. *)
Definition c_string (s : list Z) : string := string_of_bytes (take (length s - 1) s).

Lemma carried_prefix size bytes s : take (Z.to_nat size) bytes = s -> size = Z.of_nat (length s) -> (0 < length s)%nat ->
  Z.of_nat (length s) <= 1024 -> length bytes = 1024%nat -> carried size bytes = c_string s.
Proof.
  intros Et -> H0 H1 Hl. unfold carried, c_string. rewrite u32_small by lia.
  replace (Z.to_nat (Z.of_nat (length s) - 1)) with (length s - 1)%nat by lia.
  rewrite take_app_le by lia. f_equal. rewrite <- Et at 3. rewrite take_take. f_equal. lia.
Qed.

Lemma collect_args pid (l : list (Z * list Z)) evs exe acc :
  map reported evs = map (fun a => PROC_EXEC_ARGV pid (Z.of_nat (length a.2)) a.2) l -> Forall proc_event_fits evs ->
  Forall (fun a => (0 < length a.2)%nat /\ Z.of_nat (length a.2) <= 1024) l ->
  foldl (fun x ev => collect ev x) (Some (exe, acc)) evs = Some (exe, acc ++ map (fun a => c_string a.2) l).
Proof.
  revert evs acc. induction l as [|a l IH]; intros evs acc Hm Hf Hl; destruct evs as [|ev evs]; try done.
  - cbn. by rewrite app_nil_r.
  - apply Forall_cons in Hl as [[Ha0 Ha1] Hl]. apply Forall_cons in Hf as [Hfe Hf]. cbn [map] in Hm. injection Hm as He Hm.
    destruct ev as [|q size argv| |]; try done. cbn in He. injection He as -> Hs Ht. destruct Hfe as [_ [_ Hlen]].
    cbn [foldl collect fmap option_fmap option_map].
    rewrite (carried_prefix size argv a.2), IH by done. cbn. by rewrite <- app_assoc.
Qed.

Lemma events_fit pid ops : Forall op_ok ops -> Forall proc_event_fits (events_of pid ops).
Proof.
  induction 1 as [|o ops Ho _ IH]; [done|]. unfold events_of. cbn [omap list_omap]. destruct (op_event pid o) as [ev|] eqn:He; [|done].
  apply Forall_cons. split; [|done]. destruct o as [fs pad ev'| | |]; cbn in He; try done. case_decide; simplify_eq. apply Ho.
Qed.

Lemma exec_events (E : Env) args0 args1 path args wk :
  let pid := s32 (Z.shiftr bpf_get_current_pid_tgid 32) in
  (forall k, ringbuf_room k = true) -> str_at args0 path -> argv_holds args1 1 args ->
  exists evs,
    proc_events (w_proc (syscall__probe_ret_execve (syscall__probe_entry_execve args0 args1 wk).2).2)
    = proc_events (w_proc wk) ++ evs ++ [PROC_EXEC_END pid]
    /\ map reported evs = PROC_EXEC_START (ExecStart pid (Z.of_nat (length path)) path)
         :: map (fun a => PROC_EXEC_ARGV pid (Z.of_nat (length a.2)) a.2) (take 19 args).
Proof.
  intros pid Hroom Hs Ha. destruct (exec_entry_reports E args0 args1 path args wk Hroom Hs Ha) as (evs & He & Hm). exists evs. split; [|exact Hm].
  rewrite app_assoc, <- He. set (w1 := (syscall__probe_entry_execve args0 args1 wk).2).
  unfold syscall__probe_ret_execve, process_exec_ret, bpf_ringbuf_reserve, tick, bind. cbn [fst snd ret]. by rewrite Hroom.
Qed.

(** What the agent has put together when the exec ends. *)
Lemma exec_collected {H : Host} {L : Lru} {LL : LruLaws L} P pid path (l : list (Z * list Z)) ops s :
  map reported (events_of pid ops) = PROC_EXEC_START (ExecStart pid (Z.of_nat (length path)) path)
    :: map (fun a => PROC_EXEC_ARGV pid (Z.of_nat (length a.2)) a.2) l ->
  (0 < length path)%nat -> Z.of_nat (length path) <= 1024 -> Forall (fun a => (0 < length a.2)%nat /\ Z.of_nat (length a.2) <= 1024) l ->
  Forall op_ok ops -> holds P s -> (size (contents (cache s)) + length ops <= 1024)%nat ->
  collected (run ops s) pid = Some (c_string path, map (fun a => c_string a.2) l).
Proof.
  intros Hm H0 H1 Hl Ho I Hsz. rewrite (collected_run P) by done. pose proof (events_fit pid ops Ho) as Hf.
  destruct (events_of pid ops) as [|ev evs]; [done|]. cbn [map] in Hm. injection Hm as He Hm. apply Forall_cons in Hf as [Hfe Hf].
  destruct ev as [[q size exe]| | |]; try done. cbn in He. injection He as -> Hs Ht. destruct Hfe as [_ [_ Hlen]]. cbn in Hlen.
  cbn [foldl collect xs_exe_size xs_exe]. rewrite (proj2 (Z.gtb_lt size 0)) by lia.
  rewrite (carried_prefix size exe path) by done. by apply (collect_args pid l evs (c_string path) []).
Qed.

Lemma argv_lengths {E : Env} argv i args n : argv_holds argv i args ->
  Forall (fun a : Z * list Z => (0 < length a.2)%nat /\ Z.of_nat (length a.2) <= 1024) (take n args).
Proof.
  intros [Ha _]. apply Forall_take, Forall_lookup. intros j [q str] Hj. by destruct (Ha j q str Hj) as (_ & _ & ? & ? & _).
Qed.

(** The environment the agent has read for a pid. *)
Definition env_before {H : Host} {L : Lru} (s : Manager) (pid : Z) : gmap string string :=
  match procs s !! pid with Some q => Environment (object s q) | None => ∅ end.

(** The strategy an exec asks for: that of the process's environment, unless the pid had
    one before, which then stays. *)
Definition strategy_asked {H : Host} {L : Lru} (fs : procfs) (s : Manager) (pid : Z) (v : Process) : Prop :=
  let chosen value := default QP_OBSERVE (QpointStrategyFromString value v) in
  if decide (env_before s pid = ∅) then
    exists env, Environ fs pid = Some env
      /\ forall value, is_Some (envMask s !! "QPOINT_STRATEGY") -> env_says env "QPOINT_STRATEGY" value -> Strategy v = chosen value
  else Strategy v = chosen (default "" (env_before s pid !! "QPOINT_STRATEGY")).

Lemma env_read_asked {H : Host} {L : Lru} fs s v v' : Environment v = env_before s (Pid v) -> env_read fs (envMask s) v v' ->
  Strategy v' = strategy_of v' -> strategy_asked fs s (Pid v) v'.
Proof.
  intros He Hr Hs. unfold strategy_asked. rewrite Hs. unfold strategy_of. unfold env_read in Hr. rewrite He in Hr.
  case_decide; [|by rewrite Hr]. destruct Hr as (env & Henv & ->). exists env. split; [done|]. intros value Hm Hv.
  by rewrite (masked_env_says _ _ _ value).
Qed.

Lemma exec_target_args {H : Host} {L : Lru} {LL : LruLaws L} P s p v :
  holds P s -> contents (cache s) !! Pid v = Some p -> heap s !! p = Some v ->
  let t := exec_target s p v in
  root_ok t.2 /\ Pid t.2 = Pid v /\ Args t.2 = Args v /\ (procs s !! Pid v = None -> ExeFilename t.2 = ExeFilename v)
  /\ Environment t.2 = env_before s (Pid v).
Proof.
  intros I Hc Hv. destruct (inv_cached _ _ _ _ _ I _ _ Hc) as (_ & v0 & ? & _ & (_ & _ & Hr) & _ & _ & He). simplify_eq.
  unfold exec_target, env_before.
  destruct (procs s !! Pid v) as [p'|] eqn:Hp; [|done]. destruct (holds_registered P s _ _ I Hp) as (u & Hu & Epid & (_ & _ & Hr') & _).
  by rewrite (object_heap s p' u Hu).
Qed.

(** ** Properties *)

(** C15: an exec reaches the registry.  The events the probes submit for an exec, read by
    the agent among any other events, configurations and decisions, register the process
    when [/proc] answers: with the first nineteen arguments after the name of the
    program, in their order, the executable [/proc] shows and the flags of the first
    filter that selects it.  Its strategy is what the last [QPOINT_STRATEGY] of its
    environment says, as long as the variable is one of those the agent keeps; but when
    the agent has read an environment for the pid before, the strategy of that one
    stays.  Observers are told that the process started or, when its pid was registered,
    that it was replaced.  The probes find the data of a process whose pid was not there
    before the agent.  The bound is that of the cache of running execs. *)
Theorem exec_observed {H : Host} {L : Lru} {LL : LruLaws L} (E : Env) args0 args1 path args wk fs0 pids w ops0 ops fs pad :
  let pid := s32 (Z.shiftr bpf_get_current_pid_tgid 32) in
  let wk' := (syscall__probe_ret_execve (syscall__probe_entry_execve args0 args1 wk).2).2 in
  let last_op := Proc_event fs pad (PROC_EXEC_END pid) in
  (forall k, ringbuf_room k = true) -> str_at args0 path -> argv_holds args1 1 args ->
  f_process_meta (w_proc w) = ∅ -> Forall int32 pids -> Forall op_ok (ops0 ++ ops) -> steady fs ->
  proc_events (w_proc wk') = proc_events (w_proc wk) ++ events_of pid (ops ++ [last_op]) ->
  let s0 := after fs0 pids w ops0 in
  let s := after fs0 pids w (ops0 ++ ops) in
  (size (contents (cache s0)) + length ops <= 1024)%nat -> is_Some (Executable fs pid) -> has_room 5000 (u32 pid) (meta s) ->
  let s' := (step last_op s).2 in
  exists p v, procs s' !! pid = Some p /\ heap s' !! p = Some v
    /\ Args v = map (fun a => c_string a.2) (take 19 args) /\ Executable fs pid = Some (Exe v)
    /\ flags_for (filters s) v (p_filter v) /\ strategy_asked fs s pid v
    /\ last (notices s') = Some (match procs s !! pid with Some _ => Replaced p | None => Started p end)
    /\ (procs s !! pid = None -> ExeFilename v = c_string path)
    /\ (pid ∉ pids -> (get_process_meta (u32 pid) (kernel s')).1 = Some (process_meta_of v)).
Proof.
  intros pid wk' last_op Hroom Hs Ha Hw Hi Ho Hfs Hev s0 s Hsz Hexe Hr s'.
  destruct (exec_events E args0 args1 path args wk Hroom Hs Ha) as (evs & He & Hm). fold pid wk' in He, Hm.
  apply Forall_app in Ho as [Ho0 Ho]. pose proof (after_holds fs0 pids w ops0 Hw Hi Ho0) as I0. fold s0 in I0.
  assert (s = run ops s0) as Es by (unfold s, s0, after, run; by rewrite foldl_app).
  assert (events_of pid ops = evs) as Eevs.
  { rewrite He in Hev. apply app_inv_head in Hev. unfold events_of in Hev. rewrite omap_app in Hev. cbn in Hev.
    rewrite decide_True in Hev by done. by apply app_inj_tail in Hev as [? _]. }
  rewrite <- Eevs in Hm. pose proof Hs as (Hp0 & Hp1 & _).
  pose proof (exec_collected (list_to_set pids) pid path (take 19 args) ops s0 Hm Hp0 Hp1 (argv_lengths _ _ _ 19 Ha) Ho I0 Hsz) as Hcol.
  pose proof (run_holds _ ops s0 Ho I0) as I. rewrite <- Es in Hcol, I. unfold collected in Hcol.
  destruct (contents (cache s) !! pid) as [p|] eqn:Hc; [|done]. destruct (inv_cached _ _ _ _ _ I _ _ Hc) as (_ & v & Hv & Epid & (Hi32 & _) & _).
  cbn in Hcol. rewrite Hv in Hcol. cbn in Hcol. injection Hcol as Hpath Hargs.
  assert (s' = (exec_end fs pid s).2) as -> by (unfold s', last_op; cbn [step]; rewrite readProcEvent_wire; [done|by split; [rewrite <- Epid|]]).
  destruct (exec_end_holds _ fs s pid I Hfs) as (I' & _ & _ & Hout). specialize (Hout p v Hc Hv). unfold exec_outcome in Hout. rewrite Epid in Hout.
  destruct (Hout Hexe Hr) as (Hd & Hp' & Hv' & Hl). set (t := exec_target s p v) in *. exists t.1, (exec_result fs s t).
  destruct (discovered_done _ _ _ _ Hd) as (D1 & _ & D3 & D4 & D5).
  rewrite <- Epid in Hc. destruct (exec_target_args _ s p v I Hc Hv) as (Hroot & T1 & T2 & T3 & T4). fold t in Hroot, T1, T2, T3, T4.
  rewrite <- T1 in T4. pose proof (env_read_asked fs s t.2 (exec_result fs s t) T4 D5 D4) as D6. rewrite T1, Epid in D6.
  rewrite T1, Epid in D1. rewrite Epid in T3.
  destruct (discovered_same fs (filters s) (envMask s) t.2 Hroot) as [(_ & _ & _ & _ & S5 & S6) _]. fold (exec_result fs s t) in S5, S6, D1, D3, D4.
  split; [done|]. split; [done|]. split; [by rewrite S5, T2, Hargs|]. split; [done|].
  split; [rewrite D3; apply applyFilters_first|]. split; [done|]. split; [done|].
  split; [intros Hnone; by rewrite S6, T3, Hpath|]. intros Hnew.
  destruct (holds_registered _ _ _ _ I' Hp') as (u & ? & _ & _ & Hmeta & HP & _).
  assert (u = exec_result fs s t) as -> by congruence. apply Hmeta. destruct (notifier (exec_result fs s t)); [done|]. destruct Hnew.
  by apply (elem_of_list_to_set (C := gset Z)), HP.
Qed.

(** [curl x] by process 7, between two events of process 8. *)
Definition demo_start : proc_event := PROC_EXEC_START (ExecStart 7 3 ([47; 97; 0] ++ zeros 1021)).
Definition demo_arg : proc_event := PROC_EXEC_ARGV 7 2 ([120; 0] ++ zeros 1022).
Definition demo_ops : list op :=
  [Proc_event (demo_procfs "") [] demo_start; Proc_event (demo_procfs "") [] (PROC_EXIT 8 0); Proc_event (demo_procfs "") [] demo_arg].

Lemma demo_seen_ok : Forall op_ok (demo_filtered ++ demo_ops).
Proof.
  apply Forall_app. split; [exact demo_filtered_ok|]. unfold demo_ops. rewrite !Forall_cons, Forall_nil.
  assert (forall ev, proc_event_fits ev -> op_ok (Proc_event (demo_procfs "") [] ev)) as Hop by (intros ev Hev; split; [apply
    demo_steady|exact Hev]).
  split_and!; try done; apply Hop; (split; [by apply demo_int32|]); [|by apply demo_int32|]; by split.
Qed.

Lemma exec_observed_witness :
  let s := (step (Proc_event (demo_procfs "/usr/bin/curl") [] (PROC_EXEC_END 7)) (demo_after (demo_filtered ++ demo_ops))).2 in
  exists p v, procs s !! 7 = Some p /\ heap s !! p = Some v /\ Args v = ["x"] /\ Some "/usr/bin/curl" = Some (Exe v) /\ p_filter v = 4
    /\ last (notices s) = Some (Replaced p) /\ (get_process_meta (u32 7) (kernel s)).1 = Some (ProcessMeta 4294967303 3 4 false).
Proof.
  destruct (@exec_observed demo_host demo_lru demo_lru_laws exec_demo 4096 4104 [47; 97; 0] [(4128, [120; 0])] world_init
    (demo_procfs "/bin/sh") [1] world_init demo_filtered demo_ops (demo_procfs "/usr/bin/curl") [])
    as (p & v & A1 & A2 & A3 & A4 & A5 & A6 & A7 & _ & A9).
  - done.
  - by split_and!; [cbn; lia| |].
  - split; [|done]. intros [|[|j]] p s [= <- <-]. by split_and!; [| | |split_and!; [cbn; lia| |]].
  - done.
  - exact demo_pids.
  - exact demo_seen_ok.
  - apply demo_steady.
  - evaluate.
  - vm_compute. lia.
  - done.
  - left. vm_compute. by eexists.
  - exists p, v. split; [exact A1|]. split; [exact A2|]. split; [exact A3|]. split; [exact A4|].
    assert (p = 1%nat) as -> by (clear - A1; vm_compute in A1; congruence). apply object_heap in A2. subst v.
    split; [evaluate|]. split; [etrans; [exact A7|evaluate]|].
    etrans; [apply A9; rewrite list_elem_of_singleton; vm_compute; discriminate|evaluate].
Defined.
